(* ===== verification/_CoqProject ===== *)
-Q . S2P
Prelude.v
GoStrings.v
GoNet.v
GoText.v
GoFloat.v
Words.v
Policy.v
Repository.v
Firewall.v
FirewallEngines.v
FirewallNft.v
FirewallClaims.v
Config.v
ConfigValidate.v
ConfigLoad.v
ConfigExamples.v
BanPoolNew.v
BanPool.v
BanPoolOps.v
BanPoolSystem.v
BanPoolLiveness.v
BanPoolExamples.v
NetworkMonitor.v
Protocol.v
Monitor.v
Source.v
Snapshot.v
CommandController.v
CommandPolicy.v
CommandGate.v
CommandRun.v
CommandHandles.v
CommandExamples.v
Goroutines.v
DockerPipe.v
HubEvents.v
HubState.v
HubMonitors.v
HubEbpf.v
HubCommand.v
HubCommandPolicy.v
Cryptography.v
Connector.v
ConnectorClaims.v
ConnectorExamples.v
HubExporter.v
Hub.v
HubPool.v
Daemon.v
HubExamples.v
DaemonExamples.v
Updater.v
Installer.v
App.v
AppExamples.v
