(* ===== verification/Prelude.v ===== *)
(** * Open Defender: the verification library

    Open Defender is an intrusion prevention daemon in Go (src/pkg, src/cmd).  This
    library models the code and proves what makes it correct.  It needs stdpp and the
    Standard Library and assumes no axiom.

    ** The program

    Monitors find offenders: the log monitors match lines of syslog, journal or docker
    against a pattern (pkg/monitor), an XDP program reports who tries which port
    (pkg/ebpfmonitors/network_monitor.go), an LSM program denies executions by policy
    (pkg/ebpfmonitors/user_command_controller.go, pkg/user-command-controller-policy).
    Log and network monitors ask the ban pool (pkg/banpool/service.go) to ban an address;
    the pool keeps a row per ban in SQLite (repository.go), a rule per address and chain in
    iptables, nftables or firewalld (firewall.go), and one goroutine per ban that lifts it
    at its end.  The configuration (pkg/config) is read at the start and pushed by a server
    over a websocket (pkg/connector, pkg/cryptography, pkg/protocol).  pkg/installer,
    pkg/updater, pkg/app and cmd install, update and run the daemon.

    ** How code is modelled

    - A function that returns an error is a function into [result]; only the sentinel
      errors are kept, no text.  [option] stands for a panic or a missing value.
    - Effects are explicit: a world of an arbitrary type is passed through, with one type
      class per foreign component ([Runner], [SqlDB], [FS], [Yaml], [Json], [Regexp],
      [KernelMaps], [Websocket], [Primitives], [Host], [SnapshotHost], [SortSlice],
      [UpdateHost], [InstallHost]).  What the code relies on of them is a class of laws
      ([IptablesLaws], [FirewalldLaws], [NftablesLaws], [SqlLaws], [SortSliceLaws],
      [FSLaws], [YamlLaws], [KernelMapsLaws], [PrimitivesLaws], [UpdateLaws],
      [InstallLaws]), each with a concrete instance.  Any command and any statement may
      fail.  What a theorem needs beyond that is a class of its own: that a query of the
      firewall answers ([IptablesAnswers], [FirewalldAnswers], [NftablesAnswers]; together
      [RuleAnswers]), that the host stays in one time zone ([OneZone], since the database
      orders instants as texts of the local zone), that nothing fails ([ReliablePool]).
    - The clock is an argument: the instants [time.Now] returned.  Time is in nanoseconds.
    - A critical section of a mutex is one step; what is not protected by one (the maps of
      the counters, the maps of the kernel) is split at each access and interleaved.
    - Integers are [Z] with their wrap-around ([wrap_u32], [wrap_s64], ...).
    - A loop over a Go map takes the order of the keys as an argument; a loop over input
      takes what it meets as a list, so no fuel is needed; loops with a bound of the
      code's own ([openLogFileRetries], [maxUnbanRetries]) recurse on that bound.
    - A goroutine is a state with a function that takes an event to the next state, on its
      own state and on the state it shares; an event that is not possible gives [None].
      An event is the goroutine's own step or comes from outside (a line, a tick, a record, a
      message).  Systems of goroutines are products, in any interleaving.  A call that blocks
      for a bounded time is one step, and a step reads one instant.

    ** The files

    Shared: this file (the [result] monad, widths, list lemmas, hints), GoStrings, GoNet,
    GoText and GoFloat (the functions and formats of Go the program uses, and where texts
    occur in texts), Words (bytes of machine words), Goroutines (goroutines on a shared state,
    their composition, and what it takes for them to stop).

    Ban pool: Repository (repository.go, model.go, errors.go over [SqlDB]; the class
    [Repository] and its laws), Firewall (firewall.go over [Runner]; the class [Firewall]),
    FirewallEngines and FirewallNft (what iptables, firewalld and nftables promise),
    FirewallClaims, BanPool (the operations and one round of a [waitUnban] goroutine),
    BanPoolNew ([New]), BanPoolOps (each operation keeps [pool_inv]), BanPoolSystem (the step
    relation with clock, context and goroutines, its invariants), BanPoolLiveness (bans end;
    the pool refines a map), BanPoolExamples.

    Configuration: Config (model.go, run.go), ConfigValidate (validate.go), ConfigLoad
    (loading, saving, comments), ConfigExamples.

    Monitors: NetworkMonitor (XDP program, event loop, counters), Monitor (log monitors,
    export queue, resource limits), Source (where the lines come from), DockerPipe (the two
    goroutines that read a container), Snapshot (snapshot.go).

    Command controller: Policy (policy.go), CommandController (discovery, the writers of the
    kernel maps, the scanner, the LSM program, the alerts), CommandPolicy (keys and verdict
    on open gates), CommandGate (the gate protocol of the writers), CommandRun (whole runs),
    CommandHandles (no handle leaks), CommandExamples.

    Server and commands: Protocol, Cryptography, Connector, ConnectorClaims,
    ConnectorExamples, Updater, Installer, App (app.go, cmd/main.go, lsm-actions.go),
    AppExamples.

    The hub, which runs the monitors (monitor.go): HubState (what they share), HubEvents (the
    events they raise), then each as a goroutine: HubMonitors (log and resource monitors),
    HubEbpf (network monitor), HubCommand and HubCommandPolicy (command controller),
    HubExporter (the connector's [Run], [serve] and [readLoop]); Hub ([runCycle],
    [RunMonitoring]), HubPool (what they ask of the pool), Daemon (the hub on the ban pool
    with its goroutines), HubExamples, DaemonExamples.

    How they are composed: [run] (App) ends with an exit code or with an application whose
    [app_Run] is the start of [RunMonitoring] (Hub); a cycle of it is the product of eight
    goroutines, which act on one [hub] (HubState); its pool is an instance of the class
    [BanPool], for the daemon the pool with the goroutines it has started ([daemon_pool_ops]),
    each with the context [BanIP] or [RestoreBans] got from the hub: contexts are numbered by
    the cycle that makes them, and whether one is done is read off the hub ([ctx_done]).  Each
    step of the daemon is steps of the system of BanPoolSystem ([daemon_step_pool]).  The
    pool works on any [Repository] and [Firewall], which repository.go and firewall.go
    implement over [SqlDB] and [Runner] ([repository_spec], [firewall_spec]).

    ** What the theorems show

    - Bans.  When nothing fails every ban of the daemon ends: in any cycle each row has a
      goroutine that can lift it at once when its time is over, but for a ban that ended
      between the two clock reads of [RestoreBans] ([daemon_bans_end], [restore_window]); no
      rule without its row, whatever statement or change fails, as long as the queries answer
      ([daemon_rules_have_rows]), and what happens when they do not
      ([failed_check_forgets_ban]); an active ban survives all steps but an unban or a restore
      ([active_ban_survives]); the pool refines a map from address to end of ban
      ([pool_refines_map]); each branch of [BanIP].
    - Firewall.  [Ban] and [Unban] undo each other on every chain, a failing [Ban] changes
      nothing, [Unban] under nftables keeps all rules that are not the drop of the address,
      whatever fails ([unban_keeps_other_rules]).
    - The hub.  A cancelled cycle ends: its goroutines have boundedly many steps left and
      never wait for each other in a circle ([hub_stops]); the export queue is bounded and
      holds alerts only, under exporter settings that were in force ([queue_well_formed]); a
      configuration pushed by the server is saved, acknowledged and what the next cycle runs
      ([pushed_config_runs]), but for a push that is taken back ([revert_lost]); the daemon starts on a valid configuration and a firewall
      that is ready ([daemon_starts]).
    - Commands.  Along every run, with every write that may fail and every interleaving with
      the kernel program's six reads, an execution is denied or reported only if the policy
      says so of the uids by a [uid_map] that was read of the namespace
      ([controller_denies_only_policy]); with open gates the verdict is the policy
      ([kernel_decides_policy]); the alert tells what was done; every namespace handle is
      in a table or closed, and closed at the end ([controller_closes_handles]); uid translation.
    - Monitors.  A log monitor bans on each [tries]-th hit and never a whitelisted address;
      the port counters are linearizable; what the followers of log files send; a container's
      logs through their pipe ([docker_pipe_refines]) and what a line that is too long leaves
      behind ([long_line_blocks_copier]); the hub reads the address back from the network
      monitor's message; a pass of the resource monitor raises the event each value calls
      for and saves a snapshot with each alert ([resource_pass]); a snapshot holds the
      processes by CPU use.
    - Configuration.  [Validate] is complete; what [LoadConfig] leaves on disk is what it
      returned.
    - Server and commands.  A pushed configuration is valid, keeps the exporter and the local
      addresses, and is on disk and acknowledged before the restart; messages round trip
      through the encryption; delays of the reconnections; an update never loses the old
      binary; without root nothing changes.

    Some theorems state what the code does where it fails its purpose: the reversed address
    of the network monitor ([reported_address_reversed]), [restore_window],
    [window_end_race], [narrow_rule_hides_ban], [failed_check_forgets_ban], [revert_lost],
    [long_line_blocks_copier], and without a claim [split_line_sent_in_pieces],
    [banpool_New_forward_only], [zone_change_hides_expired].

    ** Bounds

    Only [parse_ipv6_go] (eight groups), the printing of numbers ([dec]: 20 digits for 64
    bits, [dec_large]: 320 for the integer part of a float64) and [trim_runes] (the length of
    the text) take fuel, each with a lemma or an argument that it is enough; the loops of
    goroutines are lists of events, and [hub_stops] bounds their length.

    ** What is not modelled

    What lies outside the repository: gopsutil's measurements, websocket frames (ping handler,
    read limit), the kernel's loading and attaching of programs, fsnotify, docker and
    journalctl are outcomes or events the definitions take.  Of the repository: the layout of
    the two tables ([tabwriter]) and the help texts, the text of errors, generated code and
    mocks.  The firewall's world is a part of the pool's state and not of the hub's, so
    configuration files and rules are not proved apart: they are apart by type. *)

From stdpp Require Export base list list_monad option numbers strings gmap sorting.
From Stdlib Require Export ZArith Lia.

#[global] Open Scope Z_scope.
#[global] Set Default Goal Selector "!".

(** ** The result of a fallible Go call

    A Go function returning [(T, error)] is a function into [result E T]: [Ok] for
    a nil error, [Err e] for a non-nil one.  [E] is the type of the sentinel errors
    of the package; the text that [fmt.Errorf] wraps around a sentinel is not part
    of the model (only [errors.Is] ever looks at an error, never its text). *)
Inductive result (E A : Type) : Type :=
| Ok (a : A)
| Err (e : E).
Arguments Ok {_ _} _.
Arguments Err {_ _} _.

#[global] Instance result_ret {E} : MRet (result E) := λ A a, Ok a.
#[global] Instance result_bind {E} : MBind (result E) := λ A B f r,
  match r with Ok a => f a | Err e => Err e end.
#[global] Instance result_fmap {E} : FMap (result E) := λ A B f r,
  match r with Ok a => Ok (f a) | Err e => Err e end.
#[global] Instance result_eq_dec `{EqDecision E, EqDecision A} : EqDecision (result E A).
Proof. solve_decision. Defined.

Definition is_ok {E A} (r : result E A) : bool :=
  match r with Ok _ => true | Err _ => false end.

Definition ok_opt {E A} (r : result E A) : option A :=
  match r with Ok a => Some a | Err _ => None end.

(** ** Fixed-width integers

    An unsigned [w]-bit integer is a [Z] in [0, 2^w); a conversion or an operation
    that can leave that range writes its wrap-around out with these functions. *)
Definition wrap_u8 (z : Z) : Z := z mod 2 ^ 8.
Definition wrap_u16 (z : Z) : Z := z mod 2 ^ 16.
Definition wrap_u32 (z : Z) : Z := z mod 2 ^ 32.
Definition wrap_u64 (z : Z) : Z := z mod 2 ^ 64.
Definition wrap_s64 (z : Z) : Z := (z + 2 ^ 63) mod 2 ^ 64 - 2 ^ 63.

Definition in_u8 (z : Z) : Prop := 0 <= z < 2 ^ 8.
Definition in_u16 (z : Z) : Prop := 0 <= z < 2 ^ 16.
Definition in_u32 (z : Z) : Prop := 0 <= z < 2 ^ 32.
Definition in_u64 (z : Z) : Prop := 0 <= z < 2 ^ 64.

Lemma wrap_s64_small z : - 2 ^ 63 <= z < 2 ^ 63 → wrap_s64 z = z.
Proof. intros H. unfold wrap_s64. rewrite Z.mod_small; lia. Qed.
Lemma wrap_u16_small z : in_u16 z → wrap_u16 z = z.
Proof. intros H. apply Z.mod_small. exact H. Qed.
Lemma wrap_u32_small z : in_u32 z → wrap_u32 z = z.
Proof. intros H. apply Z.mod_small. exact H. Qed.
Lemma wrap_u64_small z : in_u64 z → wrap_u64 z = z.
Proof. intros H. apply Z.mod_small. exact H. Qed.

(** ** Tactics and hints *)
Create HintDb od.

(** Split one [match] or [if] of the goal or of a hypothesis, naming nothing. *)
Ltac split_match :=
  match goal with
  | |- context [match ?x with _ => _ end] => destruct x eqn:?
  | H : context [match ?x with _ => _ end] |- _ => destruct x eqn:?
  end; simplify_eq/=.

(** Turn boolean tests among the hypotheses into propositions. *)
Ltac bool_hyps :=
  repeat match goal with
  | H : (_ && _)%bool = true |- _ => apply andb_prop in H as [? ?]
  | H : (_ || _)%bool = false |- _ => apply orb_false_elim in H as [? ?]
  | H : negb _ = true |- _ => apply negb_true_iff in H
  | H : negb _ = false |- _ => apply negb_false_iff in H
  | H : (_ =? _) = true |- _ => apply Z.eqb_eq in H
  | H : (_ =? _) = false |- _ => apply Z.eqb_neq in H
  | H : (_ <? _) = true |- _ => apply Z.ltb_lt in H
  | H : (_ <? _) = false |- _ => apply Z.ltb_ge in H
  | H : (_ <=? _) = true |- _ => apply Z.leb_le in H
  | H : (_ <=? _) = false |- _ => apply Z.leb_gt in H
  | H : bool_decide _ = true |- _ => apply bool_decide_eq_true in H
  | H : bool_decide _ = false |- _ => apply bool_decide_eq_false in H
  end.

(** ** Lists *)

(** [slices.Contains]. *)
Definition contains_elem `{EqDecision A} (l : list A) (x : A) : bool :=
  bool_decide (x ∈ l).

Lemma contains_elem_spec `{EqDecision A} (l : list A) (x : A) :
  contains_elem l x = true ↔ x ∈ l.
Proof. apply bool_decide_eq_true. Qed.
Lemma contains_elem_false `{EqDecision A} (l : list A) (x : A) :
  contains_elem l x = false ↔ x ∉ l.
Proof. apply bool_decide_eq_false. Qed.

(** The elements of [l] that are not in [seen], each at its first occurrence. *)
Fixpoint first_occ_from `{EqDecision A} (seen l : list A) : list A :=
  match l with
  | [] => []
  | x :: l' =>
      if decide (x ∈ seen) then first_occ_from seen l'
      else x :: first_occ_from (x :: seen) l'
  end.
Definition first_occ `{EqDecision A} (l : list A) : list A := first_occ_from [] l.

Section FirstOcc.
Context `{EqDecision A}.
Implicit Types (seen l : list A) (x : A).

Lemma elem_of_first_occ_from seen l x :
  x ∈ first_occ_from seen l ↔ x ∈ l ∧ x ∉ seen.
Proof.
  revert seen. induction l as [|y l IH]; intros seen; simpl; [set_solver|].
  case_decide; rewrite ?elem_of_cons, IH; [set_solver|].
  destruct (decide (x = y)); set_solver.
Qed.

Lemma elem_of_first_occ l x : x ∈ first_occ l ↔ x ∈ l.
Proof. unfold first_occ. rewrite elem_of_first_occ_from. set_solver. Qed.

Lemma NoDup_first_occ_from seen l : NoDup (first_occ_from seen l).
Proof.
  revert seen. induction l as [|y l IH]; intros seen; simpl; [constructor|].
  case_decide; [done|]. constructor; [|done].
  rewrite elem_of_first_occ_from. set_solver.
Qed.

Lemma NoDup_first_occ l : NoDup (first_occ l).
Proof. apply NoDup_first_occ_from. Qed.

Lemma first_occ_from_NoDup seen l :
  NoDup l → (∀ x, x ∈ l → x ∉ seen) → first_occ_from seen l = l.
Proof.
  revert seen. induction l as [|y l IH]; intros seen Hnd Hs; simpl; [done|].
  apply NoDup_cons in Hnd as [Hy Hnd]. rewrite decide_False by set_solver.
  f_equal. apply IH; [done|]. intros x Hx. set_solver.
Qed.

Lemma first_occ_NoDup l : NoDup l → first_occ l = l.
Proof. intros. apply first_occ_from_NoDup; set_solver. Qed.
End FirstOcc.

#[export] Hint Resolve NoDup_first_occ : od.

(** Each element of either side of a [Forall2] has its partner. *)
Lemma Forall2_elem_l {A B} (P : A → B → Prop) l k x :
  Forall2 P l k → x ∈ l → ∃ y, y ∈ k ∧ P x y.
Proof.
  induction 1 as [|x' y' l k Hxy _ IH]; [set_solver|].
  rewrite elem_of_cons. intros [->|Hx]; [exists y'; set_solver|].
  destruct (IH Hx) as (y & ? & ?). exists y. set_solver.
Qed.
Lemma Forall2_elem_r {A B} (P : A → B → Prop) l k y :
  Forall2 P l k → y ∈ k → ∃ x, x ∈ l ∧ P x y.
Proof.
  intros H%Forall2_flip Hy. destruct (Forall2_elem_l _ _ _ _ H Hy) as (x & ? & ?).
  by exists x.
Qed.

Lemma elem_of_rev {A} (l : list A) x : x ∈ rev l ↔ x ∈ l.
Proof. by rewrite !list_elem_of_In, <- in_rev. Qed.
