(* ===== verification/GoStrings.v ===== *)
(** * The parts of Go's [strings], [strconv], [path/filepath] and [fmt] the agent uses

    A Go [string] is a byte string: [String.string], one [ascii] per byte.  These are
    the standard library's functions on the inputs the agent gives them; no definition
    of this file models a line of the repository. *)

From S2P Require Import Prelude.
From Stdlib Require Export Ascii.

#[global] Open Scope string_scope.
#[global] Open Scope list_scope.
#[global] Open Scope Z_scope.

(** ** Bytes *)
Definition byte_val (c : ascii) : Z := Z.of_N (N_of_ascii c).
Definition byte_of (z : Z) : ascii := ascii_of_N (Z.to_N z).

Definition is_digit (c : ascii) : bool := (48 <=? byte_val c) && (byte_val c <=? 57).
Definition digit_val (c : ascii) : Z := byte_val c - 48.

Fixpoint bytes (s : string) : list ascii :=
  match s with EmptyString => [] | String c s' => c :: bytes s' end.
Fixpoint of_bytes (l : list ascii) : string :=
  match l with [] => EmptyString | c :: l' => String c (of_bytes l') end.

Lemma of_bytes_bytes s : of_bytes (bytes s) = s.
Proof. induction s; simpl; congruence. Qed.
Lemma bytes_of_bytes l : bytes (of_bytes l) = l.
Proof. induction l; simpl; congruence. Qed.
Lemma bytes_inj s t : bytes s = bytes t → s = t.
Proof. intros H. rewrite <- (of_bytes_bytes s), <- (of_bytes_bytes t). by rewrite H. Qed.
Lemma bytes_app s t : bytes (s +:+ t) = (bytes s ++ bytes t)%list.
Proof. induction s as [|c s IH]; [done|]. cbn. by rewrite <- IH. Qed.

(** [len(s)]. *)
Definition str_len (s : string) : Z := Z.of_nat (length (bytes s)).

(** ** [strings.TrimSpace] and [strings.Fields]

    The code points of Unicode's White_Space property, each as its UTF-8 encoding.  A
    rune of a Go string is one of them exactly when these bytes stand at its place. *)
Definition space_runes : list (list ascii) :=
  map (map byte_of)
    [[9]; [10]; [11]; [12]; [13]; [32];
     [194; 133]; [194; 160]; [225; 154; 128];
     [226; 128; 128]; [226; 128; 129]; [226; 128; 130]; [226; 128; 131];
     [226; 128; 132]; [226; 128; 133]; [226; 128; 134]; [226; 128; 135];
     [226; 128; 136]; [226; 128; 137]; [226; 128; 138];
     [226; 128; 168]; [226; 128; 169]; [226; 128; 175];
     [226; 129; 159]; [227; 128; 128]].

(** [strip p l]: [l] without the prefix [p], when it has it. *)
Fixpoint strip (p l : list ascii) : option (list ascii) :=
  match p, l with
  | [], _ => Some l
  | c :: p', d :: l' => if Ascii.eqb c d then strip p' l' else None
  | _ :: _, [] => None
  end.

Fixpoint strip_any (ps : list (list ascii)) (l : list ascii) : option (list ascii) :=
  match ps with
  | [] => None
  | p :: ps' => match strip p l with Some r => Some r | None => strip_any ps' l end
  end.

(** The number of bytes of the white-space rune that [l] starts with, 0 for none. *)
Definition space_len (l : list ascii) : nat :=
  match strip_any space_runes l with
  | Some r => (length l - length r)%nat
  | None => 0%nat
  end.

Fixpoint trim_runes (runes : list (list ascii)) (fuel : nat) (l : list ascii) : list ascii :=
  match fuel with
  | O => l
  | S fuel' =>
      match strip_any runes l with
      | Some r => trim_runes runes fuel' r
      | None => l
      end
  end.

Definition trim_left (l : list ascii) : list ascii :=
  trim_runes space_runes (length l) l.
Definition trim_right (l : list ascii) : list ascii :=
  rev (trim_runes (map (@rev ascii) space_runes) (length l) (rev l)).
Definition trim_space (s : string) : string := of_bytes (trim_right (trim_left (bytes s))).

(** [strings.Fields]: [skip] counts the remaining bytes of a white-space rune. *)
Fixpoint fields_go (skip : nat) (cur : list ascii) (l : list ascii) : list string :=
  let flush := match cur with [] => [] | _ => [of_bytes (rev cur)] end in
  match l with
  | [] => flush
  | c :: l' =>
      match skip with
      | S k => fields_go k [] l'
      | O =>
          match space_len l with
          | O => fields_go 0 (c :: cur) l'
          | S k => (flush ++ fields_go k [] l')%list
          end
      end
  end.
Definition fields (s : string) : list string := fields_go 0 [] (bytes s).

(** ** [strings.Split] with a non-empty separator, [strings.Contains], [strings.HasPrefix] *)
Fixpoint split_go (sep : string) (skip : nat) (cur : list ascii) (s : string) : list string :=
  match s with
  | EmptyString => [of_bytes (rev cur)]
  | String c s' =>
      match skip with
      | S k => split_go sep k cur s'
      | O =>
          if String.prefix sep s
          then of_bytes (rev cur) :: split_go sep (pred (String.length sep)) [] s'
          else split_go sep 0 (c :: cur) s'
      end
  end.
Definition split_str (s sep : string) : list string := split_go sep 0 [] s.

Fixpoint str_contains (s sub : string) : bool :=
  (String.prefix sub s ||
   match s with EmptyString => false | String _ s' => str_contains s' sub end)%bool.

(** [strings.ContainsRune] for an ASCII rune. *)
Definition contains_byte (s : string) (b : Z) : bool :=
  existsb (λ c, byte_val c =? b) (bytes s).

Fixpoint str_join (sep : string) (l : list string) : string :=
  match l with
  | [] => ""
  | [s] => s
  | s :: l' => s +:+ sep +:+ str_join sep l'
  end.

(** ** [strconv.ParseUint] in base 10 *)
Fixpoint digits_go (acc : Z) (l : list ascii) : option Z :=
  match l with
  | [] => Some acc
  | c :: l' => if is_digit c then digits_go (acc * 10 + digit_val c) l' else None
  end.
Definition digits_value (s : string) : option Z :=
  match s with EmptyString => None | _ => digits_go 0 (bytes s) end.
Definition parse_uint (bits : Z) (s : string) : option Z :=
  match digits_value s with
  | Some n => if n <? 2 ^ bits then Some n else None
  | None => None
  end.

(** ** [fmt]'s [%d] of an unsigned integer of at most 64 bits *)
Definition digit_char (d : Z) : ascii := byte_of (48 + d).
Fixpoint dec_go (fuel : nat) (n : Z) (acc : list ascii) : list ascii :=
  match fuel with
  | O => acc
  | S fuel' =>
      let acc' := digit_char (n mod 10) :: acc in
      if n / 10 =? 0 then acc' else dec_go fuel' (n / 10) acc'
  end.
Definition dec (n : Z) : string := of_bytes (dec_go 20 n []).

(** ** [filepath.Base] on Unix *)
Definition is_slash (c : ascii) : bool := Ascii.eqb c "/".
Fixpoint drop_while (p : ascii → bool) (l : list ascii) : list ascii :=
  match l with c :: l' => if p c then drop_while p l' else l | [] => [] end.
Fixpoint take_while (p : ascii → bool) (l : list ascii) : list ascii :=
  match l with c :: l' => if p c then c :: take_while p l' else [] | [] => [] end.
Definition filepath_base (path : string) : string :=
  match path with
  | EmptyString => "."
  | _ =>
      match rev (take_while (λ c, negb (is_slash c)) (drop_while is_slash (rev (bytes path)))) with
      | [] => "/"
      | l => of_bytes l
      end
  end.

(** The newline character. *)
Definition nl : string := of_bytes [byte_of 10].
Definition newline : ascii := byte_of 10.

Example trim_space_ex : trim_space " 	a b
" = "a b".
Proof. reflexivity. Qed.
Example fields_ex : fields "  0 100000	65536 " = ["0"; "100000"; "65536"].
Proof. reflexivity. Qed.
Example split_ex : split_str "ab# handle 7" "# handle " = ["ab"; "7"].
Proof. reflexivity. Qed.
Example base_ex : map filepath_base [""; "/"; "//"; "a"; "/usr/bin/curl"; "a/b//"; ".."]
                  = ["."; "/"; "/"; "a"; "curl"; "b"; ".."].
Proof. reflexivity. Qed.
Example dec_ex : map dec [0; 7; 10; 4294967295] = ["0"; "7"; "10"; "4294967295"].
Proof. vm_compute. reflexivity. Qed.

(** ** Lemmas *)
Lemma byte_val_range c : 0 <= byte_val c < 256.
Proof.
  unfold byte_val. pose proof (N_ascii_bounded c). lia.
Qed.
Lemma byte_val_of z : 0 <= z < 256 → byte_val (byte_of z) = z.
Proof. intros H. unfold byte_val, byte_of. rewrite N_ascii_embedding; lia. Qed.
Lemma byte_of_val c : byte_of (byte_val c) = c.
Proof. unfold byte_val, byte_of. rewrite N2Z.id. apply ascii_N_embedding. Qed.
Lemma byte_val_inj c d : byte_val c = byte_val d → c = d.
Proof. intros H. by rewrite <- (byte_of_val c), H, byte_of_val. Qed.

Lemma is_digit_spec c : is_digit c = true ↔ 48 <= byte_val c <= 57.
Proof. unfold is_digit. rewrite andb_true_iff, !Z.leb_le. lia. Qed.
Lemma digit_char_val d : 0 <= d < 10 → byte_val (digit_char d) = 48 + d.
Proof. intros. apply byte_val_of. lia. Qed.

(** Decimal printing, then reading, is the identity. *)
Lemma digits_go_app acc l1 l2 :
  digits_go acc (l1 ++ l2) = v ← digits_go acc l1; digits_go v l2.
Proof.
  revert acc. induction l1 as [|c l1 IH]; intros acc; simpl; [done|].
  destruct (is_digit c); [apply IH|done].
Qed.

Lemma dec_go_step fuel n acc :
  0 <= n → n < 10 ^ Z.of_nat (S fuel) →
  ∃ l, dec_go (S fuel) n acc = l ++ acc ∧ l ≠ [] ∧ Forall (λ c, is_digit c = true) l ∧
       digits_go 0 l = Some n.
Proof.
  revert n acc. induction fuel as [|fuel IH]; intros n acc Hn Hlt.
  all: assert (Hd : is_digit (digit_char (n mod 10)) = true)
         by (apply is_digit_spec; pose proof (Z.mod_pos_bound n 10);
             rewrite digit_char_val; lia).
  all: assert (Hv : digit_val (digit_char (n mod 10)) = n mod 10)
         by (unfold digit_val; pose proof (Z.mod_pos_bound n 10);
             rewrite digit_char_val; lia).
  all: pose proof (Z.div_mod n 10 ltac:(lia)) as Hdm.
  - change (10 ^ Z.of_nat 1) with 10 in Hlt.
    assert (Hz : n / 10 = 0) by (apply Z.div_small; lia).
    exists [digit_char (n mod 10)]. cbn [dec_go]. rewrite Hz. simpl.
    rewrite Hd, Hv. repeat split; auto. f_equal. lia.
  - destruct (n / 10 =? 0) eqn:Hz.
    + apply Z.eqb_eq in Hz. exists [digit_char (n mod 10)]. cbn [dec_go].
      rewrite Hz. simpl. rewrite Hd, Hv. repeat split; auto. f_equal. lia.
    + destruct (IH (n / 10) (digit_char (n mod 10) :: acc)) as (l & Hl & Hne & Hds & Hval).
      { apply Z.div_pos; lia. }
      { apply Z.div_lt_upper_bound; [lia|]. rewrite Nat2Z.inj_succ, Z.pow_succ_r in Hlt; lia. }
      exists (l ++ [digit_char (n mod 10)]). split_and!.
      * change (dec_go (S (S fuel)) n acc) with
          (if n / 10 =? 0 then digit_char (n mod 10) :: acc
           else dec_go (S fuel) (n / 10) (digit_char (n mod 10) :: acc)).
        rewrite Hz, Hl. by rewrite <- app_assoc.
      * by destruct l.
      * apply Forall_app. auto.
      * rewrite digits_go_app, Hval. simpl. rewrite Hd, Hv. f_equal. lia.
Qed.

Lemma dec_spec n : 0 <= n < 10 ^ 20 →
  bytes (dec n) ≠ [] ∧ Forall (λ c, is_digit c = true) (bytes (dec n)) ∧
  digits_go 0 (bytes (dec n)) = Some n.
Proof.
  intros [Hn Hlt]. destruct (dec_go_step 19 n []) as (l & Hl & ?); [lia|exact Hlt|].
  unfold dec. rewrite bytes_of_bytes, Hl, app_nil_r. done.
Qed.

Lemma digits_value_dec n : 0 <= n < 10 ^ 20 → digits_value (dec n) = Some n.
Proof.
  intros H. destruct (dec_spec n H) as (Hne & _ & Hv). unfold digits_value.
  by destruct (dec n).
Qed.

Lemma parse_uint_dec bits n :
  0 <= n < 10 ^ 20 → n < 2 ^ bits → parse_uint bits (dec n) = Some n.
Proof.
  intros H Hb. unfold parse_uint. rewrite digits_value_dec by done.
  by rewrite (proj2 (Z.ltb_lt _ _) Hb).
Qed.

Lemma digits_go_nonneg acc l v : 0 <= acc → digits_go acc l = Some v → 0 <= v.
Proof.
  revert acc. induction l as [|c l IH]; simpl; intros acc Ha; [congruence|].
  destruct (is_digit c) eqn:Hc; [|done]. apply is_digit_spec in Hc.
  apply IH. unfold digit_val. lia.
Qed.
Lemma digits_go_digits acc l v :
  digits_go acc l = Some v → Forall (λ c, is_digit c = true) l.
Proof.
  revert acc. induction l as [|c l IH]; simpl; intros acc; [auto|].
  destruct (is_digit c) eqn:Hc; [|done]. eauto.
Qed.
Lemma digits_value_nonneg s v : digits_value s = Some v → 0 <= v.
Proof. unfold digits_value. destruct s; [done|]. by apply digits_go_nonneg. Qed.
Lemma parse_uint_range bits s v : parse_uint bits s = Some v → 0 <= v < 2 ^ bits.
Proof.
  unfold parse_uint. destruct (digits_value s) as [n|] eqn:Hn; [|done].
  apply digits_value_nonneg in Hn. intros H. repeat split_match; bool_hyps; lia.
Qed.

(** Trimming leaves a text alone whose first and last byte begin or end no space rune. *)
Lemma strip_any_head (rs : list (list ascii)) c l :
  Forall (λ r, match r with [] => False | d :: _ => d ≠ c end) rs → strip_any rs (c :: l) = None.
Proof.
  induction 1 as [|r rs Hr _ IH]; simpl; [done|].
  destruct r as [|d r]; [done|]. simpl. rewrite (proj2 (Ascii.eqb_neq d c)) by done. done.
Qed.

(** A byte that is no part of any white-space rune. *)
Definition ink (c : ascii) : bool :=
  negb (existsb (existsb (Ascii.eqb c)) space_runes).

Lemma ink_not_in c r : ink c = true → r ∈ space_runes → c ∉ r.
Proof.
  unfold ink. intros Hi Hr Hc. apply negb_true_iff in Hi.
  rewrite <- not_true_iff_false in Hi. apply Hi. apply existsb_exists. exists r.
  split; [by apply list_elem_of_In|]. apply existsb_exists. exists c.
  split; [by apply list_elem_of_In|apply Ascii.eqb_refl].
Qed.

Lemma space_runes_nonempty : Forall (λ r, r ≠ []) space_runes.
Proof. repeat constructor; discriminate. Qed.

Lemma ink_heads c (rs : list (list ascii)) :
  ink c = true → rs ⊆ space_runes →
  Forall (λ r, match r with [] => False | d :: _ => d ≠ c end) rs ∧
  Forall (λ r, match r with [] => False | d :: _ => d ≠ c end) (map (@rev ascii) rs).
Proof.
  intros Hi Hsub. rewrite Forall_map, !Forall_forall. split; intros r Hr.
  all: pose proof (proj1 (Forall_forall _ _) space_runes_nonempty r (Hsub _ Hr)) as Hne.
  all: pose proof (ink_not_in c r Hi (Hsub _ Hr)) as Hc.
  - destruct r as [|d r]; set_solver.
  - destruct (rev r) as [|d r'] eqn:Hrev.
    + apply (f_equal (@rev ascii)) in Hrev. rewrite rev_involutive in Hrev. done.
    + intros ->. apply Hc. apply list_elem_of_In, in_rev. rewrite Hrev. by left.
Qed.

Lemma trim_runes_head (runes : list (list ascii)) fuel c l :
  strip_any runes (c :: l) = None → trim_runes runes fuel (c :: l) = c :: l.
Proof. intros H. destruct fuel; simpl trim_runes; [done|]. by rewrite H. Qed.

Lemma trim_space_ink s c d l :
  bytes s = c :: l → last (c :: l) = Some d → ink c = true → ink d = true → trim_space s = s.
Proof.
  intros Hs Hlast Hc Hd. unfold trim_space. rewrite Hs.
  assert (Hl : trim_left (c :: l) = c :: l).
  { apply trim_runes_head, strip_any_head, ink_heads; done. }
  rewrite Hl. unfold trim_right.
  apply last_Some in Hlast as [l' Hl']. rewrite Hl'.
  rewrite rev_app_distr. change (rev [d] ++ rev l') with (d :: rev l').
  rewrite trim_runes_head.
  - simpl. rewrite rev_involutive, <- Hl', <- Hs. apply of_bytes_bytes.
  - apply strip_any_head. by apply ink_heads.
Qed.

Lemma digit_ink c : is_digit c = true → ink c = true.
Proof. destruct c as [[] [] [] [] [] [] [] []]; vm_compute; congruence. Qed.

(** ** [filepath.Base] *)
Lemma take_while_spec (p : ascii → bool) l :
  take_while p l ⊆ l ∧ Forall (λ c, p c = true) (take_while p l).
Proof.
  induction l as [|c l [IH1 IH2]]; simpl; [split; [done|constructor]|].
  destruct (p c) eqn:Hc; (split; [|by repeat constructor]); set_solver.
Qed.
Lemma drop_while_subseteq (p : ascii → bool) l : drop_while p l ⊆ l.
Proof. induction l as [|c l IH]; simpl; [done|]. destruct (p c); set_solver. Qed.

Lemma filepath_base_spec path :
  filepath_base path = "." ∨ filepath_base path = "/" ∨
  (bytes (filepath_base path) ⊆ bytes path ∧ filepath_base path ≠ "" ∧
   Forall (λ c, is_slash c = false) (bytes (filepath_base path))).
Proof.
  unfold filepath_base. destruct path as [|c0 path0]; [by left|]. right.
  set (l := drop_while is_slash (rev (bytes (String c0 path0)))).
  set (t := take_while (λ c, negb (is_slash c)) l).
  assert (Ht : t ⊆ bytes (String c0 path0) ∧ Forall (λ c, is_slash c = false) t).
  { destruct (take_while_spec (λ c, negb (is_slash c)) l) as [H1 H2]. split.
    - intros x Hx%H1%drop_while_subseteq. by apply elem_of_rev.
    - eapply Forall_impl; [exact H2|]. intros x Hx. by apply negb_true_iff in Hx. }
  destruct Ht as [Hsub Hns]. rewrite Forall_forall in Hns.
  assert (Hns' : Forall (λ c, is_slash c = false) (rev t)).
  { apply Forall_forall. intros x. rewrite elem_of_rev. apply Hns. }
  assert (Hsub' : rev t ⊆ bytes (String c0 path0)).
  { intros x. rewrite elem_of_rev. apply Hsub. }
  destruct (rev t) as [|d r] eqn:Hr; [by left|right].
  rewrite bytes_of_bytes. done.
Qed.
