(* ===== verification/GoNet.v ===== *)
(** * Go's [net.ParseIP] and [IP.To4]

    [net.ParseIP] is [netip.ParseAddr] without a zone, widened to 16 bytes: the first
    dot or colon of the text decides between the two grammars.  An address is the list
    of its 16 bytes. *)

From S2P Require Import Prelude.
From S2P Require Import GoStrings.

(** ** Dotted decimal: [parseIPv4Fields] *)
Fixpoint parse_ipv4_go (l : list ascii) (val : Z) (digits : Z) (acc : list Z) : option (list Z) :=
  match l with
  | [] => if Z.of_nat (length acc) <? 3 then None else Some (acc ++ [val])
  | c :: l' =>
      if is_digit c then
        if (digits =? 1) && (val =? 0) then None
        else
          let val' := val * 10 + digit_val c in
          if 255 <? val' then None else parse_ipv4_go l' val' (digits + 1) acc
      else if Ascii.eqb c "." then
        (* no digit since the last dot (or the start), or a dot at the very end *)
        if (digits =? 0) || bool_decide (l' = []) then None
        else if Z.of_nat (length acc) =? 3 then None
        else parse_ipv4_go l' 0 0 (acc ++ [val])
      else None
  end.
Definition parse_ipv4_fields (l : list ascii) : option (list Z) := parse_ipv4_go l 0 0 [].

(** ** Colon-separated groups: [parseIPv6] *)
Definition hex_val (c : ascii) : option Z :=
  let v := byte_val c in
  if (48 <=? v) && (v <=? 57) then Some (v - 48)
  else if (97 <=? v) && (v <=? 102) then Some (v - 97 + 10)
  else if (65 <=? v) && (v <=? 70) then Some (v - 65 + 10)
  else None.

(** The hex digits at the front: [None] past four of them, else value, count and rest. *)
Fixpoint hex_group (l : list ascii) (acc off : Z) : option (Z * Z * list ascii) :=
  match l with
  | [] => Some (acc, off, [])
  | c :: l' =>
      match hex_val c with
      | None => Some (acc, off, l)
      | Some v => if 3 <? off then None else hex_group l' (acc * 16 + v) (off + 1)
      end
  end.

(** The bytes so far, and where the ellipsis stands among them. *)
Definition expand_ellipsis (ip : list Z) (ellipsis : option nat) : option (list Z) :=
  match ellipsis with
  | None => if (length ip =? 16)%nat then Some ip else None
  | Some e =>
      if (length ip <? 16)%nat
      then Some (take e ip ++ replicate (16 - length ip) 0 ++ drop e ip)
      else None
  end.

Fixpoint parse_ipv6_go (fuel : nat) (l : list ascii) (ip : list Z) (ellipsis : option nat)
    : option (list Z) :=
  match fuel with
  | O => match l with [] => expand_ellipsis ip ellipsis | _ => None end
  | S fuel' =>
      '(acc, off, rest) ← hex_group l 0 0;
      if off =? 0 then None else
      match rest with
      | "."%char :: _ =>
          if bool_decide (ellipsis = None) && negb (length ip =? 12)%nat then None
          else if (12 <? length ip)%nat then None
          else v4 ← parse_ipv4_fields l; expand_ellipsis (ip ++ v4) ellipsis
      | _ =>
          let ip' := ip ++ [acc / 256; acc mod 256] in
          match rest with
          | [] => expand_ellipsis ip' ellipsis
          | ":"%char :: ":"%char :: rest' =>
              match ellipsis with
              | Some _ => None
              | None =>
                  match rest' with
                  | [] => expand_ellipsis ip' (Some (length ip'))
                  | _ => parse_ipv6_go fuel' rest' ip' (Some (length ip'))
                  end
              end
          | ":"%char :: ((_ :: _) as rest') => parse_ipv6_go fuel' rest' ip' ellipsis
          | _ => None
          end
      end
  end.

Definition parse_ipv6 (l : list ascii) : option (list Z) :=
  match l with
  | ":"%char :: ":"%char :: [] => Some (replicate 16 0)
  | ":"%char :: ":"%char :: l' => parse_ipv6_go 8 l' [] (Some 0%nat)
  | _ => parse_ipv6_go 8 l [] None
  end.

(** ** [net.ParseIP]: [None] is the nil [IP] *)
Definition v4_in_v6 (v4 : list Z) : list Z := replicate 10 0 ++ [255; 255] ++ v4.

Fixpoint parse_ip_go (all rest : list ascii) : option (list Z) :=
  match rest with
  | [] => None
  | c :: rest' =>
      if Ascii.eqb c "." then v4_in_v6 <$> parse_ipv4_fields all
      else if Ascii.eqb c ":" then
        (* a zone, even a well-formed one, makes [net.ParseIP] fail *)
        if existsb (Ascii.eqb "%") all then None else parse_ipv6 all
      else if Ascii.eqb c "%" then None
      else parse_ip_go all rest'
  end.
Definition ParseIP (s : string) : option (list Z) := parse_ip_go (bytes s) (bytes s).

(** ** [IP.To4] of a 16-byte address *)
Definition To4 (ip : list Z) : option (list Z) :=
  if bool_decide (take 12 ip = replicate 10 0 ++ [255; 255]) then Some (drop 12 ip) else None.

Example ParseIP_ex :
  map ParseIP ["1.2.3.4"; "01.2.3.4"; "1.2.3"; "1.2.3.256"; "1..3.4"; "1.2.3.4."; ""; "host"; "1.2.3.4%e"; "fe80::1%eth0"; "1:2"; ":1::"; "1:::2"]
  = [Some (v4_in_v6 [1; 2; 3; 4]); None; None; None; None; None; None; None; None; None; None; None; None].
Proof. vm_compute. reflexivity. Qed.
Example ParseIP_ex6 :
  map ParseIP ["::"; "::1"; "1::"; "::ffff:1.2.3.0"; "1:2:3:4:5:6:7:8"; "1:2:3:4:5:6:7:8:9"; "1:2:3:4:5:6:7::"; "::1:2:3:4:5:6:7:8"; "12345::"; "1:2:3:4:5:6:7:"]
  = [Some (replicate 16 0); Some (replicate 15 0 ++ [1]); Some ([0; 1] ++ replicate 14 0);
     Some (v4_in_v6 [1; 2; 3; 0]); Some [0;1;0;2;0;3;0;4;0;5;0;6;0;7;0;8]; None;
     Some [0;1;0;2;0;3;0;4;0;5;0;6;0;7;0;0]; None; None; None].
Proof. vm_compute. reflexivity. Qed.

(** ** The printed form of four bytes is read back *)
Definition dotted (a b c d : Z) : string :=
  dec a +:+ "." +:+ dec b +:+ "." +:+ dec c +:+ "." +:+ dec d.

(** The decimal text of one byte, whatever follows it. *)
Definition octet_ok (n : Z) : bool :=
  let l := bytes (dec n) in
  forallb is_digit l && negb (bool_decide (l = [])) &&
  bool_decide (fold_left (λ st c, match st with
     | Some (v, k) => if (k =? 1) && (v =? 0) then None
                      else if 255 <? v * 10 + digit_val c then None
                      else Some (v * 10 + digit_val c, k + 1)
     | None => None end) l (Some (0, 0)) = Some (n, Z.of_nat (length l))).

Lemma octets_ok : forallb octet_ok (map Z.of_nat (seq 0 256)) = true.
Proof. vm_compute. reflexivity. Qed.

Lemma parse_ipv4_octet val k acc (l rest : list ascii) v' k' :
  forallb is_digit l = true →
  fold_left (λ st c, match st with
     | Some (v, k) => if (k =? 1) && (v =? 0) then None
                      else if 255 <? v * 10 + digit_val c then None
                      else Some (v * 10 + digit_val c, k + 1)
     | None => None end) l (Some (val, k)) = Some (v', k') →
  parse_ipv4_go (l ++ rest) val k acc = parse_ipv4_go rest v' k' acc.
Proof.
  revert val k. induction l as [|c l IH]; intros val k; simpl.
  - intros _ [= <- <-]. done.
  - intros [Hc Hl]%andb_prop. rewrite Hc.
    assert (Hnone : ∀ l, fold_left (λ st c, match st with
     | Some (v, k) => if (k =? 1) && (v =? 0) then None
                      else if 255 <? v * 10 + digit_val c then None
                      else Some (v * 10 + digit_val c, k + 1)
     | None => None end) l None ≠ Some (v', k')) by (clear; induction l; simpl; congruence).
    destruct (_ && _)%bool; [by intros ?%Hnone|].
    destruct (255 <? _); [by intros ?%Hnone|]. apply IH. done.
Qed.

Lemma octet_ok_byte n : in_u8 n → octet_ok n = true.
Proof.
  intros Hn. unfold in_u8 in Hn. pose proof octets_ok as H.
  rewrite forallb_forall in H. apply H. apply in_map_iff. exists (Z.to_nat n).
  rewrite in_seq. lia.
Qed.

Lemma dec_octet n acc rest :
  in_u8 n → ∃ k, 0 < k ∧
  parse_ipv4_go (bytes (dec n) ++ rest) 0 0 acc = parse_ipv4_go rest n k acc.
Proof.
  intros Hn%octet_ok_byte. unfold octet_ok in Hn. bool_hyps.
  exists (Z.of_nat (length (bytes (dec n)))). split; [|by apply parse_ipv4_octet].
  destruct (bytes (dec n)); [done|]. simpl. lia.
Qed.

Lemma parse_ipv4_dot k n acc c l :
  0 < k → (length acc < 3)%nat →
  parse_ipv4_go ("."%char :: c :: l) n k acc = parse_ipv4_go (c :: l) 0 0 (acc ++ [n]).
Proof.
  intros Hk Hl. cbn [parse_ipv4_go]. change (is_digit ".") with false. cbn [negb].
  rewrite Ascii.eqb_refl. rewrite (proj2 (Z.eqb_neq k 0)) by lia.
  rewrite bool_decide_false by done. simpl orb. cbn match.
  by rewrite (proj2 (Z.eqb_neq (Z.of_nat (length acc)) 3)) by lia.
Qed.

Lemma dec_octet_dot n acc m rest :
  in_u8 n → in_u8 m → (length acc < 3)%nat →
  parse_ipv4_go (bytes (dec n) ++ "."%char :: bytes (dec m) ++ rest) 0 0 acc =
  parse_ipv4_go (bytes (dec m) ++ rest) 0 0 (acc ++ [n]).
Proof.
  intros Hn Hm Hl. destruct (dec_octet n acc ("."%char :: bytes (dec m) ++ rest) Hn) as (k & Hk & ->).
  destruct (dec_spec m) as (Hne & _); [unfold in_u8 in Hm; lia|].
  destruct (bytes (dec m)) as [|c l]; [done|]. by apply parse_ipv4_dot.
Qed.

Lemma bytes_dotted a b c d :
  bytes (dotted a b c d) =
  bytes (dec a) ++ "."%char :: bytes (dec b) ++ "."%char :: bytes (dec c) ++ "."%char :: bytes (dec d).
Proof. unfold dotted. by rewrite !bytes_app. Qed.

Lemma parse_ipv4_dotted a b c d :
  in_u8 a → in_u8 b → in_u8 c → in_u8 d →
  parse_ipv4_fields (bytes (dotted a b c d)) = Some [a; b; c; d].
Proof.
  intros Ha Hb Hc Hd. unfold parse_ipv4_fields. rewrite bytes_dotted.
  rewrite !dec_octet_dot by (done || (simpl; lia)).
  rewrite <- (app_nil_r (bytes (dec d))), dec_octet_dot by (done || (simpl; lia)).
  destruct (dec_octet d [a; b; c] [] Hd) as (k & _ & Hk). simpl app. rewrite Hk. done.
Qed.

(** The scan for the first dot or colon skips digits. *)
Lemma parse_ip_go_digits all l rest :
  forallb is_digit l = true → parse_ip_go all (l ++ rest) = parse_ip_go all rest.
Proof.
  induction l as [|c l IH]; simpl; [done|]. intros [Hc Hl]%andb_prop.
  apply is_digit_spec in Hc.
  assert (H : ∀ s, byte_val s < 48 ∨ 57 < byte_val s → Ascii.eqb c s = false).
  { intros s Hs. apply Ascii.eqb_neq. intros ->. lia. }
  rewrite !H; [by apply IH|first [left; by vm_compute|right; by vm_compute]..].
Qed.

Lemma ParseIP_dotted a b c d :
  in_u8 a → in_u8 b → in_u8 c → in_u8 d →
  ParseIP (dotted a b c d) = Some (v4_in_v6 [a; b; c; d]).
Proof.
  intros Ha Hb Hc Hd. unfold ParseIP. rewrite bytes_dotted at 2.
  pose proof (octet_ok_byte a Ha) as Ho. unfold octet_ok in Ho. bool_hyps.
  rewrite parse_ip_go_digits by done. cbn [parse_ip_go]. rewrite Ascii.eqb_refl.
  by rewrite parse_ipv4_dotted.
Qed.

Lemma To4_v4_in_v6 v4 : To4 (v4_in_v6 v4) = Some v4.
Proof. reflexivity. Qed.

(** ** [IP.String] *)
Definition hex_digit (d : Z) : ascii := if d <? 10 then byte_of (48 + d) else byte_of (87 + d).
Definition hex_byte (b : Z) : string := of_bytes [hex_digit (b / 16); hex_digit (b mod 16)].
(** A 16-bit group without leading zeros. *)
Definition hex_u16 (v : Z) : string :=
  let ds := [v / 4096; v / 256 mod 16; v / 16 mod 16] in
  let fix strip (l : list Z) := match l with d :: l' => if d =? 0 then strip l' else l | [] => [] end in
  of_bytes (map hex_digit (strip ds ++ [v mod 16])).

Fixpoint groups (ip : list Z) : list Z :=
  match ip with h :: l :: ip' => (h * 256 + l) :: groups ip' | _ => [] end.

Fixpoint zero_run (l : list Z) : nat :=
  match l with v :: l' => if v =? 0 then S (zero_run l') else 0 | [] => 0 end.
(** The first of the longest runs of two zero groups or more: its start and its end. *)
Fixpoint longest_run (i skip : nat) (l : list Z) (best : nat * nat) : nat * nat :=
  match l with
  | [] => best
  | _ :: l' =>
      match skip with
      | S k => longest_run (S i) k l' best
      | O =>
          let n := zero_run l in
          let best := if ((2 <=? n) && (best.2 - best.1 <? n))%nat then (i, (i + n)%nat) else best in
          longest_run (S i) n l' best
      end
  end.
Fixpoint ipv6_go (i skip : nat) (run : nat * nat) (l : list Z) : string :=
  match l with
  | [] => ""
  | v :: l' =>
      match skip with
      | S k => ipv6_go (S i) k run l'
      | O =>
          if ((i =? run.1) && (run.1 <? run.2))%nat
          then "::" +:+ ipv6_go (S i) (run.2 - run.1 - 1) run l'
          else (if (0 <? i)%nat && negb (i =? run.2)%nat then ":" else "") +:+ hex_u16 v +:+
               ipv6_go (S i) 0 run l'
      end
  end.

Definition IP_String (ip : list Z) : string :=
  match ip with
  | [] => "<nil>"
  | [a; b; c; d] => dotted a b c d
  | _ =>
      if (length ip =? 16)%nat then
        match To4 ip with
        | Some [a; b; c; d] => dotted a b c d
        | _ => let gs := groups ip in ipv6_go 0 0 (longest_run 0 0 gs (0, 0)%nat) gs
        end
      else "?" +:+ of_bytes (concat (map (λ b, bytes (hex_byte b)) ip))
  end.

Example IP_String_ex :
  map (λ s, IP_String <$> ParseIP s)
    ["10.0.0.1"; "::ffff:1.2.3.4"; "::1"; "::"; "1::"; "fe80:0:0:0:1:0:0:2"; "1:0:2:0:3:0:4:0";
     "2001:db8:0:0:1:0:0:1"; "0:0:1::"; "ABCD:0ef0::12"]
  = map Some ["10.0.0.1"; "1.2.3.4"; "::1"; "::"; "1::"; "fe80::1:0:0:2"; "1:0:2:0:3:0:4:0";
     "2001:db8::1:0:0:1"; "0:0:1::"; "abcd:ef0::12"].
Proof. vm_compute. reflexivity. Qed.

(** ** The bytes of an address *)
Definition addr_char (c : ascii) : bool :=
  match hex_val c with Some _ => true | None => Ascii.eqb c "." || Ascii.eqb c ":" end.
Definition addr_chars (l : list ascii) : Prop := Forall (λ c, addr_char c = true) l.

Lemma digit_addr c : is_digit c = true → addr_char c = true.
Proof. destruct c as [[] [] [] [] [] [] [] []]; vm_compute; congruence. Qed.

Lemma parse_ipv4_chars l val digits acc v : parse_ipv4_go l val digits acc = Some v → addr_chars l.
Proof.
  revert val digits acc. induction l as [|c l IH]; intros val digits acc; cbn [parse_ipv4_go]; [by constructor|].
  destruct (is_digit c) eqn:Hd.
  - destruct (_ && _); [done|]. destruct (255 <? _); [done|]. intros ?%IH. constructor; [by apply digit_addr|done].
  - destruct (Ascii.eqb_spec c "."); [subst|done]. destruct (_ || _); [done|]. destruct (_ =? 3); [done|].
    intros ?%IH. by constructor.
Qed.

Lemma hex_group_chars l acc off a o rest :
  hex_group l acc off = Some (a, o, rest) → ∃ d, l = d ++ rest ∧ addr_chars d.
Proof.
  revert acc off. induction l as [|c l IH]; intros acc off; cbn [hex_group].
  { intros [= <- <- <-]. exists []. by split; [|constructor]. }
  destruct (hex_val c) as [v|] eqn:Hv; [|intros [= <- <- <-]; exists []; by split; [|constructor]].
  destruct (3 <? off); [done|]. intros (d & -> & Hd)%IH. exists (c :: d). split; [done|].
  constructor; [by unfold addr_char; rewrite Hv|done].
Qed.

Lemma parse_ipv6_chars fuel l ip e v : parse_ipv6_go fuel l ip e = Some v → addr_chars l.
Proof.
  revert l ip e. induction fuel as [|fuel IH]; intros l ip e; cbn [parse_ipv6_go].
  { destruct l; [by constructor|done]. }
  destruct (hex_group l 0 0) as [[[a o] rest]|] eqn:Hg; cbn [mbind option_bind]; [|done].
  destruct (o =? 0); [done|]. apply hex_group_chars in Hg as (d & -> & Hd).
  assert (Hadd : ∀ r, addr_chars r → addr_chars (d ++ r)) by (intros; by apply Forall_app).
  repeat first [progress intros|done|case_match]; simplify_eq.
  all: match goal with
       | H : parse_ipv4_fields _ ≫= _ = Some _ |- _ =>
           apply bind_Some in H as (? & H & _); exact (parse_ipv4_chars _ _ _ _ _ H)
       | _ => apply Hadd; repeat first [eapply IH; eassumption|constructor; [done|]|by constructor]
       end.
Qed.

Lemma parse_ipv6_text l v : parse_ipv6 l = Some v → addr_chars l.
Proof.
  unfold parse_ipv6. intros H.
  repeat case_match; subst;
    repeat first [done|eapply parse_ipv6_chars; eassumption|constructor; [done|]|by constructor].
Qed.

Lemma ParseIP_chars ip : ParseIP ip ≠ None → addr_chars (bytes ip).
Proof.
  unfold ParseIP. generalize (bytes ip) at 2. intros l. induction l as [|c l IH]; cbn [parse_ip_go]; [done|].
  destruct (Ascii.eqb c ".").
  { destruct (parse_ipv4_fields (bytes ip)) eqn:Hp; [intros _; exact (parse_ipv4_chars _ _ _ _ _ Hp)|done]. }
  destruct (Ascii.eqb c ":"); [|by destruct (Ascii.eqb c "%")].
  destruct (existsb _ _); [done|]. destruct (parse_ipv6 (bytes ip)) eqn:Hp; [intros _; exact (parse_ipv6_text _ _ Hp)|done].
Qed.

Lemma ParseIP_without ip c : ParseIP ip ≠ None → addr_char c = false → c ∉ bytes ip.
Proof.
  intros Hip Hc Hin. apply ParseIP_chars in Hip. unfold addr_chars in Hip. rewrite Forall_forall in Hip.
  apply Hip in Hin. congruence.
Qed.
