(* ===== verification/GoText.v ===== *)
(** * Occurrences and cuts in texts

    What [strings.Contains] and [strings.Split] say of texts put together from known parts:
    where a text can occur in a concatenation, and the parts a separator that starts with
    a byte found nowhere else leaves. *)

From S2P Require Import Prelude.
From S2P Require Import GoStrings.

(** ** Occurrences in a text *)
Lemma prefix_spec sub s : String.prefix sub s = true ↔ ∃ q, bytes s = bytes sub ++ q.
Proof.
  revert s. induction sub as [|c sub IH]; intros s; cbn [String.prefix bytes app].
  { split; [eauto|]. by destruct s. }
  destruct s as [|d s]; cbn [String.prefix bytes].
  { split; [done|]. by intros [q Hq]. }
  destruct (ascii_dec c d) as [->|Hne].
  - rewrite IH. split; intros [q Hq]; exists q; by simplify_eq/=; f_equal.
  - split; [done|]. intros [q Hq]. congruence.
Qed.

Lemma str_contains_spec s sub : str_contains s sub = true ↔ ∃ p q, bytes s = p ++ bytes sub ++ q.
Proof.
  induction s as [|c s IH]; cbn [str_contains]; rewrite orb_true_iff, prefix_spec.
  - split; [intros [[q Hq]|]; [by exists [], q|done]|].
    intros ([|? p] & q & Hq); [left; by exists q|done].
  - rewrite IH. split.
    + intros [[q Hq]|(p & q & Hq)]; [by exists [], q|]. exists (c :: p), q. cbn [bytes]. by rewrite Hq.
    + intros ([|d p] & q & Hq); [left; by exists q|]. right. exists p, q. cbn [bytes app] in Hq. by injection Hq.
Qed.

(** A text without [c] occurs in [a], [c], [b] when it occurs in [a] or in [b]. *)
Lemma occurs_apart (c : ascii) (a b p m q : list ascii) :
  c ∉ m → a ++ c :: b = p ++ m ++ q →
  (∃ q', a = p ++ m ++ q') ∨ (∃ p', b = p' ++ m ++ q).
Proof.
  intros Hm Heq. apply app_eq_inv in Heq as [(k & -> & Hk)|(k & -> & Hk)].
  - apply app_eq_inv in Hk as [(k2 & -> & Hk2)|(k2 & -> & Hk2)].
    + destruct k2 as [|d k2]; simplify_eq/=.
      * left. exists []. by rewrite !app_nil_r.
      * set_solver.
    + left. by exists k2.
  - destruct k as [|d k]; simplify_eq/=.
    + destruct m as [|d m]; simplify_eq/=; [|set_solver]. left. exists []. by rewrite !app_nil_r.
    + right. by exists k.
Qed.

(** A byte that occurs once fixes its place. *)
Lemma once_app (c : ascii) (a b a' b' : list ascii) :
  c ∉ a → c ∉ b → a ++ c :: b = a' ++ c :: b' → a' = a ∧ b' = b.
Proof.
  intros Ha Hb Heq. apply app_eq_inv in Heq as [(k & -> & Hk)|(k & -> & Hk)]; destruct k as [|d k]; simplify_eq/=.
  all: first [by rewrite app_nil_r|set_solver].
Qed.

(** The parts before the first [c]. *)
Lemma before_first (c : ascii) (a b a' b' : list ascii) :
  c ∉ a → c ∉ a' → a ++ c :: b = a' ++ c :: b' → a' = a ∧ b' = b.
Proof.
  intros Ha Hb Heq. apply app_eq_inv in Heq as [(k & -> & Hk)|(k & -> & Hk)]; destruct k as [|d k]; simplify_eq/=.
  all: first [by rewrite app_nil_r|set_solver].
Qed.

(** *** [strings.Split] *)
Lemma split_go_before c sep a cur s :
  c ∉ a → split_go (String c sep) 0 cur (of_bytes a +:+ s) = split_go (String c sep) 0 (rev a ++ cur) s.
Proof.
  revert cur. induction a as [|d a IH]; intros cur Hc; [done|].
  rewrite not_elem_of_cons in Hc. destruct Hc as [Hd Hc]. cbn [of_bytes rev].
  change (String d (of_bytes a) +:+ s) with (String d (of_bytes a +:+ s)). cbn [split_go String.prefix].
  destruct (ascii_dec c d); [done|]. rewrite IH by done. by rewrite <- app_assoc.
Qed.

Lemma split_go_skip sep (x : string) cur s :
  split_go sep (String.length x) cur (x +:+ s) = split_go sep 0 cur s.
Proof. induction x as [|c x IH]; [done|]. exact IH. Qed.

Lemma split_go_sep c sep cur s :
  split_go (String c sep) 0 cur (String c sep +:+ s) = of_bytes (rev cur) :: split_go (String c sep) 0 [] s.
Proof.
  change (String c sep +:+ s) with (String c (sep +:+ s)). cbn [split_go].
  replace (String.prefix (String c sep) (String c (sep +:+ s))) with true.
  - f_equal. cbn [String.length pred]. apply split_go_skip.
  - symmetry. apply prefix_spec. exists (bytes s). cbn [bytes app]. by rewrite bytes_app.
Qed.

Lemma split_go_end c sep a cur :
  c ∉ a → split_go (String c sep) 0 cur (of_bytes a) = [of_bytes (rev cur ++ a)].
Proof.
  intros Hc. assert (Hn : of_bytes a = of_bytes a +:+ EmptyString).
  { apply bytes_inj. rewrite bytes_app. cbn [bytes]. by rewrite app_nil_r. }
  rewrite Hn, split_go_before by done. cbn [split_go]. by rewrite rev_app_distr, rev_involutive.
Qed.

Lemma split_once c sep a b :
  c ∉ bytes a → c ∉ bytes b → split_str (a +:+ String c sep +:+ b) (String c sep) = [a; b].
Proof.
  intros Ha Hb. unfold split_str. rewrite <- (of_bytes_bytes a), split_go_before, split_go_sep by done.
  rewrite <- (of_bytes_bytes b), split_go_end by done. by rewrite app_nil_r, rev_involutive.
Qed.

Lemma split_join c l ls :
  Forall (λ s, c ∉ bytes s) (l :: ls) →
  split_str (str_join (String c EmptyString) (l :: ls)) (String c EmptyString) = l :: ls.
Proof.
  unfold split_str. revert l. induction ls as [|l' ls IH]; intros l; rewrite Forall_cons; intros [Hl Hls].
  - cbn [str_join]. rewrite <- (of_bytes_bytes l) at 1. rewrite split_go_end by done. cbn [rev app]. by rewrite of_bytes_bytes.
  - change (str_join _ (l :: l' :: ls)) with (l +:+ String c EmptyString +:+ str_join (String c EmptyString) (l' :: ls)).
    rewrite <- (of_bytes_bytes l) at 1. rewrite split_go_before, split_go_sep by done.
    rewrite app_nil_r, rev_involutive, of_bytes_bytes. f_equal. by apply IH.
Qed.

(** A text without [c] occurs in the lines joined by [c] when it occurs in one of them. *)
Lemma join_contains c l ls sub :
  c ∉ bytes sub →
  str_contains (str_join (String c EmptyString) (l :: ls)) sub = true ↔
  ∃ s, s ∈ l :: ls ∧ str_contains s sub = true.
Proof.
  intros Hc. revert l. induction ls as [|l' ls IH]; intros l; [set_solver|].
  change (str_join _ (l :: l' :: ls)) with (l +:+ String c EmptyString +:+ str_join (String c EmptyString) (l' :: ls)).
  trans (str_contains l sub = true ∨ ∃ s, s ∈ l' :: ls ∧ str_contains s sub = true); [rewrite <- IH|set_solver].
  rewrite !str_contains_spec, !bytes_app. cbn [bytes app]. split.
  - intros (p & q & Heq). apply occurs_apart in Heq as [[q' ->]|[p' ->]]; [| |done]; eauto.
  - intros [(p & q & ->)|(p & q & ->)].
    + exists p, (q ++ c :: bytes (str_join (String c EmptyString) (l' :: ls))). by rewrite <- !app_assoc.
    + exists (bytes l ++ c :: p), q. by rewrite <- !app_assoc.
Qed.
