(* ===== verification/GoFloat.v ===== *)
(** * Floating point numbers of Go

    A [float64] or [float32] is a [spec_float] of the Standard Library; the operations
    round to 53 bits.  The text is that of the verbs [%.1f] and [%.2f] of fmt: the exact
    value rounded to the nearest decimal, a tie to the even digit. *)

From Stdlib Require Export Floats.SpecFloat.
From S2P Require Import Prelude.
From S2P Require Import GoStrings.

Definition float64 : Type := spec_float.
Definition float32 : Type := spec_float.
Definition of_uint64 (n : Z) : float64 := binary_normalize 53 1024 n 0 false.
Definition float_ge (x y : float64) : bool := SFleb y x.
Definition float_gt (x y : float64) : bool := SFltb y x.
Definition f64_div (x y : float64) : float64 := SFdiv 53 1024 x y.

(** ** Decimal text *)

(** [n / d] rounded to the nearest integer. *)
Definition round_half_even (n d : Z) : Z :=
  let q := n / d in
  let r := n mod d in
  if (2 * r <? d) || ((2 * r =? d) && Z.even q) then q else q + 1.

(** An integer of up to 320 digits. *)
Definition dec_large (n : Z) : string := of_bytes (dec_go 320 n []).

Definition pad_left (width : nat) (s : string) : string :=
  of_bytes (replicate (width - length (bytes s)) (digit_char 0)) +:+ s.

Definition fixed_digits (prec : nat) (n : Z) : string :=
  let scale := 10 ^ Z.of_nat prec in
  dec_large (n / scale) +:+ "." +:+ pad_left prec (dec_large (n mod scale)).

(** The scaled value of a finite number without its sign. *)
Definition scaled (prec : nat) (m : positive) (e : Z) : Z :=
  let n := Zpos m * 10 ^ Z.of_nat prec in
  if 0 <=? e then n * 2 ^ e else round_half_even n (2 ^ (- e)).

Definition minus (negative : bool) : string := if negative then "-" else EmptyString.

(** [fmt.Sprintf("%.<prec>f", x)]. *)
Definition format_fixed (prec : nat) (x : spec_float) : string :=
  match x with
  | S754_zero s => minus s +:+ fixed_digits prec 0
  | S754_infinity s => (if s then "-" else "+") +:+ "Inf"
  | S754_nan => "NaN"
  | S754_finite s m e => minus s +:+ fixed_digits prec (scaled prec m e)
  end.

Lemma round_half_even_near n d : 0 < d → 2 * Z.abs (d * round_half_even n d - n) <= d.
Proof.
  intros Hd. unfold round_half_even. pose proof (Z.div_mod n d ltac:(lia)). pose proof (Z.mod_pos_bound n d Hd).
  destruct (2 * (n mod d) <? d) eqn:H1; cbn [orb]; bool_hyps; [nia|].
  destruct ((2 * (n mod d) =? d) && Z.even (n / d)) eqn:H2; bool_hyps; nia.
Qed.

(** ** The order of the numbers

    Infinities, sign, exponent and mantissa as one key: the comparison of Go is the
    lexicographic order of the keys, with [NaN] apart. *)
Definition float_key (x : spec_float) : Z * Z * Z :=
  match x with
  | S754_zero _ => (0, 0, 0)
  | S754_infinity s => (if s then -2 else 2, 0, 0)
  | S754_nan => (0, 0, 0)
  | S754_finite true m e => (-1, - e, - Zpos m)
  | S754_finite false m e => (1, e, Zpos m)
  end.
Definition is_nan (x : spec_float) : bool := match x with S754_nan => true | _ => false end.
Definition key_lt (a b : Z * Z * Z) : Prop :=
  let '(a1, a2, a3) := a in let '(b1, b2, b3) := b in
  a1 < b1 ∨ a1 = b1 ∧ (a2 < b2 ∨ a2 = b2 ∧ a3 < b3).

Lemma float_gt_key x y :
  is_nan x = false → is_nan y = false → float_gt x y = true ↔ key_lt (float_key y) (float_key x).
Proof.
  unfold float_gt, SFltb, SFcompare, key_lt, float_key.
  destruct x as [sx|sx| |sx mx ex], y as [sy|sy| |sy my ey]; try done; intros _ _.
  all: try destruct sx; try destruct sy; try (split; [done|lia]); try (split; [lia|done]).
  all: destruct (Z.compare_spec ey ex) as [->|?|?]; try (split; [done|lia]); try (split; [lia|done]).
  all: change (PosDef.Pos.compare_cont Eq my mx) with (my ?= mx)%positive.
  all: destruct (Pos.compare_spec my mx) as [->|?|?]; cbn [CompOpp]; split; try done; lia.
Qed.

(** Of three numbers in a row none of which is above the one before, the last is not
    above the first. *)
Lemma float_gt_trans x y z :
  is_nan x = false → is_nan y = false → is_nan z = false →
  float_gt y x = false → float_gt z y = false → float_gt z x = false.
Proof.
  intros Hx Hy Hz H1 H2. apply not_true_iff_false in H1, H2. apply not_true_iff_false.
  rewrite float_gt_key in * by done. unfold key_lt in *.
  destruct (float_key x) as [[x1 x2] x3], (float_key y) as [[y1 y2] y3], (float_key z) as [[z1 z2] z3]. lia.
Qed.

Example format_fixed_2 : format_fixed 2 (f64_div (of_uint64 1) (of_uint64 8)) = "0.12".
Proof. reflexivity. Qed.
Example format_fixed_1 : format_fixed 1 (f64_div (of_uint64 199) (of_uint64 20)) = "9.9".
Proof. reflexivity. Qed.
