(* ===== verification/Words.v ===== *)
(** * Words as bytes: encoding/binary

    A byte is a number from 0 to 255.  [le_load] and [be_load] are the value of a list of
    bytes in the two orders, [le_bytes n] and [be_bytes n] the [n] bytes of a value. *)

From S2P Require Import Prelude.

Definition is_byte (b : Z) : Prop := 0 <= b < 256.

Fixpoint le_load (l : list Z) : Z :=
  match l with [] => 0 | b :: l' => b + 256 * le_load l' end.
Definition be_load (l : list Z) : Z := le_load (rev l).

Fixpoint le_bytes (n : nat) (v : Z) : list Z :=
  match n with O => [] | S n' => v mod 256 :: le_bytes n' (v / 256) end.
Definition be_bytes (n : nat) (v : Z) : list Z := rev (le_bytes n v).

Lemma length_le_bytes n v : length (le_bytes n v) = n.
Proof. revert v. induction n; intros v; simpl; [done|]. by rewrite IHn. Qed.

Lemma le_bytes_byte n v : Forall is_byte (le_bytes n v).
Proof.
  revert v. induction n as [|n IH]; intros v; simpl; constructor; [|done].
  unfold is_byte. pose proof (Z.mod_pos_bound v 256). lia.
Qed.

Lemma le_load_range l : Forall is_byte l → 0 <= le_load l < 256 ^ Z.of_nat (length l).
Proof.
  induction 1 as [|b l Hb _ IH]; [done|]. cbn [le_load length]. unfold is_byte in Hb.
  rewrite Nat2Z.inj_succ, Z.pow_succ_r by lia. nia.
Qed.

Lemma le_load_bytes n v : 0 <= v < 256 ^ Z.of_nat n → le_load (le_bytes n v) = v.
Proof.
  revert v. induction n as [|n IH]; intros v; [simpl; lia|].
  rewrite Nat2Z.inj_succ, Z.pow_succ_r by lia. intros Hv. cbn [le_bytes le_load].
  rewrite IH; [pose proof (Z.div_mod v 256); lia|].
  split; [apply Z.div_pos; lia|]. apply Z.div_lt_upper_bound; lia.
Qed.

Lemma le_bytes_load l : Forall is_byte l → le_bytes (length l) (le_load l) = l.
Proof.
  induction 1 as [|b l Hb _ IH]; [done|]. cbn [length le_load le_bytes]. unfold is_byte in Hb.
  rewrite (Z.mul_comm 256), Z.mod_add, Z.mod_small, Z.div_add, Z.div_small by lia.
  by rewrite Z.add_0_l, IH.
Qed.

Lemma be_load_bytes n v : 0 <= v < 256 ^ Z.of_nat n → be_load (be_bytes n v) = v.
Proof. intros Hv. unfold be_load, be_bytes. by rewrite rev_involutive, le_load_bytes. Qed.

Lemma be_load_range l : Forall is_byte l → 0 <= be_load l < 256 ^ Z.of_nat (length l).
Proof.
  intros Hl. unfold be_load. rewrite <- length_rev. apply le_load_range.
  rewrite Forall_forall in *. intros x Hx. apply Hl. by rewrite elem_of_rev in Hx.
Qed.

(** [bpf_ntohs], [bpf_ntohl]: the value with its bytes in the other order. *)
Definition swap_bytes (n : nat) (v : Z) : Z := be_load (le_bytes n v).

Lemma swap_le_load l : Forall is_byte l → swap_bytes (length l) (le_load l) = be_load l.
Proof. intros Hl. unfold swap_bytes. by rewrite le_bytes_load. Qed.

Lemma le_bytes_be_load l : Forall is_byte l → le_bytes (length l) (be_load l) = rev l.
Proof.
  intros Hl. unfold be_load. rewrite <- (length_rev l). apply le_bytes_load.
  rewrite Forall_forall in *. intros x Hx. apply Hl. by rewrite elem_of_rev in Hx.
Qed.
