(* ===== verification/Policy.v ===== *)
(** * pkg/user-command-controller-policy: what the command controller matches on

    [Selected]/[WouldBlock] decide an execution attempt, [ParseUIDs] and
    [NormalizeCommands] read the two target lists of the configuration, [HostUID]
    translates a uid of a user namespace to a host uid through a [uid_map]. *)

From S2P Require Import Prelude.
From S2P Require Import GoStrings.

(** ** The errors of the package, one constructor per [fmt.Errorf] *)
Inductive policy_err : Type :=
| InvalidUID (s : string)
| InvalidCommand (s : string)
| InvalidOrTooLongCommand (s : string)
| MalformedUidMapLine (line : string)
| UIDOverflow (uid : Z).
#[global] Instance policy_err_eq_dec : EqDecision policy_err.
Proof. solve_decision. Defined.

(** ** The decision *)
Definition Selected (hasUsers hasCommands userMatch commandMatch : bool) : bool :=
  (hasUsers || hasCommands) && (negb hasUsers || userMatch) && (negb hasCommands || commandMatch).

Definition WouldBlock (blockType : string) (selected : bool) : bool :=
  if bool_decide (blockType = "positive") then selected else negb selected.

(** ** [ParseUIDs]: the [seen] map is the set of uids already in [out] *)
Definition parse_uid (s : string) : result policy_err Z :=
  if bool_decide (s = "") || negb (bool_decide (trim_space s = s)) then Err (InvalidUID s)
  else match parse_uint 32 s with
       | None => Err (InvalidUID s)
       | Some n => if n =? 4294967295 then Err (InvalidUID s) else Ok (wrap_u32 n)
       end.

Fixpoint ParseUIDs_loop (values : list string) (seen : gset Z) (out : list Z)
    : result policy_err (list Z) :=
  match values with
  | [] => Ok out
  | s :: values' =>
      uid ← parse_uid s;
      if decide (uid ∈ seen) then ParseUIDs_loop values' seen out
      else ParseUIDs_loop values' ({[uid]} ∪ seen) (out ++ [uid])
  end.
Definition ParseUIDs (values : list string) : result policy_err (list Z) :=
  ParseUIDs_loop values ∅ [].

(** ** [NormalizeCommands] *)
Definition normalize_command (value : string) : result policy_err string :=
  if bool_decide (value = "") || negb (bool_decide (trim_space value = value))
     || contains_byte value 0
  then Err (InvalidCommand value)
  else
    let name := filepath_base value in
    if bool_decide (name = ".") || bool_decide (name = "/") || (63 <? str_len name)
    then Err (InvalidOrTooLongCommand value)
    else Ok name.

Fixpoint NormalizeCommands_loop (values : list string) (seen : gset string) (out : list string)
    : result policy_err (list string) :=
  match values with
  | [] => Ok out
  | value :: values' =>
      name ← normalize_command value;
      if decide (name ∈ seen) then NormalizeCommands_loop values' seen out
      else NormalizeCommands_loop values' ({[name]} ∪ seen) (out ++ [name])
  end.
Definition NormalizeCommands (values : list string) : result policy_err (list string) :=
  NormalizeCommands_loop values ∅ [].

(** ** [HostUID]: [Ok None] is [(0, false, nil)], [Ok (Some h)] is [(h, true, nil)] *)
Fixpoint HostUID_loop (uid : Z) (lines : list string) : result policy_err (option Z) :=
  match lines with
  | [] => Ok None
  | line :: lines' =>
      match fields line with
      | [] => HostUID_loop uid lines'
      | [f0; f1; f2] =>
          match parse_uint 32 f0, parse_uint 32 f1, parse_uint 32 f2 with
          | Some inside, Some outside, Some count =>
              if count =? 0 then Err (MalformedUidMapLine line)
              else
                let n := wrap_u64 uid in
                if (inside <=? n) && (wrap_u64 (n - inside) <? count) then
                  let mapped := wrap_u64 (outside + wrap_u64 (n - inside)) in
                  if 4294967295 <? mapped then Err (UIDOverflow uid)
                  else Ok (Some (wrap_u32 mapped))
                else HostUID_loop uid lines'
          | _, _, _ => Err (MalformedUidMapLine line)
          end
      | _ => Err (MalformedUidMapLine line)
      end
  end.
Definition HostUID (uid : Z) (uidMapText : string) : result policy_err (option Z) :=
  HostUID_loop uid (split_str uidMapText nl).

(** The table of [TestRootUIDMapping] and of [TestCommandBasenameNormalization]. *)
Example HostUID_tests :
  map (HostUID 0)
    ["0 0 4294967295" +:+ nl; "0 100000 65536" +:+ nl;
     "0 200000 1" +:+ nl +:+ "1 300000 65535" +:+ nl; "1000 100000 1000" +:+ nl] = [Ok (Some 0); Ok (Some 100000); Ok (Some 200000); Ok None].
Proof. vm_compute. reflexivity. Qed.
Example NormalizeCommands_test :
  NormalizeCommands ["/usr/bin/curl"; "curl"; "wget"] = Ok ["curl"; "wget"].
Proof. vm_compute. reflexivity. Qed.

(** ** The two list readers are "map, then keep first occurrences" *)
Fixpoint mapM_result {E A B} (f : A → result E B) (l : list A) : result E (list B) :=
  match l with
  | [] => Ok []
  | x :: l' => y ← f x; ys ← mapM_result f l'; Ok (y :: ys)
  end.

Lemma mapM_result_ok {E A B} (f : A → result E B) l k :
  mapM_result f l = Ok k ↔ Forall2 (λ x y, f x = Ok y) l k.
Proof.
  revert k. induction l as [|x l IH]; intros k; simpl.
  - split; [by intros [= <-]|by inversion 1].
  - split.
    + destruct (f x) as [y|] eqn:Hx; simpl; [|done].
      destruct (mapM_result f l) as [ys|]; simpl; [|done].
      intros [= <-]. constructor; [done|]. by apply IH.
    + inversion 1 as [|? y ? ys Hy Hys]; subst. rewrite Hy. simpl.
      apply IH in Hys. by rewrite Hys.
Qed.

Lemma mapM_result_err {E A B} (f : A → result E B) l e :
  mapM_result f l = Err e → ∃ x, x ∈ l ∧ f x = Err e.
Proof.
  induction l as [|x l IH]; simpl; [done|].
  destruct (f x) as [y|e'] eqn:Hx; simpl.
  - destruct (mapM_result f l); simpl; [done|]. intros [= <-].
    destruct IH as (z & Hz & Hf); [done|]. exists z. set_solver.
  - intros [= <-]. exists x. set_solver.
Qed.

(** Both loops, with the [seen] set tied to the list [out] it mirrors. *)
Section DedupLoop.
Context {A : Type} `{Countable A}.
Context (f : string → result policy_err A).

Fixpoint dedup_loop (values : list string) (seen : gset A) (out : list A)
    : result policy_err (list A) :=
  match values with
  | [] => Ok out
  | s :: values' =>
      x ← f s;
      if decide (x ∈ seen) then dedup_loop values' seen out
      else dedup_loop values' ({[x]} ∪ seen) (out ++ [x])
  end.

Lemma dedup_loop_spec values seen out l :
  (∀ x, x ∈ seen ↔ x ∈ l) →
  dedup_loop values seen out = us ← mapM_result f values; Ok (out ++ first_occ_from l us).
Proof.
  revert seen out l. induction values as [|s values IH]; intros seen out l Hs; simpl.
  - by rewrite app_nil_r.
  - destruct (f s) as [x|e]; simpl; [|done]. case_decide as Hx.
    + rewrite (IH _ _ l Hs). destruct (mapM_result f values) as [us|]; simpl; [|done].
      rewrite decide_True by by apply Hs. done.
    + rewrite (IH _ _ (x :: l)) by set_solver.
      destruct (mapM_result f values) as [us|]; simpl; [|done].
      rewrite decide_False by by rewrite <- Hs. by rewrite <- app_assoc.
Qed.
End DedupLoop.

Lemma ParseUIDs_dedup values : ParseUIDs values = us ← mapM_result parse_uid values; Ok (first_occ us).
Proof. apply (dedup_loop_spec parse_uid values ∅ [] []). set_solver. Qed.
Lemma NormalizeCommands_dedup values :
  NormalizeCommands values = ns ← mapM_result normalize_command values; Ok (first_occ ns).
Proof. apply (dedup_loop_spec normalize_command values ∅ [] []). set_solver. Qed.

(** ** What a valid uid text is *)
Definition uid_text (s : string) (u : Z) : Prop :=
  digits_value s = Some u ∧ u < 2 ^ 32 - 1.

Lemma digits_value_trimmed s u : digits_value s = Some u → s ≠ "" ∧ trim_space s = s.
Proof.
  unfold digits_value. destruct s as [|c s]; [done|]. intros Hd%digits_go_digits.
  split; [done|]. change (bytes (String c s)) with (c :: bytes s) in Hd.
  destruct (last (c :: bytes s)) as [d|] eqn:Hlast; [|by apply last_None in Hlast].
  eapply trim_space_ink; [done|exact Hlast| |].
  - apply digit_ink. by inversion Hd.
  - apply digit_ink. rewrite Forall_forall in Hd. apply Hd. by apply last_Some_elem_of.
Qed.

Lemma parse_uid_ok s u : parse_uid s = Ok u ↔ uid_text s u.
Proof.
  unfold parse_uid, uid_text, parse_uint. split.
  - intros H. destruct (_ || _)%bool; [done|].
    destruct (digits_value s) as [n|] eqn:Hd; [|done]. apply digits_value_nonneg in Hd.
    destruct (n <? 2 ^ 32) eqn:Hlt; [|done]. destruct (n =? 4294967295) eqn:Hs; [done|].
    bool_hyps. injection H as <-. rewrite wrap_u32_small by (unfold in_u32; lia).
    split; [done|lia].
  - intros [Hd Hlt]. destruct (digits_value_trimmed s u Hd) as [Hne Htr].
    apply digits_value_nonneg in Hd as Hpos. rewrite Hd, Htr.
    rewrite !bool_decide_false by done. rewrite bool_decide_true by done. simpl.
    rewrite (proj2 (Z.ltb_lt u _)) by lia. rewrite (proj2 (Z.eqb_neq u _)) by lia.
    by rewrite wrap_u32_small by (unfold in_u32; lia).
Qed.

(** Reading the uid list. *)
Theorem ParseUIDs_spec values out :
  ParseUIDs values = Ok out ↔ ∃ us, Forall2 uid_text values us ∧ out = first_occ us.
Proof.
  rewrite ParseUIDs_dedup. split.
  - destruct (mapM_result parse_uid values) as [us|] eqn:Hus; simpl; [|done].
    intros [= <-]. exists us. split; [|done]. apply mapM_result_ok in Hus.
    eapply Forall2_impl; [exact Hus|]. intros ?? ?. by apply parse_uid_ok.
  - intros (us & Hus & ->).
    assert (mapM_result parse_uid values = Ok us) as ->; [|done].
    apply mapM_result_ok. eapply Forall2_impl; [exact Hus|]. intros ?? ?. by apply parse_uid_ok.
Qed.

Lemma parse_uid_range s u : parse_uid s = Ok u → in_u32 u.
Proof.
  intros [Hd Hlt]%parse_uid_ok. apply digits_value_nonneg in Hd. unfold in_u32. lia.
Qed.

Lemma ParseUIDs_range values out : ParseUIDs values = Ok out → Forall in_u32 out.
Proof.
  rewrite ParseUIDs_dedup. destruct (mapM_result parse_uid values) as [us|] eqn:Hus; simpl; [|done].
  intros [= <-]. apply mapM_result_ok in Hus. apply Forall_forall. intros u.
  rewrite elem_of_first_occ. intros (s & _ & Hs)%(Forall2_elem_r _ _ _ u Hus). by eapply parse_uid_range.
Qed.

(** ** What a normalized command name is *)
Definition command_name (name : string) : Prop :=
  name ≠ "" ∧ str_len name <= 63 ∧
  Forall (λ c, is_slash c = false ∧ byte_val c ≠ 0) (bytes name).

Lemma normalize_command_ok v n :
  normalize_command v = Ok n → n = filepath_base v ∧ command_name n.
Proof.
  unfold normalize_command. intros H. destruct (_ || _)%bool eqn:Hv; [done|].
  destruct (_ || _)%bool eqn:Hn in H; [done|]. injection H as <-. bool_hyps.
  split; [done|]. unfold command_name.
  destruct (filepath_base_spec v) as [?|[?|(Hsub & Hne & Hns)]]; [done|done|].
  split_and!; [done|done|]. rewrite Forall_forall in Hns |- *. intros c Hc.
  split; [by apply Hns|]. intros Hz.
  assert (contains_byte v 0 = true); [|congruence].
  apply existsb_exists. exists c. split; [|by apply Z.eqb_eq].
  apply list_elem_of_In. by apply Hsub.
Qed.

Lemma NormalizeCommands_ok values out :
  NormalizeCommands values = Ok out →
  NoDup out ∧ Forall command_name out ∧
  (∀ n, n ∈ out ↔ ∃ v, v ∈ values ∧ n = filepath_base v).
Proof.
  rewrite NormalizeCommands_dedup.
  destruct (mapM_result normalize_command values) as [ns|] eqn:Hns; simpl; [|done].
  intros [= <-]. apply mapM_result_ok in Hns.
  assert (Hf : Forall2 (λ v n, n = filepath_base v ∧ command_name n) values ns).
  { eapply Forall2_impl; [exact Hns|]. intros ??. apply normalize_command_ok. }
  split_and!; [auto with od| |].
  - apply Forall_forall. intros n. rewrite elem_of_first_occ.
    intros (v & _ & _ & ?)%(Forall2_elem_r _ _ _ n Hf). done.
  - intros n. rewrite elem_of_first_occ. split.
    + intros (v & ? & ? & _)%(Forall2_elem_r _ _ _ n Hf). eauto.
    + intros (v & Hv & ->). destruct (Forall2_elem_l _ _ _ v Hf Hv) as (n & ? & -> & _). done.
Qed.

(** ** [uid_map] as a list of extents *)
Record extent := Extent { ext_inside : Z; ext_outside : Z; ext_count : Z }.

Definition parse_extent (line : string) : option extent :=
  match fields line with
  | [f0; f1; f2] =>
      inside ← parse_uint 32 f0; outside ← parse_uint 32 f1; count ← parse_uint 32 f2;
      if count =? 0 then None else Some (Extent inside outside count)
  | _ => None
  end.

(** The extents of a text all of whose non-blank lines are well formed. *)
Fixpoint extents (lines : list string) : option (list extent) :=
  match lines with
  | [] => Some []
  | line :: lines' =>
      match fields line with
      | [] => extents lines'
      | _ => e ← parse_extent line; es ← extents lines'; Some (e :: es)
      end
  end.

Definition covers (uid : Z) (e : extent) : bool :=
  (ext_inside e <=? uid) && (uid <? ext_inside e + ext_count e).
Definition translate (uid : Z) (e : extent) : Z := ext_outside e + (uid - ext_inside e).

Definition lookup_extents (uid : Z) (es : list extent) : result policy_err (option Z) :=
  match List.find (covers uid) es with
  | None => Ok None
  | Some e => if translate uid e <? 2 ^ 32 then Ok (Some (translate uid e)) else Err (UIDOverflow uid)
  end.

Lemma parse_extent_range line e :
  parse_extent line = Some e → in_u32 (ext_inside e) ∧ in_u32 (ext_outside e) ∧
  1 <= ext_count e < 2 ^ 32.
Proof.
  unfold parse_extent. intros H. destruct (fields line) as [|f0 [|f1 [|f2 [|? ?]]]]; try done.
  destruct (parse_uint 32 f0) as [i|] eqn:Hi; [|done].
  destruct (parse_uint 32 f1) as [o|] eqn:Ho; [|done].
  destruct (parse_uint 32 f2) as [n|] eqn:Hn; [|done]. simpl in H.
  destruct (n =? 0) eqn:Hz; [done|]. injection H as <-. bool_hyps.
  apply parse_uint_range in Hi, Ho, Hn. unfold in_u32. simpl. lia.
Qed.

(** One well-formed line of the loop. *)
Lemma HostUID_loop_cons uid line lines e :
  in_u32 uid → parse_extent line = Some e →
  HostUID_loop uid (line :: lines) =
    if covers uid e then lookup_extents uid [e] else HostUID_loop uid lines.
Proof.
  intros Hu He. pose proof (parse_extent_range _ _ He) as (Hi & Ho & Hc).
  unfold parse_extent in He. simpl HostUID_loop.
  destruct (fields line) as [|f0 [|f1 [|f2 [|? ?]]]]; try done.
  destruct (parse_uint 32 f0) as [i|]; [|done].
  destruct (parse_uint 32 f1) as [o|]; [|done].
  destruct (parse_uint 32 f2) as [n|]; [|done]. simpl in He.
  destruct (n =? 0); [done|]. injection He as <-. unfold in_u32 in *. simpl in *.
  unfold lookup_extents, translate, covers. simpl.
  rewrite (wrap_u64_small uid) by (unfold in_u64; lia).
  destruct (i <=? uid) eqn:Hle; simpl; [|done]. bool_hyps.
  rewrite (wrap_u64_small (uid - i)) by (unfold in_u64; lia).
  replace (uid - i <? n) with (uid <? i + n) by (apply eq_true_iff_eq; rewrite !Z.ltb_lt; lia).
  destruct (uid <? i + n) eqn:Hlt; [|done]. bool_hyps.
  rewrite (wrap_u64_small (o + _)) by (unfold in_u64; lia).
  cbn [ext_outside ext_inside].
  destruct (4294967295 <? _) eqn:Hov; bool_hyps.
  - destruct (_ <? 2 ^ 32) eqn:Hlt'; bool_hyps; [lia|done].
  - destruct (_ <? 2 ^ 32) eqn:Hlt'; bool_hyps; [|lia].
    by rewrite wrap_u32_small by (unfold in_u32; lia).
Qed.

Lemma HostUID_loop_spec uid lines es :
  in_u32 uid → extents lines = Some es → HostUID_loop uid lines = lookup_extents uid es.
Proof.
  intros Hu. revert es. induction lines as [|line lines IH]; intros es; simpl extents.
  - intros [= <-]. done.
  - destruct (fields line) as [|f fs] eqn:Hf.
    + intros Hes. simpl. rewrite Hf. by apply IH.
    + intros H. destruct (parse_extent line) as [e|] eqn:He; [|done].
      destruct (extents lines) as [es'|]; [|done]. injection H as <-.
      rewrite (HostUID_loop_cons _ _ _ e) by done. unfold lookup_extents. simpl.
      destruct (covers uid e); [done|]. by apply IH.
Qed.

(** C29: [HostUID] on a well-formed [uid_map] is the lookup of the first extent that
    covers the uid, and the only failure left is the documented overflow. *)
Theorem HostUID_lookup uid text es :
  in_u32 uid → extents (split_str text nl) = Some es →
  HostUID uid text =
    match List.find (covers uid) es with
    | None => Ok None
    | Some e => if translate uid e <? 2 ^ 32 then Ok (Some (translate uid e)) else Err (UIDOverflow uid)
    end.
Proof. intros Hu Hes. exact (HostUID_loop_spec uid _ es Hu Hes). Qed.

Lemma HostUID_lookup_witness :
  in_u32 5 ∧
  HostUID 5 ("0 200000 1" +:+ nl +:+ "1 300000 65535" +:+ nl) = Ok (Some 300004).
Proof.
  split; [unfold in_u32; lia|].
  rewrite (HostUID_lookup 5 _ [Extent 0 200000 1; Extent 1 300000 65535]);
    [vm_compute; reflexivity|unfold in_u32; lia|vm_compute; reflexivity].
Defined.

(** ** Distinct uids of a namespace never share a host uid

    The kernel rejects a [uid_map] whose extents overlap, on either side. *)
Definition host_disjoint (e1 e2 : extent) : Prop :=
  ext_outside e1 + ext_count e1 <= ext_outside e2 ∨ ext_outside e2 + ext_count e2 <= ext_outside e1.

Lemma lookup_extents_some uid es h :
  lookup_extents uid es = Ok (Some h) →
  ∃ e, e ∈ es ∧ covers uid e = true ∧ h = translate uid e ∧ h < 2 ^ 32.
Proof.
  unfold lookup_extents. destruct (List.find _ es) as [e|] eqn:Hf; [|done].
  apply find_some in Hf as [Hin Hc]. destruct (_ <? _) eqn:Hlt; [|done]. bool_hyps.
  intros [= <-]. exists e. split_and!; [by apply list_elem_of_In|done..].
Qed.

Lemma HostUID_inj u1 u2 h1 h2 text es :
  in_u32 u1 → in_u32 u2 → extents (split_str text nl) = Some es →
  (∀ e1 e2, e1 ∈ es → e2 ∈ es → e1 = e2 ∨ host_disjoint e1 e2) →
  HostUID u1 text = Ok (Some h1) → HostUID u2 text = Ok (Some h2) → u1 ≠ u2 → h1 ≠ h2.
Proof.
  intros Hu1 Hu2 Hes Hdis. unfold HostUID.
  rewrite !(HostUID_loop_spec _ _ es) by done.
  intros (e1 & He1 & Hc1 & -> & _)%lookup_extents_some
         (e2 & He2 & Hc2 & -> & _)%lookup_extents_some.
  unfold covers, translate, host_disjoint in *. bool_hyps.
  destruct (Hdis e1 e2 He1 He2) as [->|?]; lia.
Qed.

(** The translation is injective on a [uid_map] with disjoint host ranges. *)
Theorem HostUID_injective u1 u2 h1 h2 text es :
  in_u32 u1 → in_u32 u2 → extents (split_str text nl) = Some es →
  (∀ e1 e2, e1 ∈ es → e2 ∈ es → e1 = e2 ∨ host_disjoint e1 e2) →
  HostUID u1 text = Ok (Some h1) → HostUID u2 text = Ok (Some h2) → u1 ≠ u2 → h1 ≠ h2.
Proof. apply HostUID_inj. Qed.

Lemma HostUID_injective_witness :
  HostUID 0 ("0 200000 1" +:+ nl +:+ "1 300000 65535") = Ok (Some 200000) ∧ 200000 ≠ 300001.
Proof.
  split; [vm_compute; reflexivity|].
  apply (HostUID_injective 0 2 200000 300001 ("0 200000 1" +:+ nl +:+ "1 300000 65535")
           [Extent 0 200000 1; Extent 1 300000 65535]).
  - unfold in_u32; lia.
  - unfold in_u32; lia.
  - vm_compute; reflexivity.
  - intros e1 e2 H1 H2. unfold host_disjoint.
    repeat (apply elem_of_cons in H1 as [->|H1]); [| |by apply elem_of_nil in H1].
    all: repeat (apply elem_of_cons in H2 as [->|H2]); [| |by apply elem_of_nil in H2].
    all: first [by left | right; simpl; lia].
  - vm_compute; reflexivity.
  - vm_compute; reflexivity.
  - lia.
Defined.

(** The selection rule of the README: both lists must match when both are set, an
    empty list imposes no condition, two empty lists match nothing; [positive] blocks
    what is selected, any other block type everything else. *)
Theorem WouldBlock_Selected blockType hasUsers hasCommands userMatch commandMatch :
  WouldBlock blockType (Selected hasUsers hasCommands userMatch commandMatch) = true ↔
  let matched := (hasUsers = true ∨ hasCommands = true) ∧
                 (hasUsers = true → userMatch = true) ∧
                 (hasCommands = true → commandMatch = true) in
  if bool_decide (blockType = "positive") then matched else ¬ matched.
Proof.
  unfold WouldBlock, Selected.
  destruct (bool_decide _), hasUsers, hasCommands, userMatch, commandMatch; simpl;
    intuition congruence.
Qed.
