(* ===== verification/Repository.v ===== *)
(** * pkg/banpool: the [Ban] record, its errors and the repository of bans

    [repository.go] turns the five methods of [Repository] into SQL statements over a
    [DB].  The database (go-sqlite3) is not code of the repository: it is the class
    [SqlDB], one operation per statement the code issues, with the behaviour the code
    relies on in [SqlLaws].  The database compares instants as texts in the zone they were
    stored in, which is their order in a host that stays in one zone ([OneZone]).  [RepositorySpec] is what [repository.go] promises to the
    ban pool; [repository_spec] discharges it from these. *)

From S2P Require Import Prelude.
From S2P Require Import GoStrings.

(** ** model.go and errors.go.  A [time.Time] is a number of nanoseconds. *)
Record Ban := MkBan { ID : Z; IP : string; BannedAt : Z; BannedUntil : Z }.
#[global] Instance Ban_eq_dec : EqDecision Ban.
Proof. solve_decision. Defined.

Inductive banpool_err : Type :=
| ErrCantCreateDatabaseDir
| ErrCantOpenDatabase
| ErrCantCreateTable
| ErrCantAddBan
| ErrCantGetBan
| ErrCantGetBannedIPs
| ErrCantUpdateBan
| ErrCantDeleteBan
| ErrBanNotFound
| ErrInvalidIP
| ErrReservedIPv4Address
| ErrCantBanIP
| ErrCantUnbanIP
(* the errors of [NewFirewall], which wrap no sentinel *)
| FirewallSetupFailed
| UnsupportedNftablesChain (chain : string).
#[global] Instance banpool_err_eq_dec : EqDecision banpool_err.
Proof. solve_decision. Defined.

(** ** The database *)
Inductive sql_err : Type := ErrNoRows | DriverError.

Inductive stmt : Type :=
| CreateTableBans
| InsertBan (ip : string) (bannedAt bannedUntil : Z)
| UpdateBan (ip : string) (bannedAt bannedUntil : Z) (id : Z)
| DeleteBan (id : Z).

(** [SELECT ... WHERE banned_until > t] and [... <= t]. *)
Inductive query : Type :=
| SelectBannedAfter (t : Z)
| SelectBannedUpTo (t : Z).

(** [sql.Result] and [Rows]: what [Scan] yields at each [Next], then [Rows.Err]. *)
Record exec_result := ExecResult {
  LastInsertId : result sql_err Z;
  RowsAffected : result sql_err Z }.
Record rows_cursor := RowsCursor {
  rows_scans : list (result sql_err Ban);
  rows_err : option sql_err }.

Class SqlDB (D : Type) := {
  db_Exec : stmt → D → D * result sql_err exec_result;
  db_QueryRow_Scan : string → D → D * result sql_err Ban;
  db_Query : query → D → D * result sql_err rows_cursor;
  db_Close : D → D }.

(** ** repository.go *)
Section Methods.
Context {D : Type} `{SqlDB D}.

Definition NewRepository (mkdirAll : result sql_err unit) (openDB : result sql_err D)
    : result banpool_err D :=
  match mkdirAll with
  | Err _ => Err ErrCantCreateDatabaseDir
  | Ok _ =>
      match openDB with
      | Err _ => Err ErrCantOpenDatabase
      | Ok db =>
          match db_Exec CreateTableBans db with
          | (db, Err _) => let _ := db_Close db in Err ErrCantCreateTable
          | (db, Ok _) => Ok db
          end
      end
  end.

Definition Add (ban : Ban) (db : D) : D * result banpool_err Z :=
  let '(db, res) := db_Exec (InsertBan (IP ban) (BannedAt ban) (BannedUntil ban)) db in
  match res with
  | Err _ => (db, Err ErrCantAddBan)
  | Ok result =>
      match LastInsertId result with
      | Err _ => (db, Err ErrCantAddBan)
      | Ok id => (db, Ok id)
      end
  end.

Definition Get (ip : string) (db : D) : D * result banpool_err Ban :=
  let '(db, res) := db_QueryRow_Scan ip db in
  match res with
  | Err ErrNoRows => (db, Err ErrBanNotFound)
  | Err _ => (db, Err ErrCantGetBan)
  | Ok ban => (db, Ok ban)
  end.

(** The [for rows.Next()] loop; any failing [Scan] ends the call. *)
Fixpoint scan_rows (scans : list (result sql_err Ban)) (bans : list Ban)
    : result banpool_err (list Ban) :=
  match scans with
  | [] => Ok bans
  | Err _ :: _ => Err ErrCantGetBannedIPs
  | Ok ban :: scans' => scan_rows scans' (bans ++ [ban])
  end.

Definition read_rows (cursor : rows_cursor) : result banpool_err (list Ban) :=
  bans ← scan_rows (rows_scans cursor) [];
  match rows_err cursor with
  | Some _ => Err ErrCantGetBannedIPs
  | None => Ok bans
  end.

Definition GetBanned (now : Z) (db : D) : D * result banpool_err (list Ban) :=
  let '(db, res) := db_Query (SelectBannedAfter now) db in
  match res with
  | Err _ => (db, Err ErrCantGetBannedIPs)
  | Ok rows => (db, read_rows rows)
  end.

Definition GetExpired (now : Z) (db : D) : D * result banpool_err (list Ban) :=
  let '(db, res) := db_Query (SelectBannedUpTo now) db in
  match res with
  | Err _ => (db, Err ErrCantGetBannedIPs)
  | Ok rows => (db, read_rows rows)
  end.

Definition Update (ban : Ban) (db : D) : D * result banpool_err unit :=
  let '(db, res) := db_Exec (UpdateBan (IP ban) (BannedAt ban) (BannedUntil ban) (ID ban)) db in
  match res with
  | Err _ => (db, Err ErrCantUpdateBan)
  | Ok result =>
      match RowsAffected result with
      | Err _ => (db, Err ErrCantUpdateBan)
      | Ok affected => if affected =? 0 then (db, Err ErrBanNotFound) else (db, Ok tt)
      end
  end.

Definition Delete (id : Z) (db : D) : D * result banpool_err unit :=
  let '(db, res) := db_Exec (DeleteBan id) db in
  match res with
  | Err _ => (db, Err ErrCantDeleteBan)
  | Ok _ => (db, Ok tt)
  end.
End Methods.

(** ** The [Repository] interface, and what a ban pool may rely on *)
Class Repository (R : Type) := {
  repo_Add : Ban → R → R * result banpool_err Z;
  repo_Get : string → R → R * result banpool_err Ban;
  repo_GetBanned : Z → R → R * result banpool_err (list Ban);
  repo_GetExpired : Z → R → R * result banpool_err (list Ban);
  repo_Update : Ban → R → R * result banpool_err unit;
  repo_Delete : Z → R → R * result banpool_err unit }.

#[global] Instance sql_repository {D} `{SqlDB D} : Repository D := {
  repo_Add := Add;
  repo_Get := Get;
  repo_GetBanned := GetBanned;
  repo_GetExpired := GetExpired;
  repo_Update := Update;
  repo_Delete := Delete }.

Definition with_id (id : Z) (b : Ban) : Ban := MkBan id (IP b) (BannedAt b) (BannedUntil b).
Definition replace_row (b : Ban) (l : list Ban) : list Ban :=
  map (λ r, if ID r =? ID b then b else r) l.
Definition remove_row (id : Z) (l : list Ban) : list Ban :=
  List.filter (λ r, negb (ID r =? id)) l.

(** [bans] is the table, in the order of the rows; [next_id] bounds the ids handed out
    so far (AUTOINCREMENT never reuses one).  A failed operation changes nothing. *)
Class RepositorySpec (R : Type) `{Repository R} := {
  bans : R → list Ban;
  next_id : R → Z;
  repo_Add_spec r b r' res :
    repo_Add b r = (r', res) →
    match res with
    | Ok id => next_id r <= id < next_id r' ∧ (∀ x, x ∈ bans r → IP x ≠ IP b) ∧
               bans r' = bans r ++ [with_id id b]
    | Err _ => bans r' = bans r ∧ next_id r <= next_id r'
    end;
  repo_Get_spec r ip r' res :
    repo_Get ip r = (r', res) →
    bans r' = bans r ∧ next_id r' = next_id r ∧
    match res with
    | Ok b => b ∈ bans r ∧ IP b = ip
    | Err ErrBanNotFound => ∀ b, b ∈ bans r → IP b ≠ ip
    | Err _ => True
    end;
  repo_GetBanned_spec r now r' res :
    repo_GetBanned now r = (r', res) →
    bans r' = bans r ∧ next_id r' = next_id r ∧
    match res with
    | Ok l => l ≡ₚ List.filter (λ b, now <? BannedUntil b) (bans r)
    | Err _ => True
    end;
  repo_GetExpired_spec r now r' res :
    repo_GetExpired now r = (r', res) →
    bans r' = bans r ∧ next_id r' = next_id r ∧
    match res with
    | Ok l => l ≡ₚ List.filter (λ b, BannedUntil b <=? now) (bans r)
    | Err _ => True
    end;
  repo_Update_spec r b r' res :
    repo_Update b r = (r', res) →
    next_id r' = next_id r ∧
    match res with
    | Ok _ => (∃ x, x ∈ bans r ∧ ID x = ID b) ∧
              (∀ x, x ∈ bans r → ID x ≠ ID b → IP x ≠ IP b) ∧
              bans r' = replace_row b (bans r)
    | Err _ => bans r' = bans r
    end;
  repo_Delete_spec r id r' res :
    repo_Delete id r = (r', res) →
    next_id r' = next_id r ∧
    match res with
    | Ok _ => bans r' = remove_row id (bans r)
    | Err _ => bans r' = bans r
    end }.

(** ** What go-sqlite3 and the table definition promise

    [id] is AUTOINCREMENT, [ip] is UNIQUE, a failed statement changes no row, and the
    driver's [LastInsertId] and [RowsAffected] do not fail.  A [time.Time] bound to a
    statement is stored and compared as text: the local wall clock at that instant, then
    the zone's offset.  [stored_lt t u] says that the text of [t] sorts before the text
    of [u]: it follows the wall clocks, and the order of instants only while the
    offset stays the same ([OneZone]). *)
Class SqlLaws (D : Type) `{SqlDB D} := {
  table : D → list Ban;
  sequence : D → Z;
  zone_offset : Z → Z;
  stored_lt : Z → Z → bool;
  stored_lt_law t u :
    if t + zone_offset t =? u + zone_offset u
    then zone_offset t = zone_offset u → stored_lt t u = false
    else stored_lt t u = (t + zone_offset t <? u + zone_offset u);
  exec_insert_law d ip at_ until d' res :
    db_Exec (InsertBan ip at_ until) d = (d', res) →
    match res with
    | Ok x => ∃ id, LastInsertId x = Ok id ∧ sequence d <= id < sequence d' ∧
              (∀ b, b ∈ table d → IP b ≠ ip) ∧ table d' = table d ++ [MkBan id ip at_ until]
    | Err _ => table d' = table d ∧ sequence d <= sequence d'
    end;
  exec_update_law d ip at_ until id d' res :
    db_Exec (UpdateBan ip at_ until id) d = (d', res) →
    sequence d' = sequence d ∧
    match res with
    | Ok x => (∀ b, b ∈ table d → ID b ≠ id → (∃ b', b' ∈ table d ∧ ID b' = id) → IP b ≠ ip) ∧
              RowsAffected x = Ok (Z.of_nat (length (List.filter (λ b, ID b =? id) (table d)))) ∧
              table d' = replace_row (MkBan id ip at_ until) (table d)
    | Err _ => table d' = table d
    end;
  exec_delete_law d id d' res :
    db_Exec (DeleteBan id) d = (d', res) →
    sequence d' = sequence d ∧
    match res with
    | Ok _ => table d' = remove_row id (table d)
    | Err _ => table d' = table d
    end;
  query_row_law d ip d' res :
    db_QueryRow_Scan ip d = (d', res) →
    table d' = table d ∧ sequence d' = sequence d ∧
    match res with
    | Ok b => b ∈ table d ∧ IP b = ip
    | Err ErrNoRows => ∀ b, b ∈ table d → IP b ≠ ip
    | Err DriverError => True
    end;
  query_law d q d' res :
    db_Query q d = (d', res) →
    table d' = table d ∧ sequence d' = sequence d ∧
    match res with
    | Ok c =>
        (∀ l, rows_scans c = map Ok l → rows_err c = None →
         l ≡ₚ List.filter (λ b, match q with
                                | SelectBannedAfter t => stored_lt t (BannedUntil b)
                                | SelectBannedUpTo t => negb (stored_lt t (BannedUntil b))
                                end) (table d))
    | Err _ => True
    end }.

(** The offset of the host's zone never changes: what [RepositorySpec] needs. *)
Class OneZone (D : Type) `{SqlLaws D} := one_zone t u : zone_offset t = zone_offset u.

Section Reads.
Context {D : Type} `{SqlLaws D}.

Lemma scan_rows_ok scans acc l :
  scan_rows scans acc = Ok l → ∃ l', scans = map Ok l' ∧ l = acc ++ l'.
Proof.
  revert acc. induction scans as [|[b|e] scans IH]; intros acc; simpl; [|idtac|done].
  - intros [= <-]. exists []. by rewrite app_nil_r.
  - intros (l' & -> & ->)%IH. exists (b :: l'). by rewrite <- app_assoc.
Qed.

Lemma read_rows_ok c l :
  read_rows c = Ok l → rows_scans c = map Ok l ∧ rows_err c = None.
Proof.
  unfold read_rows. destruct (scan_rows _ _) as [l'|] eqn:Hs; [|done].
  apply scan_rows_ok in Hs as (l'' & Hs & ->). simpl.
  destruct (rows_err c); [done|]. by intros [= <-].
Qed.

Lemma filter_id_cases id (l : list Ban) :
  (∃ x, x ∈ l ∧ ID x = id) ∨
  (length (List.filter (λ b, ID b =? id) l) = 0%nat ∧ ∀ b, ID b = id → replace_row b l = l).
Proof.
  induction l as [|y l IH]; simpl; [by right|].
  destruct (ID y =? id) eqn:Hy; bool_hyps.
  - left. exists y. set_solver.
  - destruct IH as [(x & ? & ?)|[Hl Hr]]; [left; exists x; set_solver|right].
    split; [done|]. intros b Hb. rewrite Hr by done.
    by rewrite (proj2 (Z.eqb_neq _ _)) by congruence.
Qed.

(** A change of offset misplaces a ban: one that has ended, but whose wall clock reads
    later than now's, is not among the expired. *)
Lemma zone_change_hides_expired now (d d' : D) l b :
  GetExpired now d = (d', Ok l) → BannedUntil b <= now →
  now + zone_offset now < BannedUntil b + zone_offset (BannedUntil b) → b ∉ l.
Proof.
  intros Hg Hle Hwall Hin. unfold GetExpired in Hg.
  destruct (db_Query _ d) as [d1 [c|e]] eqn:He; apply query_law in He as (_ & _ & Hc); [|done].
  injection Hg as _ Hl. apply read_rows_ok in Hl as [Hs Hr]. rewrite (Hc l Hs Hr) in Hin.
  apply list_elem_of_In, filter_In in Hin as [_ Hb].
  pose proof (stored_lt_law now (BannedUntil b)) as Hlaw.
  rewrite (proj2 (Z.eqb_neq _ _)) in Hlaw by lia. rewrite Hlaw, (proj2 (Z.ltb_lt _ _) Hwall) in Hb. done.
Qed.
End Reads.

Section Discharge.
Context {D : Type} `{OneZone D}.

Lemma stored_chronological t u : stored_lt t u = (t <? u).
Proof.
  pose proof (stored_lt_law t u) as Hlaw. pose proof (one_zone t u) as Hz. rewrite Hz in Hlaw.
  destruct (Z.eqb_spec (t + zone_offset u) (u + zone_offset u)).
  - rewrite Hlaw by done. symmetry. apply Z.ltb_ge. lia.
  - rewrite Hlaw. destruct (Z.ltb_spec (t + zone_offset u) (u + zone_offset u)); symmetry; [apply Z.ltb_lt|apply Z.ltb_ge]; lia.
Qed.

Lemma stored_chronological_not t u : negb (stored_lt t u) = (u <=? t).
Proof. rewrite stored_chronological, Z.leb_antisym. done. Qed.

#[export] Instance repository_spec : RepositorySpec D.
Proof.
  refine {| bans := table; next_id := sequence |}; simpl.
  - intros r b r' res. unfold Add.
    destruct (db_Exec _ r) as [d [x|e]] eqn:He; apply exec_insert_law in He.
    + destruct He as (id & -> & ? & ? & ?). by intros [= <- <-].
    + by intros [= <- <-].
  - intros r ip r' res. unfold Get.
    destruct (db_QueryRow_Scan _ r) as [d [x|[]]] eqn:He; apply query_row_law in He;
      by intros [= <- <-].
  - intros r now r' res. unfold GetBanned.
    destruct (db_Query _ r) as [d [c|e]] eqn:He; apply query_law in He as (Ht & Hn & Hc);
      intros [= <- <-]; split_and!; try done.
    destruct (read_rows c) as [l|] eqn:Hl; [|done]. apply read_rows_ok in Hl as []. rewrite Hc by done.
    erewrite List.filter_ext; [done|]. intros b. apply stored_chronological.
  - intros r now r' res. unfold GetExpired.
    destruct (db_Query _ r) as [d [c|e]] eqn:He; apply query_law in He as (Ht & Hn & Hc);
      intros [= <- <-]; split_and!; try done.
    destruct (read_rows c) as [l|] eqn:Hl; [|done]. apply read_rows_ok in Hl as []. rewrite Hc by done.
    erewrite List.filter_ext; [done|]. intros b. apply stored_chronological_not.
  - intros r b r' res. unfold Update.
    destruct (db_Exec _ r) as [d [x|e]] eqn:He; apply exec_update_law in He as (Hn & He).
    + destruct He as (Hip & -> & Ht).
      destruct (filter_id_cases (ID b) (table r)) as [Hex|[-> Hrep]].
      * destruct (_ =? 0) eqn:Hz; intros [= <- <-].
        -- exfalso. destruct Hex as (x' & Hx & Hid). apply Z.eqb_eq in Hz.
           assert (Hin : x' ∈ List.filter (λ b0, ID b0 =? ID b) (table r)).
           { apply list_elem_of_In, filter_In. rewrite <- list_elem_of_In.
             split; [done|by apply Z.eqb_eq]. }
           destruct (List.filter _ _); [by apply elem_of_nil in Hin|done].
        -- split_and!; [done|done|intros; by apply Hip|by destruct b].
      * simpl. intros [= <- <-]. split; [done|]. rewrite Ht. by apply Hrep.
    + by intros [= <- <-].
  - intros r id r' res. unfold Delete.
    destruct (db_Exec _ r) as [d [x|e]] eqn:He; apply exec_delete_law in He as (Hn & He);
      by intros [= <- <-].
Defined.
End Discharge.

(** ** A concrete database

    A table, the next id and a script of driver failures: each operation consumes one
    entry of the script and fails when it is [true]; past its end nothing fails. *)
Record table_db := TableDB { t_rows : list Ban; t_next : Z; t_faults : list bool }.

Definition pop_fault (d : table_db) : bool * table_db :=
  match t_faults d with
  | [] => (false, d)
  | f :: fs => (f, TableDB (t_rows d) (t_next d) fs)
  end.

Definition with_rows (l : list Ban) (d : table_db) : table_db := TableDB l (t_next d) (t_faults d).
Definition insert_row (b : Ban) (d : table_db) : table_db :=
  TableDB (t_rows d ++ [with_id (t_next d) b]) (t_next d + 1) (t_faults d).

#[global] Instance table_sql : SqlDB table_db := {
  db_Exec s d :=
    match pop_fault d with
    | (true, d) => (d, Err DriverError)
    | (false, d) =>
        match s with
        | CreateTableBans => (d, Ok (ExecResult (Ok 0) (Ok 0)))
        | InsertBan ip a u =>
            if existsb (λ b, bool_decide (IP b = ip)) (t_rows d) then (d, Err DriverError)
            else (insert_row (MkBan 0 ip a u) d, Ok (ExecResult (Ok (t_next d)) (Ok 1)))
        | UpdateBan ip a u id =>
            let hit := List.filter (λ b, ID b =? id) (t_rows d) in
            if negb (bool_decide (hit = [])) &&
               existsb (λ b, negb (ID b =? id) && bool_decide (IP b = ip)) (t_rows d)
            then (d, Err DriverError)
            else (with_rows (replace_row (MkBan id ip a u) (t_rows d)) d,
                  Ok (ExecResult (Ok 0) (Ok (Z.of_nat (length hit)))))
        | DeleteBan id => (with_rows (remove_row id (t_rows d)) d, Ok (ExecResult (Ok 0) (Ok 0)))
        end
    end;
  db_QueryRow_Scan ip d :=
    match pop_fault d with
    | (true, d) => (d, Err DriverError)
    | (false, d) =>
        match List.find (λ b, bool_decide (IP b = ip)) (t_rows d) with
        | Some b => (d, Ok b)
        | None => (d, Err ErrNoRows)
        end
    end;
  db_Query q d :=
    match pop_fault d with
    | (true, d) => (d, Err DriverError)
    | (false, d) =>
        (d, Ok (RowsCursor (map Ok (List.filter (λ b, match q with
             | SelectBannedAfter t => t <? BannedUntil b
             | SelectBannedUpTo t => BannedUntil b <=? t
             end) (t_rows d))) None))
    end;
  db_Close d := d }.

Lemma pop_fault_spec d f d' :
  pop_fault d = (f, d') → t_rows d' = t_rows d ∧ t_next d' = t_next d.
Proof. unfold pop_fault. destruct (t_faults d); by intros [= <- <-]. Qed.

Lemma existsb_bool_false {A} (P : A → bool) l x : existsb P l = false → x ∈ l → P x = false.
Proof.
  intros He Hx. destruct (P x) eqn:HP; [|done]. rewrite <- He. symmetry.
  apply existsb_exists. exists x. by rewrite <- list_elem_of_In.
Qed.

Lemma map_Ok_inj {E A} (l k : list A) : map (@Ok E A) l = map Ok k → l = k.
Proof. revert k. induction l; intros [|? ?]; simpl; try done. intros [= -> ?]. f_equal; auto. Qed.

#[global] Instance table_laws : SqlLaws table_db.
Proof.
  refine {| table := t_rows; sequence := t_next; zone_offset := λ _, 0; stored_lt := Z.ltb |}.
  - intros t u. rewrite !Z.add_0_r. destruct (Z.eqb_spec t u) as [->|]; [intros _; apply Z.ltb_irrefl|done].
  - intros d ip a u d' res. simpl.
    destruct (pop_fault d) as [[] d1] eqn:Hf; apply pop_fault_spec in Hf as [<- <-];
      [intros [= <- <-]; split; [done|lia]|].
    destruct (existsb _ _) eqn:He; intros [= <- <-]; [done|].
    exists (t_next d1). simpl. split_and!; [done|lia|lia|intros b Hb|done].
    pose proof (existsb_bool_false _ _ _ He Hb) as Hx. simpl in Hx. by bool_hyps.
  - intros d ip a u id d' res. simpl.
    destruct (pop_fault d) as [[] d1] eqn:Hf; apply pop_fault_spec in Hf as [<- <-];
      [by intros [= <- <-]|].
    destruct (_ && _)%bool eqn:He; intros [= <- <-]; [done|].
    simpl. split; [done|]. split_and!; [|done|done].
    intros b Hb Hid (b' & Hb' & Hid'). apply andb_false_iff in He as [He|He].
    + bool_hyps. exfalso. assert (b' ∈ List.filter (λ b, ID b =? id) (t_rows d1)).
      { apply list_elem_of_In, filter_In. rewrite <- list_elem_of_In. by rewrite Z.eqb_eq. }
      rewrite He in *. set_solver.
    + pose proof (existsb_bool_false _ _ _ He Hb) as Hf. simpl in Hf. apply andb_false_iff in Hf as [Hf|Hf];
        by bool_hyps.
  - intros d id d' res. simpl.
    destruct (pop_fault d) as [[] d1] eqn:Hf; apply pop_fault_spec in Hf as [<- <-];
      by intros [= <- <-].
  - intros d ip d' res. simpl.
    destruct (pop_fault d) as [[] d1] eqn:Hf; apply pop_fault_spec in Hf as [<- <-];
      [by intros [= <- <-]|].
    destruct (List.find _ _) as [b|] eqn:He; intros [= <- <-]; (split; [done|]); (split; [done|]).
    + apply find_some in He as [? ?]. bool_hyps. by rewrite list_elem_of_In.
    + intros b Hb Hip. apply list_elem_of_In in Hb. pose proof (find_none _ _ He b Hb) as Hx. simpl in Hx. by bool_hyps.
  - intros d q d' res. simpl.
    destruct (pop_fault d) as [[] d1] eqn:Hf; apply pop_fault_spec in Hf as [<- <-];
      [by intros [= <- <-]|].
    intros [= <- <-]. split; [done|]. split; [done|]. simpl.
    intros l Hl _. apply map_Ok_inj in Hl as <-. destruct q; [done|].
    erewrite List.filter_ext; [done|]. intros b. by rewrite Z.leb_antisym.
Defined.

#[global] Instance table_one_zone : OneZone table_db.
Proof. done. Defined.
