(* ===== verification/Firewall.v ===== *)
(** * pkg/banpool/firewall.go: bans as rules of iptables, nftables or firewalld

    Every effect of the firewall goes through [runCommand]: it is the class [Runner],
    an operation on a world [W] that yields the combined output and whether the command
    exited with status 0.  The methods of [firewall] are functions of the world. *)

From S2P Require Import Prelude.
From S2P Require Import GoStrings.
From S2P Require Import GoNet.
From S2P Require Import Repository.

Definition nftablesBanChain : string := "open_defender".
Definition nftablesForwardBanChain : string := "open_defender_forward".
Definition firewalldDockerPolicy : string := "open-defender-dkr".
Definition dockerUserChain : string := "DOCKER-USER".

(** [runCommand name args...]; [true] stands for a nil error. *)
Class Runner (W : Type) := runCommand : list string → W → W * (string * bool).

Record firewall := MkFirewall { fwEngine : string; chains : list string }.

(** ** Addresses *)
Definition validateIP (ip : string) : option banpool_err :=
  match ParseIP ip with None => Some ErrInvalidIP | Some _ => None end.

Definition validateBanIP (ip : string) : option banpool_err :=
  match validateIP ip with
  | Some err => Some err
  | None =>
      match ParseIP ip ≫= To4 with
      | Some v4 =>
          if (nth 3 v4 0 =? 0) || (nth 3 v4 0 =? 255) then Some ErrReservedIPv4Address else None
      | None => None
      end
  end.

(** ** Helpers *)
Definition hasChain (f : firewall) (want : string) : bool :=
  existsb (λ chain, bool_decide (chain = want)) (chains f).

(** The error kept by a loop over the chains: the first one; the text is only logged. *)
Definition logFirewallChainError (firstErr : option banpool_err) (operation : string)
    : option banpool_err :=
  let chainErr := if bool_decide (operation = "unban") then ErrCantUnbanIP else ErrCantBanIP in
  match firstErr with Some e => Some e | None => Some chainErr end.

Definition rich_rule (ip : string) : string :=
  "rule family=" +:+ of_bytes [byte_of 34] +:+ "ipv4" +:+ of_bytes [byte_of 34] +:+
  " source address=" +:+ of_bytes [byte_of 34] +:+ ip +:+ of_bytes [byte_of 34] +:+ " drop".

Definition saddr_drop (ip : string) : string := "ip saddr " +:+ ip +:+ " drop".

Section Methods.
Context {W : Type} `{Runner W}.

(** ** [NewFirewall] *)
Fixpoint run_all (commands : list (list string)) (w : W) : W * option banpool_err :=
  match commands with
  | [] => (w, None)
  | args :: commands' =>
      match runCommand ("firewall-cmd" :: args) w with
      | (w, (_, false)) => (w, Some FirewallSetupFailed)
      | (w, (_, true)) => run_all commands' w
      end
  end.

Definition ensureFirewalldDockerPolicy (w : W) : W * option banpool_err :=
  match runCommand ["firewall-cmd"; "--info-policy"; firewalldDockerPolicy] w with
  | (w, (_, true)) => (w, None)
  | (w, (_, false)) =>
      run_all
        [["--new-policy"; firewalldDockerPolicy];
         ["--policy"; firewalldDockerPolicy; "--add-ingress-zone"; "ANY"];
         ["--policy"; firewalldDockerPolicy; "--add-egress-zone"; "docker"];
         ["--policy"; firewalldDockerPolicy; "--set-priority"; "-100"]] w
  end.

Definition nft_add_chain (chain definition : string) (w : W) : W * option banpool_err :=
  match runCommand ["nft"; "add"; "chain"; "inet"; "filter"; chain; definition] w with
  | (w, (_, true)) => (w, None)
  | (w, (_, false)) => (w, Some FirewallSetupFailed)
  end.

Definition ensureNftablesChain (chain : string) (w : W) : W * option banpool_err :=
  match runCommand ["nft"; "list"; "chain"; "inet"; "filter"; chain] w with
  | (w, (_, true)) => (w, None)
  | (w, (_, false)) =>
      if bool_decide (chain = nftablesBanChain) then
        nft_add_chain chain "{ type filter hook input priority filter; policy accept; }" w
      else if bool_decide (chain = nftablesForwardBanChain) then
        nft_add_chain chain "{ type filter hook forward priority filter - 1; policy accept; }" w
      else (w, Some (UnsupportedNftablesChain chain))
  end.

Fixpoint ensure_chains (cs : list string) (w : W) : W * option banpool_err :=
  match cs with
  | [] => (w, None)
  | chain :: cs' =>
      match ensureNftablesChain chain w with
      | (w, Some err) => (w, Some err)
      | (w, None) => ensure_chains cs' w
      end
  end.

(** [nft list table], and [nft add table] when it fails. *)
Definition ensure_table (w : W) : W * option banpool_err :=
  match runCommand ["nft"; "list"; "table"; "inet"; "filter"] w with
  | (w, (_, true)) => (w, None)
  | (w, (_, false)) =>
      match runCommand ["nft"; "add"; "table"; "inet"; "filter"] w with
      | (w, (_, true)) => (w, None)
      | (w, (_, false)) => (w, Some FirewallSetupFailed)
      end
  end.

(** [NewFirewall fwEngine chains...]: the variadic argument is the list [chainLists]. *)
Definition NewFirewall (engine : string) (chainLists : list (list string)) (w : W)
    : W * result banpool_err firewall :=
  let firewallChains :=
    match chainLists with
    | c0 :: _ => if bool_decide (c0 = []) then ["INPUT"] else c0
    | [] => ["INPUT"]
    end in
  let firewallChains :=
    if bool_decide (engine = "nftables") && bool_decide (chainLists = [])
    then [nftablesBanChain] else firewallChains in
  let fw := MkFirewall engine firewallChains in
  let '(w, err) :=
    if bool_decide (engine = "nftables") then
      match ensure_table w with
      | (w, Some err) => (w, Some err)
      | (w, None) => ensure_chains firewallChains w
      end
    else (w, None) in
  match err with
  | Some err => (w, Err err)
  | None =>
      if bool_decide (engine = "firewalld") && hasChain fw dockerUserChain then
        match ensureFirewalldDockerPolicy w with
        | (w, Some err) => (w, Err err)
        | (w, None) => (w, Ok fw)
        end
      else (w, Ok fw)
  end.

(** ** Rules *)
Definition hasRule (f : firewall) (chain ip : string) (w : W) : W * bool :=
  if bool_decide (fwEngine f = "iptables") then
    let '(w, (_, ok)) := runCommand ["iptables"; "--check"; chain; "--source"; ip; "--jump"; "DROP"] w in
    (w, ok)
  else if bool_decide (fwEngine f = "nftables") then
    let '(w, (output, ok)) := runCommand ["nft"; "-a"; "list"; "chain"; "inet"; "filter"; chain] w in
    (w, ok && str_contains output (saddr_drop ip))
  else if bool_decide (fwEngine f = "firewalld") then
    if bool_decide (chain = dockerUserChain) then
      let '(w, (_, ok)) := runCommand ["firewall-cmd"; "--policy"; firewalldDockerPolicy;
                                       "--query-rich-rule"; rich_rule ip] w in
      (w, ok)
    else if bool_decide (chain = "INPUT") then
      let '(w, (_, ok)) := runCommand ["firewall-cmd"; "--query-rich-rule"; rich_rule ip] w in
      (w, ok)
    else (w, false)
  else (w, false).

Definition changeFirewalldRule (chain operation ip : string) (failure : banpool_err) (w : W)
    : W * option banpool_err :=
  let rule := rich_rule ip in
  let exec args :=
    match runCommand ("firewall-cmd" :: args) w with
    | (w, (_, true)) => (w, None)
    | (w, (_, false)) => (w, Some failure)
    end in
  if bool_decide (chain = dockerUserChain) then
    exec ["--policy"; firewalldDockerPolicy; operation; rule]
  else if negb (bool_decide (chain = "INPUT")) then (w, Some failure)
  else exec [operation; rule].

(** The loop of [deleteNftablesRule] over the lines of the listing. *)
Fixpoint delete_handles (chain ip : string) (lines : list string) (w : W)
    : W * option banpool_err :=
  match lines with
  | [] => (w, None)
  | line :: lines' =>
      if negb (str_contains line (saddr_drop ip)) then delete_handles chain ip lines' w
      else
        match split_str line "# handle " with
        | [_; part] =>
            let handle := trim_space part in
            match runCommand ["nft"; "delete"; "rule"; "inet"; "filter"; chain; "handle"; handle] w with
            | (w, (_, false)) => (w, Some ErrCantUnbanIP)
            | (w, (_, true)) => delete_handles chain ip lines' w
            end
        | _ => delete_handles chain ip lines' w
        end
  end.

Definition deleteNftablesRule (chain ip : string) (w : W) : W * option banpool_err :=
  match runCommand ["nft"; "-a"; "list"; "chain"; "inet"; "filter"; chain] w with
  | (w, (_, false)) => (w, Some ErrCantUnbanIP)
  | (w, (output, true)) => delete_handles chain ip (split_str output nl) w
  end.

(** ** [Ban] and [Unban]: one loop over the chains per engine *)
Definition run_ok (argv : list string) (w : W) : W * bool :=
  let '(w, (_, ok)) := runCommand argv w in (w, ok).

Definition succeeds (op : W → W * option banpool_err) (w : W) : W * bool :=
  let '(w, err) := op w in (w, bool_decide (err = None)).

Fixpoint ban_loop (f : firewall) (ip : string) (insert : string → W → W * bool)
    (cs : list string) (succeeded : bool) (firstErr : option banpool_err) (w : W)
    : W * bool * option banpool_err :=
  match cs with
  | [] => (w, succeeded, firstErr)
  | chain :: cs' =>
      let '(w, has) := hasRule f chain ip w in
      if has then ban_loop f ip insert cs' true firstErr w
      else
        let '(w, ok) := insert chain w in
        if ok then ban_loop f ip insert cs' true firstErr w
        else ban_loop f ip insert cs' succeeded (logFirewallChainError firstErr "ban") w
  end.

Definition insert_iptables (ip chain : string) : W → W * bool :=
  run_ok ["iptables"; "--insert"; chain; "--source"; ip; "--jump"; "DROP"].
Definition insert_nftables (ip chain : string) : W → W * bool :=
  run_ok ["nft"; "insert"; "rule"; "inet"; "filter"; chain; "ip"; "saddr"; ip; "drop"].
Definition insert_firewalld (ip chain : string) : W → W * bool :=
  succeeds (changeFirewalldRule chain "--add-rich-rule" ip ErrCantBanIP).

Definition fw_Ban (f : firewall) (ip : string) (w : W) : W * option banpool_err :=
  match validateBanIP ip with
  | Some err => (w, Some err)
  | None =>
      let '(w, succeeded, firstErr) :=
        if bool_decide (fwEngine f = "iptables") then
          ban_loop f ip (insert_iptables ip) (chains f) false None w
        else if bool_decide (fwEngine f = "nftables") then
          ban_loop f ip (insert_nftables ip) (chains f) false None w
        else if bool_decide (fwEngine f = "firewalld") then
          ban_loop f ip (insert_firewalld ip) (chains f) false None w
        else (w, false, None) in
      match firstErr with
      | Some err => if negb succeeded then (w, Some err) else (w, None)
      | None => (w, None)
      end
  end.

Fixpoint unban_loop (f : firewall) (ip : string) (remove : string → W → W * bool)
    (cs : list string) (firstErr : option banpool_err) (w : W) : W * option banpool_err :=
  match cs with
  | [] => (w, firstErr)
  | chain :: cs' =>
      let '(w, has) := hasRule f chain ip w in
      if negb has then unban_loop f ip remove cs' firstErr w
      else
        let '(w, ok) := remove chain w in
        if ok then unban_loop f ip remove cs' firstErr w
        else unban_loop f ip remove cs' (logFirewallChainError firstErr "unban") w
  end.

Definition delete_iptables (ip chain : string) : W → W * bool :=
  run_ok ["iptables"; "--delete"; chain; "--source"; ip; "--jump"; "DROP"].
Definition delete_nftables (ip chain : string) : W → W * bool :=
  succeeds (deleteNftablesRule chain ip).
Definition delete_firewalld (ip chain : string) : W → W * bool :=
  succeeds (changeFirewalldRule chain "--remove-rich-rule" ip ErrCantUnbanIP).

Definition fw_Unban (f : firewall) (ip : string) (w : W) : W * option banpool_err :=
  match validateIP ip with
  | Some err => (w, Some err)
  | None =>
      let '(w, firstErr) :=
        if bool_decide (fwEngine f = "iptables") then
          unban_loop f ip (delete_iptables ip) (chains f) None w
        else if bool_decide (fwEngine f = "nftables") then
          unban_loop f ip (delete_nftables ip) (chains f) None w
        else if bool_decide (fwEngine f = "firewalld") then
          unban_loop f ip (delete_firewalld ip) (chains f) None w
        else (w, None) in
      match firstErr with
      | Some err => (w, Some err)
      | None => (w, None)
      end
  end.
End Methods.

(** ** The [Firewall] interface, and what the ban pool may rely on *)
Class Firewall (F : Type) := {
  Firewall_Ban : string → F → F * option banpool_err;
  Firewall_Unban : string → F → F * option banpool_err }.

(** [blocked w ip]: some managed chain drops the packets of [ip]. *)
Class FirewallSpec (F : Type) `{Firewall F} := {
  blocked : F → string → bool;
  fw_ok : F → Prop;
  Firewall_Ban_spec w ip w' err :
    fw_ok w → Firewall_Ban ip w = (w', err) →
    fw_ok w' ∧ (∀ i, i ≠ ip → blocked w' i = blocked w i) ∧
    match err with
    | None => validateBanIP ip = None ∧ blocked w' ip = true
    | Some e => blocked w' ip = blocked w ip ∧
                (validateBanIP ip = None → blocked w ip = false) ∧
                (validateBanIP ip = None → e = ErrCantBanIP)
    end;
  Firewall_Unban_spec w ip w' err :
    fw_ok w → Firewall_Unban ip w = (w', err) →
    fw_ok w' ∧ (∀ i, i ≠ ip → blocked w' i = blocked w i) ∧
    match err with
    | None => blocked w' ip = false
    | Some _ => blocked w' ip = true → blocked w ip = true
    end }.

(** ** The rules of a backend

    The two loops are verified once, against the number of copies of the drop rule of
    an address in a chain; each engine discharges [RuleBackend] from the behaviour of its
    command-line tool, whose every command may fail.  [hasRule] takes a failing query for
    the absence of the rule: that it finds a rule that is there is [RuleAnswers], which
    holds as long as the queries of the tool do not fail. *)
Definition ip_text (ip : string) : Prop := ParseIP ip ≠ None.

Definition insertRule {W} `{Runner W} (f : firewall) (ip chain : string) : W → W * bool :=
  if bool_decide (fwEngine f = "iptables") then insert_iptables ip chain
  else if bool_decide (fwEngine f = "nftables") then insert_nftables ip chain
  else insert_firewalld ip chain.
Definition deleteRule {W} `{Runner W} (f : firewall) (ip chain : string) : W → W * bool :=
  if bool_decide (fwEngine f = "iptables") then delete_iptables ip chain
  else if bool_decide (fwEngine f = "nftables") then delete_nftables ip chain
  else delete_firewalld ip chain.

Definition known_engine (f : firewall) : Prop :=
  fwEngine f = "iptables" ∨ fwEngine f = "nftables" ∨ fwEngine f = "firewalld".

Class RuleBackend (W : Type) `{Runner W} (f : firewall) := {
  rules : W → string → string → nat;
  backend_ok : W → Prop;
  hasRule_law w chain ip w' b :
    backend_ok w → chain ∈ chains f → ip_text ip → hasRule f chain ip w = (w', b) →
    backend_ok w' ∧ (∀ c i, rules w' c i = rules w c i) ∧ (b = true → rules w chain ip ≠ 0%nat);
  insert_law w chain ip w' ok :
    backend_ok w → chain ∈ chains f → ip_text ip → rules w chain ip = 0%nat →
    insertRule f ip chain w = (w', ok) →
    backend_ok w' ∧ (∀ c i, c ≠ chain ∨ i ≠ ip → rules w' c i = rules w c i) ∧
    rules w' chain ip = if ok then 1%nat else 0%nat;
  delete_law w chain ip w' ok :
    backend_ok w → chain ∈ chains f → ip_text ip →
    deleteRule f ip chain w = (w', ok) →
    backend_ok w' ∧ (∀ c i, c ≠ chain ∨ i ≠ ip → rules w' c i = rules w c i) ∧
    (rules w' chain ip <= rules w chain ip)%nat ∧
    (ok = true → (rules w chain ip <= 1)%nat → rules w' chain ip = 0%nat) }.

Class RuleAnswers (W : Type) (f : firewall) `{RuleBackend W f} : Prop :=
  hasRule_found w chain ip w' :
    backend_ok w → chain ∈ chains f → ip_text ip → hasRule f chain ip w = (w', false) →
    rules w chain ip = 0%nat.

(** *** When the queries fail *)
Definition check_command (f : firewall) (chain ip : string) : list string :=
  if bool_decide (fwEngine f = "iptables") then
    ["iptables"; "--check"; chain; "--source"; ip; "--jump"; "DROP"]
  else if bool_decide (fwEngine f = "nftables") then
    ["nft"; "-a"; "list"; "chain"; "inet"; "filter"; chain]
  else if bool_decide (chain = dockerUserChain) then
    ["firewall-cmd"; "--policy"; firewalldDockerPolicy; "--query-rich-rule"; rich_rule ip]
  else ["firewall-cmd"; "--query-rich-rule"; rich_rule ip].

(** The query of every chain of [cs] fails; the world they leave. *)
Fixpoint checks_fail {W} `{Runner W} (f : firewall) (ip : string) (cs : list string) (w : W) : option W :=
  match cs with
  | [] => Some w
  | chain :: cs' =>
      match runCommand (check_command f chain ip) w with
      | (_, (_, true)) => None
      | (w, (_, false)) => checks_fail f ip cs' w
      end
  end.

(** No chain that the code asks firewalld about is foreign to it. *)
Definition queried (f : firewall) (chain : string) : Prop :=
  fwEngine f = "firewalld" → chain = dockerUserChain ∨ chain = "INPUT".

Section Failing.
Context {W : Type} `{Runner W} (f : firewall).
Implicit Types (w : W).

Lemma hasRule_check_fails chain ip w w' o :
  known_engine f → queried f chain → runCommand (check_command f chain ip) w = (w', (o, false)) →
  hasRule f chain ip w = (w', false).
Proof.
  unfold check_command, hasRule, queried, known_engine. intros [-> | [-> | ->]] Hq; simpl; [by intros ->..|].
  destruct (Hq eq_refl) as [-> | ->]; simpl; by intros ->.
Qed.

(** [Unban] then issues the queries and nothing else, and reports success. *)
Lemma unban_checks_fail ip w w' :
  known_engine f → Forall (queried f) (chains f) → validateIP ip = None →
  checks_fail f ip (chains f) w = Some w' → fw_Unban f ip w = (w', None).
Proof.
  intros Hk Hq Hv Hc.
  assert (Hloop : ∀ remove cs, Forall (queried f) cs → ∀ w, checks_fail f ip cs w = Some w' →
    unban_loop f ip remove cs None w = (w', None)).
  { intros remove. induction 1 as [|chain cs Hch _ IH]; intros w0; cbn [checks_fail unban_loop]; [by intros [= ->]|].
    destruct (runCommand _ w0) as [w1 [o []]] eqn:Hr; [done|]. intros Hcs.
    rewrite (hasRule_check_fails _ _ _ _ _ Hk Hch Hr). cbn [negb]. by apply IH. }
  unfold fw_Unban. rewrite Hv. destruct Hk as [Hk|[Hk|Hk]]; rewrite Hk; simpl; by rewrite Hloop.
Qed.
End Failing.

Section Loops.
Context {W : Type} `{RuleBackend W f}.
Implicit Types (w : W) (c i ip : string).

(** No chain ever holds two copies of the same drop rule: [Ban] looks first. *)
Definition single_copies (w : W) : Prop := ∀ c i, (rules w c i <= 1)%nat.
Definition chains_block (w : W) (ip : string) : bool :=
  existsb (λ c, negb (rules w c ip =? 0)%nat) (chains f).

Lemma chains_block_spec w ip :
  chains_block w ip = true ↔ ∃ c, c ∈ chains f ∧ rules w c ip ≠ 0%nat.
Proof.
  unfold chains_block. rewrite existsb_exists. split; intros (c & Hc & Hr); exists c;
    rewrite ?negb_true_iff, ?Nat.eqb_neq, ?list_elem_of_In in *; done.
Qed.

Lemma chains_block_ext w w' ip :
  (∀ c, rules w' c ip = rules w c ip) → chains_block w' ip = chains_block w ip.
Proof. intros Hr. unfold chains_block. induction (chains f); simpl; [done|]. by rewrite Hr, IHl. Qed.

(** The rules survive the failing queries. *)
Lemma checks_fail_rules ip cs w w' :
  known_engine f → Forall (queried f) cs → cs ⊆ chains f → ip_text ip → backend_ok w →
  checks_fail f ip cs w = Some w' → backend_ok w' ∧ ∀ c i, rules w' c i = rules w c i.
Proof.
  intros Hk Hq Hsub Hip. revert w. induction Hq as [|chain cs Hch _ IH]; intros w Hok; cbn [checks_fail]; [by intros [= ->]|].
  destruct (runCommand _ w) as [w1 [o []]] eqn:Hr; [done|]. intros Hcs.
  pose proof (hasRule_check_fails _ _ _ _ _ _ Hk Hch Hr) as Hh.
  apply hasRule_law in Hh as (Hok1 & Hs & _); [|done|set_solver|done].
  destruct (IH ltac:(set_solver) w1 Hok1 Hcs) as [Hok' Hs']. split; [done|]. intros. by rewrite Hs', Hs.
Qed.

(** One round of the [Ban] loop: whether the chain holds the rule afterwards. *)
Definition ban_chain (ip chain : string) (w : W) : W * bool :=
  let '(w, has) := hasRule f chain ip w in
  if has then (w, true) else insertRule f ip chain w.

Lemma ban_loop_cons ip chain cs succ fe w :
  ban_loop f ip (insertRule f ip) (chain :: cs) succ fe w =
  let '(w', ok) := ban_chain ip chain w in
  ban_loop f ip (insertRule f ip) cs (if ok then true else succ)
    (if ok then fe else logFirewallChainError fe "ban") w'.
Proof.
  unfold ban_chain. simpl. destruct (hasRule f chain ip w) as [w1 []]; [done|].
  by destruct (insertRule f ip chain w1) as [w2 []].
Qed.

Context `{!RuleAnswers W f}.

(** What [hasRule] answers. *)
Lemma hasRule_spec w chain ip w' b :
  backend_ok w → chain ∈ chains f → ip_text ip → hasRule f chain ip w = (w', b) →
  backend_ok w' ∧ (∀ c i, rules w' c i = rules w c i) ∧ b = negb (rules w chain ip =? 0)%nat.
Proof.
  intros Hok Hin Hip Hh. pose proof (hasRule_law _ _ _ _ _ Hok Hin Hip Hh) as (Hok1 & Hs & Hb). split_and!; [done..|].
  destruct b.
  - symmetry. apply negb_true_iff, Nat.eqb_neq. auto.
  - by rewrite (hasRule_found _ _ _ _ Hok Hin Hip Hh).
Qed.

Lemma ban_chain_spec ip chain w w' ok :
  ip_text ip → chain ∈ chains f → backend_ok w → ban_chain ip chain w = (w', ok) →
  backend_ok w' ∧ (∀ c i, c ≠ chain ∨ i ≠ ip → rules w' c i = rules w c i) ∧
  rules w' chain ip = (if ok then Nat.max 1 (rules w chain ip) else 0%nat) ∧
  (ok = false → rules w chain ip = 0%nat).
Proof.
  intros Hip Hin Hok. unfold ban_chain.
  destruct (hasRule f chain ip w) as [w1 has] eqn:Hhas.
  apply hasRule_spec in Hhas as (Hok1 & Hr1 & ->); [|done..].
  destruct (rules w chain ip =? 0)%nat eqn:Hz; simpl; [apply Nat.eqb_eq in Hz|apply Nat.eqb_neq in Hz].
  - intros Hins. apply insert_law in Hins as (Hok2 & Hr2 & Hrc); [|done|done|done|by rewrite Hr1].
    rewrite Hz. split_and!; [done|intros; by rewrite Hr2, Hr1|by destruct ok|done].
  - intros [= <- <-]. split_and!; [done|auto|rewrite Hr1; lia|done].
Qed.

(** The whole loop over [cs]. *)
Record ban_loop_post (ip : string) (cs : list string) (w w' : W) (succ succ' : bool)
    (fe fe' : option banpool_err) : Prop := {
  bl_ok : backend_ok w';
  bl_other : ∀ c i, i ≠ ip → rules w' c i = rules w c i;
  bl_keep : ∀ c, rules w c ip ≠ 0%nat → rules w' c ip = rules w c ip;
  bl_max : ∀ c, (rules w' c ip <= Nat.max 1 (rules w c ip))%nat;
  bl_succ : succ' = true ↔ succ = true ∨ ∃ c, c ∈ cs ∧ rules w' c ip ≠ 0%nat;
  bl_fail : succ' = false → (∀ c, rules w' c ip = rules w c ip) ∧ (cs ≠ [] → fe' ≠ None);
  bl_err : (fe ≠ None → fe' ≠ None) ∧ (fe' = fe ∨ fe' = Some ErrCantBanIP) }.

Lemma log_ban_err fe : logFirewallChainError fe "ban" ≠ None ∧
  (logFirewallChainError fe "ban" = fe ∨ logFirewallChainError fe "ban" = Some ErrCantBanIP).
Proof. unfold logFirewallChainError. destruct fe; simpl; auto. Qed.

Lemma ban_loop_spec ip cs w succ fe w' succ' fe' :
  ip_text ip → cs ⊆ chains f → backend_ok w →
  ban_loop f ip (insertRule f ip) cs succ fe w = (w', succ', fe') →
  ban_loop_post ip cs w w' succ succ' fe fe'.
Proof.
  intros Hip. revert w succ fe. induction cs as [|chain cs IH]; intros w succ fe Hsub Hok.
  { intros [= <- <- <-]. split; try done; [lia| |auto].
    split; [by left|]. intros [?|(c & Hc & _)]; [done|by apply elem_of_nil in Hc]. }
  rewrite ban_loop_cons. destruct (ban_chain ip chain w) as [w1 ok] eqn:Hc.
  apply ban_chain_spec in Hc as (Hok1 & Hr1 & Hrc & Hno); [|done|set_solver|done].
  intros Hl. apply IH in Hl as [Hok' Hother Hkeep Hmax Hsucc Hfail [Hfe Hfe2]]; [|set_solver|done].
  assert (Hsame : ok = false → ∀ c, rules w1 c ip = rules w c ip).
  { intros -> c. destruct (decide (c = chain)) as [->|]; [by rewrite Hrc, Hno|auto]. }
  split.
  - done.
  - intros c i Hi. by rewrite Hother, Hr1 by auto.
  - intros c Hne. destruct (decide (c = chain)) as [->|]; [|by rewrite Hkeep; rewrite Hr1 by auto].
    destruct ok; [|by rewrite Hno in Hne]. rewrite Hkeep; lia.
  - intros c. specialize (Hmax c). destruct (decide (c = chain)) as [->|];
      [destruct ok; lia|by rewrite Hr1 in Hmax by auto].
  - rewrite Hsucc. destruct ok.
    + split; [intros _|by left]. right. exists chain. split; [set_solver|]. rewrite Hkeep; lia.
    + split; [intros [?|(c & ? & ?)]; [by left|right; exists c; set_solver]|].
      intros [?|(c & [->|Hc]%elem_of_cons & Hne)]; [by left| |by eauto].
      apply Hsucc. destruct succ'; [done|]. destruct (Hfail eq_refl) as [Hf _].
      rewrite Hf, Hrc in Hne. done.
  - intros ->. destruct ok; [discriminate (proj2 Hsucc (or_introl eq_refl))|].
    destruct (Hfail eq_refl) as [Hf _]. split; [intros c; rewrite Hf; by apply Hsame|].
    intros _. apply Hfe, log_ban_err.
  - destruct ok; [done|]. destruct (log_ban_err fe) as [Hn Hor]. split; [auto|].
    destruct Hfe2 as [->|]; [|by right]. done.
Qed.

(** One round of the [Unban] loop. *)
Definition unban_chain (ip chain : string) (w : W) : W * bool :=
  let '(w, has) := hasRule f chain ip w in
  if has then deleteRule f ip chain w else (w, true).

Lemma unban_loop_cons ip chain cs fe w :
  unban_loop f ip (deleteRule f ip) (chain :: cs) fe w =
  let '(w', ok) := unban_chain ip chain w in
  unban_loop f ip (deleteRule f ip) cs (if ok then fe else logFirewallChainError fe "unban") w'.
Proof.
  unfold unban_chain. simpl. destruct (hasRule f chain ip w) as [w1 []]; [|done].
  simpl. by destruct (deleteRule f ip chain w1) as [w2 []].
Qed.

Lemma unban_chain_spec ip chain w w' ok :
  ip_text ip → chain ∈ chains f → backend_ok w → unban_chain ip chain w = (w', ok) →
  backend_ok w' ∧ (∀ c i, c ≠ chain ∨ i ≠ ip → rules w' c i = rules w c i) ∧
  (rules w' chain ip <= rules w chain ip)%nat ∧
  (ok = true → (rules w chain ip <= 1)%nat → rules w' chain ip = 0%nat).
Proof.
  intros Hip Hin Hok. unfold unban_chain.
  destruct (hasRule f chain ip w) as [w1 has] eqn:Hhas.
  apply hasRule_spec in Hhas as (Hok1 & Hr1 & ->); [|done..].
  destruct (rules w chain ip =? 0)%nat eqn:Hz; simpl; [apply Nat.eqb_eq in Hz|apply Nat.eqb_neq in Hz].
  - intros [= <- <-]. rewrite Hr1. split_and!; [done|auto|lia|lia].
  - intros Hdel. apply delete_law in Hdel as (Hok2 & Hr2 & Hle & Hz2); [|done..].
    rewrite Hr1 in Hle, Hz2. split_and!; [done|intros; by rewrite Hr2, Hr1|done|done].
Qed.

Lemma unban_loop_spec ip cs w fe w' fe' :
  ip_text ip → cs ⊆ chains f → backend_ok w →
  unban_loop f ip (deleteRule f ip) cs fe w = (w', fe') →
  backend_ok w' ∧ (∀ c i, i ≠ ip → rules w' c i = rules w c i) ∧
  (∀ c, (rules w' c ip <= rules w c ip)%nat) ∧
  (fe' = None → fe = None ∧
     (single_copies w → ∀ c, c ∈ cs → rules w' c ip = 0%nat)).
Proof.
  intros Hip. revert w fe. induction cs as [|chain cs IH]; intros w fe Hsub Hok.
  { intros [= <- <-]. split_and!; try done. intros ->. split; [done|].
    intros _ c Hc. by apply elem_of_nil in Hc. }
  rewrite unban_loop_cons. destruct (unban_chain ip chain w) as [w1 ok] eqn:Hc.
  apply unban_chain_spec in Hc as (Hok1 & Hr1 & Hle & Hz); [|done|set_solver|done].
  intros Hl. apply IH in Hl as (Hok' & Hother & Hle' & Hnone); [|set_solver|done].
  assert (Hle1 : ∀ c, (rules w1 c ip <= rules w c ip)%nat).
  { intros c. destruct (decide (c = chain)) as [->|]; [done|]. by rewrite Hr1 by auto. }
  split_and!; [done| | |].
  - intros c i Hi. by rewrite Hother, Hr1 by auto.
  - intros c. specialize (Hle' c). specialize (Hle1 c). lia.
  - intros Hfe. destruct (Hnone Hfe) as [Hfe1 Hall]. destruct ok.
    + split; [done|]. intros Hsingle c Hc.
      assert (Hs1 : single_copies w1).
      { intros c' i. destruct (decide (i = ip)) as [->|]; [|by rewrite Hr1 by auto].
        specialize (Hle1 c'). specialize (Hsingle c' ip). lia. }
      apply elem_of_cons in Hc as [->|Hc]; [|by apply Hall].
      specialize (Hle' chain). specialize (Hz eq_refl (Hsingle _ _)). lia.
    + exfalso. unfold logFirewallChainError in Hfe1. by destruct fe.
Qed.

(** Both methods, once the engine is one of the three. *)
Lemma fw_Ban_eq ip w :
  known_engine f →
  fw_Ban f ip w =
  match validateBanIP ip with
  | Some err => (w, Some err)
  | None =>
      let '(w, succeeded, firstErr) :=
        ban_loop f ip (insertRule f ip) (chains f) false None w in
      match firstErr with
      | Some err => if negb succeeded then (w, Some err) else (w, None)
      | None => (w, None)
      end
  end.
Proof.
  unfold fw_Ban, insertRule. by intros [-> | [-> | ->]].
Qed.

Lemma fw_Unban_eq ip w :
  known_engine f →
  fw_Unban f ip w =
  match validateIP ip with
  | Some err => (w, Some err)
  | None => unban_loop f ip (deleteRule f ip) (chains f) None w
  end.
Proof.
  unfold fw_Unban, deleteRule.
  intros [-> | [-> | ->]]; simpl; destruct (validateIP ip); try done;
    by destruct (unban_loop _ _ _ _ _ _) as [? []].
Qed.

Lemma validateBanIP_text ip : validateBanIP ip = None → ip_text ip.
Proof. unfold validateBanIP, validateIP, ip_text. by destruct (ParseIP ip). Qed.
Lemma validateIP_text ip : validateIP ip = None → ip_text ip.
Proof. unfold validateIP, ip_text. by destruct (ParseIP ip). Qed.

Lemma fw_Ban_spec ip w w' err :
  known_engine f → chains f ≠ [] → backend_ok w → single_copies w → fw_Ban f ip w = (w', err) →
  (backend_ok w' ∧ single_copies w') ∧
  (∀ i, i ≠ ip → chains_block w' i = chains_block w i) ∧
  match err with
  | None => validateBanIP ip = None ∧ chains_block w' ip = true
  | Some e => chains_block w' ip = chains_block w ip ∧
              (validateBanIP ip = None → chains_block w ip = false) ∧
              (validateBanIP ip = None → e = ErrCantBanIP)
  end.
Proof.
  intros Heng Hch Hok Hs. rewrite fw_Ban_eq by done.
  destruct (validateBanIP ip) as [e|] eqn:Hv; [by intros [= <- <-]|].
  destruct (ban_loop _ _ _ _ _ _ _) as [[w1 succ] fe] eqn:Hl.
  apply ban_loop_spec in Hl as [Hok' Hother Hkeep Hmax Hsucc Hfail [_ Hfe]];
    [|by apply validateBanIP_text|done|done].
  assert (Hs' : single_copies w1).
  { intros c i. destruct (decide (i = ip)) as [->|]; [|by rewrite Hother].
    specialize (Hmax c). specialize (Hs c ip). lia. }
  assert (Hsb : succ = chains_block w1 ip).
  { apply eq_true_iff_eq. rewrite Hsucc, chains_block_spec. naive_solver. }
  destruct succ.
  - assert (Heq : (match fe with
                   | Some err => if negb true then (w1, Some err) else (w1, None)
                   | None => (w1, @None banpool_err) end) = (w1, None)) by by destruct fe.
    rewrite Heq. intros [= <- <-]. split; [done|]. split; [|done].
    intros i Hi. apply chains_block_ext. auto.
  - destruct (Hfail eq_refl) as [Hsame Hne]. destruct fe as [e|]; [|by destruct Hne].
    intros [= <- <-]. split; [done|].
    assert (Hb : chains_block w1 ip = chains_block w ip) by by apply chains_block_ext.
    split_and!; [|done|by rewrite <- Hb|by destruct Hfe as [|[= ->]]].
    intros i Hi. apply chains_block_ext. auto.
Qed.

Lemma fw_Unban_spec ip w w' err :
  known_engine f → backend_ok w → single_copies w → fw_Unban f ip w = (w', err) →
  (backend_ok w' ∧ single_copies w') ∧
  (∀ i, i ≠ ip → chains_block w' i = chains_block w i) ∧
  match err with
  | None => chains_block w' ip = false
  | Some _ => chains_block w' ip = true → chains_block w ip = true
  end.
Proof.
  intros Heng Hok Hs. rewrite fw_Unban_eq by done.
  destruct (validateIP ip) as [e|] eqn:Hv; [by intros [= <- <-]|].
  intros Hl. apply unban_loop_spec in Hl as (Hok' & Hother & Hle & Hnone);
    [|by apply validateIP_text|done|done].
  split_and!; [done| | |].
  - intros c i. destruct (decide (i = ip)) as [->|]; [|by rewrite Hother].
    specialize (Hle c). specialize (Hs c ip). lia.
  - intros i Hi. apply chains_block_ext. auto.
  - destruct err as [e|].
    + rewrite !chains_block_spec. intros (c & Hc & Hr). exists c. split; [done|].
      specialize (Hle c). lia.
    + destruct (Hnone eq_refl) as [_ Hall]. apply not_true_iff_false. rewrite chains_block_spec.
      intros (c & Hc & Hr). by rewrite Hall in Hr.
Qed.
End Loops.

(** ** The interface, discharged for a firewall over a backend *)
Definition fw_world (f : firewall) (W : Type) : Type := W.

#[global] Instance firewall_ops {W} `{Runner W} (f : firewall) : Firewall (fw_world f W) := {
  Firewall_Ban := fw_Ban (W := W) f;
  Firewall_Unban := fw_Unban (W := W) f }.

(** What [NewFirewall] establishes for the three engines of the configuration. *)
Class ReadyFirewall (f : firewall) : Prop := {
  ready_engine : known_engine f;
  ready_chains : chains f ≠ [] }.

#[global] Instance firewall_spec {W} `{RuleAnswers W f} `{!ReadyFirewall f} :
  FirewallSpec (fw_world f W) := {|
    blocked := chains_block : fw_world f W → string → bool;
    fw_ok := λ w : W, backend_ok w ∧ single_copies w;
    Firewall_Ban_spec := λ w ip w' err Hok Hb,
      fw_Ban_spec ip w w' err ready_engine ready_chains (proj1 Hok) (proj2 Hok) Hb;
    Firewall_Unban_spec := λ w ip w' err Hok Hb,
      fw_Unban_spec ip w w' err ready_engine (proj1 Hok) (proj2 Hok) Hb |}.

