(* ===== verification/FirewallEngines.v ===== *)
(** * The firewall engines

    What the code relies on from iptables and firewalld, one class of laws per tool, each
    discharging [RuleBackend] for a firewall on that engine, and concrete worlds of
    rules the laws hold of.  A check or a query may fail, which the code takes for a rule that
    is not there: that it answers are classes of their own ([IptablesAnswers],
    [FirewalldAnswers]), and [busy_ipt] is a world in which it does not.  nftables, whose rules are found by reading the
    listing of a chain, is in FirewallNft.v. *)

From S2P Require Import Prelude.
From S2P Require Import GoStrings.
From S2P Require Import GoNet.
From S2P Require Import Repository.
From S2P Require Import Firewall.

(** ** iptables

    [--check] succeeds only when the rule is there, [--insert] adds one copy, [--delete]
    removes one; a failed command changes nothing.  [--check] also fails when iptables
    cannot answer; [IptablesAnswers] is that it does not. *)
Class IptablesLaws (W : Type) `{Runner W} := {
  ipt_rules : W → string → string → nat;
  ipt_check_law w c ip w' o ok :
    runCommand ["iptables"; "--check"; c; "--source"; ip; "--jump"; "DROP"] w = (w', (o, ok)) →
    (∀ c' i, ipt_rules w' c' i = ipt_rules w c' i) ∧ (ok = true → ipt_rules w c ip ≠ 0%nat);
  ipt_insert_law w c ip w' o ok :
    runCommand ["iptables"; "--insert"; c; "--source"; ip; "--jump"; "DROP"] w = (w', (o, ok)) →
    (∀ c' i, c' ≠ c ∨ i ≠ ip → ipt_rules w' c' i = ipt_rules w c' i) ∧
    ipt_rules w' c ip = (ipt_rules w c ip + if ok then 1 else 0)%nat;
  ipt_delete_law w c ip w' o ok :
    runCommand ["iptables"; "--delete"; c; "--source"; ip; "--jump"; "DROP"] w = (w', (o, ok)) →
    (∀ c' i, c' ≠ c ∨ i ≠ ip → ipt_rules w' c' i = ipt_rules w c' i) ∧
    ipt_rules w' c ip = (ipt_rules w c ip - if ok then 1 else 0)%nat }.

Class IptablesAnswers (W : Type) `{IptablesLaws W} : Prop :=
  ipt_check_answers w c ip w' o :
    runCommand ["iptables"; "--check"; c; "--source"; ip; "--jump"; "DROP"] w = (w', (o, false)) →
    ipt_rules w c ip = 0%nat.

#[global] Instance iptables_backend {W} `{IptablesLaws W} (cs : list string) :
  RuleBackend W (MkFirewall "iptables" cs).
Proof.
  refine {| rules := ipt_rules; backend_ok := λ _, True |}.
  - intros w chain ip w' b _ _ _. unfold hasRule. simpl.
    destruct (runCommand _ w) as [w1 [o ok]] eqn:Hr. intros [= <- <-].
    by apply ipt_check_law in Hr as [? ?].
  - intros w chain ip w' ok _ _ _ Hz. unfold insertRule, insert_iptables, run_ok. simpl.
    destruct (runCommand _ w) as [w1 [o ok']] eqn:Hr. intros [= <- <-].
    apply ipt_insert_law in Hr as [? ->]. rewrite Hz. by destruct ok'.
  - intros w chain ip w' ok _ _ _. unfold deleteRule, delete_iptables, run_ok. simpl.
    destruct (runCommand _ w) as [w1 [o ok']] eqn:Hr. intros [= <- <-].
    apply ipt_delete_law in Hr as [? ->]. split_and!; [done|done|lia|].
    intros ->. lia.
Defined.

#[global] Instance iptables_answers {W} `{IptablesAnswers W} (cs : list string) :
  RuleAnswers W (MkFirewall "iptables" cs).
Proof.
  intros w chain ip w' _ _ _. unfold hasRule. simpl.
  destruct (runCommand _ w) as [w1 [o ok]] eqn:Hr. intros [= <- ->]. by eapply ipt_check_answers.
Qed.

(** ** firewalld

    Rich rules are a set per policy: the Docker policy for [DOCKER-USER], the default
    zone for [INPUT].  A chain is named by the arguments that select it.  A query that
    succeeds has found the rule; [FirewalldAnswers] is that it succeeds when there is one. *)
Definition fwd_args (chain : string) : list string :=
  if bool_decide (chain = dockerUserChain) then ["--policy"; firewalldDockerPolicy] else [].
Definition fwd_chain (chain : string) : Prop := chain = dockerUserChain ∨ chain = "INPUT".

Class FirewalldLaws (W : Type) `{Runner W} := {
  fwd_rules : W → string → string → bool;
  fwd_query_law w c ip w' o ok :
    fwd_chain c →
    runCommand ("firewall-cmd" :: fwd_args c ++ ["--query-rich-rule"; rich_rule ip]) w = (w', (o, ok)) →
    (∀ c' i, fwd_rules w' c' i = fwd_rules w c' i) ∧ (ok = true → fwd_rules w c ip = true);
  fwd_change_law w c ip op w' o ok :
    fwd_chain c → op = "--add-rich-rule" ∨ op = "--remove-rich-rule" →
    runCommand ("firewall-cmd" :: fwd_args c ++ [op; rich_rule ip]) w = (w', (o, ok)) →
    (∀ c' i, c' ≠ c ∨ i ≠ ip → fwd_rules w' c' i = fwd_rules w c' i) ∧
    fwd_rules w' c ip = if ok then bool_decide (op = "--add-rich-rule") else fwd_rules w c ip }.

Class FirewalldAnswers (W : Type) `{FirewalldLaws W} : Prop :=
  fwd_query_answers w c ip w' o :
    fwd_chain c →
    runCommand ("firewall-cmd" :: fwd_args c ++ ["--query-rich-rule"; rich_rule ip]) w = (w', (o, false)) →
    fwd_rules w c ip = false.

(** A chain firewalld does not know holds no rule and can be given none. *)
Definition fwd_count {W} `{FirewalldLaws W} (w : W) (c i : string) : nat :=
  if bool_decide (c = dockerUserChain) || bool_decide (c = "INPUT")
  then if fwd_rules w c i then 1%nat else 0%nat else 0%nat.

Lemma changeFirewalldRule_spec {W} `{FirewalldLaws W} c op ip e (w w' : W) ok :
  op = "--add-rich-rule" ∨ op = "--remove-rich-rule" →
  succeeds (changeFirewalldRule c op ip e) w = (w', ok) →
  (∀ c' i, c' ≠ c ∨ i ≠ ip → fwd_count w' c' i = fwd_count w c' i) ∧
  (ok = false → fwd_count w' c ip = fwd_count w c ip) ∧
  (ok = true → fwd_count w' c ip = if bool_decide (op = "--add-rich-rule") then 1%nat else 0%nat).
Proof.
  intros Hop. unfold succeeds, changeFirewalldRule.
  assert (Hcase : ∀ w' o ok, fwd_chain c →
    runCommand ("firewall-cmd" :: fwd_args c ++ [op; rich_rule ip]) w = (w', (o, ok)) →
    (∀ c' i, c' ≠ c ∨ i ≠ ip → fwd_count w' c' i = fwd_count w c' i) ∧
    (ok = false → fwd_count w' c ip = fwd_count w c ip) ∧
    (ok = true → fwd_count w' c ip = if bool_decide (op = "--add-rich-rule") then 1%nat else 0%nat)).
  { intros w1 o ok1 Hc Hr. apply fwd_change_law in Hr as [Ho Hs]; [|done..].
    unfold fwd_count. split_and!.
    - intros c' i Hne. by rewrite Ho.
    - intros ->. by rewrite Hs.
    - intros ->. rewrite Hs. destruct Hc as [-> | ->]; simpl; by destruct (bool_decide _). }
  unfold fwd_args in Hcase.
  destruct (bool_decide (c = dockerUserChain)) eqn:Hd; bool_hyps; [subst|].
  - destruct (runCommand _ w) as [w1 [o []]] eqn:Hr; intros [= <- <-];
      (eapply Hcase; [by left|reflexivity]).
  - destruct (bool_decide (c = "INPUT")) eqn:Hi; bool_hyps; simpl; [subst|].
    + destruct (runCommand _ w) as [w1 [o []]] eqn:Hr; intros [= <- <-];
        (eapply Hcase; [by right|reflexivity]).
    + by intros [= <- <-].
Qed.

#[global] Instance firewalld_backend {W} `{FirewalldLaws W} (cs : list string) :
  RuleBackend W (MkFirewall "firewalld" cs).
Proof.
  refine {| rules := fwd_count; backend_ok := λ _, True |}.
  - intros w chain ip w' b _ _ _. unfold hasRule. simpl.
    pose proof (fwd_query_law w chain ip) as Hq. unfold fwd_args, fwd_chain in Hq. unfold fwd_count.
    destruct (bool_decide (chain = dockerUserChain)) eqn:Hd; bool_hyps.
    + destruct (runCommand _ w) as [w1 [o ok]] eqn:Hr. intros [= <- <-].
      destruct (Hq _ _ _ (or_introl Hd) eq_refl) as [Hs Hf]. split_and!; [done|intros; by rewrite Hs|].
      intros ->. simpl. by rewrite Hf.
    + destruct (bool_decide (chain = "INPUT")) eqn:Hi; bool_hyps; [|by intros [= <- <-]].
      destruct (runCommand _ w) as [w1 [o ok]] eqn:Hr. intros [= <- <-].
      destruct (Hq _ _ _ (or_intror Hi) eq_refl) as [Hs Hf]. split_and!; [done|intros; by rewrite Hs|].
      intros ->. simpl. by rewrite Hf.
  - intros w chain ip w' ok _ _ _ Hz. unfold insertRule, insert_firewalld. simpl. intros Hr.
    apply changeFirewalldRule_spec in Hr as (? & Hf & Ht); [|by left].
    split_and!; [done|done|]. destruct ok; [by rewrite Ht|by rewrite Hf].
  - intros w chain ip w' ok _ _ _. unfold deleteRule, delete_firewalld. simpl. intros Hr.
    apply changeFirewalldRule_spec in Hr as (? & Hf & Ht); [|by right].
    split_and!; [done|done| |].
    + destruct ok; [rewrite Ht by done; simpl; lia|by rewrite Hf].
    + intros -> _. by rewrite Ht.
Defined.

#[global] Instance firewalld_answers {W} `{FirewalldAnswers W} (cs : list string) :
  RuleAnswers W (MkFirewall "firewalld" cs).
Proof.
  intros w chain ip w' _ _ _. unfold hasRule. simpl. unfold fwd_count.
  pose proof (fwd_query_answers w chain ip) as Hq. unfold fwd_args, fwd_chain in Hq.
  destruct (bool_decide (chain = dockerUserChain)) eqn:Hd; bool_hyps.
  - destruct (runCommand _ w) as [w1 [o ok]] eqn:Hr. intros [= <- ->]. cbn [orb].
    by rewrite (Hq _ _ (or_introl Hd) eq_refl).
  - destruct (bool_decide (chain = "INPUT")) eqn:Hi; bool_hyps; [|done]. cbn [orb].
    destruct (runCommand _ w) as [w1 [o ok]] eqn:Hr. intros [= <- ->].
    by rewrite (Hq _ _ (or_intror Hi) eq_refl).
Qed.

(** ** A concrete iptables: a list of rules, and a script of failing changes *)
Record ipt_world := IptWorld { w_rules : list (string * string); w_faults : list bool }.

Definition ipt_fault (w : ipt_world) : bool * ipt_world :=
  match w_faults w with
  | [] => (false, w)
  | x :: fs => (x, IptWorld (w_rules w) fs)
  end.

Fixpoint remove_first (r : string * string) (l : list (string * string)) : list (string * string) :=
  match l with
  | [] => []
  | x :: l' => if decide (x = r) then l' else x :: remove_first r l'
  end.

Definition count_rule (l : list (string * string)) (r : string * string) : nat :=
  length (List.filter (λ x, bool_decide (x = r)) l).

#[global] Instance ipt_runner : Runner ipt_world := λ argv w,
  match argv with
  | [_; op; c; _; ip; _; _] =>
      if bool_decide (op = "--check") then
        (w, ("", negb (count_rule (w_rules w) (c, ip) =? 0)%nat))
      else
        let '(bad, w) := ipt_fault w in
        if bad then (w, ("iptables: Resource temporarily unavailable.", false))
        else if bool_decide (op = "--insert") then
          (IptWorld ((c, ip) :: w_rules w) (w_faults w), ("", true))
        else if (count_rule (w_rules w) (c, ip) =? 0)%nat then
          (w, ("iptables: Bad rule (does a matching rule exist in that chain?).", false))
        else (IptWorld (remove_first (c, ip) (w_rules w)) (w_faults w), ("", true))
  | _ => (w, ("", false))
  end.

Lemma count_remove_first l r x :
  count_rule (remove_first r l) x =
  (count_rule l x - if bool_decide (x = r) then 1 else 0)%nat.
Proof.
  unfold count_rule. induction l as [|y l IH]; simpl; [lia|]. destruct (decide (y = r)) as [->|Hy].
  - destruct (decide (r = x)) as [->|Hne].
    + rewrite !bool_decide_true by done. simpl. lia.
    + rewrite !bool_decide_false by done. lia.
  - simpl. destruct (decide (y = x)) as [->|Hne].
    + rewrite bool_decide_true by done. simpl. rewrite IH. rewrite bool_decide_false by done. lia.
    + by rewrite (bool_decide_false (y = x)) by done.
Qed.

Lemma ipt_fault_rules w b w' : ipt_fault w = (b, w') → w_rules w' = w_rules w.
Proof. unfold ipt_fault. destruct (w_faults w); by intros [= <- <-]. Qed.

#[global] Instance ipt_laws : IptablesLaws ipt_world.
Proof.
  refine {| ipt_rules := λ w c i, count_rule (w_rules w) (c, i) |}.
  - intros w c ip w' o ok. unfold runCommand, ipt_runner.
    rewrite bool_decide_true by done. intros [= <- <- <-]. split; [done|].
    by intros ?%negb_true_iff%Nat.eqb_neq.
  - intros w c ip w' o ok. unfold runCommand, ipt_runner.
    rewrite bool_decide_false by done. destruct (ipt_fault w) as [[] w1] eqn:Hf;
      apply ipt_fault_rules in Hf; rewrite <- Hf.
    + intros [= <- <- <-]. split; [done|lia].
    + rewrite bool_decide_true by done. intros [= <- <- <-]. simpl.
      unfold count_rule. simpl. split.
      * intros c' i Hne. by rewrite bool_decide_false by naive_solver.
      * rewrite bool_decide_true by done. simpl. lia.
  - intros w c ip w' o ok. unfold runCommand, ipt_runner.
    rewrite bool_decide_false by done. destruct (ipt_fault w) as [[] w1] eqn:Hf;
      apply ipt_fault_rules in Hf; rewrite <- Hf.
    + intros [= <- <- <-]. split; [done|lia].
    + rewrite bool_decide_false by done.
      destruct (_ =? 0)%nat; intros [= <- <- <-]; [split; [done|lia]|]. simpl.
      setoid_rewrite count_remove_first. split.
      * intros c' i Hne. rewrite bool_decide_false by naive_solver. lia.
      * by rewrite bool_decide_true by done.
Defined.

#[global] Instance ipt_answers : IptablesAnswers ipt_world.
Proof.
  intros w c ip w' o. unfold runCommand, ipt_runner. rewrite bool_decide_true by done.
  by intros [= _ _ ?%negb_false_iff%Nat.eqb_eq].
Qed.

(** An iptables whose lock others may hold: [true] in the script fails the command. *)
Record busy_ipt := BusyIpt { b_ipt : ipt_world; b_held : list bool }.
#[global] Instance busy_runner : Runner busy_ipt := λ argv w,
  match b_held w with
  | true :: held => (BusyIpt (b_ipt w) held, ("Another app is currently holding the xtables lock.", false))
  | held => let '(w', res) := ipt_runner argv (b_ipt w) in (BusyIpt w' (List.tail held), res)
  end.

#[global] Instance busy_laws : IptablesLaws busy_ipt.
Proof.
  assert (Hrun : ∀ argv (w w' : busy_ipt) o ok, runCommand argv w = (w', (o, ok)) →
    (b_ipt w' = b_ipt w ∧ ok = false) ∨ runCommand argv (b_ipt w) = (b_ipt w', (o, ok))).
  { intros argv w w' o ok. unfold runCommand at 1, busy_runner. destruct (b_held w) as [|[] held]; [|by intros [= <- <- <-]; left|];
      (destruct (ipt_runner argv (b_ipt w)) as [w1 [o1 ok1]] eqn:Hr; intros [= <- <- <-]; by right). }
  refine {| ipt_rules := λ w c i, ipt_rules (b_ipt w) c i |}.
  - intros w c ip w' o ok [[-> ->]|Hr%ipt_check_law]%Hrun; done.
  - intros w c ip w' o ok [[-> ->]|Hr%ipt_insert_law]%Hrun; [split; [done|lia]|done].
  - intros w c ip w' o ok [[-> ->]|Hr%ipt_delete_law]%Hrun; [split; [done|lia]|done].
Defined.

(** The firewall of the default configuration. *)
Definition default_firewall : firewall := MkFirewall "iptables" ["INPUT"; dockerUserChain].
#[global] Instance default_ready : ReadyFirewall default_firewall.
Proof. split; [by left|done]. Qed.

(** ** A concrete firewalld: the rich rules of the Docker policy and of the default zone *)
Definition fwd_world : Type := gset (string * string).

Definition fwd_command (c op rule : string) (w : fwd_world) : fwd_world * (string * bool) :=
  if bool_decide (op = "--query-rich-rule") then (w, (EmptyString, bool_decide ((c, rule) ∈ w)))
  else if bool_decide (op = "--add-rich-rule") then ({[(c, rule)]} ∪ w, ("success", true))
  else if bool_decide (op = "--remove-rich-rule") then (w ∖ {[(c, rule)]}, ("success", true))
  else (w, (EmptyString, false)).

#[global] Instance fwd_runner : Runner fwd_world := λ argv w,
  match argv with
  | [_; op; rule] => fwd_command "INPUT" op rule w
  | [_; _; _; op; rule] => fwd_command dockerUserChain op rule w
  | _ => (w, (EmptyString, false))
  end.

Lemma rich_rule_inj i j : rich_rule i = rich_rule j → i = j.
Proof.
  intros Heq%(f_equal bytes). unfold rich_rule in Heq. rewrite !bytes_app in Heq.
  do 6 apply app_inv_head in Heq. apply app_inv_tail in Heq. by apply bytes_inj.
Qed.

Lemma fwd_run c op rule (w : fwd_world) :
  fwd_chain c → runCommand ("firewall-cmd" :: fwd_args c ++ [op; rule]) w = fwd_command c op rule w.
Proof. by intros [-> | ->]. Qed.

#[global] Instance fwd_laws : FirewalldLaws fwd_world.
Proof.
  refine {| fwd_rules w c ip := bool_decide ((c, rich_rule ip) ∈ w) |}.
  - intros w c ip w' o ok Hc. rewrite fwd_run by done. unfold fwd_command. rewrite bool_decide_true by done.
    intros [= <- <- <-]. done.
  - intros w c ip op w' o ok Hc Hop. rewrite fwd_run by done. unfold fwd_command.
    assert (Hne : ∀ c' i, c' ≠ c ∨ i ≠ ip → (c', rich_rule i) ≠ (c, rich_rule ip)).
    { intros c' i Hor [-> Hr]%pair_equal_spec. apply rich_rule_inj in Hr. naive_solver. }
    destruct Hop as [-> | ->]; rewrite !bool_decide_false by done; rewrite ?bool_decide_true by done;
      intros [= <- <- <-]; (split; [intros c' i Hor; apply Hne in Hor; apply bool_decide_ext; set_solver|]).
    + rewrite !bool_decide_true by set_solver. done.
    + rewrite !bool_decide_false by set_solver. done.
Defined.

#[global] Instance fwd_world_answers : FirewalldAnswers fwd_world.
Proof.
  intros w c ip w' o Hc. rewrite fwd_run by done. unfold fwd_command. rewrite bool_decide_true by done.
  by intros [= _ _ ?].
Qed.
