(* ===== verification/FirewallNft.v ===== *)
(** * The firewall on nftables

    [hasRule] and [deleteNftablesRule] read the text that [nft -a list chain] prints.  The
    class [NftablesLaws] states what the three commands do to the chains of the table, a
    chain being its rules with their handles and texts, and how a chain is listed, when the
    listing succeeds: its rules one per line between lines that name no address to drop.
    Every command may fail; [NftablesAnswers] is that listing a chain of the table does not.  From these laws the
    text search is proved to find exactly the drop rules, the cut at the handle to name
    exactly the rule of the line, and [RuleBackend] follows for chains whose other rules do
    not spell a drop ([nft_ok]).  The limit of the text search is [narrow_rule_hides_ban]. *)

From S2P Require Import Prelude.
From S2P Require Import GoStrings.
From S2P Require Import GoNet.
From S2P Require Import GoText.
From S2P Require Import Repository.
From S2P Require Import Firewall.

(** ** What the code relies on *)
Definition tabs : string := of_bytes [byte_of 9; byte_of 9].
Definition nft_rule : Type := Z * string.
Definition rule_line (r : nft_rule) : string := tabs +:+ snd r +:+ " # handle " +:+ dec (fst r).

(** A line of the listing that names no address to drop. *)
Definition quiet_line (l : string) : Prop :=
  (newline ∉ bytes l) ∧ ∀ ip, ip_text ip → str_contains l (saddr_drop ip) = false.

Class NftablesLaws (W : Type) `{Runner W} := {
  nft_chain : W → string → option (list nft_rule);
  nft_list_law w c w' o ok :
    runCommand ["nft"; "-a"; "list"; "chain"; "inet"; "filter"; c] w = (w', (o, ok)) →
    (∀ c', nft_chain w' c' = nft_chain w c') ∧
    if ok then
      ∃ rules head pre post, nft_chain w c = Some rules ∧
        o = str_join nl (head :: pre ++ map rule_line rules ++ post) ∧ Forall quiet_line (head :: pre ++ post)
    else True;
  nft_insert_law w c ip w' o ok :
    runCommand ["nft"; "insert"; "rule"; "inet"; "filter"; c; "ip"; "saddr"; ip; "drop"] w = (w', (o, ok)) →
    (∀ c', c' ≠ c → nft_chain w' c' = nft_chain w c') ∧
    if ok then
      ∃ rules h, nft_chain w c = Some rules ∧ (h ∉ map fst rules) ∧ 0 <= h < 10 ^ 19 ∧
        nft_chain w' c = Some ((h, saddr_drop ip) :: rules)
    else nft_chain w' c = nft_chain w c;
  nft_delete_law w c h w' o ok :
    runCommand ["nft"; "delete"; "rule"; "inet"; "filter"; c; "handle"; dec h] w = (w', (o, ok)) → 0 <= h < 10 ^ 19 →
    (∀ c', c' ≠ c → nft_chain w' c' = nft_chain w c') ∧
    nft_chain w' c = if ok then filter (λ r, fst r ≠ h) <$> nft_chain w c else nft_chain w c }.

Class NftablesAnswers (W : Type) `{NftablesLaws W} : Prop :=
  nft_list_answers w c w' o :
    runCommand ["nft"; "-a"; "list"; "chain"; "inet"; "filter"; c] w = (w', (o, false)) → nft_chain w c = None.

(** A rule that is listed on a line, and whose line names an address to drop only when
    the rule is the drop of that address. *)
Definition plain_rule (r : nft_rule) : Prop :=
  0 <= fst r < 10 ^ 19 ∧ (newline ∉ bytes (snd r)) ∧
  ∀ ip, ip_text ip → str_contains (rule_line r) (saddr_drop ip) = true → snd r = saddr_drop ip.
Definition plain_rules (rules : list nft_rule) : Prop := NoDup (map fst rules) ∧ Forall plain_rule rules.

Definition drops (ip : string) (r : nft_rule) : Prop := snd r = saddr_drop ip.
#[global] Instance drops_dec ip r : Decision (drops ip r).
Proof. unfold drops. apply _. Defined.
Definition others (ip : string) (rules : list nft_rule) : list nft_rule := filter (λ r, ¬ drops ip r) rules.

(** *** The lines *)
(** [c ∉ x ++ ...] for literals and the texts named by hypotheses. *)
Ltac not_there :=
  repeat first [rewrite not_elem_of_app; split|rewrite not_elem_of_cons; split|assumption|discriminate
               |refine (bool_decide_unpack _ _); vm_compute; exact I].
Lemma dec_without h c : 0 <= h < 10 ^ 19 → is_digit c = false → c ∉ bytes (dec h).
Proof.
  intros Hh Hc Hin. destruct (dec_spec h) as (_ & Hd & _); [lia|]. rewrite Forall_forall in Hd. apply Hd in Hin. congruence.
Qed.

Lemma rule_line_bytes h t :
  bytes (rule_line (h, t)) = bytes tabs ++ bytes t ++ bytes " # handle " ++ bytes (dec h).
Proof. unfold rule_line. cbn [fst snd]. by rewrite !bytes_app. Qed.

Lemma drop_line_contains h ip : str_contains (rule_line (h, saddr_drop ip)) (saddr_drop ip) = true.
Proof. apply str_contains_spec. rewrite rule_line_bytes. eauto. Qed.

Lemma saddr_drop_bytes ip : bytes (saddr_drop ip) = bytes "ip " ++ "s"%char :: bytes "addr " ++ bytes ip ++ " "%char :: bytes "drop".
Proof. unfold saddr_drop. by rewrite !bytes_app. Qed.

(** The only [s] of a drop rule's line is that of [saddr], and the address ends at the
    first blank after it. *)
Lemma drop_line_exact h i j :
  ip_text i → ip_text j → 0 <= h < 10 ^ 19 →
  str_contains (rule_line (h, saddr_drop i)) (saddr_drop j) = true → i = j.
Proof.
  intros Hi Hj Hh (p & q & Heq)%str_contains_spec. rewrite rule_line_bytes, !saddr_drop_bytes in Heq.
  assert (Hs : "s"%char ∉ bytes i) by (by apply ParseIP_without).
  assert (Hd : "s"%char ∉ bytes (dec h)) by (by apply dec_without).
  assert (Heq' : (bytes tabs ++ bytes "ip ") ++ "s"%char :: bytes "addr " ++ bytes i ++ " "%char :: bytes "drop # handle " ++ bytes (dec h)
            = (p ++ bytes "ip ") ++ "s"%char :: bytes "addr " ++ bytes j ++ " "%char :: bytes "drop" ++ q)
    by (repeat first [rewrite <- app_assoc in Heq|rewrite <- app_comm_cons in Heq]; rewrite <- !app_assoc; exact Heq).
  apply once_app in Heq' as [_ Htail].
  - apply (app_inv_head (bytes "addr ")) in Htail.
    apply before_first in Htail as [Hb _]; [by apply bytes_inj| |]; by apply ParseIP_without.
  - not_there.
  - not_there.
Qed.

Lemma plain_drop ip h : ip_text ip → 0 <= h < 10 ^ 19 → plain_rule (h, saddr_drop ip).
Proof.
  intros Hip Hh. split_and!; [cbn; lia|cbn; lia| |].
  - cbn [snd]. rewrite saddr_drop_bytes. assert (newline ∉ bytes ip) by (by apply ParseIP_without). not_there.
  - intros j Hj Hc. cbn [snd]. f_equal. by eapply drop_line_exact.
Qed.

Lemma plain_line r : plain_rule r → newline ∉ bytes (rule_line r).
Proof.
  destruct r as [h t]. intros (Hh & Ht & _). cbn [fst snd] in *. rewrite rule_line_bytes.
  assert (newline ∉ bytes (dec h)) by (by apply dec_without). not_there.
Qed.

Lemma plain_contains r ip :
  plain_rule r → ip_text ip → str_contains (rule_line r) (saddr_drop ip) = bool_decide (drops ip r).
Proof.
  destruct r as [h t]. intros (_ & _ & Hp) Hip. unfold drops. cbn [snd] in *. case_bool_decide as Hd.
  - subst t. apply drop_line_contains.
  - apply not_true_iff_false. intros Hc. apply Hd. by apply Hp.
Qed.

(** The line of a drop rule is cut at its handle. *)
Lemma drop_line_handle h ip :
  ip_text ip → 0 <= h < 10 ^ 19 →
  split_str (rule_line (h, saddr_drop ip)) "# handle " = [tabs +:+ saddr_drop ip +:+ " "; dec h] ∧ trim_space (dec h) = dec h.
Proof.
  intros Hip Hh. split.
  - assert (Hl : rule_line (h, saddr_drop ip) = (tabs +:+ saddr_drop ip +:+ " ") +:+ "# handle " +:+ dec h).
    { apply bytes_inj. rewrite rule_line_bytes, !bytes_app, <- !app_assoc. done. }
    rewrite Hl. apply split_once; [|by apply dec_without].
    assert ("#"%char ∉ bytes ip) by (by apply ParseIP_without).
    rewrite !bytes_app, saddr_drop_bytes. not_there.
  - destruct (dec_spec h) as (Hne & Hd & _); [lia|]. destruct (bytes (dec h)) as [|c l] eqn:Hb; [done|].
    destruct (last (c :: l)) as [d|] eqn:Hl; [|by apply last_None in Hl].
    rewrite Forall_forall in Hd.
    apply (trim_space_ink _ c d l Hb Hl); apply digit_ink, Hd; [by left|].
    apply last_Some in Hl as [l' ->]. set_solver.
Qed.

(** *** The operations *)
Section Nft.
Context {W : Type} `{NftablesLaws W}.
Implicit Types (w : W) (rules : list nft_rule).

Definition nft_ok w : Prop := ∀ c rules, nft_chain w c = Some rules → plain_rules rules.
Definition nft_count w (c ip : string) : nat := length (filter (drops ip) (default [] (nft_chain w c))).
Definition same_chains w w' : Prop := ∀ c, nft_chain w' c = nft_chain w c.

Lemma listing_contains rules head pre post ip :
  ip_text ip → Forall plain_rule rules → Forall quiet_line (head :: pre ++ post) →
  str_contains (str_join nl (head :: pre ++ map rule_line rules ++ post)) (saddr_drop ip) =
  bool_decide (Exists (drops ip) rules).
Proof.
  intros Hip Hr Hq. apply eq_iff_eq_true. rewrite bool_decide_eq_true, Exists_exists.
  change nl with (String newline EmptyString). rewrite join_contains.
  2:{ rewrite saddr_drop_bytes. assert (newline ∉ bytes ip) by (by apply ParseIP_without). not_there. }
  rewrite Forall_forall in Hr. rewrite Forall_forall in Hq. split.
  - intros (l & Hl & Hc). assert (Hquiet : l ∉ head :: pre ++ post).
    { intros Hin. apply Hq in Hin as [_ Hin]. rewrite Hin in Hc; done. }
    assert (Hin : l ∈ map rule_line rules) by set_solver.
    apply list_elem_of_fmap in Hin as (r & -> & Hin). exists r. split; [done|].
    rewrite plain_contains in Hc by auto. by apply bool_decide_eq_true in Hc.
  - intros (r & Hin & Hd). exists (rule_line r). split.
    + assert (rule_line r ∈ map rule_line rules) by (by apply list_elem_of_fmap_2). set_solver.
    + rewrite plain_contains by auto. by apply bool_decide_eq_true.
Qed.

Lemma nft_count_exists w c rs ip :
  nft_chain w c = Some rs → Exists (drops ip) rs ↔ nft_count w c ip ≠ 0%nat.
Proof.
  intros Hc. unfold nft_count. rewrite Hc. change (default [] (Some rs)) with rs. rewrite length_zero_iff_nil, Exists_exists. split.
  - intros (r & Hin & Hd) Hn. assert (Hf : r ∈ filter (drops ip) rs) by (by apply list_elem_of_filter).
    rewrite Hn in Hf. by apply elem_of_nil in Hf.
  - intros Hne. destruct (filter (drops ip) rs) as [|r l] eqn:Hf; [done|]. exists r.
    assert (Hin : r ∈ filter (drops ip) rs) by (rewrite Hf; by left). apply list_elem_of_filter in Hin. tauto.
Qed.

(** [hasRule] looks and changes nothing; what it finds is there. *)
Lemma nft_hasRule chain ip w w' b cs :
  nft_ok w → ip_text ip → hasRule (MkFirewall "nftables" cs) chain ip w = (w', b) →
  same_chains w w' ∧ (b = true → nft_count w chain ip ≠ 0%nat) ∧
  (NftablesAnswers W → b = false → nft_count w chain ip = 0%nat).
Proof.
  intros Hok Hip. unfold hasRule. simpl. destruct (runCommand _ w) as [w1 [o ok]] eqn:Hr. intros [= <- <-].
  pose proof (nft_list_law _ _ _ _ _ Hr) as [Hs Hl]. split; [done|]. destruct ok; cbn [andb].
  - destruct Hl as (rs & head & pre & post & Hc & -> & Hq).
    rewrite listing_contains; [|done|by apply (Hok _ _ Hc)|done]. split.
    + by intros Hd%bool_decide_eq_true%(nft_count_exists _ _ _ _ Hc).
    + intros _ Hd%bool_decide_eq_false. destruct (decide (nft_count w chain ip = 0%nat)) as [|Hne]; [done|].
      by apply (nft_count_exists _ _ _ _ Hc) in Hne.
  - split; [done|]. intros Hans _. unfold nft_count. by rewrite (nft_list_answers _ _ _ _ Hr).
Qed.

Lemma quiet_lines_deleted chain ip lines w :
  ip_text ip → Forall quiet_line lines → delete_handles chain ip lines w = (w, None).
Proof. intros Hip. induction 1 as [|l lines [_ Hl] _ IH]; [done|]. cbn [delete_handles]. by rewrite Hl. Qed.

Lemma others_filter h ip rs :
  (∀ r, r ∈ rs → fst r = h → drops ip r) → others ip (filter (λ r, fst r ≠ h) rs) = others ip rs.
Proof.
  unfold others. induction rs as [|r rs IH]; intros Hd; [done|]. rewrite filter_cons.
  destruct (decide (fst r ≠ h)) as [Hne|Heq].
  - rewrite !(filter_cons (λ r, ¬ drops ip r)). destruct (decide (¬ drops ip r)); [f_equal|]; apply IH; set_solver.
  - apply dec_stable in Heq. rewrite (filter_cons_False (λ r, ¬ drops ip r)) by (intros Hn; apply Hn, Hd; [by left|done]).
    apply IH. set_solver.
Qed.

Lemma delete_handles_quiet chain ip pre lines w :
  ip_text ip → Forall quiet_line pre → delete_handles chain ip (pre ++ lines) w = delete_handles chain ip lines w.
Proof. intros Hip. induction 1 as [|l ls [_ Hl] _ IH]; [done|]. cbn [app delete_handles]. by rewrite Hl. Qed.

(** What the deletion of the handles of [todo] makes of the chain. *)
Record deleted (chain ip : string) (todo rs : list nft_rule) w w' (err : option banpool_err) : Prop := {
  de_else : ∀ c, c ≠ chain → nft_chain w' c = nft_chain w c;
  de_chain : ∃ rs', nft_chain w' chain = Some rs' ∧ rs' `sublist_of` rs ∧ others ip rs' = others ip rs ∧
    (err = None → ∀ r, r ∈ todo → drops ip r → r ∉ rs') }.

Lemma delete_handles_spec chain ip todo post rs w w' err :
  ip_text ip → Forall plain_rule todo → Forall quiet_line post → nft_chain w chain = Some rs →
  (∀ r r', r ∈ todo → r' ∈ rs → fst r = fst r' → r = r') →
  delete_handles chain ip (map rule_line todo ++ post) w = (w', err) → deleted chain ip todo rs w w' err.
Proof.
  intros Hip Htodo Hpost. revert rs w. induction Htodo as [|r todo Hr _ IH]; intros rs w Hc Huniq; cbn [map app].
  { rewrite quiet_lines_deleted by done. intros [= <- <-]. split; [done|]. exists rs. split_and!; [done..|].
    intros _ r ?%elem_of_nil. done. }
  cbn [delete_handles]. rewrite plain_contains by done. case_bool_decide as Hd; cbn [negb].
  - destruct r as [h t]. unfold drops in Hd. cbn [snd] in Hd. subst t. destruct Hr as (Hh & _).
    cbn [fst] in Hh. destruct (drop_line_handle h ip) as [-> ->]; [done..|].
    destruct (runCommand _ w) as [w1 [o ok]] eqn:Hrun. apply nft_delete_law in Hrun as [Helse Hch]; [|done].
    rewrite Hc in Hch. destruct ok.
    + cbn in Hch. intros Hrest. apply (IH _ _ Hch) in Hrest as [Helse' (rs' & Hrs' & Hsub & Hoth & Hgone)].
      * split; [intros c Hne; by rewrite Helse', Helse|]. exists rs'. split_and!; [done| | |].
        -- etrans; [done|]. apply sublist_filter.
        -- rewrite Hoth. apply others_filter. intros r Hin Hf.
           rewrite <- (Huniq (h, saddr_drop ip) r); [done|by left|done|done].
        -- intros He r [->|Hin]%elem_of_cons Hdr; [|by apply Hgone]. intros Hin.
           apply (sublist_subseteq _ _ Hsub), list_elem_of_filter in Hin as [Hne _]. done.
      * intros r r' Hr1 [_ Hr2]%list_elem_of_filter. apply Huniq; [by right|done].
    + intros [= <- <-]. split; [done|]. exists rs. split_and!; [done..|].  done.
  - intros Hrest. apply (IH rs w Hc) in Hrest as [Helse (rs' & Hrs' & Hsub & Hoth & Hgone)].
    + split; [done|]. exists rs'. split_and!; [done..|]. intros He r' [->|?]%elem_of_cons; [done|by apply Hgone].
    + intros. apply Huniq; [by right|done|done].
Qed.
Lemma deleteNftablesRule_spec chain ip rs w w' err :
  nft_ok w → ip_text ip → nft_chain w chain = Some rs → deleteNftablesRule chain ip w = (w', err) →
  deleted chain ip rs rs w w' err.
Proof.
  intros Hok Hip Hc. unfold deleteNftablesRule. destruct (runCommand _ w) as [w1 [o ok]] eqn:Hr.
  apply nft_list_law in Hr as [Hs Hr]. destruct ok.
  2:{ intros [= <- <-]. split; [done|]. exists rs. by rewrite Hs. }
  destruct Hr as (rs' & head & pre & post & Hc' & -> & Hq). rewrite Hc in Hc'. injection Hc' as <-.
  destruct (Hok _ _ Hc) as [Hnd Hplain]. change nl with (String newline EmptyString).
  rewrite split_join.
  2:{ rewrite Forall_cons, Forall_app in Hq. destruct Hq as (Hh & Hpre & Hpost).
      rewrite Forall_cons, !Forall_app, Forall_map. split_and!; [apply Hh| | |];
        eapply Forall_impl; [exact Hpre|by intros ? []|exact Hplain|apply plain_line|exact Hpost|by intros ? []]. }
  rewrite app_comm_cons in Hq |- *. apply Forall_app in Hq as [Hpre Hpost].
  rewrite delete_handles_quiet by done. intros Hd. apply (delete_handles_spec _ _ rs post rs w1) in Hd as [He Hrs].
  - split; [|done]. intros c Hne. by rewrite He.
  - done.
  - done.
  - done.
  - by rewrite Hs.
  - intros r r' Hin Hin' Hf. apply list_elem_of_lookup in Hin as [i Hi], Hin' as [j Hj].
    assert (i = j) as ->; [|congruence].
    apply (NoDup_lookup _ _ _ (fst r) Hnd); [by rewrite list_lookup_fmap, Hi|by rewrite list_lookup_fmap, Hj, Hf].
Qed.

Lemma deleted_ok chain ip rs w w' err :
  nft_ok w → nft_chain w chain = Some rs → deleted chain ip rs rs w w' err → nft_ok w'.
Proof.
  intros Hok Hc [He (rs' & Hrs' & Hsub & _)] c l Hl. destruct (decide (c = chain)) as [->|Hne]; [|rewrite He in Hl by done; by apply (Hok _ _ Hl)].
  rewrite Hrs' in Hl. injection Hl as <-. destruct (Hok _ _ Hc) as [Hnd Hp]. split.
  - eapply sublist_NoDup; [exact Hnd|]. by apply (fmap_sublist fst).
  - rewrite Forall_forall in Hp |- *. intros r Hin. apply Hp. by apply (sublist_subseteq _ _ Hsub).
Qed.

(** When the deletion succeeds the chain keeps its other rules, in their order, and no
    drop of the address. *)
Lemma deleted_others chain ip rs w w' :
  deleted chain ip rs rs w w' None → nft_chain w' chain = Some (others ip rs).
Proof.
  intros [_ (rs' & -> & Hsub & <- & Hgone)]. f_equal. unfold others. symmetry.
  assert (Hn : Forall (λ r, ¬ drops ip r) rs').
  { rewrite Forall_forall. intros r Hin Hd. apply (Hgone eq_refl r); [by apply (sublist_subseteq _ _ Hsub)|done|done]. }
  clear - Hn. induction Hn as [|r l Hr _ IH]; [done|]. by rewrite filter_cons_True, IH.
Qed.

Lemma saddr_drop_inj i j : saddr_drop i = saddr_drop j → i = j.
Proof.
  intros Hi%(f_equal bytes). rewrite !saddr_drop_bytes in Hi. apply bytes_inj.
  apply (app_inv_head (bytes "ip ")) in Hi. injection Hi as Hi. by apply app_inv_tail in Hi.
Qed.

Lemma others_count ip j rs : j ≠ ip → length (filter (drops j) (others ip rs)) = length (filter (drops j) rs).
Proof.
  intros Hne. unfold others. rewrite list_filter_filter_l; [done|]. intros r Hj Hi. unfold drops in *. rewrite Hj in Hi.
  apply Hne. by apply saddr_drop_inj.
Qed.

Lemma drops_sublist ip rs' rs : rs' `sublist_of` rs → (length (filter (drops ip) rs') <= length (filter (drops ip) rs))%nat.
Proof. induction 1 as [|r l1 l2 _ IH|r l1 l2 _ IH]; rewrite ?filter_cons; [done|..]; case_decide; cbn; lia. Qed.

Lemma nft_delete chain cs ip w w' ok :
  nft_ok w → ip_text ip → deleteRule (MkFirewall "nftables" cs) ip chain w = (w', ok) →
  nft_ok w' ∧ (∀ c i, c ≠ chain ∨ i ≠ ip → nft_count w' c i = nft_count w c i) ∧
  (nft_count w' chain ip <= nft_count w chain ip)%nat ∧ (ok = true → nft_count w' chain ip = 0%nat).
Proof.
  intros Hok Hip. unfold deleteRule, delete_nftables, succeeds. simpl.
  destruct (deleteNftablesRule chain ip w) as [w1 err] eqn:Hd. intros [= <- <-].
  unfold nft_count. destruct (nft_chain w chain) as [rs|] eqn:Hc.
  - pose proof (deleteNftablesRule_spec _ _ _ _ _ _ Hok Hip Hc Hd) as Hdel.
    split; [by eapply deleted_ok|]. destruct Hdel as [He (rs' & Hrs' & Hsub & Hoth & Hgone)].
    split_and!.
    + intros c i Hor. destruct (decide (c = chain)) as [->|]; [|by rewrite He].
      destruct Hor as [|Hi]; [done|]. rewrite Hrs', Hc. simpl.
      rewrite <- (others_count ip i rs'), <- (others_count ip i rs) by done. by rewrite Hoth.
    + rewrite Hrs'. simpl. by apply drops_sublist.
    + rewrite Hrs'. simpl. intros He0%bool_decide_eq_true. apply length_zero_iff_nil. apply elem_of_nil_inv.
      intros r [Hr Hin]%list_elem_of_filter. apply (Hgone He0 r); [by apply (sublist_subseteq _ _ Hsub)|done|done].
  - revert Hd. unfold deleteNftablesRule. destruct (runCommand _ w) as [w2 [o ok]] eqn:Hr.
    apply nft_list_law in Hr as [Hs Hr]. destruct ok; [destruct Hr as (? & ? & ? & ? & Hc' & _); congruence|].
    intros [= <- <-]. split_and!; [|intros; by rewrite Hs|by rewrite Hs, Hc|done]. intros c l. rewrite Hs. apply Hok.
Qed.
Lemma nft_insert chain cs ip w w' ok :
  nft_ok w → ip_text ip → insertRule (MkFirewall "nftables" cs) ip chain w = (w', ok) →
  nft_ok w' ∧ (∀ c i, c ≠ chain ∨ i ≠ ip → nft_count w' c i = nft_count w c i) ∧
  nft_count w' chain ip = (nft_count w chain ip + if ok then 1 else 0)%nat.
Proof.
  intros Hok Hip. unfold insertRule, insert_nftables, run_ok. simpl.
  destruct (runCommand _ w) as [w1 [o ok1]] eqn:Hr. intros [= <- <-]. apply nft_insert_law in Hr as [He Hr].
  unfold nft_count. destruct ok1.
  - destruct Hr as (rs & h & Hc & Hnew & Hh & Hc'). destruct (Hok _ _ Hc) as [Hnd Hp]. split_and!.
    + intros c l Hl. destruct (decide (c = chain)) as [->|]; [|rewrite He in Hl by done; by apply (Hok _ _ Hl)].
      rewrite Hc' in Hl. injection Hl as <-. split; [by constructor|]. constructor; [by apply plain_drop|done].
    + intros c i Hor. destruct (decide (c = chain)) as [->|]; [|by rewrite He].
      destruct Hor as [|Hi]; [done|]. rewrite Hc', Hc. cbn [default from_option id].
      rewrite filter_cons_False; [done|]. intros Hd. apply Hi. symmetry. by apply saddr_drop_inj.
    + rewrite Hc', Hc. cbn [default from_option id]. rewrite filter_cons_True by done. cbn. lia.
  - assert (Hs : same_chains w w1) by (intros c; destruct (decide (c = chain)) as [->|]; auto).
    split_and!; [intros c l; rewrite Hs; apply Hok|intros; by rewrite Hs|rewrite Hs; lia].
Qed.
End Nft.

#[global] Instance nftables_backend {W} `{NftablesLaws W} (cs : list string) :
  RuleBackend W (MkFirewall "nftables" cs).
Proof.
  refine {| rules := nft_count; backend_ok := nft_ok |}.
  - intros w chain ip w' b Hok _ Hip Hh. destruct (nft_hasRule _ _ _ _ _ _ Hok Hip Hh) as (Hs & Hb & _).
    split_and!; [|intros c i; unfold nft_count; by rewrite Hs|exact Hb]. intros c l. rewrite Hs. apply Hok.
  - intros w chain ip w' ok Hok _ Hip Hz Hi. destruct (nft_insert _ _ _ _ _ _ Hok Hip Hi) as (? & ? & Hn).
    split_and!; [done|done|]. rewrite Hn, Hz. by destruct ok.
  - intros w chain ip w' ok Hok _ Hip Hd. destruct (nft_delete _ _ _ _ _ _ Hok Hip Hd) as (? & ? & ? & Hz).
    split_and!; [done|done|done|]. auto.
Defined.

#[global] Instance nftables_answers {W} `{NftablesAnswers W} (cs : list string) :
  RuleAnswers W (MkFirewall "nftables" cs).
Proof. intros w chain ip w' Hok _ Hip Hh. by apply (nft_hasRule _ _ _ _ _ _ Hok Hip Hh). Qed.

(** ** What [Unban] leaves, and what [Ban] can miss *)
Section Claims.
Context {W : Type} `{NftablesLaws W}.
Implicit Types (w : W).

(** What a loop over [cs] leaves of each chain: whatever fails, its other rules; without
    an error nothing else, as long as the listings that [hasRule] reads answer. *)
Definition unbanned (cs : list string) (ip : string) (err : option banpool_err) w w' : Prop :=
  ∀ c rs, nft_chain w c = Some rs → ∃ rs', nft_chain w' c = Some rs' ∧ rs' `sublist_of` rs ∧ others ip rs' = others ip rs ∧
    (c ∉ cs → rs' = rs) ∧ (NftablesAnswers W → err = None → c ∈ cs → rs' = others ip rs).

Lemma others_none ip rs : length (filter (drops ip) rs) = 0%nat → others ip rs = rs.
Proof.
  unfold others. induction rs as [|r rs IH]; [done|]. rewrite !filter_cons. destruct (decide (drops ip r)); [done|].
  intros Hz. by rewrite decide_True, IH by done.
Qed.

Lemma unbanned_round ip chain cs all w w1 w2 ok err :
  nft_ok w → ip_text ip → unban_chain (f := MkFirewall "nftables" all) ip chain w = (w1, ok) →
  (nft_ok w1 → unbanned cs ip err w1 w2) → (ok = false → err ≠ None) →
  unbanned (chain :: cs) ip err w w2.
Proof.
  intros Hok Hip. unfold unban_chain. destruct (hasRule _ chain ip w) as [w0 has] eqn:Hh.
  apply nft_hasRule in Hh as (Hs & Hhas & Hans); [|done..].
  assert (Hok0 : nft_ok w0) by (intros c l; rewrite Hs; apply Hok). destruct has.
  - unfold deleteRule, delete_nftables, succeeds. simpl.
    destruct (deleteNftablesRule chain ip w0) as [w1' e] eqn:Hd. intros [= <- <-] Hrest Herr c rs Hc.
    assert (Hch : ∃ rc, nft_chain w0 chain = Some rc).
    { specialize (Hhas eq_refl). unfold nft_count in Hhas. rewrite <- Hs in Hhas. by destruct (nft_chain w0 chain) eqn:?; [eexists|]. }
    destruct Hch as [rc Hrc]. pose proof (deleteNftablesRule_spec _ _ _ _ _ _ Hok0 Hip Hrc Hd) as Hdel.
    pose proof (deleted_ok _ _ _ _ _ _ Hok0 Hrc Hdel) as Hok1. rewrite <- Hs in Hc.
    destruct (decide (c = chain)) as [->|Hne].
    + rewrite Hrc in Hc. injection Hc as ->. pose proof Hdel as [_ (r1 & Hr1 & Hsub1 & Hoth1 & _)].
      destruct (Hrest Hok1 chain r1 Hr1) as (rs' & Hc' & Hsub & Hoth & Hout & Hin).
      exists rs'. split_and!; [done|by etrans|congruence|set_solver|]. intros Hall -> _.
      destruct e as [e|]; [by destruct (Herr eq_refl)|]. apply deleted_others in Hdel. rewrite Hr1 in Hdel. injection Hdel as ->.
      destruct (decide (chain ∈ cs)); [rewrite Hin, Hoth1 by done; done|by apply Hout].
    + destruct (Hrest Hok1 c rs) as (rs' & Hc' & Hsub & Hoth & Hout & Hin); [by rewrite (de_else _ _ _ _ _ _ _ Hdel)|].
      exists rs'. split_and!; [done..|set_solver|]. intros Hall He Hmem. apply Hin; [done|done|set_solver].
  - intros [= <- <-] Hrest _ c rs Hc.
    destruct (Hrest Hok0 c rs) as (rs' & Hc' & Hsub & Hoth & Hout & Hin); [by rewrite Hs|].
    exists rs'. split_and!; [done..|set_solver|]. intros Hall He [->|?]%elem_of_cons; [|by apply Hin].
    destruct (decide (chain ∈ cs)); [by apply Hin|]. rewrite Hout by done. symmetry. apply others_none.
    specialize (Hans Hall eq_refl). unfold nft_count in Hans. by rewrite Hc in Hans.
Qed.
Lemma unban_loop_unbanned ip cs all w fe w' fe' :
  nft_ok w → ip_text ip →
  unban_loop (MkFirewall "nftables" all) ip (deleteRule (MkFirewall "nftables" all) ip) cs fe w = (w', fe') →
  unbanned cs ip fe' w w' ∧ (fe ≠ None → fe' ≠ None).
Proof.
  intros Hok Hip. revert w fe Hok. induction cs as [|chain cs IH]; intros w fe Hok.
  { intros [= <- <-]. split; [|done]. intros c rs Hc. exists rs. split_and!; [done..|]. by intros _ _ ?%elem_of_nil. }
  rewrite unban_loop_cons. destruct (unban_chain ip chain w) as [w1 ok] eqn:Hround.
  intros Hl. assert (Hok1 : nft_ok w1).
  { unfold unban_chain in Hround. destruct (hasRule _ chain ip w) as [w0 has] eqn:Hh.
    apply nft_hasRule in Hh as (Hs & _); [|done..]. assert (nft_ok w0) by (intros c l; rewrite Hs; apply Hok).
    destruct has; [by apply nft_delete in Hround as [? _]|by simplify_eq]. }
  destruct (IH _ _ Hok1 Hl) as [Hrest Hfe]. split.
  - eapply unbanned_round; [exact Hok|exact Hip|exact Hround| |].
    + by intros _.
    + intros ->. apply Hfe. by destruct fe.
  - intros Hne. apply Hfe. destruct ok; [done|]. by destruct fe.
Qed.
Context `{!NftablesAnswers W}.
Lemma found_twice chain ip m rs h w w' cs b :
  ip_text ip → nft_chain w chain = Some rs → (h, m +:+ saddr_drop ip) ∈ rs →
  hasRule (MkFirewall "nftables" cs) chain ip w = (w', b) → same_chains w w' ∧ b = true.
Proof.
  intros Hip Hc Hin. unfold hasRule. simpl. destruct (runCommand _ w) as [w1 [o ok]] eqn:Hr. intros [= <- <-].
  pose proof (nft_list_law _ _ _ _ _ Hr) as [Hs Hl]. destruct ok; [|apply nft_list_answers in Hr; congruence].
  destruct Hl as (rs' & head & pre & post & Hc' & -> & _). rewrite Hc in Hc'. injection Hc' as <-.
  split; [done|]. cbn [andb]. change nl with (String newline EmptyString). apply join_contains.
  { rewrite saddr_drop_bytes. assert (newline ∉ bytes ip) by (by apply ParseIP_without). not_there. }
  exists (rule_line (h, m +:+ saddr_drop ip)). split.
  - assert (rule_line (h, m +:+ saddr_drop ip) ∈ map rule_line rs) by (by apply list_elem_of_fmap_2). set_solver.
  - apply str_contains_spec. rewrite rule_line_bytes, bytes_app. exists (bytes tabs ++ bytes m). rewrite <- !app_assoc. eauto.
Qed.
End Claims.

(** C12: [Unban] under nftables on chains whose other rules do not spell a drop of an
    address ([nft_ok]).  Whatever command fails, the listings included, every chain keeps
    its rules that are not the drop of the address, in their order, and a chain that is not
    managed keeps all.  Without an error, and when no listing of an existing chain failed
    ([NftablesAnswers]), each managed chain holds exactly its other rules. *)
Theorem unban_keeps_other_rules {W} `{NftablesLaws W} cs ip (w w' : W) err :
  nft_ok w → fw_Unban (MkFirewall "nftables" cs) ip w = (w', err) →
  ∀ c rs, nft_chain w c = Some rs →
  ∃ rs', nft_chain w' c = Some rs' ∧ rs' `sublist_of` rs ∧ others ip rs' = others ip rs ∧
    (c ∉ cs → rs' = rs) ∧ (NftablesAnswers W → err = None → c ∈ cs → rs' = others ip rs).
Proof.
  intros Hok. rewrite fw_Unban_eq by (by right; left). destruct (validateIP ip) as [e|] eqn:Hv.
  - intros [= <- <-] c rs Hc. by exists rs.
  - intros Hl. apply unban_loop_unbanned in Hl as [Hu _]; [exact Hu|done|by apply validateIP_text].
Qed.

(** C13: a rule that ends in the drop of the address but matches less, such as
    [tcp dport 22 ip saddr 9.9.9.9 drop], is taken for the drop itself: when each managed
    chain has one [Ban] reports success and changes nothing. *)
Theorem narrow_rule_hides_ban {W} `{NftablesAnswers W} cs ip (w : W) :
  validateBanIP ip = None →
  (∀ c, c ∈ cs → ∃ rs h narrow, nft_chain w c = Some rs ∧ (h, narrow +:+ saddr_drop ip) ∈ rs) →
  ∃ w', fw_Ban (MkFirewall "nftables" cs) ip w = (w', None) ∧ ∀ c, nft_chain w' c = nft_chain w c.
Proof.
  intros Hv Hall. rewrite fw_Ban_eq by (by right; left). rewrite Hv. cbn [chains].
  assert (Hloop : ∀ l succ w1, l ⊆ cs → same_chains w w1 →
    ∃ w' succ', ban_loop (MkFirewall "nftables" cs) ip (insertRule (MkFirewall "nftables" cs) ip) l succ None w1 = (w', succ', None) ∧
      same_chains w w').
  { induction l as [|c l IH]; intros succ w1 Hsub Hs; [by exists w1, succ|]. cbn [ban_loop].
    destruct (hasRule _ c ip w1) as [w2 b] eqn:Hh. destruct (Hall c) as (rs & h & m & Hc & Hin); [set_solver|].
    rewrite <- Hs in Hc. destruct (found_twice _ _ _ _ _ _ _ _ _ (validateBanIP_text _ Hv) Hc Hin Hh) as [Hs2 ->].
    apply IH; [set_solver|]. intros c'. by rewrite Hs2. }
  destruct (Hloop cs false w) as (w' & succ & -> & Hs); [done|by intros|]. by exists w'.
Qed.

(** ** A concrete nftables *)
Record nft_world := NftWorld { nw_rules : gmap string (list nft_rule); nw_next : Z }.
Definition nft_hook : string := tabs +:+ "type filter hook input priority filter; policy accept;".
Definition nft_tail : list string := [of_bytes [byte_of 9] +:+ "}"; "}"; EmptyString].

#[global] Instance nft_runner : Runner nft_world := λ argv w,
  match argv with
  | ["nft"; "-a"; "list"; "chain"; "inet"; "filter"; c] =>
      match nw_rules w !! c with
      | Some rs => (w, (str_join nl ("table inet filter {" :: [nft_hook] ++ map rule_line rs ++ nft_tail), true))
      | None => (w, ("Error: No such file or directory", false))
      end
  | ["nft"; "insert"; "rule"; "inet"; "filter"; c; "ip"; "saddr"; ip; "drop"] =>
      match nw_rules w !! c with
      | Some rs =>
          if (0 <=? nw_next w) && (nw_next w <? 10 ^ 19) && bool_decide (nw_next w ∉ map fst rs)
          then (NftWorld (<[c := (nw_next w, saddr_drop ip) :: rs]> (nw_rules w)) (nw_next w + 1), (EmptyString, true))
          else (w, ("Error: Device or resource busy", false))
      | None => (w, ("Error: No such file or directory", false))
      end
  | ["nft"; "delete"; "rule"; "inet"; "filter"; c; "handle"; h] =>
      match nw_rules w !! c, digits_value h with
      | Some rs, Some h => (NftWorld (<[c := filter (λ r, fst r ≠ h) rs]> (nw_rules w)) (nw_next w), (EmptyString, true))
      | _, _ => (w, ("Error: No such file or directory", false))
      end
  | _ => (w, (EmptyString, false))
  end.

Lemma quiet_without_s l : (newline ∉ bytes l) → "s"%char ∉ bytes l → quiet_line l.
Proof.
  intros Hn Hs. split; [done|]. intros ip _. apply not_true_iff_false. intros (p & q & Heq)%str_contains_spec.
  apply Hs. rewrite Heq, saddr_drop_bytes. set_solver.
Qed.

#[global] Instance nft_world_laws : NftablesLaws nft_world.
Proof.
  refine {| nft_chain w c := nw_rules w !! c |}.
  - intros w c w' o ok. cbn. destruct (nw_rules w !! c) as [rs|] eqn:Hc; intros [= <- <- <-]; [|done].
    split; [done|]. exists rs, "table inet filter {", [nft_hook], nft_tail. split; [done|].
    repeat constructor; apply quiet_without_s; not_there.
  - intros w c ip w' o ok. cbn. destruct (nw_rules w !! c) as [rs|] eqn:Hc; [|by intros [= <- <- <-]].
    destruct (_ && _ && _) eqn:Hg; [|by intros [= <- <- <-]].
    apply andb_true_iff in Hg as [Hg Hnew]. bool_hyps. intros [= <- <- <-]. cbn. split.
    + intros c' Hne. by rewrite lookup_insert_ne.
    + exists rs, (nw_next w). rewrite lookup_insert_eq. split_and!; done || lia.
  - intros w c h w' o ok. cbn -[digits_value dec]. destruct (nw_rules w !! c) as [rs|] eqn:Hc; [|by intros [= <- <- <-] _].
    intros Hr Hh. rewrite digits_value_dec in Hr by lia. injection Hr as <- <- <-. cbn. split.
    + intros c' Hne. by rewrite lookup_insert_ne.
    + by rewrite lookup_insert_eq.
Defined.

#[global] Instance nft_world_answers : NftablesAnswers nft_world.
Proof. intros w c w' o. cbn. by destruct (nw_rules w !! c) as [rs|]. Qed.

(** A chain with a rule of the administrator's and a drop. *)
Definition some_rules : list nft_rule := [(7, saddr_drop "9.9.9.9"); (4, "tcp dport 22 accept"); (5, saddr_drop "8.8.8.8")].
Definition some_nft : nft_world := NftWorld {[nftablesBanChain := some_rules]} 8.

Lemma plain_other h t : (newline ∉ bytes t) → "s"%char ∉ bytes t → 0 <= h < 10 ^ 19 → plain_rule (h, t).
Proof.
  intros Hn Hs Hh. split_and!; [cbn; lia|cbn; lia|done|]. intros ip Hip Hc.
  assert (Hd : "s"%char ∉ bytes (dec h)) by (by apply dec_without).
  assert (Hd' : newline ∉ bytes (dec h)) by (by apply dec_without).
  destruct (quiet_without_s (rule_line (h, t))) as [_ Hq].
  - rewrite rule_line_bytes. not_there.
  - rewrite rule_line_bytes. not_there.
  - by rewrite Hq in Hc.
Qed.

Lemma some_nft_ok : nft_ok some_nft.
Proof.
  intros c rs Hc. cbn in Hc. apply lookup_singleton_Some in Hc as [_ <-]. split.
  - apply (bool_decide_unpack _). vm_compute. exact I.
  - unfold some_rules. rewrite !Forall_cons. split_and!; [by apply plain_drop| |by apply plain_drop|done].
    apply plain_other; [not_there|not_there|done].
Qed.

Lemma unban_keeps_other_rules_witness :
  ∃ rs', nft_chain (NftWorld {[nftablesBanChain := [(4, "tcp dport 22 accept"); (5, saddr_drop "8.8.8.8")]]} 8) nftablesBanChain = Some rs' ∧
    rs' `sublist_of` some_rules ∧ others "9.9.9.9" rs' = others "9.9.9.9" some_rules ∧
    (nftablesBanChain ∉ [nftablesBanChain] → rs' = some_rules) ∧
    (NftablesAnswers nft_world → None = @None banpool_err → nftablesBanChain ∈ [nftablesBanChain] → rs' = others "9.9.9.9" some_rules).
Proof.
  apply (unban_keeps_other_rules [nftablesBanChain] "9.9.9.9" some_nft _ None some_nft_ok); [|reflexivity].
  vm_compute. reflexivity.
Defined.

Definition narrow_nft : nft_world :=
  NftWorld {[nftablesBanChain := [(4, "tcp dport 22 " +:+ saddr_drop "9.9.9.9")]]} 8.
Lemma narrow_rule_hides_ban_witness :
  nft_count narrow_nft nftablesBanChain "9.9.9.9" = 0%nat ∧
  ∃ w', fw_Ban (MkFirewall "nftables" [nftablesBanChain]) "9.9.9.9" narrow_nft = (w', None) ∧
    ∀ c, nft_chain w' c = nft_chain narrow_nft c.
Proof.
  split; [reflexivity|]. apply (narrow_rule_hides_ban [nftablesBanChain] "9.9.9.9" narrow_nft); [reflexivity|].
  intros c ->%list_elem_of_singleton. exists [(4, "tcp dport 22 " +:+ saddr_drop "9.9.9.9")], 4, "tcp dport 22 ".
  split; [reflexivity|by left].
Defined.
