(* ===== verification/FirewallClaims.v ===== *)
(** * What the firewall promises

    Properties of [NewFirewall], [Ban] and [Unban] for whatever engine implements
    [RuleBackend], with queries that answer ([RuleAnswers]) where the result depends on it, and of the address checks in front of them. *)

From S2P Require Import Prelude.
From S2P Require Import GoStrings.
From S2P Require Import GoNet.
From S2P Require Import Repository.
From S2P Require Import Firewall.
From S2P Require Import FirewallEngines.

(** ** [NewFirewall] *)
Lemma run_all_err {W} `{Runner W} cmds (w w' : W) e :
  run_all cmds w = (w', Some e) → e = FirewallSetupFailed.
Proof.
  revert w. induction cmds as [|c cmds IH]; intros w; simpl; [done|].
  destruct (runCommand _ w) as [w1 [o []]]; [apply IH|by intros [= _ <-]].
Qed.

(** A firewall that [NewFirewall] returns has the engine and the chains it was asked
    for, with the default chain where none was named; with one of the three engines it
    meets what the methods rely on. *)
Theorem NewFirewall_ready {W} `{Runner W} engine cs (w w' : W) f :
  NewFirewall engine [cs] w = (w', Ok f) →
  fwEngine f = engine ∧ chains f = (if bool_decide (cs = []) then ["INPUT"] else cs) ∧
  (known_engine f → ReadyFirewall f).
Proof.
  unfold NewFirewall. rewrite (bool_decide_false ([cs] = [])) by done. rewrite andb_false_r.
  set (l := if bool_decide (cs = []) then _ else _).
  assert (Hl : l ≠ []) by (unfold l; destruct (bool_decide (cs = [])) eqn:He; bool_hyps; done).
  destruct (if bool_decide (engine = "nftables") then _ else _) as [w1 [e|]]; [done|].
  intros Hr. assert (f = MkFirewall engine l) as ->.
  { destruct (_ && _); [|by injection Hr]. destruct (ensureFirewalldDockerPolicy w1) as [w2 [e|]]; by simplify_eq. }
  split_and!; [done..|]. intros Hk. by split.
Qed.

(** ** [Ban] and [Unban] *)
Section Claims.
Context {W : Type} `{RuleAnswers W f}.
Implicit Types w : W.


(** C11: [Ban] fails only when the address is refused or when no chain took the rule; then
    no rule of any address has changed and the error tells which of the two it was. *)
Theorem Ban_failure ip w w' e :
  known_engine f → chains f ≠ [] → backend_ok w → single_copies w → fw_Ban f ip w = (w', Some e) →
  (∀ c i, rules w' c i = rules w c i) ∧
  match validateBanIP ip with
  | Some refusal => e = refusal
  | None => e = ErrCantBanIP ∧ chains_block w ip = false
  end.
Proof.
  intros Heng Hch Hok Hs Hb. pose proof (fw_Ban_spec ip w w' (Some e) Heng Hch Hok Hs Hb) as (_ & _ & _ & Hno & He).
  rewrite fw_Ban_eq in Hb by done. destruct (validateBanIP ip) as [r|] eqn:Hv; [by simplify_eq|].
  split; [|auto]. destruct (ban_loop _ _ _ _ _ _ _) as [[w1 succ] fe] eqn:Hl.
  apply ban_loop_spec in Hl as [_ Hother _ _ _ Hfail _]; [|by apply validateBanIP_text|done|done].
  destruct fe as [e'|]; [|done]. destruct succ; [done|]. simpl in Hb. injection Hb as -> _.
  intros c i. destruct (decide (i = ip)) as [->|]; [by apply Hfail|by apply Hother].
Qed.
End Claims.

(** An engine the code does not know runs no command: [Ban] and [Unban] of a legal
    address report success and change nothing. *)
Theorem unknown_engine_silent {W} `{Runner W} f ip (w : W) :
  ¬ known_engine f →
  fw_Ban f ip w = (w, validateBanIP ip) ∧ fw_Unban f ip w = (w, validateIP ip).
Proof.
  unfold known_engine, fw_Ban, fw_Unban. intros Hk.
  rewrite !bool_decide_false by naive_solver. by destruct (validateBanIP ip), (validateIP ip).
Qed.

(** ** Addresses *)
Definition last_octet (v4 : list Z) : Z := nth 3 v4 0.

(** Every dotted IPv4 address is accepted by [Unban]; [Ban] refuses exactly those whose
    last octet is 0 or 255. *)
Theorem validateBanIP_dotted a b c d :
  in_u8 a → in_u8 b → in_u8 c → in_u8 d →
  validateIP (dotted a b c d) = None ∧
  validateBanIP (dotted a b c d) =
    if (d =? 0) || (d =? 255) then Some ErrReservedIPv4Address else None.
Proof.
  intros Ha Hb Hc Hd. unfold validateBanIP, validateIP. rewrite ParseIP_dotted by done. split; [done|].
  change (Some (v4_in_v6 [a; b; c; d]) ≫= To4) with (To4 (v4_in_v6 [a; b; c; d])).
  by rewrite To4_v4_in_v6.
Qed.

(** ** Applied to the default firewall *)
Definition empty_ipt : ipt_world := IptWorld [] [].

Lemma NewFirewall_ready_witness :
  fwEngine default_firewall = "iptables" ∧
  chains default_firewall = ["INPUT"; dockerUserChain] ∧
  (known_engine default_firewall → ReadyFirewall default_firewall).
Proof. apply (NewFirewall_ready "iptables" ["INPUT"; dockerUserChain] empty_ipt empty_ipt). vm_compute. reflexivity. Defined.



Lemma Ban_failure_witness :
  (∀ c i, rules (f := default_firewall) empty_ipt c i =
          rules (f := default_firewall) (IptWorld [] [true; true]) c i) ∧
  ErrCantBanIP = ErrCantBanIP ∧ chains_block (f := default_firewall) (IptWorld [] [true; true]) "10.0.0.7" = false.
Proof.
  apply (Ban_failure (f := default_firewall) "10.0.0.7" (IptWorld [] [true; true]) empty_ipt ErrCantBanIP).
  - by left.
  - done.
  - done.
  - intros c i. vm_compute. lia.
  - vm_compute. reflexivity.
Defined.

Lemma validateBanIP_dotted_witness :
  validateIP (dotted 10 0 0 255) = None ∧ validateBanIP (dotted 10 0 0 255) = Some ErrReservedIPv4Address.
Proof. apply (validateBanIP_dotted 10 0 0 255); unfold in_u8; lia. Defined.

Lemma unknown_engine_silent_witness :
  fw_Ban (MkFirewall "pf" ["INPUT"]) "10.0.0.7" empty_ipt = (empty_ipt, validateBanIP "10.0.0.7") ∧
  fw_Unban (MkFirewall "pf" ["INPUT"]) "10.0.0.7" empty_ipt = (empty_ipt, validateIP "10.0.0.7").
Proof. apply unknown_engine_silent. by intros [|[|]]. Defined.
