(* ===== verification/Config.v ===== *)
(** * pkg/config: the configuration record, its defaults and its firewall chains

    model.go and run.go.  A Go slice is [slice A]: [None] is [nil], which Go tells from
    an empty slice only in a comparison with [nil] and in [reflect.DeepEqual]; [items]
    is what [range] and [len] see. *)

From S2P Require Import Prelude.
From S2P Require Import GoStrings.

Definition slice (A : Type) : Type := option (list A).
Definition items {A} (s : slice A) : list A := match s with Some l => l | None => [] end.

(** ** The records *)
Record BaseFields := MkBase {
  Mode : string; Engine : string; LogPath : string; UnitName : string;
  Tries : Z; WindowSeconds : Z; BanSeconds : Z; Pattern : string }.

Record ResourceFields := MkResource { Warning : Z; Alert : Z }.

Record EbpfNetworkAntireconConfig := MkAntirecon {
  na_Mode : string; PortsCount : Z; na_WindowSeconds : Z; na_BanSeconds : Z;
  WhitelistPorts : slice Z; BlacklistPorts : slice Z }.

Record UserCommandExecutionController := MkController {
  uc_Mode : string; BlockType : string;
  TargetUsersIDs : slice string; TargetCommands : slice string }.

Record ResourceMonitorConfig := MkResourceMonitor {
  rm_Enabled : bool; CpuUsagePersentage : ResourceFields; RamUsagePersentage : ResourceFields;
  TrafficUsageMBs : ResourceFields; DiskUsageIOps : ResourceFields; OutputTopSnapshotDir : string }.

Record EbpfConfig := MkEbpf {
  NetworkAntirecon : EbpfNetworkAntireconConfig;
  UserCommandController : UserCommandExecutionController }.

Record ExporterConfig := MkExporter {
  ex_Enabled : bool; EndpointAddress : string; UserID : string; ConfigID : string;
  EndpointRsaPublicKey : string }.

(** The four monitor configurations only embed [BaseFields]. *)
Record Config := MkConfig {
  IPWhiteList : slice string; BlockedIPsDatabase : string; FirewallEngine : string;
  FirewallChains : slice string; Exporter : ExporterConfig;
  SSHMonitor : BaseFields; WebReconMonitor : BaseFields; WebBruteMonitor : BaseFields;
  DatabaseMonitor : BaseFields; ResourceMonitor : ResourceMonitorConfig;
  EbpfMonitors : EbpfConfig }.

#[global] Instance BaseFields_eq_dec : EqDecision BaseFields. Proof. solve_decision. Defined.
#[global] Instance ResourceFields_eq_dec : EqDecision ResourceFields. Proof. solve_decision. Defined.
#[global] Instance Antirecon_eq_dec : EqDecision EbpfNetworkAntireconConfig. Proof. solve_decision. Defined.
#[global] Instance Controller_eq_dec : EqDecision UserCommandExecutionController. Proof. solve_decision. Defined.
#[global] Instance ResourceMonitor_eq_dec : EqDecision ResourceMonitorConfig. Proof. solve_decision. Defined.
#[global] Instance Ebpf_eq_dec : EqDecision EbpfConfig. Proof. solve_decision. Defined.
#[global] Instance Exporter_eq_dec : EqDecision ExporterConfig. Proof. solve_decision. Defined.
(** [reflect.DeepEqual] of two configurations. *)
#[global] Instance Config_eq_dec : EqDecision Config. Proof. solve_decision. Defined.

Definition with_firewall_chains (chains : slice string) (c : Config) : Config :=
  MkConfig (IPWhiteList c) (BlockedIPsDatabase c) (FirewallEngine c) chains (Exporter c)
    (SSHMonitor c) (WebReconMonitor c) (WebBruteMonitor c) (DatabaseMonitor c)
    (ResourceMonitor c) (EbpfMonitors c).
Definition with_ip_whitelist (ips : slice string) (c : Config) : Config :=
  MkConfig ips (BlockedIPsDatabase c) (FirewallEngine c) (FirewallChains c) (Exporter c)
    (SSHMonitor c) (WebReconMonitor c) (WebBruteMonitor c) (DatabaseMonitor c)
    (ResourceMonitor c) (EbpfMonitors c).
Definition with_controller (uc : UserCommandExecutionController) (c : Config) : Config :=
  MkConfig (IPWhiteList c) (BlockedIPsDatabase c) (FirewallEngine c) (FirewallChains c) (Exporter c)
    (SSHMonitor c) (WebReconMonitor c) (WebBruteMonitor c) (DatabaseMonitor c)
    (ResourceMonitor c) (MkEbpf (NetworkAntirecon (EbpfMonitors c)) uc).

(** ** Errors *)
Inductive config_err : Type :=
| ErrCreateConfigDir
| ErrMarshalConfig
| ErrWriteConfig
| ErrStatConfig
| ErrReadConfig
| ErrParseConfig
| ErrGettingNetworkInterfaces
| ErrUnknownArgument (arg : string)
| ErrConfigNotFound.
#[global] Instance config_err_eq_dec : EqDecision config_err. Proof. solve_decision. Defined.

(** ** Constants *)
Definition modeDisabled : string := "disabled".
Definition modeBlocker : string := "blocker".
Definition engineSyslog : string := "syslog".
Definition ipGroup : string := "ip".
Definition maxPort : Z := 65535.
Definition validModes : list string := [modeDisabled; "logger"; modeBlocker].
Definition validEngines : list string := [engineSyslog; "journal"; "docker"].
Definition validFirewallEngines : list string := ["iptables"; "nftables"; "firewalld"].

Definition ipPattern : string := "?P<ip>(?:\d{1,3}\.){3}\d{1,3}".
Definition quote : string := of_bytes [byte_of 34].

(** ** Methods *)
Definition defaultUserCommandExecutionController : UserCommandExecutionController :=
  MkController "disabled" "positive" (Some []) (Some []).

Definition setFirewallChains (c : Config) : Config :=
  if negb (bool_decide (items (FirewallChains c) = [])) then c
  else if bool_decide (FirewallEngine c = "iptables") then
    with_firewall_chains (Some ["INPUT"; "DOCKER-USER"]) c
  else if bool_decide (FirewallEngine c = "nftables") then
    with_firewall_chains (Some ["open_defender"; "open_defender_forward"]) c
  else if bool_decide (FirewallEngine c = "firewalld") then
    with_firewall_chains (Some ["INPUT"; "DOCKER-USER"]) c
  else c.

Definition NormalizeFirewallChains (c : Config) : Config := setFirewallChains c.

Definition New : Config :=
  setFirewallChains {|
    IPWhiteList := None;
    BlockedIPsDatabase := "/var/open-defender/blocked.db";
    FirewallEngine := "iptables";
    FirewallChains := None;
    Exporter := {|
      ex_Enabled := false;
      EndpointAddress := "wss://connector.light-defender.ru/ (get this in dashboard.light-defender.ru)";
      UserID := "your_id (get this in dashboard.light-defender.ru)";
      ConfigID := "config_id (get this in dashboard.light-defender.ru)";
      EndpointRsaPublicKey := "rsa_pub_key (get this in dashboard.light-defender.ru)" |};
    SSHMonitor := {|
      Mode := "logger"; Engine := "syslog"; LogPath := "/var/log/auth.log"; UnitName := "sshd";
      Tries := 5; WindowSeconds := 300; BanSeconds := 900;
      Pattern := "Failed password for (?:invalid user )?\S+ from (" +:+ ipPattern +:+ ")" |};
    WebReconMonitor := {|
      Mode := "disabled"; Engine := "syslog"; LogPath := "/var/log/nginx/access.log"; UnitName := "nginx";
      Tries := 10; WindowSeconds := 60; BanSeconds := 600;
      Pattern := "(" +:+ ipPattern +:+ ") - - \[.*?\] " +:+ quote +:+
                 "(?:GET|POST|HEAD) \S+ HTTP/\d\.\d" +:+ quote +:+ " 40[34]" |};
    WebBruteMonitor := {|
      Mode := "disabled"; Engine := "syslog"; LogPath := "/var/log/nginx/access.log"; UnitName := "nginx";
      Tries := 5; WindowSeconds := 120; BanSeconds := 900;
      Pattern := "(" +:+ ipPattern +:+ ") - - \[.*?\] " +:+ quote +:+
                 "POST (?:/login|/wp-login\.php|/admin) HTTP/\d\.\d" +:+ quote +:+ " 40[13]" |};
    DatabaseMonitor := {|
      Mode := "disabled"; Engine := "journal"; LogPath := "/var/log/postgresql/postgresql-16-main.log";
      UnitName := "postgresql"; Tries := 5; WindowSeconds := 300; BanSeconds := 900;
      Pattern := "host=(" +:+ ipPattern +:+ ").*FATAL:\s+password authentication failed for user" |};
    ResourceMonitor := {|
      rm_Enabled := false;
      CpuUsagePersentage := MkResource 60 90;
      RamUsagePersentage := MkResource 60 90;
      TrafficUsageMBs := MkResource 0 0;
      DiskUsageIOps := MkResource 0 0;
      OutputTopSnapshotDir := "/var/log/open-defender/" |};
    EbpfMonitors := {|
      NetworkAntirecon := {|
        na_Mode := "disabled"; PortsCount := 10; na_WindowSeconds := 300; na_BanSeconds := 900;
        WhitelistPorts := Some [22; 80; 443; 5432; 3306]; BlacklistPorts := Some [] |};
      UserCommandController := defaultUserCommandExecutionController |} |}.

Record NamedMonitor := MkNamed { nm_Name : string; nm_Fields : BaseFields }.

Definition Monitors (c : Config) : list NamedMonitor :=
  [MkNamed "ssh_monitor" (SSHMonitor c);
   MkNamed "web_recon_monitor" (WebReconMonitor c);
   MkNamed "web_brute_monitor" (WebBruteMonitor c);
   MkNamed "database_monitor" (DatabaseMonitor c)].

Definition Enabled (bm : BaseFields) : bool := negb (bool_decide (Mode bm = modeDisabled)).

Definition Source (bm : BaseFields) : string :=
  if bool_decide (Engine bm = engineSyslog) then LogPath bm else UnitName bm.

(** ** run.go *)
Record RunConfig := MkRun {
  Install : bool; run_Update : bool; Test : bool; Status : bool; Restart : bool; Help : bool }.

Definition parse_arg (arg : string) (rc : RunConfig) : option RunConfig :=
  let is_ s l := bool_decide (arg = s) || bool_decide (arg = l) in
  let '(MkRun i u t s r h) := rc in
  if is_ "-i" "--install" then Some (MkRun true u t s r h)
  else if is_ "-u" "--update" then Some (MkRun i true t s r h)
  else if is_ "-t" "--test" then Some (MkRun i u true s r h)
  else if is_ "-s" "--status" then Some (MkRun i u t true r h)
  else if is_ "-r" "--restart" then Some (MkRun i u t s true h)
  else if is_ "-h" "--help" then Some (MkRun i u t s r true)
  else None.

Fixpoint parse_args (args : list string) (rc : RunConfig) : result config_err RunConfig :=
  match args with
  | [] => Ok rc
  | arg :: args' =>
      match parse_arg arg rc with
      | Some rc => parse_args args' rc
      | None => Err (ErrUnknownArgument arg)
      end
  end.

(** [None]: [argv[1:]] of an empty [argv] panics. *)
Definition ParseArgs (argv : list string) : option (result config_err RunConfig) :=
  match argv with
  | [] => None
  | _ :: args => Some (parse_args args (MkRun false false false false false false))
  end.

(** ** Properties *)

(** The two spellings of an option. *)
Definition given (short long : string) (args : list string) : bool :=
  existsb (λ a, bool_decide (a = short) || bool_decide (a = long)) args.
Definition known_args : list string :=
  ["-i"; "--install"; "-u"; "--update"; "-t"; "--test"; "-s"; "--status"; "-r"; "--restart";
   "-h"; "--help"].

Lemma parse_arg_spec arg rc :
  parse_arg arg rc =
  if bool_decide (arg ∈ known_args) then
    Some (MkRun (Install rc || given "-i" "--install" [arg])
            (run_Update rc || given "-u" "--update" [arg])
            (Test rc || given "-t" "--test" [arg]) (Status rc || given "-s" "--status" [arg])
            (Restart rc || given "-r" "--restart" [arg]) (Help rc || given "-h" "--help" [arg]))
  else None.
Proof.
  destruct rc as [i u t s r h]. case_bool_decide as Hin; unfold given; simpl; rewrite ?orb_false_r.
  - unfold known_args in Hin. rewrite !elem_of_cons, elem_of_nil in Hin.
    repeat destruct Hin as [-> | Hin]; try done; simpl; by rewrite ?orb_false_r, ?orb_true_r.
  - unfold known_args in Hin. rewrite !elem_of_cons in Hin.
    by rewrite !bool_decide_false by naive_solver.
Qed.

Lemma parse_args_spec args rc :
  parse_args args rc =
  match List.find (λ a, negb (bool_decide (a ∈ known_args))) args with
  | Some a => Err (ErrUnknownArgument a)
  | None =>
      Ok (MkRun (Install rc || given "-i" "--install" args)
            (run_Update rc || given "-u" "--update" args)
            (Test rc || given "-t" "--test" args) (Status rc || given "-s" "--status" args)
            (Restart rc || given "-r" "--restart" args) (Help rc || given "-h" "--help" args))
  end.
Proof.
  revert rc. induction args as [|a args IH]; intros rc; simpl.
  { destruct rc. by rewrite !orb_false_r. }
  rewrite parse_arg_spec. case_bool_decide; simpl; [|done].
  rewrite IH. simpl. destruct (List.find _ args); [done|].
  unfold given. simpl. by rewrite !orb_false_r, <- !orb_assoc.
Qed.

(** The command line.  The first argument that is no option is reported; otherwise
    each flag is set exactly when one of its two spellings was given, in any order. *)
Theorem ParseArgs_spec argv0 args :
  ParseArgs (argv0 :: args) = Some
    match List.find (λ a, negb (bool_decide (a ∈ known_args))) args with
    | Some a => Err (ErrUnknownArgument a)
    | None =>
        Ok {| Install := given "-i" "--install" args; run_Update := given "-u" "--update" args;
              Test := given "-t" "--test" args; Status := given "-s" "--status" args;
              Restart := given "-r" "--restart" args; Help := given "-h" "--help" args |}
    end.
Proof. unfold ParseArgs. by rewrite parse_args_spec. Qed.

Lemma setFirewallChains_cases c :
  setFirewallChains c = c ∨
  items (FirewallChains c) = [] ∧ ∃ l, l ≠ [] ∧ setFirewallChains c = with_firewall_chains (Some l) c.
Proof.
  unfold setFirewallChains. case_bool_decide as Hc; simpl; [|by left].
  repeat (case_bool_decide; [right; split; [done|]; eexists; split; [|reflexivity]; done|]). by left.
Qed.

Lemma setFirewallChains_engine c : FirewallEngine (setFirewallChains c) = FirewallEngine c.
Proof. by destruct (setFirewallChains_cases c) as [-> | (_ & l & _ & ->)]. Qed.

Lemma setFirewallChains_known c :
  FirewallEngine c ∈ validFirewallEngines → items (FirewallChains (setFirewallChains c)) ≠ [].
Proof.
  unfold setFirewallChains, validFirewallEngines. rewrite !elem_of_cons, elem_of_nil.
  case_bool_decide as Hc; simpl; [|done].
  intros [-> | [-> | [-> | []]]]; simpl; done.
Qed.

Lemma setFirewallChains_idem c : setFirewallChains (setFirewallChains c) = setFirewallChains c.
Proof.
  destruct (setFirewallChains_cases c) as [Heq | (_ & l & Hl & ->)]; [by rewrite !Heq|].
  unfold setFirewallChains at 1. by rewrite bool_decide_false.
Qed.
