(* ===== verification/ConfigValidate.v ===== *)
(** * pkg/config/validate.go: the check of a configuration

    A problem is the name of the setting and the error; the free text of the messages is
    left out.  [regexp.Compile] is the class [Regexp], shared with the log monitors;
    [os.Stat] is an argument: which paths it finds. *)

From S2P Require Import Prelude.
From S2P Require Import GoStrings.
From S2P Require Import GoNet.
From S2P Require Import Policy.
From S2P Require Import Config.

(** A compiled pattern: the names of its groups (the empty string for the whole match
    and for unnamed groups) and the submatches of a line. *)
Class Regexp (RE : Type) := {
  Compile : string → option RE;
  SubexpNames : RE → list string;
  FindStringSubmatch : RE → string → option (list string) }.

Inductive problem_err : Type :=
| ErrEmptyValue
| ErrZeroValue
| ErrInvalidValue
| ErrNotAnIP                 (* config.ErrInvalidIP *)
| ErrInvalidPattern
| ErrMissingIPGroup
| ErrLogFileNotReadable
| ErrWarningAboveAlert
| ErrNoLimitsSet
(* the errors of the command controller wrap no sentinel *)
| InvalidMode
| InvalidBlockType
| PolicyError (e : policy_err)
| TooManyCommands.

Definition problem : Type := string * problem_err.

Definition blank (s : string) : bool := bool_decide (trim_space s = "").
Definition problem_if (b : bool) (field : string) (e : problem_err) : list problem :=
  if b then [(field, e)] else [].

Section Validate.
Context {RE : Type} `{Regexp RE} (Stat : string → bool).

Definition validatePattern (name pattern : string) : list problem :=
  if blank pattern then [(name +:+ ".pattern", ErrEmptyValue)]
  else
    match Compile pattern with
    | None => [(name +:+ ".pattern", ErrInvalidPattern)]
    | Some re =>
        if negb (contains_elem (SubexpNames re) ipGroup)
        then [(name +:+ ".pattern", ErrMissingIPGroup)]
        else []
    end.

Definition validateBase (name : string) (bm : BaseFields) : list problem :=
  if negb (contains_elem validModes (Mode bm)) then [(name +:+ ".mode", ErrInvalidValue)]
  else if bool_decide (Mode bm = modeDisabled) then []
  else
    (if negb (contains_elem validEngines (Engine bm)) then [(name +:+ ".engine", ErrInvalidValue)]
     else if bool_decide (Engine bm = engineSyslog) then
       if blank (LogPath bm) then [(name +:+ ".log_path", ErrEmptyValue)]
       else problem_if (negb (Stat (LogPath bm))) (name +:+ ".log_path") ErrLogFileNotReadable
     else problem_if (blank (UnitName bm)) (name +:+ ".unit_name") ErrEmptyValue) ++
    validatePattern name (Pattern bm) ++
    problem_if (Tries bm =? 0) (name +:+ ".tries") ErrZeroValue ++
    problem_if (WindowSeconds bm =? 0) (name +:+ ".window_seconds") ErrZeroValue ++
    problem_if (bool_decide (Mode bm = modeBlocker) && (BanSeconds bm =? 0))
      (name +:+ ".ban_seconds") ErrZeroValue.

Definition resource_limits (rm : ResourceMonitorConfig) : list (string * ResourceFields) :=
  [("cpu_usage_persentage", CpuUsagePersentage rm); ("ram_usage_persentage", RamUsagePersentage rm);
   ("traffic_usage_mbs", TrafficUsageMBs rm); ("disk_usage_iops", DiskUsageIOps rm)].

(** The loop over the limits: whether one is set, and the problems found. *)
Fixpoint check_limits (name : string) (limits : list (string * ResourceFields)) (set : bool)
    (problems : list problem) : bool * list problem :=
  match limits with
  | [] => (set, problems)
  | (limit, fields) :: limits' =>
      let set := if negb (Warning fields =? 0) || negb (Alert fields =? 0) then true else set in
      let problems :=
        problems ++
        problem_if (negb (Warning fields =? 0) && negb (Alert fields =? 0) && (Alert fields <? Warning fields))
          (name +:+ "." +:+ limit) ErrWarningAboveAlert in
      check_limits name limits' set problems
  end.

Definition validateResource (name : string) (rm : ResourceMonitorConfig) : list problem :=
  if negb (rm_Enabled rm) then []
  else
    let problems :=
      problem_if (blank (OutputTopSnapshotDir rm)) (name +:+ ".output_top_snaphot_dir") ErrEmptyValue in
    let '(set, problems) := check_limits name (resource_limits rm) false problems in
    problems ++ problem_if (negb set) name ErrNoLimitsSet.

Definition validateNetworkAntirecon (name : string) (nm : EbpfNetworkAntireconConfig) : list problem :=
  if negb (contains_elem validModes (na_Mode nm)) then [(name +:+ ".mode", ErrInvalidValue)]
  else if bool_decide (na_Mode nm = modeDisabled) then []
  else
    problem_if (na_WindowSeconds nm =? 0) (name +:+ ".window_seconds") ErrZeroValue ++
    problem_if (bool_decide (na_Mode nm = modeBlocker) && (na_BanSeconds nm =? 0))
      (name +:+ ".ban_seconds") ErrZeroValue ++
    concat (map (λ '(ports_name, ports),
      concat (map (λ port, problem_if (maxPort <? port) (name +:+ "." +:+ ports_name) ErrInvalidValue) ports))
      [("whitelist_ports", items (WhitelistPorts nm)); ("blacklist_ports", items (BlacklistPorts nm))]).

(** [UserCommandExecutionController.Validate]; a nil error is [Ok tt]. *)
Definition validateController (c : UserCommandExecutionController) : result problem_err unit :=
  if bool_decide (uc_Mode c = "") || bool_decide (uc_Mode c = "disabled") then Ok tt
  else if negb (bool_decide (uc_Mode c = "logger")) && negb (bool_decide (uc_Mode c = "blocker"))
  then Err InvalidMode
  else if negb (bool_decide (BlockType c = "positive")) && negb (bool_decide (BlockType c = "negative"))
  then Err InvalidBlockType
  else
    match ParseUIDs (items (TargetUsersIDs c)) with
    | Err e => Err (PolicyError e)
    | Ok _ =>
        match NormalizeCommands (items (TargetCommands c)) with
        | Err e => Err (PolicyError e)
        | Ok commands => if 4096 <? Z.of_nat (length commands) then Err TooManyCommands else Ok tt
        end
    end.

Definition Validate (c : Config) : list problem :=
  problem_if (blank (BlockedIPsDatabase c)) "blocked_ips_database" ErrEmptyValue ++
  problem_if (negb (contains_elem validFirewallEngines (FirewallEngine c))) "firewall_engine" ErrInvalidValue ++
  problem_if (bool_decide (FirewallChains c = Some [])) "firewall_chains" ErrEmptyValue ++
  concat (map (λ chain, problem_if (blank chain) "firewall_chains" ErrEmptyValue)
            (items (FirewallChains c))) ++
  concat (map (λ ip, problem_if (bool_decide (ParseIP ip = None)) "ip_whitelist" ErrNotAnIP)
            (items (IPWhiteList c))) ++
  concat (map (λ monitor, validateBase (nm_Name monitor) (nm_Fields monitor)) (Monitors c)) ++
  validateResource "resource_monitor" (ResourceMonitor c) ++
  validateNetworkAntirecon "ebpf_monitors.network_antirecon" (NetworkAntirecon (EbpfMonitors c)) ++
  match validateController (UserCommandController (EbpfMonitors c)) with
  | Err e => [("user_command_controller", e)]
  | Ok _ => []
  end.

(** ** What a valid configuration is *)
Definition filled (s : string) : Prop := trim_space s ≠ "".

Record pattern_valid (pattern : string) : Prop := {
  pv_filled : filled pattern;
  pv_group : ∃ re, Compile pattern = Some re ∧ ipGroup ∈ SubexpNames re }.

Record base_active (bm : BaseFields) : Prop := {
  ba_engine : Engine bm ∈ validEngines;
  ba_source : filled (Config.Source bm);
  ba_stat : Engine bm = engineSyslog → Stat (LogPath bm) = true;
  ba_pattern : pattern_valid (Pattern bm);
  ba_tries : Tries bm ≠ 0;
  ba_window : WindowSeconds bm ≠ 0;
  ba_ban : Mode bm = modeBlocker → BanSeconds bm ≠ 0 }.
Definition base_valid (bm : BaseFields) : Prop :=
  Mode bm ∈ validModes ∧ (Enabled bm = true → base_active bm).

Definition limit_set (f : ResourceFields) : Prop := Warning f ≠ 0 ∨ Alert f ≠ 0.
Definition limit_ordered (f : ResourceFields) : Prop :=
  Warning f ≠ 0 → Alert f ≠ 0 → Warning f <= Alert f.
Definition resource_valid (rm : ResourceMonitorConfig) : Prop :=
  rm_Enabled rm = true →
  filled (OutputTopSnapshotDir rm) ∧
  (∀ l, l ∈ resource_limits rm → limit_ordered l.2) ∧ (∃ l, l ∈ resource_limits rm ∧ limit_set l.2).

Definition antirecon_valid (nm : EbpfNetworkAntireconConfig) : Prop :=
  na_Mode nm ∈ validModes ∧
  (na_Mode nm ≠ modeDisabled →
   na_WindowSeconds nm ≠ 0 ∧ (na_Mode nm = modeBlocker → na_BanSeconds nm ≠ 0) ∧
   ∀ p, p ∈ items (WhitelistPorts nm) ∨ p ∈ items (BlacklistPorts nm) → p <= maxPort).

Definition controller_valid (c : UserCommandExecutionController) : Prop :=
  uc_Mode c = "" ∨ uc_Mode c = "disabled" ∨
  (uc_Mode c = "logger" ∨ uc_Mode c = "blocker") ∧ (BlockType c = "positive" ∨ BlockType c = "negative") ∧
  (∃ uids, ParseUIDs (items (TargetUsersIDs c)) = Ok uids) ∧
  (∃ names, NormalizeCommands (items (TargetCommands c)) = Ok names ∧ Z.of_nat (length names) <= 4096).

Record config_valid (c : Config) : Prop := {
  cv_database : filled (BlockedIPsDatabase c);
  cv_engine : FirewallEngine c ∈ validFirewallEngines;
  cv_chains : FirewallChains c ≠ Some [];
  cv_chain : ∀ chain, chain ∈ items (FirewallChains c) → filled chain;
  cv_whitelist : ∀ ip, ip ∈ items (IPWhiteList c) → ParseIP ip ≠ None;
  cv_monitors : ∀ m, m ∈ Monitors c → base_valid (nm_Fields m);
  cv_resource : resource_valid (ResourceMonitor c);
  cv_antirecon : antirecon_valid (NetworkAntirecon (EbpfMonitors c));
  cv_controller : controller_valid (UserCommandController (EbpfMonitors c)) }.

(** ** Each check finds no problem exactly on valid settings *)
Lemma problem_if_nil b f e : problem_if b f e = [] ↔ b = false.
Proof. by destruct b. Qed.
Lemma blank_false s : blank s = false ↔ filled s.
Proof. unfold blank, filled. by rewrite bool_decide_eq_false. Qed.
Lemma concat_map_nil {A} (g : A → list problem) l :
  concat (map g l) = [] ↔ ∀ x, x ∈ l → g x = [].
Proof.
  induction l as [|x l IH]; simpl.
  - split; [by intros _ x ?%elem_of_nil|done].
  - rewrite app_nil, IH. setoid_rewrite elem_of_cons. naive_solver.
Qed.
Lemma negb_contains_false `{EqDecision A} (l : list A) x : negb (contains_elem l x) = false ↔ x ∈ l.
Proof. rewrite negb_false_iff. apply contains_elem_spec. Qed.

Lemma validatePattern_nil name pattern : validatePattern name pattern = [] ↔ pattern_valid pattern.
Proof.
  unfold validatePattern. destruct (blank pattern) eqn:Hb.
  - split; [done|]. intros [Hf _]. by rewrite (proj2 (blank_false _) Hf) in Hb.
  - apply blank_false in Hb. destruct (Compile pattern) as [re|] eqn:Hc.
    2: { split; [done|]. intros [_ (re & ? & _)]. congruence. }
    destruct (negb _) eqn:Hg.
    + split; [done|]. intros [_ (re' & Hc' & Hin)]. assert (re' = re) as -> by congruence. by rewrite (proj2 (negb_contains_false _ _) Hin) in Hg.
    + apply negb_contains_false in Hg. split; [|done]. intros _. split; [done|]. eauto.
Qed.

Lemma validateBase_nil name bm : validateBase name bm = [] ↔ base_valid bm.
Proof.
  unfold validateBase, base_valid, Enabled. destruct (negb (contains_elem validModes _)) eqn:Hm.
  { split; [done|]. intros [Hin _]. by rewrite (proj2 (negb_contains_false _ _) Hin) in Hm. }
  apply negb_contains_false in Hm. case_bool_decide as Hd; [done|]. simpl.
  rewrite !app_nil, !problem_if_nil, validatePattern_nil, !Z.eqb_neq, andb_false_iff, bool_decide_eq_false, Z.eqb_neq.
  assert (Hsrc : (if negb (contains_elem validEngines (Engine bm)) then [(name +:+ ".engine", ErrInvalidValue)]
     else if bool_decide (Engine bm = engineSyslog) then
       if blank (LogPath bm) then [(name +:+ ".log_path", ErrEmptyValue)]
       else problem_if (negb (Stat (LogPath bm))) (name +:+ ".log_path") ErrLogFileNotReadable
     else problem_if (blank (UnitName bm)) (name +:+ ".unit_name") ErrEmptyValue) = [] ↔
     Engine bm ∈ validEngines ∧ filled (Config.Source bm) ∧ (Engine bm = engineSyslog → Stat (LogPath bm) = true)).
  { unfold Config.Source. destruct (negb (contains_elem validEngines _)) eqn:He.
    { split; [done|]. intros [Hin _]. by rewrite (proj2 (negb_contains_false _ _) Hin) in He. }
    apply negb_contains_false in He. case_bool_decide.
    - destruct (blank _) eqn:Hb; [split; [done|]; intros (_ & Hf & _); by rewrite (proj2 (blank_false _) Hf) in Hb|].
      apply blank_false in Hb. rewrite problem_if_nil, negb_false_iff. naive_solver.
    - rewrite problem_if_nil, blank_false. naive_solver. }
  rewrite Hsrc. split.
  - intros ((? & ? & ?) & ? & ? & ? & Hban). split; [done|]. intros _. split; try done. naive_solver.
  - intros [_ Ha]. destruct (Ha eq_refl). split_and!; try done.
    destruct (decide (Mode bm = modeBlocker)); auto.
Qed.

Lemma check_limits_spec name limits set ps set' ps' :
  check_limits name limits set ps = (set', ps') →
  (set' = true ↔ set = true ∨ ∃ l, l ∈ limits ∧ limit_set l.2) ∧
  (ps' = [] ↔ ps = [] ∧ ∀ l, l ∈ limits → limit_ordered l.2).
Proof.
  revert set ps. induction limits as [|[limit f] limits IH]; intros set ps; simpl.
  { intros [= <- <-]. split.
    - split; [by left|]. intros [?|(l & Hl & _)]; [done|by apply elem_of_nil in Hl].
    - split; [intros ->; split; [done|by intros l ?%elem_of_nil]|by intros [? _]]. }
  intros [-> ->]%IH. setoid_rewrite elem_of_cons. split.
  - assert (Hf : negb (Warning f =? 0) || negb (Alert f =? 0) = true ↔ limit_set f).
    { unfold limit_set. by rewrite orb_true_iff, !negb_true_iff, !Z.eqb_neq. }
    destruct (_ || _); split.
    + intros _. right. exists (limit, f). naive_solver.
    + by left.
    + naive_solver.
    + intros [?|(l & [->|?] & Hl)]; [by left|by apply Hf in Hl|by right; exists l].
  - rewrite app_nil, problem_if_nil, !andb_false_iff, !negb_false_iff, !Z.eqb_eq, Z.ltb_ge.
    assert (Hf : ((Warning f = 0 ∨ Alert f = 0) ∨ Warning f <= Alert f) ↔ limit_ordered f).
    { unfold limit_ordered. destruct (decide (Warning f = 0)), (decide (Alert f = 0)); naive_solver. }
    rewrite Hf. split; [intros [[? ?] Hl]; split; [done|]; intros l [->|?]; [done|auto]|].
    intros [? Hl]. split_and!; [done|apply (Hl (limit, f)); by left|auto].
Qed.

Lemma validateResource_nil name rm : validateResource name rm = [] ↔ resource_valid rm.
Proof.
  unfold validateResource, resource_valid. destruct (rm_Enabled rm); cbn [negb]; [|done].
  destruct (check_limits name (resource_limits rm) false
              (problem_if (blank (OutputTopSnapshotDir rm)) (name +:+ ".output_top_snaphot_dir") ErrEmptyValue)) as [set ps] eqn:Hc. apply check_limits_spec in Hc as [Hs Hp].
  rewrite app_nil, problem_if_nil, negb_false_iff, Hs, Hp, problem_if_nil, blank_false. naive_solver.
Qed.

Lemma validateNetworkAntirecon_nil name nm :
  validateNetworkAntirecon name nm = [] ↔ antirecon_valid nm.
Proof.
  unfold validateNetworkAntirecon, antirecon_valid.
  destruct (negb (contains_elem validModes _)) eqn:Hm.
  { split; [done|]. intros [Hin _]. by rewrite (proj2 (negb_contains_false _ _) Hin) in Hm. }
  apply negb_contains_false in Hm. case_bool_decide; [naive_solver|].
  rewrite !app_nil, !problem_if_nil, Z.eqb_neq, andb_false_iff, bool_decide_eq_false, Z.eqb_neq.
  cbn [map concat]. rewrite !app_nil, !concat_map_nil.
  setoid_rewrite problem_if_nil. setoid_rewrite Z.ltb_ge.
  destruct (decide (na_Mode nm = modeBlocker)); naive_solver.
Qed.

Lemma validateController_ok c : validateController c = Ok tt ↔ controller_valid c.
Proof.
  unfold validateController, controller_valid. case_bool_decide as H1; simpl; [naive_solver|].
  case_bool_decide as H2; simpl; [naive_solver|].
  case_bool_decide as H3; case_bool_decide as H4; simpl; try (split; [done|naive_solver]).
  all: case_bool_decide as H5; case_bool_decide as H6; simpl; try (split; [done|naive_solver]).
  all: destruct (ParseUIDs _) as [uids|]; [|split; [done|naive_solver]].
  all: destruct (NormalizeCommands _) as [names|]; [|split; [done|naive_solver]].
  all: destruct (4096 <? _) eqn:Hn; bool_hyps; (split; [try done|]).
  all: try (intros _; right; right; split_and!; eauto).
  all: intros [?|[?|(_ & _ & _ & n & [= <-] & ?)]]; try done; lia.
Qed.

Lemma Validate_ok c : Validate c = [] ↔ config_valid c.
Proof.
  unfold Validate. rewrite !app_nil, !problem_if_nil, !concat_map_nil, blank_false, negb_contains_false,
    bool_decide_eq_false, validateResource_nil, validateNetworkAntirecon_nil.
  setoid_rewrite problem_if_nil. setoid_rewrite blank_false. setoid_rewrite bool_decide_eq_false.
  setoid_rewrite validateBase_nil.
  assert (Hu : match validateController (UserCommandController (EbpfMonitors c)) with
    | Err e => [("user_command_controller", e)] | Ok _ => [] end = [] ↔
    controller_valid (UserCommandController (EbpfMonitors c))).
  { rewrite <- validateController_ok. by destruct (validateController _) as [[]|]. }
  rewrite Hu. split; [intros (?&?&?&?&?&?&?&?&?); by split|by intros []].
Qed.

(** C25: [Validate] is complete: it finds no problem exactly when the configuration meets
    every rule, each spelled out in [config_valid]. *)
Theorem Validate_valid c : Validate c = [] ↔ config_valid c.
Proof. apply Validate_ok. Qed.
End Validate.
