(* ===== verification/ConfigLoad.v ===== *)
(** * pkg/config/model.go: loading, saving and commenting the configuration file

    The files are the class [FS]; yaml.v3 is the class [Yaml] over its node tree, of
    which [applyComments] uses the kind, the value, the head comment and the children.
    The description of the Go types that [reflect] gives is the type [go_type]. *)

From S2P Require Import Prelude.
From S2P Require Import GoStrings.
From S2P Require Import GoNet.
From S2P Require Import Config.

(** ** [filepath.Dir] on Unix *)
Fixpoint clean_go (rooted : bool) (parts : list string) (stack : list string) : list string :=
  match parts with
  | [] => rev stack
  | p :: parts' =>
      if bool_decide (p = "") || bool_decide (p = ".") then clean_go rooted parts' stack
      else if bool_decide (p = "..") then
        match stack with
        | top :: stack' =>
            if bool_decide (top = "..") then clean_go rooted parts' (p :: stack)
            else clean_go rooted parts' stack'
        | [] => clean_go rooted parts' (if rooted then [] else [p])
        end
      else clean_go rooted parts' (p :: stack)
  end.
Definition filepath_clean (path : string) : string :=
  let rooted := String.prefix "/" path in
  let body := str_join "/" (clean_go rooted (split_str path "/") []) in
  if rooted then "/" +:+ body else if bool_decide (body = "") then "." else body.
Definition filepath_dir (path : string) : string :=
  filepath_clean (of_bytes (rev (drop_while (λ c, negb (is_slash c)) (rev (bytes path))))).

(** ** Files *)
Inductive stat_result : Type := StatOk | StatNotExist | StatError.
Class FS (W : Type) := {
  os_Stat : string → W → stat_result;
  os_MkdirAll : string → W → W * bool;
  os_ReadFile : string → W → option string;
  os_WriteFile : string → string → W → W * bool }.

(** ** [net.InterfaceAddrs]: the addresses, each an [IPNet], an [IPAddr] or another type *)
Inductive net_addr : Type :=
| IPNet (ip : option (list Z))
| IPAddr (ip : option (list Z))
| OtherAddr.

Definition GetLocalIps (interfaceAddrs : option (list net_addr)) : result config_err (slice string) :=
  match interfaceAddrs with
  | None => Err ErrGettingNetworkInterfaces
  | Some addrs =>
      let ips := omap (λ addr, match addr with
                               | IPNet ip | IPAddr ip => IP_String <$> ip
                               | OtherAddr => None
                               end) addrs in
      Ok (if bool_decide (ips = []) then None else Some ips)
  end.

(** ** The node tree of yaml.v3 *)
Inductive node_kind : Type := MappingNode | OtherNode.
Inductive node : Type :=
| Node (Kind : node_kind) (Value HeadComment : string) (Content : list node).
Definition node_Kind (n : node) : node_kind := let '(Node k _ _ _) := n in k.
Definition node_Value (n : node) : string := let '(Node _ v _ _) := n in v.
Definition node_Content (n : node) : list node := let '(Node _ _ _ l) := n in l.
Definition set_HeadComment (comment : string) (n : node) : node :=
  let '(Node k v _ l) := n in Node k v comment l.
Definition set_Content (l : list node) (n : node) : node := let '(Node k v c _) := n in Node k v c l.

(** What [reflect] tells of a type: the fields of a struct with their name, [yaml] tag,
    [comment] tag and type. *)
Inductive go_type : Type :=
| StructType (fields : list (string * string * string * go_type))
| OtherType.

Definition lower (c : ascii) : ascii :=
  if (65 <=? byte_val c) && (byte_val c <=? 90) then byte_of (byte_val c + 32) else c.
(** [strings.ToLower] of an ASCII string. *)
Definition to_lower (s : string) : string := of_bytes (map lower (bytes s)).

Definition yamlName (field_name tag : string) : string * bool :=
  let options := split_str tag "," in
  let inline := contains_elem (tail options) "inline" in
  let name := default "" (head options) in
  (if bool_decide (name = "") && negb inline then to_lower field_name else name, inline).

(** The index of the key; its value is the next node. *)
Fixpoint findKey (content : list node) (name : string) : option nat :=
  match content with
  | key :: value :: content' =>
      if bool_decide (node_Value key = name) then Some 0%nat
      else (λ i, S (S i)) <$> findKey content' name
  | _ => None
  end.

(** The loop over the fields of a struct; [apply] is the recursive call. *)
Section Fields.
Variable apply : go_type → node → node.

Definition mark_key (comment : string) (key : node) : node :=
  if bool_decide (comment = "") then key else set_HeadComment comment key.

Fixpoint apply_fields (fields : list (string * string * string * go_type)) (n : node) : node :=
  match fields with
  | [] => n
  | (field_name, tag, comment, field_type) :: fields' =>
      let '(name, inline) := yamlName field_name tag in
      if inline then apply_fields fields' (apply field_type n)
      else if bool_decide (name = "") || bool_decide (name = "-") then apply_fields fields' n
      else
        match findKey (node_Content n) name with
        | None => apply_fields fields' n
        | Some i =>
            let content := alter (mark_key comment) i (node_Content n) in
            apply_fields fields' (set_Content (alter (apply field_type) (S i) content) n)
        end
  end.
End Fields.

Fixpoint applyComments (type : go_type) (n : node) {struct type} : node :=
  match type with
  | OtherType => n
  | StructType fields =>
      match node_Kind n with
      | MappingNode => apply_fields applyComments fields n
      | OtherNode => n
      end
  end.

(** ** The type of the configuration, with its tags *)
Definition base_type : go_type := StructType
  [("Mode", "mode", "disabled, logger, blocker", OtherType);
   ("Engine", "engine", "syslog, journal, docker", OtherType);
   ("LogPath", "log_path", "path to the log file, used by the syslog engine only", OtherType);
   ("UnitName", "unit_name", "systemd unit or container name, used by the journal and docker engines", OtherType);
   ("Tries", "tries", "how many hits within the window get the ip banned", OtherType);
   ("WindowSeconds", "window_seconds", "the hits are counted over this window, the counters are dropped afterwards", OtherType);
   ("BanSeconds", "ban_seconds", "how long the ip stays banned, the blocker mode only", OtherType);
   ("Pattern", "pattern", "the line is a hit when it matches, the address is taken from the (?P<ip>...) group", OtherType)].
Definition monitor_type : go_type := StructType [("BaseFields", ",inline", "", base_type)].
Definition resource_fields_type : go_type := StructType
  [("Warning", "warning", "logged as a warning once the usage reaches it, zero turns the check off", OtherType);
   ("Alert", "alert", "logged as an alert and saves a snapshot of the processes, zero turns the check off", OtherType)].
Definition antirecon_type : go_type := StructType
  [("Mode", "mode", "disabled, logger, blocker", OtherType);
   ("PortsCount", "ports_count", "different ports count in window before ban", OtherType);
   ("WindowSeconds", "window_seconds", "the hits are counted over this window, the counters are dropped afterwards", OtherType);
   ("BanSeconds", "ban_seconds", "how long the ip stays banned, the blocker mode only", OtherType);
   ("WhitelistPorts", "whitelist_ports", "ports which not relations with recons (exp. 22, 80, 443 and other)", OtherType);
   ("BlacklistPorts", "blacklist_ports", "ports which must ban ip when scanned at once", OtherType)].
Definition controller_type : go_type := StructType
  [("Mode", "mode", "disabled, logger, blocker", OtherType);
   ("BlockType", "block_type", "positive(acknowledge all not in block), negative(acknowledge only exceptions)", OtherType);
   ("TargetUsersIDs", "target_users_ids", "target uids for block or ignore (addiction block_type)", OtherType);
   ("TargetCommands", "target_commands", "target commands for block or ignore (addiction block_type)", OtherType)].
Definition resource_type : go_type := StructType
  [("Enabled", "enabled", "", OtherType);
   ("CpuUsagePersentage", "cpu_usage_persentage", "cpu usage of the whole machine, percents", resource_fields_type);
   ("RamUsagePersentage", "ram_usage_persentage", "ram usage of the whole machine, percents", resource_fields_type);
   ("TrafficUsageMBs", "traffic_usage_mbs", "network traffic in and out, megabytes per second", resource_fields_type);
   ("DiskUsageIOps", "disk_usage_iops", "disk reads and writes, operations per second", resource_fields_type);
   ("OutputTopSnapshotDir", "output_top_snaphot_dir", "the snapshots of the processes are written here, one <datetime>.sp file per alert", OtherType)].
Definition ebpf_type : go_type := StructType
  [("NetworkAntirecon", "network_antirecon", "tcp and udp port antiscan", antirecon_type);
   ("UserCommandController", "user_command_controller", "command execution controller. can block or log command execution from definite users and commands", controller_type)].
Definition exporter_type : go_type := StructType
  [("Enabled", "enabled", "", OtherType);
   ("EndpointAddress", "endpoint_address", "websocket endpoint address (exm. connector.light-defender.ru)", OtherType);
   ("UserID", "user_id", "your user_id from dashboard", OtherType);
   ("ConfigID", "config_id", "your config_id from dashboard", OtherType);
   ("EndpointRsaPublicKey", "endpoint_rsa_public_key", "dashboard public key for e2e encryption", OtherType)].
Definition config_type : go_type := StructType
  [("IPWhiteList", "ip_whitelist", "these addresses are never banned, the addresses of the machine itself are put here on the first run", OtherType);
   ("BlockedIPsDatabase", "blocked_ips_database", "the bans outlive a restart of the daemon, they are kept here", OtherType);
   ("FirewallEngine", "firewall_engine", "iptables, nftables, firewalld", OtherType);
   ("FirewallChains", "firewall_chains", "your firewall chains to ban, for example (INPUT, DOCKER-USER, etc.)", OtherType);
   ("Exporter", "exporter", "settings for export events to dashboard", exporter_type);
   ("SSHMonitor", "ssh_monitor", "failed ssh logins", monitor_type);
   ("WebReconMonitor", "web_recon_monitor", "scanning of the web server for the paths that are not there", monitor_type);
   ("WebBruteMonitor", "web_brute_monitor", "brute force of the login pages of the web server", monitor_type);
   ("DatabaseMonitor", "database_monitor", "failed logins into the database", monitor_type);
   ("ResourceMonitor", "resource_monitor", "cpu, ram, traffic and disk of the machine, alerts only, nothing is ever banned by it", resource_type);
   ("EbpfMonitors", "ebpf_monitors", "kernel level monitors", ebpf_type)].

(** ** Saving and loading *)

(** [Node.Encode], [yaml.Marshal] and [yaml.Unmarshal] into an existing value, which is
    left as it got when the text is refused. *)
Class Yaml := {
  encodeNode : Config → option node;
  marshalYAML : node → option string;
  unmarshalYAML : string → Config → Config * bool }.

Section Load.
Context {W : Type} `{FS W} `{Yaml}.

Definition SaveConfig (path : string) (c : Config) (w : W) : W * result config_err unit :=
  let '(w, ok) := os_MkdirAll (filepath_dir path) w in
  if negb ok then (w, Err ErrCreateConfigDir)
  else
    match encodeNode c with
    | None => (w, Err ErrMarshalConfig)
    | Some n =>
        match marshalYAML (applyComments config_type n) with
        | None => (w, Err ErrMarshalConfig)
        | Some data =>
            let '(w, ok) := os_WriteFile path data w in
            if ok then (w, Ok tt) else (w, Err ErrWriteConfig)
        end
    end.

(** The reset of the two settings a file may leave out, then [yaml.Unmarshal]. *)
Definition parse_config (data : string) (c : Config) : Config * result config_err unit :=
  let c := with_firewall_chains None c in
  let c := with_controller defaultUserCommandExecutionController c in
  match unmarshalYAML data c with
  | (c, false) => (c, Err ErrParseConfig)
  | (c, true) => (setFirewallChains c, Ok tt)
  end.

Definition LoadConfigReadOnly (path : string) (c : Config) (w : W) : Config * result config_err unit :=
  match os_Stat path w with
  | StatNotExist => (c, Err ErrConfigNotFound)
  | StatError => (c, Err ErrStatConfig)
  | StatOk =>
      match os_ReadFile path w with
      | None => (c, Err ErrReadConfig)
      | Some data => parse_config data c
      end
  end.

(** The first half: a missing file is created from the defaults. *)
Definition create_config (interfaceAddrs : option (list net_addr)) (path : string) (c : Config) (w : W)
    : W * Config * result config_err unit :=
  match os_Stat path w with
  | StatNotExist =>
      match GetLocalIps interfaceAddrs with
      | Err e => (w, c, Err e)
      | Ok ips =>
          let c := with_ip_whitelist ips c in
          let '(w, res) := SaveConfig path c w in (w, c, res)
      end
  | StatError => (w, c, Err ErrStatConfig)
  | StatOk => (w, c, Ok tt)
  end.

Definition LoadConfig (interfaceAddrs : option (list net_addr)) (path : string) (c : Config) (w : W)
    : W * Config * result config_err unit :=
  match create_config interfaceAddrs path c w with
  | (w, c, Err e) => (w, c, Err e)
  | (w, c, Ok _) =>
      match os_ReadFile path w with
      | None => (w, c, Err ErrReadConfig)
      | Some data =>
          match parse_config data c with
          | (c, Err e) => (w, c, Err e)
          | (c, Ok _) => let '(w, res) := SaveConfig path c w in (w, c, res)
          end
      end
  end.
End Load.

(** ** Comments are only comments *)
Fixpoint uncomment (n : node) : node :=
  let '(Node k v _ l) := n in Node k v "" (map uncomment l).

(** Two configurations the program cannot tell apart but by comparing a slice with nil. *)
Definition denil_slice {A} (s : slice A) : slice A := Some (items s).
Definition denil (c : Config) : Config :=
  let e := EbpfMonitors c in
  let na := NetworkAntirecon e in
  let uc := UserCommandController e in
  MkConfig (denil_slice (IPWhiteList c)) (BlockedIPsDatabase c) (FirewallEngine c)
    (denil_slice (FirewallChains c)) (Exporter c) (SSHMonitor c) (WebReconMonitor c)
    (WebBruteMonitor c) (DatabaseMonitor c) (ResourceMonitor c)
    (MkEbpf (MkAntirecon (na_Mode na) (PortsCount na) (na_WindowSeconds na) (na_BanSeconds na)
               (denil_slice (WhitelistPorts na)) (denil_slice (BlacklistPorts na)))
            (MkController (uc_Mode uc) (BlockType uc) (denil_slice (TargetUsersIDs uc))
               (denil_slice (TargetCommands uc)))).
Definition same_config (c d : Config) : Prop := denil c = denil d.
#[global] Instance same_config_equiv : Equivalence same_config.
Proof. split; unfold same_config; [done|by intros ? ? ->|by intros ? ? ? -> ->]. Qed.

Lemma map_alter_same {A B} (g : A → B) (h : A → A) i l :
  (∀ x, g (h x) = g x) → map g (alter h i l) = map g l.
Proof.
  intros Hg. revert i. induction l as [|x l IH]; intros [|i]; try done; cbn; [by rewrite Hg|].
  f_equal. apply IH.
Qed.

Lemma uncomment_content n l :
  map uncomment l = map uncomment (node_Content n) → uncomment (set_Content l n) = uncomment n.
Proof. destruct n as [k v h l']. simpl. by intros ->. Qed.

Lemma uncomment_mark comment n : uncomment (mark_key comment n) = uncomment n.
Proof. unfold mark_key. case_bool_decide; [done|]. by destruct n. Qed.

Lemma apply_fields_uncomment apply fields n :
  Forall (λ f, ∀ n, uncomment (apply f.2 n) = uncomment n) fields →
  uncomment (apply_fields apply fields n) = uncomment n.
Proof.
  revert n. induction fields as [|[[[fname tag] comment] ftype] fields IH]; intros n Hf; [done|].
  cbn [apply_fields]. destruct (yamlName fname tag) as [name inline].
  apply Forall_cons in Hf as [Hft Hf]. simpl in Hft.
  assert (Hr : ∀ n, uncomment (apply_fields apply fields n) = uncomment n) by (intros; by apply IH).
  destruct inline; [by rewrite Hr|]. destruct (_ || _); [done|].
  destruct (findKey _ _) as [i|]; [|done]. rewrite Hr. apply uncomment_content.
  by rewrite !map_alter_same by auto using uncomment_mark.
Qed.

Lemma uncomment_applied type n : uncomment (applyComments type n) = uncomment n.
Proof.
  revert type n. fix IH 1. intros [fields|] n; [|done].
  cbn [applyComments]. destruct (node_Kind n); [|done].
  apply apply_fields_uncomment. induction fields as [|[[[? ?] ?] ft] fields IHf]; constructor; [apply IH|exact IHf].
Qed.

(** [applyComments] changes nothing of a document but its comments, whatever the type. *)
Theorem applyComments_uncomment type n : uncomment (applyComments type n) = uncomment n.
Proof. apply uncomment_applied. Qed.

(** ** What is written is what will be read *)

(** A file just written is there and holds what was written. *)
Class FSLaws (W : Type) `{FS W} : Prop :=
  write_read path data (w w' : W) :
    os_WriteFile path data w = (w', true) →
    os_Stat path w' = StatOk ∧ os_ReadFile path w' = Some data.

(** yaml.v3 reads back the configuration it encoded, over any previous value and
    whatever the comments; a nil slice comes back empty. *)
Class YamlLaws `{Yaml} : Prop :=
  yaml_roundtrip c n n' data c0 :
    encodeNode c = Some n → uncomment n' = uncomment n → marshalYAML n' = Some data →
    ∃ c', unmarshalYAML data c0 = (c', true) ∧ same_config c' c.

Lemma denil_chains s c : denil (with_firewall_chains s c) = with_firewall_chains (denil_slice s) (denil c).
Proof. done. Qed.

Lemma denil_setFirewallChains c d :
  same_config c d → same_config (setFirewallChains c) (setFirewallChains d).
Proof.
  unfold same_config. intros Heq.
  assert (Hi : items (FirewallChains c) = items (FirewallChains d)).
  { apply (f_equal FirewallChains) in Heq. by injection Heq. }
  assert (He : FirewallEngine c = FirewallEngine d) by apply (f_equal FirewallEngine Heq).
  unfold setFirewallChains. rewrite Hi, He.
  case_bool_decide; simpl; [|done]. repeat (case_bool_decide; [by rewrite !denil_chains, Heq|]). done.
Qed.

Section Stable.
Context {W : Type} `{FSLaws W} `{YamlLaws}.

Lemma SaveConfig_read path c c0 (w w' : W) :
  SaveConfig path c w = (w', Ok tt) →
  os_Stat path w' = StatOk ∧
  ∃ data c', os_ReadFile path w' = Some data ∧ unmarshalYAML data c0 = (c', true) ∧ same_config c' c.
Proof.
  unfold SaveConfig. destruct (os_MkdirAll _ w) as [w1 []]; [|done]. cbn [negb].
  destruct (encodeNode c) as [n|] eqn:He; [|done].
  destruct (marshalYAML _) as [data|] eqn:Hm; [|done].
  destruct (os_WriteFile path data w1) as [w2 []] eqn:Hw; [|done]. intros [= <-].
  apply write_read in Hw as [Hs Hr]. split; [done|].
  destruct (yaml_roundtrip c n _ data c0 He (uncomment_applied _ _) Hm) as (c' & Hu & Hc). eauto.
Qed.

Lemma parse_config_same data c c' c0 :
  unmarshalYAML data (with_controller defaultUserCommandExecutionController (with_firewall_chains None c0)) = (c', true) →
  same_config c' c → ∃ d, parse_config data c0 = (d, Ok tt) ∧ same_config d (setFirewallChains c).
Proof.
  intros Hu Hc. unfold parse_config. rewrite Hu. eexists. split; [done|]. by apply denil_setFirewallChains.
Qed.

Lemma SaveConfig_reload path c c0 (w w' : W) :
  SaveConfig path c w = (w', Ok tt) →
  ∃ d, LoadConfigReadOnly path c0 w' = (d, Ok tt) ∧ same_config d (setFirewallChains c).
Proof.
  intros Hs. eapply SaveConfig_read in Hs as (Hstat & data & c' & Hr & Hu & Hc).
  unfold LoadConfigReadOnly. rewrite Hstat, Hr. by eapply parse_config_same.
Qed.

Lemma LoadConfig_saved addrs path c (w w' : W) d :
  LoadConfig addrs path c w = (w', d, Ok tt) →
  setFirewallChains d = d ∧ ∃ w1, SaveConfig path d w1 = (w', Ok tt).
Proof.
  unfold LoadConfig. destruct (create_config _ _ _ _) as [[w1 c1] [[]|]]; [|done].
  destruct (os_ReadFile path w1) as [data|]; [|done].
  unfold parse_config. destruct (unmarshalYAML _ _) as [c2 []]; [|done].
  destruct (SaveConfig path _ w1) as [w2 res] eqn:Hs. intros [= <- <- ->].
  split; [apply setFirewallChains_idem|eauto].
Qed.

(** C27: a load leaves on disk what it returned.  Whatever [LoadConfig] found, a later load
    by any process, from any previous value, gives the same configuration. *)
Theorem LoadConfig_stable addrs path c c0 (w w' : W) d :
  LoadConfig addrs path c w = (w', d, Ok tt) →
  ∃ d', LoadConfigReadOnly path c0 w' = (d', Ok tt) ∧ same_config d' d.
Proof.
  intros [Hfix [w1 Hs]]%LoadConfig_saved. eapply SaveConfig_reload in Hs as (d' & Hl & Hc).
  exists d'. split; [done|]. by rewrite Hfix in Hc.
Qed.

(** The first run.  With no file there, the configuration is the default one with the
    addresses of the machine on the white list. *)
Theorem LoadConfig_first_run addrs path (w w' : W) d :
  os_Stat path w = StatNotExist → LoadConfig addrs path New w = (w', d, Ok tt) →
  ∃ ips, GetLocalIps addrs = Ok ips ∧ same_config d (with_ip_whitelist ips New).
Proof.
  intros Hstat. unfold LoadConfig, create_config. rewrite Hstat.
  destruct (GetLocalIps addrs) as [ips|]; [|done]. destruct (SaveConfig path _ w) as [w1 [[]|]] eqn:Hs; [|done].
  eapply SaveConfig_read in Hs as (_ & data & c' & -> & Hu & Hc).
  apply (parse_config_same _ (with_ip_whitelist ips New) c' (with_ip_whitelist ips New)) in Hu as (d' & -> & Hd); [|done].
  destruct (SaveConfig path d' w1) as [w2 res]. intros [= <- <- _]. by exists ips.
Qed.
End Stable.
