(* ===== verification/ConfigExamples.v ===== *)
(** * The configuration in concrete worlds

    A file system that is a map from path to content and a text format that encodes a
    configuration as a string of bits; the theorems about loading are applied to a first
    run in them.  [toy_regexp] is a regular expression compiler for the witnesses that
    need one: a pattern is a literal followed by the address. *)

From S2P Require Import Prelude.
From S2P Require Import GoStrings.
From S2P Require Import GoNet.
From S2P Require Import Config.
From S2P Require Import ConfigValidate.
From S2P Require Import ConfigLoad.

(** ** A pattern language: a literal, the address being what follows it *)
Definition toy_regexp : Type := string.
#[global] Instance toy_regexp_ops : Regexp toy_regexp := {
  Compile pattern := Some pattern;
  SubexpNames _ := [""; ipGroup];
  FindStringSubmatch re line :=
    (λ rest, [line; of_bytes rest]) <$> strip (bytes re) (bytes line) }.

(** The default configuration is valid where the log file of ssh is there. *)
Lemma New_valid : Validate (RE := toy_regexp) (λ path, bool_decide (path = "/var/log/auth.log")) New = [].
Proof. vm_compute. reflexivity. Qed.

(** ** Files *)
Abbreviation files := (gmap string string).
#[global] Instance files_fs : FS files := {
  os_Stat path w := if w !! path is Some _ then StatOk else StatNotExist;
  os_MkdirAll _ w := (w, true);
  os_ReadFile path w := w !! path;
  os_WriteFile path data w := (<[path := data]> w, true) }.
#[global] Instance files_laws : FSLaws files.
Proof. intros path data w w'. simpl. intros [= <-]. by rewrite lookup_insert_eq. Qed.

(** ** A text format *)
#[global] Instance BaseFields_countable : Countable BaseFields.
Proof.
  apply (inj_countable' (λ b, (Mode b, Engine b, LogPath b, UnitName b, Tries b, WindowSeconds b, BanSeconds b, Pattern b))
    (λ '(m, e, l, u, t, w, s, p), MkBase m e l u t w s p)). by intros [].
Defined.
#[global] Instance ResourceFields_countable : Countable ResourceFields.
Proof. apply (inj_countable' (λ r, (Warning r, Alert r)) (λ '(w, a), MkResource w a)). by intros []. Defined.
#[global] Instance Antirecon_countable : Countable EbpfNetworkAntireconConfig.
Proof.
  apply (inj_countable' (λ n, (na_Mode n, PortsCount n, na_WindowSeconds n, na_BanSeconds n, WhitelistPorts n, BlacklistPorts n))
    (λ '(m, p, w, b, wl, bl), MkAntirecon m p w b wl bl)). by intros [].
Defined.
#[global] Instance Controller_countable : Countable UserCommandExecutionController.
Proof.
  apply (inj_countable' (λ u, (uc_Mode u, BlockType u, TargetUsersIDs u, TargetCommands u))
    (λ '(m, b, u, c), MkController m b u c)). by intros [].
Defined.
#[global] Instance ResourceMonitor_countable : Countable ResourceMonitorConfig.
Proof.
  apply (inj_countable' (λ r, (rm_Enabled r, CpuUsagePersentage r, RamUsagePersentage r, TrafficUsageMBs r, DiskUsageIOps r, OutputTopSnapshotDir r))
    (λ '(e, c, r, t, d, o), MkResourceMonitor e c r t d o)). by intros [].
Defined.
#[global] Instance Ebpf_countable : Countable EbpfConfig.
Proof. apply (inj_countable' (λ e, (NetworkAntirecon e, UserCommandController e)) (λ '(n, u), MkEbpf n u)). by intros []. Defined.
#[global] Instance Exporter_countable : Countable ExporterConfig.
Proof.
  apply (inj_countable' (λ e, (ex_Enabled e, EndpointAddress e, UserID e, ConfigID e, EndpointRsaPublicKey e))
    (λ '(e, a, u, c, k), MkExporter e a u c k)). by intros [].
Defined.
#[global] Instance Config_countable : Countable Config.
Proof.
  apply (inj_countable' (λ c, (IPWhiteList c, BlockedIPsDatabase c, FirewallEngine c, FirewallChains c, Exporter c,
      SSHMonitor c, WebReconMonitor c, WebBruteMonitor c, DatabaseMonitor c, ResourceMonitor c, EbpfMonitors c))
    (λ '(w, b, e, f, x, s, r, t, d, m, p), MkConfig w b e f x s r t d m p)). by intros [].
Defined.

Fixpoint to_bits (p : positive) : string :=
  match p with xH => "" | xO p => String "0" (to_bits p) | xI p => String "1" (to_bits p) end.
Fixpoint of_bits (s : string) : positive :=
  match s with EmptyString => xH | String c s => (if Ascii.eqb c "0" then xO else xI) (of_bits s) end.
Lemma of_to_bits p : of_bits (to_bits p) = p.
Proof. induction p; simpl; congruence. Qed.

#[global] Instance bits_yaml : Yaml := {
  encodeNode c := Some (Node OtherNode (to_bits (encode c)) "" []);
  marshalYAML n := Some (node_Value n);
  unmarshalYAML data c0 := match decode (of_bits data) with Some c => (c, true) | None => (c0, false) end }.
#[global] Instance bits_laws : YamlLaws.
Proof.
  intros c n n' data c0 Hc Hn Hm. injection Hc as <-. injection Hm as <-.
  assert (node_Value n' = to_bits (encode c)) as Hv.
  { destruct n' as [k v h l]. by injection Hn. }
  exists c. split; [|done]. simpl. rewrite Hv, of_to_bits, decode_encode. done.
Qed.

(** ** A first run *)
Definition cfg_path : string := "/etc/open-defender/config.yaml".
Definition host_addrs : option (list net_addr) := Some [IPNet (Some [10; 0; 0; 5]); OtherAddr].
Definition first_config : Config := with_ip_whitelist (Some ["10.0.0.5"]) New.
Definition config_text (c : Config) : string := to_bits (encode c).

Lemma files_stat path (w : files) : os_Stat path w = if w !! path is Some _ then StatOk else StatNotExist.
Proof. reflexivity. Qed.
Lemma files_read path (w : files) : os_ReadFile path w = w !! path.
Proof. reflexivity. Qed.

Lemma save_files path c (w : files) : SaveConfig path c w = (<[path := config_text c]> w, Ok tt).
Proof. reflexivity. Qed.

Lemma parse_text c c0 : parse_config (config_text c) c0 = (setFirewallChains c, Ok tt).
Proof.
  unfold parse_config, unmarshalYAML, bits_yaml, config_text. by rewrite of_to_bits, decode_encode.
Qed.

Lemma load_missing addrs ips path c (w : files) :
  w !! path = None → GetLocalIps addrs = Ok ips →
  setFirewallChains (with_ip_whitelist ips c) = with_ip_whitelist ips c →
  LoadConfig addrs path c w =
  (<[path := config_text (with_ip_whitelist ips c)]> (<[path := config_text (with_ip_whitelist ips c)]> w),
   with_ip_whitelist ips c, Ok tt).
Proof.
  intros Hw Hips Hf. unfold LoadConfig, create_config. rewrite files_stat, Hw, Hips, save_files, files_read.
  by rewrite lookup_insert_eq, parse_text, Hf, save_files.
Qed.

Lemma first_load :
  LoadConfig host_addrs cfg_path New (∅ : files) =
  (<[cfg_path := config_text first_config]> (<[cfg_path := config_text first_config]> ∅), first_config, Ok tt).
Proof. exact (load_missing host_addrs (Some ["10.0.0.5"]) cfg_path New ∅ (lookup_empty _) eq_refl eq_refl). Qed.

Lemma LoadConfig_stable_witness :
  ∃ d', LoadConfigReadOnly cfg_path New
          (<[cfg_path := config_text first_config]> (<[cfg_path := config_text first_config]> (∅ : files))) = (d', Ok tt) ∧
        same_config d' first_config.
Proof. apply (LoadConfig_stable host_addrs cfg_path New New ∅ _ first_config). exact first_load. Defined.

Lemma LoadConfig_first_run_witness :
  ∃ ips, GetLocalIps host_addrs = Ok ips ∧ same_config first_config (with_ip_whitelist ips New).
Proof.
  refine (LoadConfig_first_run host_addrs cfg_path (∅ : files) _ first_config _ first_load).
  by rewrite files_stat, lookup_empty.
Defined.
