(* ===== verification/BanPoolNew.v ===== *)
(** * pkg/banpool/service.go: building the ban pool from the configuration

    [New] opens the repository, drops the chain of docker from the configuration when no
    monitor reads docker, and builds the firewall.  It changes the configuration it is
    given, which is part of its result. *)

From S2P Require Import Prelude.
From S2P Require Import GoStrings.
From S2P Require Import Repository.
From S2P Require Import Firewall.
From S2P Require Import FirewallEngines.
From S2P Require Import Config.
From S2P Require Import ConfigValidate.
From S2P Require Import ConfigExamples.

Definition hasDockerEngine (cfg : Config) : bool :=
  existsb (λ monitor, bool_decide (Engine (nm_Fields monitor) = "docker")) (Monitors cfg).

Definition dockerChain (cfg : Config) : string :=
  if bool_decide (FirewallEngine cfg = "nftables") then nftablesForwardBanChain else "DOCKER-USER".

Definition filterDockerChainsWithoutDockerEngine (cfg : Config) : Config :=
  if hasDockerEngine cfg then cfg
  else
    let docker := dockerChain cfg in
    let foundDockerChain := existsb (λ chain, bool_decide (chain = docker)) (items (FirewallChains cfg)) in
    if negb foundDockerChain then cfg
    else
      with_firewall_chains
        (Some (List.filter (λ chain, negb (bool_decide (chain = docker))) (items (FirewallChains cfg)))) cfg.

Section New.
Context {D W : Type} `{SqlDB D} `{Runner W}.

(** [mkdirAll] and [openDB] are the outcomes of [os.MkdirAll] and [sql.Open]. *)
Definition banpool_New (mkdirAll : result sql_err unit) (openDB : result sql_err D) (cfg : Config) (w : W)
    : W * Config * result banpool_err (D * firewall) :=
  match NewRepository mkdirAll openDB with
  | Err err => (w, cfg, Err err)
  | Ok repository =>
      let cfg := filterDockerChainsWithoutDockerEngine cfg in
      let '(w, fw) := NewFirewall (FirewallEngine cfg) [items (FirewallChains cfg)] w in
      match fw with
      | Err err => (w, cfg, Err err)
      | Ok fw => (w, cfg, Ok (repository, fw))
      end
  end.
End New.

Lemma filter_docker_engine cfg :
  FirewallEngine (filterDockerChainsWithoutDockerEngine cfg) = FirewallEngine cfg.
Proof. unfold filterDockerChainsWithoutDockerEngine. by repeat case_match. Qed.

Lemma filter_docker_chains cfg chain :
  chain ∈ items (FirewallChains (filterDockerChainsWithoutDockerEngine cfg)) ↔
  chain ∈ items (FirewallChains cfg) ∧ (hasDockerEngine cfg = true ∨ chain ≠ dockerChain cfg).
Proof.
  unfold filterDockerChainsWithoutDockerEngine. destruct (hasDockerEngine cfg); [naive_solver|].
  destruct (existsb _ _) eqn:He; simpl.
  - rewrite list_elem_of_In, filter_In, <- list_elem_of_In, negb_true_iff, bool_decide_eq_false. naive_solver.
  - split; [|naive_solver]. intros Hc. split; [done|]. right. intros ->.
    assert (existsb (λ c, bool_decide (c = dockerChain cfg)) (items (FirewallChains cfg)) = true); [|congruence].
    apply existsb_exists. exists (dockerChain cfg). by rewrite <- list_elem_of_In, bool_decide_eq_true.
Qed.

Lemma NewFirewall_fields {W} `{Runner W} engine cs (w w' : W) f :
  NewFirewall engine [cs] w = (w', Ok f) →
  f = MkFirewall engine (if bool_decide (cs = []) then ["INPUT"] else cs).
Proof.
  unfold NewFirewall. rewrite (bool_decide_false ([cs] = [])) by done. rewrite andb_false_r.
  destruct (if bool_decide (engine = "nftables") then _ else _) as [w1 [e|]]; [done|].
  destruct (_ && _); [|by intros [= _ <-]].
  destruct (ensureFirewalldDockerPolicy w1) as [w2 [e|]]; by intros [= _ <-].
Qed.

(** A pool [New] returns, over a valid configuration. *)
Lemma banpool_New_spec {RE D W} `{Regexp RE} `{SqlDB D} `{Runner W} Stat mkdir db cfg (w w' : W) cfg' (d : D) f :
  Validate (RE := RE) Stat cfg = [] → banpool_New mkdir db cfg w = (w', cfg', Ok (d, f)) →
  ReadyFirewall f ∧ cfg' = filterDockerChainsWithoutDockerEngine cfg ∧
  f = MkFirewall (FirewallEngine cfg)
        (if bool_decide (items (FirewallChains cfg') = []) then ["INPUT"] else items (FirewallChains cfg')).
Proof.
  intros Hv. unfold banpool_New. destruct (NewRepository mkdir db) as [r|]; [|done].
  destruct (NewFirewall _ _ w) as [w1 [fw|]] eqn:Hf; [|done]. intros [= <- <- <- <-].
  apply NewFirewall_fields in Hf as ->. rewrite filter_docker_engine. split; [|done].
  apply Validate_ok in Hv as [_ Heng _ _ _ _ _ _ _]. unfold validFirewallEngines in Heng.
  split; [|simpl; by case_bool_decide]. rewrite !elem_of_cons, elem_of_nil in Heng. unfold known_engine. simpl. naive_solver.
Qed.

(** The pool of a valid configuration.  When [Validate] finds no problem, a firewall
    that [New] returns meets what the bans rely on: one of the three engines and at least
    one chain.  It manages the chains of the configuration without the chain of docker
    when no monitor reads docker. *)
Theorem banpool_New_ready {RE D W} `{Regexp RE} `{SqlDB D} `{Runner W} Stat mkdir db cfg (w w' : W) cfg' (d : D) f :
  Validate Stat cfg = [] → banpool_New mkdir db cfg w = (w', cfg', Ok (d, f)) →
  ReadyFirewall f ∧ fwEngine f = FirewallEngine cfg ∧
  (items (FirewallChains cfg') ≠ [] → ∀ chain, chain ∈ chains f ↔
     chain ∈ items (FirewallChains cfg) ∧ (hasDockerEngine cfg = true ∨ chain ≠ dockerChain cfg)).
Proof.
  intros Hv Hn. destruct (banpool_New_spec _ _ _ _ _ _ _ _ _ Hv Hn) as (Hready & -> & ->). split; [done|]. split; [done|].
  intros Hne chain. simpl. rewrite bool_decide_false by done. apply filter_docker_chains.
Qed.

(** A configuration that [Validate] accepts and [New] refuses.  Under nftables with the
    forward chain as the only one and no monitor that reads docker, the filter leaves no
    chain, so [NewFirewall] falls back to [INPUT], which it cannot create. *)
Theorem banpool_New_forward_only {D W} `{SqlDB D} `{Runner W} mkdir db cfg (w w1 w2 : W) (d : D) o1 o2 :
  FirewallEngine cfg = "nftables" → items (FirewallChains cfg) = [nftablesForwardBanChain] →
  hasDockerEngine cfg = false → NewRepository mkdir db = Ok d →
  runCommand ["nft"; "list"; "table"; "inet"; "filter"] w = (w1, (o1, true)) →
  runCommand ["nft"; "list"; "chain"; "inet"; "filter"; "INPUT"] w1 = (w2, (o2, false)) →
  ∃ cfg', banpool_New mkdir db cfg w = (w2, cfg', Err (UnsupportedNftablesChain "INPUT")).
Proof.
  intros Heng Hch Hdock Hr Ht Hc. unfold banpool_New, filterDockerChainsWithoutDockerEngine.
  rewrite Hr, Hdock. unfold dockerChain. rewrite Heng, Hch. simpl. rewrite Heng.
  unfold NewFirewall, ensure_table. simpl. rewrite Ht. simpl. unfold ensureNftablesChain. rewrite Hc. simpl. eauto.
Qed.

(** ** Concrete pools *)
Definition auth_log (path : string) : bool := bool_decide (path = "/var/log/auth.log").

Lemma banpool_New_ready_witness :
  ReadyFirewall (MkFirewall "iptables" ["INPUT"]) ∧ "iptables" = FirewallEngine New ∧
  (items (FirewallChains (filterDockerChainsWithoutDockerEngine New)) ≠ [] → ∀ chain, chain ∈ ["INPUT"] ↔
     chain ∈ items (FirewallChains New) ∧ (hasDockerEngine New = true ∨ chain ≠ dockerChain New)).
Proof.
  refine (banpool_New_ready (RE := toy_regexp) auth_log (Ok tt) (Ok (TableDB [] 1 [])) New
            (IptWorld [] []) (IptWorld [] []) _ (TableDB [] 1 []) (MkFirewall "iptables" ["INPUT"]) New_valid _).
  vm_compute. reflexivity.
Defined.

(** An nftables whose only missing chain is [INPUT]. *)
#[local] Instance nft_without_input : Runner unit := λ argv w,
  (w, ("", negb (contains_elem argv "INPUT"))).
Definition forward_only : Config :=
  let c := New in
  MkConfig (IPWhiteList c) (BlockedIPsDatabase c) "nftables" (Some [nftablesForwardBanChain]) (Exporter c)
    (SSHMonitor c) (WebReconMonitor c) (WebBruteMonitor c) (DatabaseMonitor c) (ResourceMonitor c) (EbpfMonitors c).
Lemma forward_only_valid : Validate (RE := toy_regexp) auth_log forward_only = [].
Proof. vm_compute. reflexivity. Qed.

Lemma banpool_New_forward_only_witness :
  Validate (RE := toy_regexp) auth_log forward_only = [] ∧
  ∃ cfg', banpool_New (Ok tt) (Ok (TableDB [] 1 [])) forward_only tt =
          (tt, cfg', Err (UnsupportedNftablesChain "INPUT")).
Proof.
  split; [exact forward_only_valid|].
  apply (banpool_New_forward_only (Ok tt) (Ok (TableDB [] 1 [])) forward_only tt tt tt (TableDB [] 1 []) "" "");
    vm_compute; reflexivity.
Defined.
