(* ===== verification/BanPool.v ===== *)
(** * pkg/banpool/service.go: the ban pool

    A pool is a repository and a firewall.  Its mutex makes [BanIP], [UnbanIP],
    [RestoreBans] and every round of a [waitUnban] goroutine atomic; each is a function
    of the pool, with the instants [time.Now] returned as arguments and the goroutines
    it starts as results.  [BanPoolSystem] puts them together with the clock, the
    context and the running goroutines. *)

From S2P Require Import Prelude.
From S2P Require Import GoStrings.
From S2P Require Import Repository.
From S2P Require Import Firewall.

Definition second : Z := 10 ^ 9.
Definition maxUnbanRetries : Z := 5.
Definition unbanRetryInterval : Z := 60 * second.

(** [time.Duration(banSeconds) * time.Second]: a 64-bit signed product. *)
Definition seconds_duration (s : Z) : Z := wrap_s64 (wrap_s64 s * second).

(** A [context.Context], by the number of the [WithCancel] that made it. *)
Definition context : Type := nat.

(** ** What the monitors see of a pool: [BanIP] and [RestoreBans] take the context of the
    goroutines they start *)
Class BanPool (P : Type) := {
  bp_BanIP : context → Z → string → Z → P → P * (bool * option banpool_err);
  bp_UnbanIP : string → P → P * option banpool_err;
  bp_RestoreBans : context → Z → Z → P → P * option banpool_err }.

Record banPool (R F : Type) := MkPool { repository : R; pool_firewall : F }.
Arguments MkPool {_ _} _ _.
Arguments repository {_ _} _.
Arguments pool_firewall {_ _} _.

Section Service.
Context {R F : Type} `{Repository R} `{Firewall F}.
Abbreviation pool := (banPool R F).

Definition unban (ip : string) (p : pool) : pool * option banpool_err :=
  let '(r, res) := repo_Get ip (repository p) in
  match res with
  | Err ErrBanNotFound => (MkPool r (pool_firewall p), None)
  | Err err => (MkPool r (pool_firewall p), Some err)
  | Ok ban =>
      let '(f, err) := Firewall_Unban ip (pool_firewall p) in
      match err with
      | Some err => (MkPool r f, Some err)
      | None =>
          let '(r, res) := repo_Delete (ID ban) r in
          match res with
          | Err err => (MkPool r f, Some err)
          | Ok _ => (MkPool r f, None)
          end
      end
  end.

Definition UnbanIP (ip : string) (p : pool) : pool * option banpool_err := unban ip p.

Definition extendBan (ban : Ban) (bannedUntil : Z) (p : pool) : pool * option banpool_err :=
  if negb (BannedUntil ban <? bannedUntil) then (p, None)
  else
    let ban := MkBan (ID ban) (IP ban) (BannedAt ban) bannedUntil in
    let '(r, res) := repo_Update ban (repository p) in
    match res with
    | Err err => (MkPool r (pool_firewall p), Some err)
    | Ok _ => (MkPool r (pool_firewall p), None)
    end.

(** The result is the pair the function returns and the ban whose [waitUnban] goroutine
    it started, if any. *)
Definition BanIP (now : Z) (ip : string) (banSeconds : Z) (p : pool)
    : pool * (bool * option banpool_err) * option Ban :=
  let ban := MkBan 0 ip now (now + seconds_duration banSeconds) in
  let '(r, res) := repo_Get ip (repository p) in
  let p := MkPool r (pool_firewall p) in
  match res with
  | Ok current =>
      let '(f, err) := Firewall_Ban ip (pool_firewall p) in
      let p := MkPool (repository p) f in
      match err with
      | Some err => (p, (true, Some err), None)
      | None => let '(p, err) := extendBan current (BannedUntil ban) p in (p, (true, err), None)
      end
  | Err ErrBanNotFound =>
      let '(r, res) := repo_Add ban (repository p) in
      let p := MkPool r (pool_firewall p) in
      match res with
      | Err err => (p, (false, Some err), None)
      | Ok id =>
          let ban := with_id id ban in
          let '(f, err) := Firewall_Ban ip (pool_firewall p) in
          match err with
          | Some err =>
              let '(r, _) := repo_Delete (ID ban) (repository p) in
              (MkPool r f, (false, Some err), None)
          | None => (MkPool (repository p) f, (false, None), Some ban)
          end
      end
  | Err err => (p, (false, Some err), None)
  end.

(** The loop over the expired bans: a failing [unban] is only logged. *)
Fixpoint unban_all (expired : list Ban) (p : pool) : pool :=
  match expired with
  | [] => p
  | ban :: expired' => let '(p, _) := unban (IP ban) p in unban_all expired' p
  end.

(** The loop over the active bans: the goroutines started, in order. *)
Fixpoint reban_all (bans : list Ban) (p : pool) : pool * list Ban :=
  match bans with
  | [] => (p, [])
  | ban :: bans' =>
      let '(f, err) := Firewall_Ban (IP ban) (pool_firewall p) in
      match err with
      | Some _ =>
          let '(r, _) := repo_Delete (ID ban) (repository p) in
          reban_all bans' (MkPool r f)
      | None =>
          let '(p, started) := reban_all bans' (MkPool (repository p) f) in
          (p, ban :: started)
      end
  end.

(** [t1] is the instant [GetExpired] reads, [t2] the one [GetBanned] reads. *)
Definition RestoreBans (t1 t2 : Z) (p : pool) : pool * option banpool_err * list Ban :=
  let '(r, res) := repo_GetExpired t1 (repository p) in
  let p := MkPool r (pool_firewall p) in
  match res with
  | Err err => (p, Some err, [])
  | Ok expired =>
      let p := unban_all expired p in
      let '(r, res) := repo_GetBanned t2 (repository p) in
      let p := MkPool r (pool_firewall p) in
      match res with
      | Err err => (p, Some err, [])
      | Ok bans => let '(p, started) := reban_all bans p in (p, None, started)
      end
  end.

(** ** [waitUnban]

    One pass through the inner loop, from [Lock] to the [return], the [break] or the
    next [waitForContext]. *)
Inductive wait_outcome : Type :=
| Return
| Break (ban : Ban)      (* back to the outer loop, waiting for [ban] *)
| Retry (retries : Z).   (* [waitForContext(ctx, unbanRetryInterval)] *)

Definition waitUnban_round (now : Z) (ban : Ban) (retries : Z) (p : pool) : pool * wait_outcome :=
  let '(r, res) := repo_Get (IP ban) (repository p) in
  let p := MkPool r (pool_firewall p) in
  match res with
  | Err _ => (p, Return)
  | Ok current =>
      if negb (ID current =? ID ban) then (p, Return)
      else if now <? BannedUntil current then (p, Break current)
      else
        let '(p, err) := unban (IP ban) p in
        match err with
        | None => (p, Return)
        | Some _ =>
            if retries =? maxUnbanRetries then (p, Return) else (p, Retry (retries + 1))
        end
  end.

(** Without its goroutines the pool has no use for the context. *)
#[global] Instance pool_ops : BanPool pool := {
  bp_BanIP _ now ip secs p := let '(p, res, _) := BanIP now ip secs p in (p, res);
  bp_UnbanIP := UnbanIP;
  bp_RestoreBans _ t1 t2 p := let '(p, err, _) := RestoreBans t1 t2 p in (p, err) }.
End Service.

(** [waitForContext(ctx, delay)]: what it may return, when [elapsed] has gone by since
    the call and [done] tells whether the context is cancelled.  Once the timer has
    fired Go's [select] may take either ready branch. *)
Inductive waitForContext (delay elapsed : Z) : bool → bool → Prop :=
| wait_nodelay_done : delay <= 0 → waitForContext delay elapsed true false
| wait_nodelay : delay <= 0 → waitForContext delay elapsed false true
| wait_cancelled : 0 < delay → waitForContext delay elapsed true false
| wait_fired (done : bool) : 0 < delay → delay <= elapsed → waitForContext delay elapsed done true.
