(* ===== verification/BanPoolOps.v ===== *)
(** * The operations of the ban pool against their interfaces

    Every operation keeps [pool_inv]: the table is well formed and each address the
    firewall drops has a row, so that a later [UnbanIP] or restart can lift it.  This
    holds whatever statements of the database or commands of the firewall fail. *)

From S2P Require Import Prelude.
From S2P Require Import GoStrings.
From S2P Require Import Repository.
From S2P Require Import Firewall.
From S2P Require Import BanPool.

(** ** Tables *)
Record table_ok (l : list Ban) (next : Z) : Prop := {
  tok_ids : NoDup (map ID l);
  tok_ips : ∀ b1 b2, b1 ∈ l → b2 ∈ l → IP b1 = IP b2 → b1 = b2;
  tok_next : ∀ b, b ∈ l → ID b < next }.

Lemma elem_replace_row b l x :
  x ∈ replace_row b l ↔ (x ∈ l ∧ ID x ≠ ID b) ∨ (x = b ∧ ∃ y, y ∈ l ∧ ID y = ID b).
Proof.
  unfold replace_row. rewrite list_elem_of_In, in_map_iff. split.
  - intros (y & Hy & Hin%list_elem_of_In). destruct (ID y =? ID b) eqn:He; bool_hyps; subst; eauto.
  - intros [[Hin Hne]|[-> (y & Hin & He)]].
    + exists x. rewrite (proj2 (Z.eqb_neq _ _)) by done. by rewrite <- list_elem_of_In.
    + exists y. rewrite (proj2 (Z.eqb_eq _ _)) by done. by rewrite <- list_elem_of_In.
Qed.

Lemma elem_remove_row id l x : x ∈ remove_row id l ↔ x ∈ l ∧ ID x ≠ id.
Proof.
  unfold remove_row. rewrite !list_elem_of_In, filter_In, negb_true_iff, Z.eqb_neq. done.
Qed.

Lemma elem_filter_row (P : Ban → bool) l x : x ∈ List.filter P l ↔ x ∈ l ∧ P x = true.
Proof. by rewrite !list_elem_of_In, filter_In. Qed.

Lemma map_ID_replace_row b l : map ID (replace_row b l) = map ID l.
Proof.
  unfold replace_row. rewrite map_map. apply map_ext. intros x.
  destruct (ID x =? ID b) eqn:He; by bool_hyps.
Qed.

Lemma NoDup_map_filter (P : Ban → bool) l : NoDup (map ID l) → NoDup (map ID (List.filter P l)).
Proof.
  induction l as [|x l IH]; simpl; [done|]. rewrite NoDup_cons. intros [Hx Hnd].
  destruct (P x); simpl; [|auto]. apply NoDup_cons. split; [|auto].
  rewrite !list_elem_of_In, !in_map_iff in *. intros (y & Hy & [Hin _]%filter_In). eauto.
Qed.

Lemma ids_inj l b1 b2 : NoDup (map ID l) → b1 ∈ l → b2 ∈ l → ID b1 = ID b2 → b1 = b2.
Proof.
  induction l as [|x l IH]; simpl; [by intros _ ?%elem_of_nil|].
  rewrite NoDup_cons, list_elem_of_In, in_map_iff. intros [Hx Hnd].
  rewrite !elem_of_cons, !list_elem_of_In. intros [->|H1] [->|H2] He; try done.
  - exfalso. eauto.
  - exfalso. eauto.
  - rewrite <- !list_elem_of_In in *. auto.
Qed.

Lemma table_ok_add l n id b n' :
  table_ok l n → n <= id < n' → (∀ x, x ∈ l → IP x ≠ IP b) → table_ok (l ++ [with_id id b]) n'.
Proof.
  intros [Hids Hips Hn] Hid Hfresh. split.
  - rewrite map_app. apply NoDup_app. split_and!; [done| |apply NoDup_singleton].
    intros x Hx Hin%list_elem_of_singleton. subst x. apply list_elem_of_In, in_map_iff in Hx as (y & Hy & Hin%list_elem_of_In).
    specialize (Hn y Hin). simpl in Hy. lia.
  - intros b1 b2. rewrite !elem_of_app, !list_elem_of_singleton.
    intros [H1| ->] [H2| ->] He; [by apply Hips| | |done].
    + by apply Hfresh in H1.
    + by apply Hfresh in H2.
  - intros x. rewrite elem_of_app, list_elem_of_singleton. intros [Hx| ->]; [|simpl; lia].
    specialize (Hn x Hx). lia.
Qed.

Lemma table_ok_replace l n b :
  table_ok l n → (∀ x, x ∈ l → ID x ≠ ID b → IP x ≠ IP b) → table_ok (replace_row b l) n.
Proof.
  intros [Hids Hips Hn] Hip. split.
  - by rewrite map_ID_replace_row.
  - intros b1 b2. rewrite !elem_replace_row.
    intros [[H1 He1]|[-> _]] [[H2 He2]|[-> _]] He; [by apply Hips| | |done].
    + by apply Hip in H1.
    + by apply Hip in H2.
  - intros x. rewrite elem_replace_row. intros [[Hx _]|[-> (y & Hy & <-)]]; auto.
Qed.

Lemma table_ok_remove l n id : table_ok l n → table_ok (remove_row id l) n.
Proof.
  intros [Hids Hips Hn]. split.
  - by apply NoDup_map_filter.
  - intros b1 b2. rewrite !elem_remove_row. naive_solver.
  - intros x. rewrite elem_remove_row. naive_solver.
Qed.

Lemma table_ok_weaken l n n' : table_ok l n → n <= n' → table_ok l n'.
Proof. intros [? ? Hn] ?. split; [done..|]. intros b Hb. specialize (Hn b Hb). lia. Qed.

Section Ops.
Context {R F : Type} `{RepositorySpec R} `{FirewallSpec F}.
Abbreviation pool := (banPool R F).
Implicit Types p : pool.

Definition rows (p : pool) : list Ban := bans (repository p).
Definition pool_next (p : pool) : Z := next_id (repository p).
Definition block (p : pool) (ip : string) : bool := blocked (pool_firewall p) ip.

(** Every address the firewall drops is a legal one and has its row. *)
Record pool_inv (p : pool) : Prop := {
  pi_table : table_ok (rows p) (pool_next p);
  pi_fw : fw_ok (pool_firewall p);
  pi_rule : ∀ ip, block p ip = true → validateBanIP ip = None ∧ ∃ b, b ∈ rows p ∧ IP b = ip }.

(** What an operation may do to the rows and rules of addresses other than [ip]. *)
Record only_ip (ip : string) (p p' : pool) : Prop := {
  oi_rows : ∀ x, IP x ≠ ip → (x ∈ rows p' ↔ x ∈ rows p);
  oi_block : ∀ i, i ≠ ip → block p' i = block p i;
  oi_next : pool_next p <= pool_next p' }.

Lemma only_ip_refl ip p : only_ip ip p p.
Proof. by split; [..|lia]. Qed.

Lemma only_ip_same ip p p' :
  rows p' = rows p → pool_next p <= pool_next p' → (∀ i, i ≠ ip → block p' i = block p i) →
  only_ip ip p p'.
Proof. intros Hr Hn Hb. split; [intros; by rewrite Hr|done|done]. Qed.

(** ** [unban] *)
Record unban_post (ip : string) (p p' : pool) (err : option banpool_err) : Prop := {
  up_inv : pool_inv p';
  up_only : only_ip ip p p';
  up_next : pool_next p' = pool_next p;
  up_sub : ∀ x, x ∈ rows p' → x ∈ rows p;
  up_block : block p' ip = true → block p ip = true;
  up_done : err = None → (∀ b, b ∈ rows p' → IP b ≠ ip) ∧ block p' ip = false }.

Lemma unban_post_keep ip p r f err :
  pool_inv p → bans r = rows p → next_id r = pool_next p → fw_ok f →
  (∀ i, i ≠ ip → blocked f i = block p i) → (blocked f ip = true → block p ip = true) →
  (err = None → (∀ b, b ∈ rows p → IP b ≠ ip) ∧ blocked f ip = false) →
  unban_post ip p (MkPool r f) err.
Proof.
  intros [Ht Hf Hr] Hrows Hn Hf' Hother Hb Hdone.
  assert (Hb' : ∀ i, blocked f i = true → block p i = true).
  { intros i. destruct (decide (i = ip)) as [->|Hne]; [done|by rewrite Hother]. }
  split; unfold rows, pool_next, block in *; simpl; rewrite ?Hrows; try done.
  - split; unfold rows, pool_next, block; simpl; rewrite ?Hrows, ?Hn; auto.
  - split; unfold rows, pool_next, block; simpl; rewrite ?Hrows, ?Hn; [done|done|lia].
Qed.

Lemma remove_row_ip p ban r :
  table_ok (rows p) (pool_next p) → ban ∈ rows p → bans r = remove_row (ID ban) (rows p) →
  ∀ x, x ∈ bans r ↔ x ∈ rows p ∧ IP x ≠ IP ban.
Proof.
  intros Ht Hban Hr x. rewrite Hr, elem_remove_row.
  split; intros [Hx Hne]; (split; [done|]); intros Heq; apply Hne.
  - f_equal. by apply (tok_ips _ _ Ht).
  - by rewrite (ids_inj (rows p) x ban (tok_ids _ _ Ht)).
Qed.

Lemma unban_post_remove p ban r f err :
  pool_inv p → ban ∈ rows p → bans r = remove_row (ID ban) (rows p) →
  next_id r = pool_next p → fw_ok f →
  (∀ i, i ≠ IP ban → blocked f i = block p i) → blocked f (IP ban) = false →
  unban_post (IP ban) p (MkPool r f) err.
Proof.
  intros [Ht Hf Hr] Hban Hrows Hn Hf' Hother Hb.
  pose proof (remove_row_ip p ban r Ht Hban Hrows) as Hel.
  split; unfold rows, pool_next, block in *; simpl in *; try done.
  - split; unfold rows, pool_next, block; simpl.
    + rewrite Hrows, Hn. by apply table_ok_remove.
    + done.
    + intros i Hi. destruct (decide (i = IP ban)) as [->|Hne]; [congruence|].
      destruct (Hr i) as [? (b & Hb1 & Hb2)]; [by rewrite <- Hother|]. split; [done|].
      exists b. rewrite Hel. split; [|done]. split; [done|congruence].
  - split; unfold rows, pool_next, block; simpl; [|done|lia].
    intros x Hx. rewrite Hel. naive_solver.
  - intros x. rewrite Hel. naive_solver.
  - congruence.
  - intros _. split; [|done]. intros b. rewrite Hel. naive_solver.
Qed.

Lemma unban_spec ip p p' err : pool_inv p → unban ip p = (p', err) → unban_post ip p p' err.
Proof.
  intros Hinv. unfold unban.
  destruct (repo_Get ip (repository p)) as [r res] eqn:Hget.
  apply repo_Get_spec in Hget as (Hrows & Hnext & Hres).
  destruct res as [ban|e].
  - destruct Hres as [Hban <-]. destruct (Firewall_Unban _ _) as [f' ferr] eqn:Hub.
    apply Firewall_Unban_spec in Hub as (Hf' & Hother & Hres); [|apply Hinv].
    destruct ferr as [e|]; [by intros [= <- <-]; apply unban_post_keep|].
    destruct (repo_Delete (ID ban) r) as [r2 res2] eqn:Hdel.
    apply repo_Delete_spec in Hdel as [Hn2 Hr2].
    destruct res2 as [[]|e]; intros [= <- <-].
    + apply unban_post_remove; try done; [by rewrite Hr2, Hrows|by rewrite Hn2].
    + apply unban_post_keep; try done; [by rewrite Hr2|by rewrite Hn2|by rewrite Hres].
  - assert (Hgone : e = ErrBanNotFound → (∀ b, b ∈ rows p → IP b ≠ ip) ∧ block p ip = false).
    { intros ->. split; [done|]. apply not_true_iff_false.
      intros (_ & b & Hb1 & Hb2)%(pi_rule _ Hinv). by apply Hres in Hb1. }
    destruct e; intros [= <- <-]; apply unban_post_keep; try done; try apply Hinv;
      (by intros _; apply Hgone).
Qed.

(** ** [BanIP] *)
Definition same_or_later (x x' : Ban) : Prop :=
  ID x' = ID x ∧ IP x' = IP x ∧ BannedUntil x <= BannedUntil x'.

(** Some deletion of a row fails. *)
Definition delete_fails : Prop := ∃ (r : R) id r' e, repo_Delete id r = (r', Err e).

Record ban_post (now : Z) (ip : string) (secs : Z) (p p' : pool) (already : bool)
    (err : option banpool_err) (started : option Ban) : Prop := {
  bp_inv : pool_inv p';
  bp_only : only_ip ip p p';
  bp_keep : ∀ x, x ∈ rows p → ∃ x', x' ∈ rows p' ∧ same_or_later x x';
  bp_ids : ∀ x, x ∈ rows p' → (∃ y, y ∈ rows p ∧ same_or_later y x) ∨
           pool_next p <= ID x ∧ (started = Some x ∨ delete_fails);
  bp_exact : ∀ x, x ∈ rows p' → x ∈ rows p ∨ BannedUntil x = now + seconds_duration secs;
  bp_block : block p ip = true → block p' ip = true;
  bp_already : already = true → ∃ b, b ∈ rows p ∧ IP b = ip;
  bp_started : match started with
               | Some b => already = false ∧ err = None ∧ rows p' = rows p ++ [b] ∧
                           pool_next p <= ID b ∧ IP b = ip ∧ BannedAt b = now ∧
                           BannedUntil b = now + seconds_duration secs
               | None => already = true ∨ err ≠ None
               end;
  bp_ok : err = None →
          validateBanIP ip = None ∧ block p' ip = true ∧
          ∃ b, b ∈ rows p' ∧ IP b = ip ∧ now + seconds_duration secs <= BannedUntil b }.

Lemma same_or_later_refl x : same_or_later x x.
Proof. repeat split. lia. Qed.

(** The row and rule changes of [BanIP] on an address that has a row already. *)
Lemma pool_inv_block p r f ip :
  pool_inv p → (∃ b, b ∈ rows p ∧ IP b = ip) → fw_ok f → bans r = rows p → next_id r = pool_next p →
  (∀ i, i ≠ ip → blocked f i = block p i) →
  (blocked f ip = true → block p ip = true ∨ validateBanIP ip = None) →
  pool_inv (MkPool r f).
Proof.
  intros [Ht Hf Hr] Hex Hf' Hrows Hn Hother Hb.
  split; unfold rows, pool_next, block in *; simpl in *; rewrite ?Hrows, ?Hn; [done..|].
  intros i Hi. destruct (decide (i = ip)) as [->|Hne].
  - destruct (Hb Hi) as [?|?]; [auto|done].
  - rewrite Hother in Hi by done. auto.
Qed.

Record extend_post (cur : Ban) (until : Z) (p p' : pool) (err : option banpool_err) : Prop := {
  ep_inv : pool_inv p';
  ep_fw : pool_firewall p' = pool_firewall p;
  ep_only : only_ip (IP cur) p p';
  ep_keep : ∀ x, x ∈ rows p → ∃ x', x' ∈ rows p' ∧ same_or_later x x';
  ep_from : ∀ x, x ∈ rows p' → ∃ y, y ∈ rows p ∧ same_or_later y x;
  ep_exact : ∀ x, x ∈ rows p' → x ∈ rows p ∨ BannedUntil x = until;
  ep_until : err = None → ∃ b, b ∈ rows p' ∧ IP b = IP cur ∧ until <= BannedUntil b }.

Lemma extend_post_keep cur until p r err :
  pool_inv p → bans r = rows p → next_id r = pool_next p →
  (err = None → cur ∈ rows p ∧ until <= BannedUntil cur) →
  extend_post cur until p (MkPool r (pool_firewall p)) err.
Proof.
  intros [Ht Hf Hr] Hrows Hn Hu.
  split; unfold rows, pool_next, block in *; simpl in *; rewrite ?Hrows; try done.
  - split; unfold rows, pool_next, block; simpl; rewrite ?Hrows, ?Hn; auto.
  - apply only_ip_same; unfold rows, pool_next; simpl; [done|lia|done].
  - eauto using same_or_later_refl.
  - eauto using same_or_later_refl.
  - auto.
  - intros [? ?]%Hu. eauto.
Qed.

Lemma extend_post_replace cur until p r :
  pool_inv p → cur ∈ rows p → BannedUntil cur < until →
  let cur' := MkBan (ID cur) (IP cur) (BannedAt cur) until in
  (∀ x, x ∈ rows p → ID x ≠ ID cur → IP x ≠ IP cur) →
  bans r = replace_row cur' (rows p) → next_id r = pool_next p →
  extend_post cur until p (MkPool r (pool_firewall p)) None.
Proof.
  intros [Ht Hf Hr] Hcur Hlt cur' Hip Hrows Hn.
  assert (Hel : ∀ x, x ∈ bans r ↔ (x ∈ rows p ∧ ID x ≠ ID cur) ∨ x = cur').
  { intros x. rewrite Hrows, elem_replace_row. simpl. naive_solver. }
  assert (Hcase : ∀ x, x ∈ rows p → x = cur ∨ x ∈ bans r).
  { intros x Hx. destruct (decide (ID x = ID cur)) as [He|He]; [left|right; rewrite Hel; auto].
    exact (ids_inj (rows p) x cur (tok_ids _ _ Ht) Hx Hcur He). }
  assert (Hlater : same_or_later cur cur') by (repeat split; simpl; lia).
  split; unfold rows, pool_next, block in *; simpl in *; try done.
  - split; unfold rows, pool_next, block; simpl.
    + rewrite Hrows, Hn. by apply table_ok_replace.
    + done.
    + intros i Hi. destruct (Hr i Hi) as [? (b & Hb1 & Hb2)]. split; [done|].
      destruct (Hcase b Hb1) as [->|]; [|eauto]. exists cur'. rewrite Hel. auto.
  - split; unfold rows, pool_next, block; simpl; [|done|lia].
    intros x Hx. rewrite Hel. split; [intros [?| ->]; [naive_solver|done]|].
    intros Hx'. destruct (Hcase x Hx') as [->|]; [done|]. by rewrite <- Hel.
  - intros x Hx. destruct (Hcase x Hx) as [->|]; [|eauto using same_or_later_refl].
    exists cur'. rewrite Hel. auto.
  - intros x [[Hx _]| ->]%Hel; [eauto using same_or_later_refl|]. eauto.
  - intros x [[Hx _]| ->]%Hel; auto.
  - intros _. exists cur'. rewrite Hel. split_and!; [by right|done|simpl; lia].
Qed.

Lemma extendBan_spec cur until p p' err :
  pool_inv p → cur ∈ rows p → extendBan cur until p = (p', err) → extend_post cur until p p' err.
Proof.
  intros Hinv Hcur. unfold extendBan.
  destruct (BannedUntil cur <? until) eqn:Hlt; bool_hyps; simpl.
  - destruct (repo_Update _ (repository p)) as [r res] eqn:Hup.
    apply repo_Update_spec in Hup as [Hn Hres]. destruct res as [[]|e]; intros [= <- <-].
    + destruct Hres as (_ & Hip & Hrows). by apply extend_post_replace.
    + by apply extend_post_keep.
  - intros [= <- <-]. destruct p as [r f]. by apply (extend_post_keep cur until (MkPool r f)).
Qed.

Lemma block_same p ip : pool_inv p → (∀ b, b ∈ rows p → IP b ≠ ip) → block p ip = false.
Proof.
  intros Hinv Hno. apply not_true_iff_false. intros (_ & b & Hb & Hip)%(pi_rule _ Hinv).
  by apply Hno in Hb.
Qed.

(** A failing [BanIP] that leaves the rows alone. *)
Lemma ban_post_keep now ip secs p r f already e :
  pool_inv p → bans r = rows p → pool_next p <= next_id r → fw_ok f →
  (∀ i, blocked f i = block p i) → (already = true → ∃ b, b ∈ rows p ∧ IP b = ip) →
  ban_post now ip secs p (MkPool r f) already (Some e) None.
Proof.
  intros [Ht Hf Hr] Hrows Hn Hf' Hb Ha.
  split; unfold rows, pool_next, block in *; simpl in *; rewrite ?Hrows, ?Hb; try done.
  - split; unfold rows, pool_next, block; simpl; rewrite ?Hrows; [by eapply table_ok_weaken|done|].
    intros i. rewrite Hb. apply Hr.
  - apply only_ip_same; unfold rows, pool_next, block; simpl; auto.
  - eauto using same_or_later_refl.
  - intros x Hx. left. eauto using same_or_later_refl.
  - auto.
  - by right.
Qed.

(** [BanIP] on an address with a row, once the firewall took the rule. *)
Lemma ban_post_extend now ip secs p cur r f p' err :
  pool_inv p → cur ∈ rows p → IP cur = ip → bans r = rows p → next_id r = pool_next p → fw_ok f →
  (∀ i, i ≠ ip → blocked f i = block p i) → validateBanIP ip = None → blocked f ip = true →
  extendBan cur (now + seconds_duration secs) (MkPool r f) = (p', err) →
  ban_post now ip secs p p' true err None.
Proof.
  intros Hinv Hcur <- Hrows Hn Hf' Hother Hv Hb Hext.
  assert (Hinv2 : pool_inv (MkPool r f)) by (apply (pool_inv_block p r f (IP cur)); eauto).
  apply extendBan_spec in Hext as [Hinv' Hfw [Hor Hob Hon] Hkeep Hfrom Hexact Hun];
    [|done|unfold rows; simpl; by rewrite Hrows].
  unfold rows, pool_next, block in *; simpl in *. rewrite Hrows in *.
  split; unfold rows, pool_next, block; rewrite ?Hfw; simpl; try done.
  - split; unfold rows, pool_next, block; [done|by intros i Hi; rewrite Hfw; apply Hother|lia].
  - auto.
  - eauto.
  - by left.
  - intros Herr. destruct (Hun Herr) as (b & ? & ? & ?). eauto 6.
Qed.

(** [BanIP] on a fresh address: the row is added; the rule is set or refused. *)
Lemma ban_post_started now ip secs p r f id n :
  let b := MkBan id ip now (now + seconds_duration secs) in
  pool_inv p → (∀ x, x ∈ rows p → IP x ≠ ip) → pool_next p <= id < n →
  bans r = rows p ++ [b] → next_id r = n → fw_ok f →
  (∀ i, i ≠ ip → blocked f i = block p i) → validateBanIP ip = None → blocked f ip = true →
  ban_post now ip secs p (MkPool r f) false None (Some b).
Proof.
  intros b [Ht Hf Hr] Hfresh Hid Hrows Hn Hf' Hother Hv Hb.
  assert (Hel : ∀ x, x ∈ bans r ↔ x ∈ rows p ∨ x = b).
  { intros x. by rewrite Hrows, elem_of_app, list_elem_of_singleton. }
  split; unfold rows, pool_next, block in *; simpl in *; try done.
  - split; unfold rows, pool_next, block; simpl; [|done|].
    + rewrite Hrows, Hn. by apply (table_ok_add _ (pool_next p) _ (MkBan 0 ip now _)).
    + intros i Hi. destruct (decide (i = ip)) as [->|Hne]; [split; [done|]; exists b; rewrite Hel; auto|].
      rewrite Hother in Hi by done. destruct (Hr i Hi) as [? (x & ? & ?)]. split; [done|].
      exists x. rewrite Hel. auto.
  - split; unfold rows, pool_next, block; simpl; [|done|unfold pool_next in *; lia].
    intros x Hx. rewrite Hel. split; [intros [?| ->]; done|by left].
  - intros x Hx. exists x. rewrite Hel. auto using same_or_later_refl.
  - intros x [Hx| ->]%Hel; [left; eauto using same_or_later_refl|right]. split; [apply Hid|by left].
  - intros x [Hx| ->]%Hel; auto.
  - split_and!; try done. apply Hid.
  - intros _. split_and!; try done. exists b. rewrite Hel. split_and!; [by right|done|simpl; lia].
Qed.

Lemma ban_post_refused now ip secs p r f id e :
  let b := MkBan id ip now (now + seconds_duration secs) in
  pool_inv p → (∀ x, x ∈ rows p → IP x ≠ ip) → pool_next p <= id < next_id r →
  (bans r = rows p ++ [b] ∧ delete_fails) ∨ bans r = remove_row id (rows p ++ [b]) → fw_ok f →
  (∀ i, blocked f i = block p i) →
  ban_post now ip secs p (MkPool r f) false (Some e) None.
Proof.
  intros b Hinv Hfresh Hid Hrows Hf' Hother. pose proof Hinv as [Ht Hf Hr].
  pose proof (table_ok_add _ _ id (MkBan 0 ip now (now + seconds_duration secs)) _ Ht Hid Hfresh) as Htadd.
  assert (Hel : (∀ x, x ∈ rows p → x ∈ bans r) ∧ (∀ x, x ∈ bans r → x ∈ rows p ∨ x = b ∧ delete_fails)).
  { assert (Hids : ∀ x, x ∈ rows p → ID x ≠ id) by (intros x Hx; pose proof (tok_next _ _ Ht x Hx); lia).
    destruct Hrows as [[-> ?] | ->]; (split; intros x;
      rewrite ?elem_remove_row, elem_of_app, list_elem_of_singleton; [naive_solver|naive_solver]). }
  destruct Hel as [Hel1 Hel2].
  split; unfold rows, pool_next, block in *; simpl in *; rewrite ?Hother; try done.
  - split; unfold rows, pool_next, block; simpl; [|done|].
    + destruct Hrows as [[-> _] | ->]; [done|by apply table_ok_remove].
    + intros i. rewrite Hother. intros Hi. destruct (Hr i Hi) as [? (x & ? & ?)]. eauto.
  - split; unfold rows, pool_next, block; simpl; [|auto|lia].
    intros x Hx. split; [intros [?|[-> _]]%Hel2; done|apply Hel1].
  - eauto using same_or_later_refl.
  - intros x [Hx|[-> ?]]%Hel2; [left; eauto using same_or_later_refl|right]. split; [apply Hid|by right].
  - intros x [Hx|[-> ?]]%Hel2; auto.
  - by right.
Qed.

Lemma BanIP_spec now ip secs p p' already err started :
  pool_inv p → BanIP now ip secs p = (p', (already, err), started) →
  ban_post now ip secs p p' already err started.
Proof.
  intros Hinv. unfold BanIP.
  destruct (repo_Get ip (repository p)) as [r res] eqn:Hget.
  apply repo_Get_spec in Hget as (Hrows & Hnext & Hres). simpl.
  destruct res as [cur|e].
  - destruct Hres as [Hcur Hip]. destruct (Firewall_Ban ip _) as [f ferr] eqn:Hban.
    apply Firewall_Ban_spec in Hban as (Hf & Hother & Hfe); [|apply Hinv].
    destruct ferr as [e|].
    + intros [= <- <- <- <-]. apply ban_post_keep; try done; [unfold pool_next; lia| |eauto].
      intros i. destruct (decide (i = ip)) as [->|]; [apply Hfe|by apply Hother].
    + destruct (extendBan _ _ _) as [p2 err2] eqn:Hext. intros [= <- <- <- <-].
      destruct Hfe as [Hv Hb]. by eapply ban_post_extend.
  - assert (He : e ≠ ErrBanNotFound → ban_post now ip secs p (MkPool r (pool_firewall p)) false (Some e) None).
    { intros _. apply ban_post_keep; try done; [unfold pool_next; lia|apply Hinv]. }
    destruct e; try (intros [= <- <- <- <-]; by apply He). clear He.
    destruct (repo_Add _ r) as [r2 res2] eqn:Hadd. apply repo_Add_spec in Hadd.
    rewrite Hrows, Hnext in Hadd. destruct res2 as [id|e].
    2: { intros [= <- <- <- <-]. destruct Hadd. apply ban_post_keep; try done. apply Hinv. }
    destruct Hadd as (Hid & _ & Hr2). destruct (Firewall_Ban ip _) as [f ferr] eqn:Hban.
    apply Firewall_Ban_spec in Hban as (Hf & Hother & Hfe); [|apply Hinv].
    destruct ferr as [e|].
    + destruct (repo_Delete _ r2) as [r3 res3] eqn:Hdel. intros [= <- <- <- <-].
      pose proof (repo_Delete_spec _ _ _ _ Hdel) as [Hn3 Hr3].
      apply (ban_post_refused now ip secs p r3 f id); try done; [by rewrite Hn3| |].
      * rewrite Hr2 in Hr3. destruct res3; [by right|]. left. split; [done|]. by repeat eexists.
      * intros i. destruct (decide (i = ip)) as [->|]; [apply Hfe|by apply Hother].
    + intros [= <- <- <- <-]. destruct Hfe as [Hv Hb]. by eapply ban_post_started.
Qed.

(** ** [RestoreBans] *)
Record unban_all_post (l : list Ban) (p p' : pool) : Prop := {
  ua_inv : pool_inv p';
  ua_next : pool_next p' = pool_next p;
  ua_sub : ∀ x, x ∈ rows p' → x ∈ rows p;
  ua_block : ∀ i, block p' i = true → block p i = true;
  ua_keep : ∀ x, x ∈ rows p → (∀ e, e ∈ l → IP e ≠ IP x) → x ∈ rows p' ∧ block p' (IP x) = block p (IP x) }.

Lemma unban_all_spec l p : pool_inv p → unban_all_post l p (unban_all l p).
Proof.
  revert p.
  induction l as [|ban l IH]; intros p Hinv; simpl; [by split|].
  destruct (unban (IP ban) p) as [p1 err] eqn:Hu.
  apply unban_spec in Hu as [Hinv1 [Hor Hob Hon] Hn1 Hs1 Hb1 _]; [|done].
  destruct (IH p1 Hinv1) as [Hinv2 Hn2 Hs2 Hb2 Hk2]. split.
  - done.
  - congruence.
  - auto.
  - intros i Hi%Hb2. destruct (decide (i = IP ban)) as [->|]; [auto|by rewrite <- Hob].
  - intros x Hx Hne. assert (Hxb : IP x ≠ IP ban) by (apply not_eq_sym, Hne; set_solver).
    destruct (Hk2 x) as [Hk3 Hk4]; [by apply Hor|intros e He; apply Hne; set_solver|].
    split; [done|]. by rewrite Hk4, Hob.
Qed.

Record reban_all_post (l : list Ban) (p p' : pool) (started : list Ban) : Prop := {
  ra_inv : pool_inv p';
  ra_next : pool_next p' = pool_next p;
  ra_sub : ∀ x, x ∈ rows p' → x ∈ rows p;
  ra_keep : ∀ x, x ∈ rows p → x ∉ l → x ∈ rows p';
  ra_block : ∀ i, block p i = true → block p' i = true;
  ra_from : ∀ x, x ∈ started → x ∈ l;
  ra_started : ∀ x, x ∈ started → x ∈ rows p' ∧ block p' (IP x) = true;
  ra_dropped : ∀ x, x ∈ l → x ∈ rows p' → x ∈ started ∨ delete_fails }.

Lemma fw_ban_pool ip p f err :
  pool_inv p → (∃ b, b ∈ rows p ∧ IP b = ip) → Firewall_Ban ip (pool_firewall p) = (f, err) →
  pool_inv (MkPool (repository p) f) ∧ (∀ i, block p i = true → blocked f i = true) ∧
  (err = None → blocked f ip = true) ∧ (∀ e, err = Some e → ∀ i, blocked f i = block p i) ∧
  (∀ e, err = Some e → blocked f ip = false).
Proof.
  intros Hinv Hex Hban. apply Firewall_Ban_spec in Hban as (Hf & Hother & Hres); [|apply Hinv].
  assert (Hsame : ∀ e, err = Some e → ∀ i, blocked f i = block p i).
  { intros e -> i. destruct (decide (i = ip)) as [->|]; [apply Hres|by apply Hother]. }
  split_and!.
  - apply (pool_inv_block p _ _ ip); try done. intros Hb. destruct err; [left|by right; apply Hres].
    by rewrite <- (Hsame _ eq_refl).
  - intros i Hi. destruct err; [by rewrite (Hsame _ eq_refl)|].
    destruct (decide (i = ip)) as [->|]; [apply Hres|by rewrite Hother].
  - intros ->. apply Hres.
  - done.
  - intros e ->. rewrite (Hsame _ eq_refl). apply not_true_iff_false. intros Hb.
    destruct (pi_rule _ Hinv _ Hb) as [Hv _]. destruct Hres as (_ & Hno & _).
    specialize (Hno Hv). unfold block in Hb. congruence.
Qed.

(** Dropping a row whose address is not blocked. *)
Lemma delete_pool_inv ban p r res :
  pool_inv p → block p (IP ban) = false → ban ∈ rows p → repo_Delete (ID ban) (repository p) = (r, res) →
  pool_inv (MkPool r (pool_firewall p)) ∧ next_id r = pool_next p ∧
  (∀ x, x ∈ bans r → x ∈ rows p) ∧ (∀ x, x ∈ rows p → x ≠ ban → x ∈ bans r) ∧
  (is_ok res = true → ban ∉ bans r).
Proof.
  intros [Ht Hf Hr] Hb Hban Hdel. apply repo_Delete_spec in Hdel as [Hn Hres].
  assert (Hrows : bans r = rows p ∨ bans r = remove_row (ID ban) (rows p)) by (destruct res; auto).
  assert (Hkeep : ∀ x, x ∈ rows p → x ≠ ban → x ∈ bans r).
  { intros x Hx Hne. destruct Hrows as [-> | ->]; [done|]. rewrite elem_remove_row. split; [done|].
    intros He. apply Hne. exact (ids_inj (rows p) x ban (tok_ids _ _ Ht) Hx Hban He). }
  split_and!.
  - split; unfold rows, pool_next, block in *; simpl; [|done|].
    + rewrite Hn. destruct Hrows as [-> | ->]; [done|by apply table_ok_remove].
    + intros i Hi. destruct (Hr i Hi) as [? (b & Hb1 & Hb2)]. split; [done|].
      exists b. split; [|done]. apply Hkeep; [done|]. intros ->. congruence.
  - done.
  - intros x. destruct Hrows as [-> | ->]; [done|]. rewrite elem_remove_row. naive_solver.
  - done.
  - destruct res; [|done]. intros _. rewrite Hres, elem_remove_row. naive_solver.
Qed.

Lemma reban_all_spec l p p' started :
  pool_inv p → NoDup l → (∀ x, x ∈ l → x ∈ rows p) → reban_all l p = (p', started) →
  reban_all_post l p p' started.
Proof.
  revert p p' started. induction l as [|ban l IH]; intros p p' started Hinv Hnd Hl; simpl.
  { intros [= <- <-]. split; try done; intros x Hx; by apply elem_of_nil in Hx. }
  apply NoDup_cons in Hnd as [Hban Hnd].
  assert (Hbr : ban ∈ rows p) by (apply Hl; set_solver).
  destruct (Firewall_Ban (IP ban) _) as [f err] eqn:Hb.
  apply fw_ban_pool in Hb as (Hinv1 & Hmono & Hok & Hsame & Hno); [|done|by exists ban].
  destruct err as [e|].
  - destruct (repo_Delete (ID ban) (repository p)) as [r res] eqn:Hdel.
    assert (Hdel' : repo_Delete (ID ban) (repository (MkPool (repository p) f)) = (r, res)) by done.
    apply delete_pool_inv in Hdel' as (Hinv2 & Hn2 & Hs2 & Hk2 & Hg2); [|done|by eapply Hno|done].
    simpl in *. intros Hr. apply IH in Hr as [Hi Hn Hs Hk Hbl Hf Hst Hd]; [|done|done|].
    2: { intros x Hx. apply Hk2; [apply Hl; set_solver|]. by intros ->. }
    split; try done.
    + by rewrite Hn.
    + intros x Hx. apply Hs2. by apply Hs.
    + intros x Hx Hxl. apply Hk; [apply Hk2; set_solver|set_solver].
    + intros i Hi'. apply Hbl. by apply Hmono.
    + set_solver.
    + intros x [->|Hx]%elem_of_cons Hx'; [|by apply Hd]. right.
      destruct res as [u|e']; [|by repeat eexists]. by destruct (Hg2 eq_refl); apply Hs.
  - destruct (reban_all l _) as [p2 st] eqn:Hr. intros [= <- <-].
    apply IH in Hr as [Hi Hn Hs Hk Hbl Hf Hst Hd]; [|done|done|intros x Hx; apply Hl; set_solver].
    split; try done.
    + intros x Hx Hxl. apply Hk; [done|set_solver].
    + intros i Hi'. apply Hbl. by apply Hmono.
    + set_solver.
    + intros x [->|Hx]%elem_of_cons; [|by apply Hst]. split; [by apply Hk|]. apply Hbl. by apply Hok.
    + intros x [->|Hx]%elem_of_cons Hx'; [left; set_solver|]. destruct (Hd x Hx Hx'); set_solver.
Qed.

Record restore_post (t1 t2 : Z) (p p' : pool) (err : option banpool_err) (started : list Ban) : Prop := {
  rp_inv : pool_inv p';
  rp_next : pool_next p' = pool_next p;
  rp_sub : ∀ x, x ∈ rows p' → x ∈ rows p;
  rp_started : ∀ x, x ∈ started → x ∈ rows p' ∧ block p' (IP x) = true ∧ t2 < BannedUntil x;
  rp_err : err = None ∨ started = [];
  rp_covered : err = None → ∀ x, x ∈ rows p' → t2 < BannedUntil x →
               x ∈ started ∨ delete_fails }.

Lemma pool_same_rows p r : pool_inv p → bans r = rows p → next_id r = pool_next p →
  pool_inv (MkPool r (pool_firewall p)).
Proof.
  intros [Ht Hf Hr] Hrows Hn. split; unfold rows, pool_next, block; simpl; by rewrite ?Hrows, ?Hn.
Qed.

Lemma RestoreBans_spec t1 t2 p p' err started :
  pool_inv p → RestoreBans t1 t2 p = (p', err, started) → restore_post t1 t2 p p' err started.
Proof.
  intros Hinv. unfold RestoreBans.
  destruct (repo_GetExpired t1 (repository p)) as [r1 res1] eqn:H1e.
  apply repo_GetExpired_spec in H1e as (Hr1 & Hn1 & Hl1).
  pose proof (pool_same_rows p r1 Hinv Hr1 Hn1) as Hinv1.
  destruct res1 as [expired|e].
  2: { intros [= <- <- <-]. split; try done; unfold rows; simpl; rewrite ?Hr1; auto;
         intros x Hx; by apply elem_of_nil in Hx. }
  pose proof (unban_all_spec expired _ Hinv1) as [Hinv2 Hn2 Hs2 Hb2 Hk2].
  set (p2 := unban_all expired _) in *.
  destruct (repo_GetBanned t2 (repository p2)) as [r3 res3] eqn:H3e.
  apply repo_GetBanned_spec in H3e as (Hr3 & Hn3 & Hl3).
  pose proof (pool_same_rows p2 r3 Hinv2 Hr3 Hn3) as Hinv3.
  assert (Hsub : ∀ x, x ∈ rows (MkPool r3 (pool_firewall p2)) → x ∈ rows p).
  { intros x. unfold rows at 1. simpl. rewrite Hr3. intros Hx%Hs2. unfold rows in Hx. simpl in Hx.
    by rewrite Hr1 in Hx. }
  assert (Hnext : pool_next (MkPool r3 (pool_firewall p2)) = pool_next p).
  { unfold pool_next in *. simpl in *. by rewrite Hn3, Hn2, Hn1. }
  destruct res3 as [l|e].
  2: { intros [= <- <- <-]. split; try done; [|by right]. intros x Hx. by apply elem_of_nil in Hx. }
  destruct (reban_all l _) as [p4 st] eqn:Hra. intros [= <- <- <-].
  assert (Hel : ∀ x, x ∈ l ↔ x ∈ rows (MkPool r3 (pool_firewall p2)) ∧ t2 < BannedUntil x).
  { intros x. rewrite Hl3, elem_filter_row, Z.ltb_lt. unfold rows. simpl. by rewrite Hr3. }
  apply reban_all_spec in Hra as [Hi Hn Hs Hk Hbl Hf Hst Hd]; [|done| |].
  - split; [done|by rewrite Hn|auto| |by left|].
    + intros x Hx. destruct (Hst x Hx). split_and!; [done|done|]. by apply Hel, Hf.
    + intros _ x Hx Hlt. apply Hd; [|done]. apply Hel. auto.
  - rewrite Hl3. apply (NoDup_fmap_1 ID). apply NoDup_map_filter.
    apply (tok_ids _ _ (pi_table _ Hinv2)).
  - intros x Hx. by apply Hel.
Qed.

(** ** One round of [waitUnban] *)
Record round_post (now : Z) (ban : Ban) (retries : Z) (p p' : pool) (out : wait_outcome) : Prop := {
  ro_inv : pool_inv p';
  ro_only : only_ip (IP ban) p p';
  ro_next : pool_next p' = pool_next p;
  ro_sub : ∀ x, x ∈ rows p' → x ∈ rows p;
  ro_block : ∀ i, block p' i = true → block p i = true;
  ro_due : (∀ x, x ∈ rows p ↔ x ∈ rows p') ∧ (∀ i, block p' i = block p i) ∨
           ∃ x, x ∈ rows p ∧ IP x = IP ban ∧ ID x = ID ban ∧ BannedUntil x <= now;
  ro_out : match out with
           | Return => True
           | Break cur => cur ∈ rows p' ∧ ID cur = ID ban ∧ IP cur = IP ban ∧ now < BannedUntil cur
           | Retry n => retries ≠ maxUnbanRetries ∧ n = retries + 1
           end }.

Lemma waitUnban_round_spec now ban retries p p' out :
  pool_inv p → waitUnban_round now ban retries p = (p', out) → round_post now ban retries p p' out.
Proof.
  intros Hinv. unfold waitUnban_round.
  destruct (repo_Get (IP ban) (repository p)) as [r res] eqn:Hget.
  apply repo_Get_spec in Hget as (Hrows & Hnext & Hres).
  pose proof (pool_same_rows p r Hinv Hrows Hnext) as Hinv1.
  assert (Hr1 : rows (MkPool r (pool_firewall p)) = rows p) by done.
  set (p1 := MkPool r (pool_firewall p)) in *.
  assert (Hn1 : pool_next p1 = pool_next p) by done.
  assert (Hb1 : ∀ i, block p1 i = block p i) by done. clearbody p1.
  assert (Hkeep : ∀ o, match o with
      | Return => True | Retry _ => False
      | Break cur => cur ∈ rows p ∧ ID cur = ID ban ∧ IP cur = IP ban ∧ now < BannedUntil cur end →
      round_post now ban retries p p1 o).
  { intros o Ho. split; rewrite ?Hr1; try done; [apply only_ip_same; [done|lia|auto]|..].
    - intros i. by rewrite Hb1.
    - by left.
    - by destruct o. }
  destruct res as [cur|e]; [|by intros [= <- <-]; apply Hkeep].
  destruct Hres as [Hcur Hip]. destruct (ID cur =? ID ban) eqn:Hid; bool_hyps; simpl;
    [|by intros [= <- <-]; apply Hkeep].
  destruct (now <? BannedUntil cur) eqn:Hlt; bool_hyps; [by intros [= <- <-]; apply Hkeep|].
  destruct (unban (IP ban) p1) as [p2 err] eqn:Hub.
  apply unban_spec in Hub as [Hi [Hor Hob Hon] Hn Hs Hb Hd]; [|done].
  rewrite Hr1 in Hs, Hor. intros Hout. assert (Hp : p' = p2).
  { destruct err; [destruct (_ =? _)|]; by injection Hout. }
  subst p'. split.
  - done.
  - split; [done|intros i Hne; by rewrite Hob, Hb1|lia].
  - lia.
  - done.
  - intros i. destruct (decide (i = IP ban)) as [->|]; [rewrite <- Hb1; auto|by rewrite Hob, Hb1].
  - right. eauto.
  - destruct err as [e|]; [|by injection Hout as <-].
    destruct (retries =? maxUnbanRetries) eqn:Hm; bool_hyps; by injection Hout as <-.
Qed.
End Ops.
