(* ===== verification/BanPoolSystem.v ===== *)
(** * The ban pool at work: clock, context, goroutines

    A step relation over the pool, the clock, the state of the current context and the
    [waitUnban] goroutines.  Each critical section of the pool's mutex is one step;
    anything may happen between two of them.  Time only passes in [EvTick] and between
    the two reads of the clock of [RestoreBans]. *)

From S2P Require Import Prelude.
From S2P Require Import GoStrings.
From S2P Require Import Repository.
From S2P Require Import Firewall.
From S2P Require Import BanPool.
From S2P Require Import BanPoolOps.

(** Where a goroutine stands: at the head of the outer loop, inside [waitForContext]
    since some instant, or past it, about to lock the mutex. *)
Inductive phase : Type :=
| PStart
| PWaiting (since delay : Z)
| PReady.

Record goroutine := Goroutine {
  g_ban : Ban; g_retries : Z; g_phase : phase; g_cancelled : bool }.

Record sys (R F : Type) := Sys {
  now : Z; cancelled : bool; spool : banPool R F; gos : list goroutine }.
Arguments Sys {_ _} _ _ _ _.
Arguments now {_ _} _.
Arguments cancelled {_ _} _.
Arguments spool {_ _} _.
Arguments gos {_ _} _.

Inductive event : Type :=
| EvTick
| EvBan (ip : string) (banSeconds : Z) (already : bool) (err : option banpool_err)
| EvUnban (ip : string) (err : option banpool_err)
| EvRestore (t2 : Z) (err : option banpool_err)
| EvStart (ban : Ban)
| EvWait (ban : Ban) (result : bool)
| EvRound (ban : Ban) (out : wait_outcome)
| EvCancel
| EvNewContext.

(** [go bp.waitUnban(ctx, ban)]. *)
Definition spawn (done : bool) (ban : Ban) : goroutine := Goroutine ban 0 PStart done.

(** The goroutine after a round: gone, or waiting again. *)
Definition after_round (t : Z) (g : goroutine) (out : wait_outcome) : list goroutine :=
  match out with
  | Return => []
  | Break ban => [Goroutine ban (g_retries g) PStart (g_cancelled g)]
  | Retry n => [Goroutine (g_ban g) n (PWaiting t unbanRetryInterval) (g_cancelled g)]
  end.

Definition cancel (g : goroutine) : goroutine :=
  Goroutine (g_ban g) (g_retries g) (g_phase g) true.

Section System.
Context {R F : Type} `{Repository R} `{Firewall F}.
Abbreviation system := (sys R F).

Inductive step : system → event → system → Prop :=
| step_tick s t :
    now s <= t → step s EvTick (Sys t (cancelled s) (spool s) (gos s))
| step_ban s ip secs p' already err started :
    BanIP (now s) ip secs (spool s) = (p', (already, err), started) →
    step s (EvBan ip secs already err)
      (Sys (now s) (cancelled s) p'
         (gos s ++ match started with Some b => [spawn (cancelled s) b] | None => [] end))
| step_unban s ip p' err :
    UnbanIP ip (spool s) = (p', err) →
    step s (EvUnban ip err) (Sys (now s) (cancelled s) p' (gos s))
| step_restore s t2 p' err started :
    now s <= t2 → RestoreBans (now s) t2 (spool s) = (p', err, started) →
    step s (EvRestore t2 err)
      (Sys t2 (cancelled s) p' (gos s ++ map (spawn (cancelled s)) started))
| step_start s gs1 gs2 g :
    gos s = gs1 ++ g :: gs2 → g_phase g = PStart →
    step s (EvStart (g_ban g))
      (Sys (now s) (cancelled s) (spool s)
         (gs1 ++ Goroutine (g_ban g) (g_retries g)
                   (PWaiting (now s) (BannedUntil (g_ban g) - now s)) (g_cancelled g) :: gs2))
| step_wait s gs1 gs2 g since delay b :
    gos s = gs1 ++ g :: gs2 → g_phase g = PWaiting since delay →
    waitForContext delay (now s - since) (g_cancelled g) b →
    step s (EvWait (g_ban g) b)
      (Sys (now s) (cancelled s) (spool s)
         (gs1 ++ (if b then [Goroutine (g_ban g) (g_retries g) PReady (g_cancelled g)] else []) ++ gs2))
| step_round s gs1 gs2 g p' out :
    gos s = gs1 ++ g :: gs2 → g_phase g = PReady →
    waitUnban_round (now s) (g_ban g) (g_retries g) (spool s) = (p', out) →
    step s (EvRound (g_ban g) out)
      (Sys (now s) (cancelled s) p' (gs1 ++ after_round (now s) g out ++ gs2))
| step_cancel s :
    step s EvCancel (Sys (now s) true (spool s) (map cancel (gos s)))
| step_newctx s :
    cancelled s = true → step s EvNewContext (Sys (now s) false (spool s) (gos s)).

Inductive steps : system → list event → system → Prop :=
| steps_nil s : steps s [] s
| steps_cons s1 e s2 es s3 : step s1 e s2 → steps s2 es s3 → steps s1 (e :: es) s3.

Lemma steps_one s1 e s2 : step s1 e s2 → steps s1 [e] s2.
Proof. intros. econstructor; [done|constructor]. Qed.
Lemma steps_app s1 es1 s2 es2 s3 : steps s1 es1 s2 → steps s2 es2 s3 → steps s1 (es1 ++ es2) s3.
Proof. induction 1; simpl; [done|]. intros. econstructor; eauto. Qed.
End System.

Section Invariant.
Context {R F : Type} `{RepositorySpec R} `{FirewallSpec F}.
Abbreviation system := (sys R F).

(** What every goroutine knows of the table. *)
Record go_ok (p : banPool R F) (g : goroutine) : Prop := {
  go_id : ID (g_ban g) < pool_next p;
  go_ip : ∀ x, x ∈ rows p → ID x = ID (g_ban g) → IP x = IP (g_ban g);
  go_retries : 0 <= g_retries g <= maxUnbanRetries }.

Record sys_inv (s : system) : Prop := {
  si_pool : pool_inv (spool s);
  si_gos : ∀ g, g ∈ gos s → go_ok (spool s) g }.

(** The table may grow by fresh ids and keep, lose or prolong rows. *)
Definition rows_from (p p' : banPool R F) : Prop :=
  pool_next p <= pool_next p' ∧
  ∀ x, x ∈ rows p' → (∃ y, y ∈ rows p ∧ same_or_later y x) ∨ pool_next p <= ID x.

Lemma go_ok_mono p p' g : rows_from p p' → go_ok p g → go_ok p' g.
Proof.
  intros [Hn Hr] [Hid Hip Hret]. split; [lia| |done].
  intros x Hx He. destruct (Hr x Hx) as [(y & Hy & Hy1 & Hy2 & _)|Hge]; [|lia].
  rewrite Hy2. apply Hip; [done|congruence].
Qed.

Lemma rows_from_sub p p' :
  pool_next p' = pool_next p → (∀ x, x ∈ rows p' → x ∈ rows p) → rows_from p p'.
Proof. intros Hn Hs. split; [lia|]. intros x Hx%Hs. left. eauto using same_or_later_refl. Qed.

(** A goroutine started for a row of the table. *)
Lemma go_ok_spawn p done b : pool_inv p → b ∈ rows p → go_ok p (spawn done b).
Proof.
  intros [Ht _ _] Hb. split; simpl; [by apply (tok_next _ _ Ht)| |done].
  intros x Hx He. by rewrite (ids_inj (rows p) x b (tok_ids _ _ Ht)).
Qed.

Lemma elem_of_mid {A} (l1 l2 : list A) x y l :
  y ∈ l1 ++ l ++ l2 → y ∈ l1 ++ x :: l2 ∨ y ∈ l.
Proof. set_solver. Qed.

Lemma step_inv s e s' : sys_inv s → step s e s' → sys_inv s'.
Proof.
  intros [Hp Hg] Hstep. destruct Hstep as
    [s t Ht|s ip secs p' already err started Hb|s ip p' err Hu|s t2 p' err started Ht Hr
    |s gs1 gs2 g Hgs Hph|s gs1 gs2 g since delay b Hgs Hph Hw|s gs1 gs2 g p' out Hgs Hph Hr|s|s Hc].
  - done.
  - apply BanIP_spec in Hb as Hpost; [|done]. destruct Hpost as [Hinv [_ _ Hn] _ Hids _ _ _ Hst _].
    assert (Hfrom : rows_from (spool s) p') by (split; [done|naive_solver]).
    split; [done|]. intros g [Hin|Hin]%elem_of_app; [by eapply go_ok_mono; eauto|]. simpl in *.
    destruct started as [b|]; [|by apply elem_of_nil in Hin].
    apply list_elem_of_singleton in Hin as ->. apply go_ok_spawn; [done|].
    destruct Hst as (_ & _ & -> & _). set_solver.
  - apply unban_spec in Hu as [Hinv _ Hn Hs _ _]; [|done]. split; [done|].
    intros g Hin. eapply go_ok_mono; [by apply rows_from_sub|auto].
  - apply RestoreBans_spec in Hr as [Hinv Hn Hs Hst _ _]; [|done]. split; [done|].
    intros g [Hin|Hin]%elem_of_app; simpl in *.
    + eapply go_ok_mono; [by apply rows_from_sub|auto].
    + apply list_elem_of_In, in_map_iff in Hin as (b & <- & Hin%list_elem_of_In).
      apply go_ok_spawn; [done|]. by apply Hst.
  - assert (Hgg : go_ok (spool s) g) by (apply Hg; rewrite Hgs; set_solver).
    split; [done|]. simpl. intros g' Hin.
    apply (elem_of_mid gs1 gs2 g g' [_]) in Hin as [Hin|Hin]; [apply Hg; by rewrite Hgs|].
    apply list_elem_of_singleton in Hin as ->. by destruct Hgg.
  - assert (Hgg : go_ok (spool s) g) by (apply Hg; rewrite Hgs; set_solver).
    split; [done|]. simpl. intros g' Hin.
    apply (elem_of_mid gs1 gs2 g g') in Hin as [Hin|Hin]; [apply Hg; by rewrite Hgs|].
    destruct b; [|by apply elem_of_nil in Hin].
    apply list_elem_of_singleton in Hin as ->. by destruct Hgg.
  - assert (Hgg : go_ok (spool s) g) by (apply Hg; rewrite Hgs; set_solver).
    apply waitUnban_round_spec in Hr as [Hinv _ Hn Hs _ _ Hout]; [|done]. split; [done|]. simpl.
    assert (Hfrom : rows_from (spool s) p') by by apply rows_from_sub.
    intros g' Hin. apply (elem_of_mid gs1 gs2 g g') in Hin as [Hin|Hin].
    { eapply go_ok_mono; [done|]. apply Hg. by rewrite Hgs. }
    apply (go_ok_mono _ _ _ Hfrom) in Hgg as [Hid Hip Hret].
    destruct out as [|cur|n]; simpl in Hin; [by apply elem_of_nil in Hin|..];
      apply list_elem_of_singleton in Hin as ->; split; simpl; try done.
    + destruct Hout as (_ & -> & _). done.
    + intros x Hx. destruct Hout as (_ & -> & -> & _). by apply Hip.
    + unfold maxUnbanRetries in *. lia.
  - split; [done|]. simpl. intros g Hin.
    apply list_elem_of_In, in_map_iff in Hin as (g0 & <- & Hin%list_elem_of_In).
    destruct (Hg g0 Hin). by split.
  - done.
Qed.

Lemma steps_inv s es s' : sys_inv s → steps s es s' → sys_inv s'.
Proof. intros Hs Hst. induction Hst; [done|]. eauto using step_inv. Qed.
End Invariant.

(** ** Safety *)
Section Safety.
Context {R F : Type} `{RepositorySpec R} `{FirewallSpec F}.
Abbreviation system := (sys R F).

(** No rule without a row. *)
Theorem every_rule_has_a_row (s0 s : system) es ip :
  sys_inv s0 → steps s0 es s → block (spool s) ip = true →
  validateBanIP ip = None ∧ ∃ b, b ∈ rows (spool s) ∧ IP b = ip.
Proof. intros Hinv Hst. exact (pi_rule _ (si_pool _ (steps_inv _ _ _ Hinv Hst)) ip). Qed.

(** The steps that may lift a ban before its time: an explicit unban of that address,
    and the restoring of the bans at the start of a cycle. *)
Definition lifts (e : event) (ip : string) : Prop :=
  (∃ err, e = EvUnban ip err) ∨ ∃ t2 err, e = EvRestore t2 err.

Lemma only_ip_survives ip (p p' : banPool R F) b :
  only_ip ip p p' → b ∈ rows p → IP b ≠ ip → b ∈ rows p' ∧ block p' (IP b) = block p (IP b).
Proof. intros [Hr Hb _] Hin Hne. split; [by apply Hr|by apply Hb]. Qed.

Lemma round_survives t ban n (p p' : banPool R F) out b :
  pool_inv p → round_post t ban n p p' out → b ∈ rows p → t < BannedUntil b →
  b ∈ rows p' ∧ block p' (IP b) = block p (IP b).
Proof.
  intros [Ht _ _] [_ Honly _ _ _ Hdue _] Hb Hlt.
  destruct Hdue as [[Hr Hbl]|(x & Hx & Hxip & Hxid & Hxu)]; [by rewrite <- Hr|].
  apply only_ip_survives with (ip := IP ban); [done|done|].
  intros He. assert (b = x) as ->; [|lia]. apply (tok_ips _ _ Ht); [done|done|congruence].
Qed.

(** C7: an active ban survives every other step, and is never shortened. *)
Theorem active_ban_survives (s s' : system) e b :
  sys_inv s → step s e s' → b ∈ rows (spool s) → now s < BannedUntil b → ¬ lifts e (IP b) →
  (∃ b', b' ∈ rows (spool s') ∧ same_or_later b b') ∧
  (block (spool s) (IP b) = true → block (spool s') (IP b) = true).
Proof.
  intros [Hp Hg] Hstep Hb Hlt Hl.
  assert (Hsame : ∀ p', b ∈ rows p' ∧ block p' (IP b) = block (spool s) (IP b) →
     (∃ b', b' ∈ rows p' ∧ same_or_later b b') ∧
     (block (spool s) (IP b) = true → block p' (IP b) = true)).
  { intros p' [? ->]. eauto using same_or_later_refl. }
  destruct Hstep as
    [s t Ht|s ip secs p' already err started Hbn|s ip p' err Hu|s t2 p' err started Ht Hr
    |s gs1 gs2 g Hgs Hph|s gs1 gs2 g since delay r Hgs Hph Hw|s gs1 gs2 g p' out Hgs Hph Hr|s|s Hc];
    simpl; try by apply Hsame.
  - apply BanIP_spec in Hbn as [_ Honly Hkeep _ _ Hbl _ _ _]; [|done]. split; [by apply Hkeep|].
    intros Hblk. destruct (decide (IP b = ip)) as [<-|Hne]; [by apply Hbl|].
    by rewrite (oi_block _ _ _ Honly).
  - apply unban_spec in Hu as [_ Honly _ _ _ _]; [|done]. apply Hsame.
    apply (only_ip_survives ip); [done|done|]. intros <-. apply Hl. left. eauto.
  - exfalso. apply Hl. right. eauto.
  - apply waitUnban_round_spec in Hr; [|done]. apply Hsame. by eapply round_survives.
Qed.

(** C8: what a caller of [BanIP] gets. *)
Theorem BanIP_outcome t ip secs (p p' : banPool R F) already err started :
  pool_inv p → BanIP t ip secs p = (p', (already, err), started) →
  (already = true → ∃ b, b ∈ rows p ∧ IP b = ip) ∧
  (err = None →
     validateBanIP ip = None ∧ block p' ip = true ∧
     ∃ b, b ∈ rows p' ∧ IP b = ip ∧ t + seconds_duration secs <= BannedUntil b) ∧
  match started with
  | Some b => already = false ∧ err = None ∧ rows p' = rows p ++ [b] ∧ IP b = ip ∧
              BannedUntil b = t + seconds_duration secs
  | None => already = true ∨ err ≠ None
  end ∧
  (∀ i, i ≠ ip → block p' i = block p i) ∧
  (∀ x, x ∈ rows p → ∃ x', x' ∈ rows p' ∧ same_or_later x x').
Proof.
  intros Hinv Hb. apply BanIP_spec in Hb as [_ Honly Hkeep _ _ _ Ha Hst Hok]; [|done].
  split_and!; [done|done| |apply Honly|done].
  destruct started as [b|]; [|done]. destruct Hst as (? & ? & ? & _ & ? & _ & ?). done.
Qed.
End Safety.

(** ** Bounds *)

(** The length of a ban is the number of seconds asked for up to 9223372036 s (292
    years); past that the product wraps around. *)
Theorem seconds_duration_exact s :
  in_u64 s → s <= 9223372036 → seconds_duration s = s * second ∧ 0 <= seconds_duration s.
Proof.
  unfold in_u64, seconds_duration, second. intros Hs Hle. change (10 ^ 9) with 1000000000.
  rewrite (wrap_s64_small s) by lia. rewrite wrap_s64_small by lia. lia.
Qed.

(** The next value is already a ban that ends before it starts. *)
Lemma seconds_duration_wraps : seconds_duration 9223372037 < 0.
Proof. vm_compute. reflexivity. Qed.
