(* ===== verification/BanPoolLiveness.v ===== *)
(** * Bans end: what holds when the database and the firewall do not fail

    Under [ReliablePool] every row has a live goroutine that wakes no later than the
    row's [BannedUntil] ([covered]), so a ban whose time is over can be lifted at once;
    and the pool refines a plain map from address to end of ban.  [RestoreBans] leaves no
    row without a goroutine if no ban ends between its two reads of the clock
    ([window_clear]); what happens to one that does is in BanPoolExamples.v. *)

From S2P Require Import Prelude.
From S2P Require Import GoStrings.
From S2P Require Import Repository.
From S2P Require Import Firewall.
From S2P Require Import FirewallEngines.
From S2P Require Import BanPool.
From S2P Require Import BanPoolOps.
From S2P Require Import BanPoolSystem.

(** Only the refusals that are part of the contract are left. *)
Class ReliablePool (R F : Type) `{RepositorySpec R} `{FirewallSpec F} : Prop := {
  rel_Get (r r' : R) ip e : repo_Get ip r = (r', Err e) → e = ErrBanNotFound;
  rel_GetBanned (r r' : R) t e : repo_GetBanned t r ≠ (r', Err e);
  rel_GetExpired (r r' : R) t e : repo_GetExpired t r ≠ (r', Err e);
  rel_Add (r r' : R) b e :
    (∀ x, x ∈ bans r → IP x ≠ IP b) → repo_Add b r ≠ (r', Err e);
  rel_Update (r r' : R) b e :
    (∃ x, x ∈ bans r ∧ ID x = ID b) → (∀ x, x ∈ bans r → ID x ≠ ID b → IP x ≠ IP b) →
    repo_Update b r ≠ (r', Err e);
  rel_Delete (r r' : R) id e : repo_Delete id r ≠ (r', Err e);
  rel_Ban (f f' : F) ip e :
    fw_ok f → Firewall_Ban ip f = (f', Some e) → validateBanIP ip ≠ None;
  rel_Unban (f f' : F) ip e :
    fw_ok f → Firewall_Unban ip f = (f', Some e) → validateIP ip ≠ None }.

Section Reliable.
Context {R F : Type} `{ReliablePool R F}.
Abbreviation pool := (banPool R F).
Abbreviation system := (sys R F).
Implicit Types (p : pool) (s : system).

Definition rows_valid (p : pool) : Prop := ∀ b, b ∈ rows p → validateBanIP (IP b) = None.

Lemma validateBanIP_validateIP ip : validateBanIP ip = None → validateIP ip = None.
Proof. unfold validateBanIP. by destruct (validateIP ip). Qed.

Lemma no_delete_fails : ¬ delete_fails (R := R).
Proof. intros (r & id & r' & e & He). by apply rel_Delete in He. Qed.

(** Reads of the rows before the operation are reads of the pool. *)
Lemma unban_reliable ip p p' err :
  pool_inv p → validateIP ip = None → unban ip p = (p', err) →
  err = None ∧ (∀ b, b ∈ rows p' → IP b ≠ ip) ∧ block p' ip = false.
Proof.
  intros Hinv Hv Hu. apply unban_spec in Hu as Hpost; [|done].
  assert (err = None) as ->; [|split; [done|by apply (up_done _ _ _ _ Hpost)]].
  clear Hpost. unfold unban in Hu. destruct (repo_Get ip _) as [r res] eqn:Hget.
  destruct res as [b|e]; [|apply rel_Get in Hget as ->; by injection Hu].
  destruct (Firewall_Unban ip _) as [f [e|]] eqn:Hub; [by apply rel_Unban in Hub; [|apply Hinv]|].
  destruct (repo_Delete _ r) as [r2 [u|e]] eqn:Hdel; [by injection Hu|by apply rel_Delete in Hdel].
Qed.

Lemma unban_all_reliable l p :
  pool_inv p → (∀ e, e ∈ l → validateIP (IP e) = None) →
  ∀ e b, e ∈ l → b ∈ rows (unban_all l p) → IP b ≠ IP e.
Proof.
  revert p. induction l as [|x l IH]; intros p Hinv Hv e b; simpl; [by intros ?%elem_of_nil|].
  destruct (unban (IP x) p) as [p1 err] eqn:Hu.
  pose proof (unban_spec _ _ _ _ Hinv Hu) as [Hinv1 _ _ _ _ _].
  apply unban_reliable in Hu as (_ & Hgone & _); [|done|apply Hv; set_solver].
  intros [->|He]%elem_of_cons Hb; [|apply (IH p1); auto; intros; apply Hv; set_solver].
  apply Hgone. by apply (ua_sub _ _ _ (unban_all_spec l p1 Hinv1)).
Qed.

(** ** [RestoreBans] leaves no row behind when none ends between its two reads of the clock *)
Definition window_clear (t1 t2 : Z) (p : pool) : Prop := ∀ b, b ∈ rows p → BannedUntil b <= t1 ∨ t2 < BannedUntil b.

Lemma window_clear_instant t p : window_clear t t p.
Proof. intros b _. lia. Qed.

Lemma RestoreBans_reliable t1 t2 p p' err started :
  pool_inv p → rows_valid p → window_clear t1 t2 p → RestoreBans t1 t2 p = (p', err, started) →
  err = None ∧ (∀ x, x ∈ rows p' → x ∈ started ∧ t2 < BannedUntil x).
Proof.
  intros Hinv Hv Hclear Hr. pose proof (RestoreBans_spec _ _ _ _ _ _ Hinv Hr) as Hpost.
  unfold RestoreBans in Hr.
  destruct (repo_GetExpired t1 _) as [r1 [l|e]] eqn:H1e; [|by apply rel_GetExpired in H1e].
  apply repo_GetExpired_spec in H1e as (Hr1 & Hn1 & Hl).
  pose proof (pool_same_rows p r1 Hinv Hr1 Hn1) as Hinv1.
  assert (Hlv : ∀ e, e ∈ l → validateIP (IP e) = None).
  { intros e He. apply validateBanIP_validateIP, Hv. rewrite Hl, elem_filter_row in He. apply He. }
  pose proof (unban_all_reliable l _ Hinv1 Hlv) as Hgone.
  pose proof (unban_all_spec l _ Hinv1) as [Hinv2 _ Hs2 _ _].
  set (p2 := unban_all l _) in *.
  destruct (repo_GetBanned t2 _) as [r3 [l3|e]] eqn:H3e; [|by apply rel_GetBanned in H3e].
  apply repo_GetBanned_spec in H3e as (Hr3 & Hn3 & Hl3).
  destruct (reban_all l3 _) as [p4 st] eqn:Hra. injection Hr as <- <- <-. split; [done|].
  assert (Hlate : ∀ x, x ∈ rows p4 → t2 < BannedUntil x).
  { pose proof (pool_same_rows p2 r3 Hinv2 Hr3 Hn3) as Hinv3.
    intros x Hx. apply reban_all_spec in Hra as [_ _ Hs _ _ _ _ _]; [|done| |].
    - apply Hs in Hx. unfold rows in Hx. simpl in Hx. rewrite Hr3 in Hx.
      pose proof (Hs2 x Hx) as Hx1. unfold rows in Hx1. simpl in Hx1. rewrite Hr1 in Hx1.
      destruct (Hclear x Hx1) as [Hle|]; [exfalso|done].
      assert (Hxl : x ∈ l) by (by rewrite Hl, elem_filter_row, Z.leb_le).
      by apply (Hgone x x).
    - rewrite Hl3. apply (NoDup_fmap_1 ID). apply NoDup_map_filter, (tok_ids _ _ (pi_table _ Hinv2)).
    - intros y. rewrite Hl3, elem_filter_row. unfold rows. simpl. rewrite Hr3. by intros [? _]. }
  intros x Hx. split; [|by apply Hlate].
  destruct (rp_covered _ _ _ _ _ _ Hpost eq_refl x Hx (Hlate x Hx)); [done|].
  by destruct no_delete_fails.
Qed.

(** ** Every row is watched *)
Definition due_by (g : goroutine) (u : Z) : Prop :=
  match g_phase g with
  | PStart => BannedUntil (g_ban g) <= u
  | PWaiting since delay => since + delay <= u
  | PReady => True
  end.
Definition watches (g : goroutine) (b : Ban) : Prop :=
  ID (g_ban g) = ID b ∧ g_cancelled g = false ∧ due_by g (BannedUntil b).
Record covered (s : system) : Prop := {
  cov_ctx : cancelled s = false;
  cov_valid : rows_valid (spool s);
  cov_row : ∀ b, b ∈ rows (spool s) → ∃ g, g ∈ gos s ∧ watches g b }.

Lemma watches_later g b b' : watches g b → same_or_later b b' → watches g b'.
Proof.
  intros (Hid & Hc & Hd) (Hid' & _ & Hu). split_and!; [congruence|done|].
  unfold due_by in *. destruct (g_phase g); lia.
Qed.

Lemma round_reliable t ban n p p' out b :
  pool_inv p → rows_valid p → b ∈ rows p → ID b = ID ban → IP b = IP ban →
  waitUnban_round t ban n p = (p', out) →
  if t <? BannedUntil b then out = Break b ∧ rows p' = rows p
  else out = Return ∧ (∀ x, x ∈ rows p' → IP x ≠ IP b) ∧ block p' (IP b) = false.
Proof.
  intros Hinv Hv Hb Hid Hip. unfold waitUnban_round.
  destruct (repo_Get (IP ban) _) as [r res] eqn:Hget.
  pose proof (repo_Get_spec _ _ _ _ Hget) as (Hrows & Hnext & Hres).
  pose proof (pool_same_rows p r Hinv Hrows Hnext) as Hinv1.
  destruct res as [cur|e].
  2: { apply rel_Get in Hget as ->. by apply Hres in Hb. }
  destruct Hres as [Hcur Hcip].
  assert (cur = b) as -> by (apply (tok_ips _ _ (pi_table _ Hinv)); [done|done|congruence]).
  rewrite (proj2 (Z.eqb_eq (ID b) (ID ban))) by done. simpl.
  destruct (t <? BannedUntil b); [by intros [= <- <-]|].
  destruct (unban (IP ban) _) as [p2 err] eqn:Hu.
  apply unban_reliable in Hu as (-> & Hgone & Hbl); [|done|].
  - intros [= <- <-]. by rewrite Hip.
  - rewrite <- Hip. apply validateBanIP_validateIP. by apply Hv.
Qed.

(** ** The steps of an undisturbed run *)
Definition undisturbed (e : event) : Prop :=
  match e with EvRestore _ _ | EvCancel | EvNewContext => False | _ => True end.

Lemma BanIP_covered s ip secs p' already err started :
  sys_inv s → covered s → BanIP (now s) ip secs (spool s) = (p', (already, err), started) →
  covered (Sys (now s) (cancelled s) p'
             (gos s ++ match started with Some b => [spawn (cancelled s) b] | None => [] end)).
Proof.
  intros [Hp Hg] [Hc Hv Hw] Hb. apply BanIP_spec in Hb as [Hinv Honly Hkeep Hids _ _ _ Hst Hok]; [|done].
  assert (Hor : ∀ x, x ∈ rows p' → (∃ y, y ∈ rows (spool s) ∧ same_or_later y x) ∨ started = Some x).
  { intros x Hx. destruct (Hids x Hx) as [?|[_ [?|?]]]; [by left|by right|by destruct no_delete_fails]. }
  split; simpl; [done| |].
  - intros x Hx. destruct (Hor x Hx) as [(y & Hy & _ & -> & _)|He]; [by apply Hv|].
    rewrite He in Hst. destruct Hst as (_ & Herr & _ & _ & -> & _). by apply Hok.
  - intros x Hx. destruct (Hor x Hx) as [(y & Hy & Hl)|He].
    + destruct (Hw y Hy) as (g & Hgin & Hwg). exists g. split; [set_solver|by eapply watches_later].
    + exists (spawn (cancelled s) x). rewrite He. split; [set_solver|].
      split_and!; [done|done|]. unfold due_by. simpl. lia.
Qed.

Lemma unban_covered s ip p' err :
  sys_inv s → covered s → unban ip (spool s) = (p', err) →
  covered (Sys (now s) (cancelled s) p' (gos s)).
Proof.
  intros [Hp Hg] [Hc Hv Hw] Hu. apply unban_spec in Hu as [_ _ _ Hs _ _]; [|done].
  split; simpl; [done|intros x Hx; by apply Hv, Hs|intros x Hx; by apply Hw, Hs].
Qed.

(** Replacing one goroutine keeps the cover when its own row stays watched. *)
Lemma covered_replace s gs1 gs2 g gs' p' :
  covered s → gos s = gs1 ++ g :: gs2 → (∀ x, x ∈ rows p' → x ∈ rows (spool s)) →
  (∀ b, b ∈ rows p' → watches g b → ∃ g', g' ∈ gs' ∧ watches g' b) →
  covered (Sys (now s) (cancelled s) p' (gs1 ++ gs' ++ gs2)).
Proof.
  intros [Hc Hv Hw] Hgs Hs Hnew. split; simpl; [done|intros x Hx; by apply Hv, Hs|].
  intros b Hb. destruct (Hw b (Hs b Hb)) as (g0 & Hg0 & Hwg). rewrite Hgs in Hg0.
  apply elem_of_app in Hg0 as [?|[->|?]%elem_of_cons]; [exists g0; set_solver| |exists g0; set_solver].
  destruct (Hnew b Hb Hwg) as (g' & ? & ?). exists g'. set_solver.
Qed.

Lemma step_covered s e s' : sys_inv s → covered s → undisturbed e → step s e s' → covered s'.
Proof.
  intros Hinv Hcov Hund Hstep. destruct Hstep as
    [s t Ht|s ip secs p' already err started Hb|s ip p' err Hu|s t2 p' err started Ht Hr
    |s gs1 gs2 g Hgs Hph|s gs1 gs2 g since delay b Hgs Hph Hw|s gs1 gs2 g p' out Hgs Hph Hr|s|s Hc];
    try done.
  - by destruct Hcov.
  - by eapply BanIP_covered.
  - by eapply unban_covered.
  - apply (covered_replace s gs1 gs2 g [_]); [done|done|done|].
    intros b _ (Hid & Hc & Hd). eexists. split; [by apply list_elem_of_singleton|].
    split_and!; [done|done|]. unfold due_by in *. rewrite Hph in Hd. simpl. lia.
  - apply (covered_replace s gs1 gs2 g); [done|done|done|].
    intros b0 _ (Hid & Hc & Hd). rewrite Hc in Hw. inversion Hw; subst.
    all: eexists; (split; [by apply list_elem_of_singleton|]); done.
  - apply (covered_replace s gs1 gs2 g); [done|done| |].
    { apply waitUnban_round_spec in Hr; [|apply Hinv]. apply Hr. }
    pose proof Hr as Hpost. apply waitUnban_round_spec in Hpost as [_ _ _ Hs _ _ _]; [|apply Hinv].
    intros b Hb (Hid & Hc & Hd). pose proof (Hs b Hb) as Hb0.
    apply (round_reliable _ _ _ _ _ _ b) in Hr; [|apply Hinv|apply Hcov|done|done|].
    + destruct (_ <? _).
      * destruct Hr as [-> _]. eexists. split; [by apply list_elem_of_singleton|].
        split_and!; [done|done|]. unfold due_by. simpl. lia.
      * destruct Hr as (_ & Hgone & _). by apply Hgone in Hb.
    + apply (si_gos _ Hinv); [rewrite Hgs; set_solver|done|done].
Qed.

Lemma steps_covered s es s' :
  sys_inv s → covered s → Forall undisturbed es → steps s es s' → sys_inv s' ∧ covered s'.
Proof.
  intros Hinv Hcov Hund Hst. induction Hst as [|s1 e s2 es s3 Hs _ IH]; [done|].
  inversion Hund; subst. apply IH; [by eapply step_inv|by eapply step_covered|done].
Qed.

(** The first step of a cycle. *)
Lemma restore_covered s t2 s' err :
  sys_inv s → cancelled s = false → rows_valid (spool s) → window_clear (now s) t2 (spool s) →
  step s (EvRestore t2 err) s' → covered s'.
Proof.
  intros Hinv Hc Hv Hclear Hstep. inversion Hstep as [| | |? t2' p' err' started Ht Hr| | | | |]; subst.
  pose proof (RestoreBans_spec _ _ _ _ _ _ (si_pool _ Hinv) Hr) as [_ _ Hs _ _ _].
  apply RestoreBans_reliable in Hr as [_ Hall]; [|apply Hinv|done|done].
  split; simpl; [done|intros x Hx; by apply Hv, Hs|].
  intros b Hb. destruct (Hall b Hb) as [Hst _]. exists (spawn (cancelled s) b). split.
  - apply elem_of_app. right. apply list_elem_of_In, in_map. by apply list_elem_of_In.
  - split_and!; [done|done|]. unfold due_by. simpl. lia.
Qed.
End Reliable.

(** ** Bans are lifted *)
Section Lifting.
Context {R F : Type} `{ReliablePool R F}.
Abbreviation system := (sys R F).

(** The moves of goroutines, which are always enabled. *)
Definition wakes (e : event) : Prop :=
  match e with EvStart _ | EvWait _ _ | EvRound _ _ => True | _ => False end.

(** One goroutine carried to the point where it locks the mutex. *)
Lemma goroutine_ready (s : system) gs1 gs2 g u :
  gos s = gs1 ++ g :: gs2 → g_cancelled g = false → due_by g u → u <= now s →
  ∃ es gs, Forall wakes es ∧
    steps s es (Sys (now s) (cancelled s) (spool s)
                  (gs1 ++ Goroutine (g_ban g) (g_retries g) PReady false :: gs)).
Proof.
  intros Hgs Hc Hdue Hu. destruct s as [t c p gs0], g as [b n ph gc]. simpl in *. subst gc gs0.
  assert (Hwait : ∀ since delay, since + delay <= u →
    steps (Sys t c p (gs1 ++ Goroutine b n (PWaiting since delay) false :: gs2)) [EvWait b true]
          (Sys t c p (gs1 ++ Goroutine b n PReady false :: gs2))).
  { intros since delay Hd. apply steps_one.
    apply (step_wait (Sys t c p _) gs1 gs2 (Goroutine b n (PWaiting since delay) false) since delay true);
      [done|done|]. simpl. destruct (Z.le_gt_cases delay 0); [by apply wait_nodelay|].
    apply wait_fired; lia. }
  destruct ph as [|since delay|]; unfold due_by in Hdue; simpl in Hdue.
  - exists [EvStart b; EvWait b true], gs2. split; [by repeat constructor|].
    econstructor; [apply (step_start (Sys t c p _) gs1 gs2 (Goroutine b n PStart false)); done|].
    simpl. apply Hwait. lia.
  - exists [EvWait b true], gs2. split; [by repeat constructor|]. by apply Hwait.
  - exists [], gs2. split; [done|constructor].
Qed.

Lemma lift_now (s : system) b :
  sys_inv s → covered s → b ∈ rows (spool s) → BannedUntil b <= now s →
  ∃ es s', Forall wakes es ∧ steps s es s' ∧ now s' = now s ∧
    (∀ x, x ∈ rows (spool s') → IP x ≠ IP b) ∧ block (spool s') (IP b) = false.
Proof.
  intros Hinv Hcov Hb Hdue. destruct (cov_row _ Hcov b Hb) as (g & Hg & Hid & Hc & Hd).
  apply list_elem_of_split in Hg as Hgs. destruct Hgs as (gs1 & gs2 & Hgs).
  assert (Hip : IP b = IP (g_ban g)).
  { apply (go_ip _ _ (si_gos _ Hinv g Hg)); [done|congruence]. }
  destruct (goroutine_ready s gs1 gs2 g _ Hgs Hc Hd Hdue) as (es & gs & Hes & Hst).
  destruct (waitUnban_round (now s) (g_ban g) (g_retries g) (spool s)) as [p' out] eqn:Hr.
  pose proof (round_reliable _ _ _ _ _ _ b (si_pool _ Hinv) (cov_valid _ Hcov) Hb (eq_sym Hid) Hip Hr) as Hout.
  rewrite (proj2 (Z.ltb_ge _ _)) in Hout by lia. destruct Hout as (-> & Hgone & Hbl).
  eexists (es ++ [EvRound (g_ban g) Return]), _. split_and!.
  - apply Forall_app. split; [done|by repeat constructor].
  - eapply steps_app; [exact Hst|]. apply steps_one.
    exact (step_round (Sys _ _ _ _) gs1 gs (Goroutine (g_ban g) (g_retries g) PReady false) p' Return eq_refl eq_refl Hr).
  - done.
  - done.
  - done.
Qed.

(** Every ban ends.  After the [RestoreBans] that opens a cycle, if no row ended between
    its two reads of the clock, whatever bans, unbans
    and wake-ups follow, a row whose time is over can be lifted at once by its goroutine:
    no time passes and no other operation is needed. *)
Theorem bans_are_lifted (s0 s1 s : system) t2 err es b :
  sys_inv s0 → cancelled s0 = false → rows_valid (spool s0) → window_clear (now s0) t2 (spool s0) →
  step s0 (EvRestore t2 err) s1 → Forall undisturbed es → steps s1 es s →
  b ∈ rows (spool s) → BannedUntil b <= now s →
  ∃ es' s', Forall wakes es' ∧ steps s es' s' ∧ now s' = now s ∧
    (∀ x, x ∈ rows (spool s') → IP x ≠ IP b) ∧ block (spool s') (IP b) = false.
Proof.
  intros Hinv Hc Hv Hclear Hstep Hund Hst Hb Hdue.
  pose proof (restore_covered _ _ _ _ Hinv Hc Hv Hclear Hstep) as Hcov1.
  pose proof (step_inv _ _ _ Hinv Hstep) as Hinv1.
  destruct (steps_covered _ _ _ Hinv1 Hcov1 Hund Hst) as [Hinv2 Hcov2].
  by apply lift_now.
Qed.
End Lifting.

(** ** The abstract ban pool: a map from address to end of ban *)
Definition abs {R F} `{RepositorySpec R} `{FirewallSpec F} (p : banPool R F) : gmap string Z :=
  list_to_map (map (λ b, (IP b, BannedUntil b)) (rows p)).

Definition spec_ban (ip : string) (until : Z) (m : gmap string Z) : gmap string Z :=
  <[ip := match m !! ip with Some u => Z.max u until | None => until end]> m.

Section Refinement.
Context {R F : Type} `{ReliablePool R F}.
Abbreviation pool := (banPool R F).
Implicit Types p : pool.

Lemma table_ok_ips l n : table_ok l n → NoDup (map IP l).
Proof.
  intros [Hids Hips _]. induction l as [|x l IH]; simpl; [apply NoDup_nil_2|].
  simpl in Hids. apply NoDup_cons in Hids as [Hx Hids]. apply NoDup_cons. split.
  - rewrite list_elem_of_In, in_map_iff. intros (y & Hy & Hin%list_elem_of_In).
    apply Hx. assert (x = y) as -> by (apply Hips; set_solver).
    apply list_elem_of_In, in_map. by apply list_elem_of_In.
  - apply IH; [done|]. intros b1 b2 Hb1 Hb2. apply Hips; set_solver.
Qed.

Lemma abs_lookup p ip u :
  pool_inv p → abs p !! ip = Some u ↔ ∃ b, b ∈ rows p ∧ IP b = ip ∧ BannedUntil b = u.
Proof.
  intros Hinv. unfold abs. rewrite <- elem_of_list_to_map.
  - rewrite list_elem_of_In, in_map_iff. setoid_rewrite <- list_elem_of_In. naive_solver.
  - change (NoDup (map fst (map (λ b, (IP b, BannedUntil b)) (rows p)))). rewrite map_map.
    apply (table_ok_ips _ _ (pi_table _ Hinv)).
Qed.

Lemma abs_lookup_None p ip :
  pool_inv p → abs p !! ip = None ↔ ∀ b, b ∈ rows p → IP b ≠ ip.
Proof.
  intros Hinv. destruct (abs p !! ip) as [u|] eqn:Hl.
  - apply abs_lookup in Hl as (b & ? & ? & _); [|done]. naive_solver.
  - split; [|done]. intros _ b Hb Hip.
    assert (abs p !! ip = Some (BannedUntil b)) by (apply abs_lookup; eauto). congruence.
Qed.

(** Pools with the same rows, up to order, are the same map. *)
Lemma abs_ext p p' :
  pool_inv p → pool_inv p' → (∀ x, x ∈ rows p' ↔ x ∈ rows p) → abs p' = abs p.
Proof.
  intros Hp Hp' Hr. apply map_eq. intros i. apply option_eq. intros u.
  rewrite !abs_lookup by done. by setoid_rewrite Hr.
Qed.

Lemma abs_other p p' ip i :
  pool_inv p → pool_inv p' → only_ip ip p p' → i ≠ ip → abs p' !! i = abs p !! i.
Proof.
  intros Hp Hp' [Hr _ _] Hne. apply option_eq. intros u. rewrite !abs_lookup by done.
  split; intros (b & Hb & Hip & Hu); exists b; (split; [|done]); [by apply Hr in Hb; [|congruence]|].
  apply Hr; [congruence|done].
Qed.

(** A ban that is refused leaves the table alone. *)
Lemma BanIP_refused now ip secs p p' already e started :
  pool_inv p → BanIP now ip secs p = (p', (already, Some e), started) →
  validateBanIP ip ≠ None ∧ ∀ x, x ∈ rows p' ↔ x ∈ rows p.
Proof.
  intros Hinv Hban. pose proof (BanIP_spec _ _ _ _ _ _ _ _ Hinv Hban) as Hpost. unfold BanIP in Hban.
  destruct (repo_Get ip (repository p)) as [r res] eqn:Hget.
  pose proof (repo_Get_spec _ _ _ _ Hget) as (Hrows & Hnext & Hres). simpl in Hban.
  destruct res as [cur|err].
  - destruct Hres as [Hcur Hip]. destruct (Firewall_Ban ip _) as [f [ferr|]] eqn:Hfb.
    { apply rel_Ban in Hfb; [|apply Hinv]. injection Hban as <- _ _ _. split; [done|].
      intros x. unfold rows. simpl. by rewrite Hrows. }
    exfalso. unfold extendBan in Hban. simpl in Hban. destruct (_ <? _) eqn:Hlt; simpl in Hban; [|done].
    destruct (repo_Update _ r) as [r2 [u|uerr]] eqn:Hup; [done|].
    apply rel_Update in Hup; [done| |]; rewrite Hrows; simpl; [eauto|].
    intros x Hx Hid He. apply Hid. f_equal. by apply (tok_ips _ _ (pi_table _ Hinv)).
  - pose proof Hget as Hnf. apply rel_Get in Hnf as ->.
    destruct (repo_Add _ r) as [r2 [id|aerr]] eqn:Hadd.
    2: { exfalso. apply rel_Add in Hadd; [done|]. simpl. intros x. rewrite Hrows. apply Hres. }
    pose proof (repo_Add_spec _ _ _ _ Hadd) as (Hid & _ & Hr2). simpl in Hban.
    destruct (Firewall_Ban ip _) as [f [ferr|]] eqn:Hfb; [|done].
    apply rel_Ban in Hfb; [|apply Hinv]. split; [done|].
    destruct (repo_Delete id r2) as [r3 [u|derr]] eqn:Hdel; [|by apply rel_Delete in Hdel].
    apply repo_Delete_spec in Hdel as [_ Hr3]. injection Hban as <- _ _ _. intros x.
    unfold rows at 1. simpl. rewrite Hr3, elem_remove_row, Hr2, elem_of_app, list_elem_of_singleton, Hrows.
    split; [|intros Hx; split; [by left|]; pose proof (tok_next _ _ (pi_table _ Hinv) x Hx); unfold pool_next in *; lia].
    intros [[?| ->] Hne]; done.
Qed.

(** C5: refinement.  [BanIP] and [UnbanIP] implement a map from address to end of ban: a
    ban is kept up to the later of the two ends, an unban forgets the address, a refused
    request changes nothing; the caller learns whether the address was in the map. *)
Theorem pool_refines_map now ip secs p p' already err started :
  pool_inv p → BanIP now ip secs p = (p', (already, err), started) →
  abs p' = (if err is None then spec_ban ip (now + seconds_duration secs) (abs p) else abs p) ∧
  already = bool_decide (is_Some (abs p !! ip)) ∧
  (err = None ↔ validateBanIP ip = None) ∧
  (∀ p'' uerr, UnbanIP ip p' = (p'', uerr) → validateIP ip = None →
     uerr = None ∧ abs p'' = delete ip (abs p')).
Proof.
  intros Hinv Hban. pose proof (BanIP_spec _ _ _ _ _ _ _ _ Hinv Hban) as Hpost.
  pose proof (bp_inv _ _ _ _ _ _ _ _ Hpost) as Hinv'. split_and!.
  - destruct err as [e|]; [by apply BanIP_refused in Hban as [_ Hr]; [apply abs_ext|]|].
    destruct Hpost as [_ Honly Hkeep _ Hexact _ _ _ Hok].
    destruct (Hok eq_refl) as (_ & _ & b & Hb & Hip & Hu).
    apply map_eq. intros i. unfold spec_ban. destruct (decide (i = ip)) as [->|Hne].
    2: { rewrite lookup_insert_ne by done. by eapply abs_other. }
    rewrite lookup_insert_eq. apply abs_lookup; [done|]. exists b. split_and!; [done..|].
    destruct (abs p !! ip) as [u|] eqn:Hl.
    + apply abs_lookup in Hl as (x & Hx & Hxip & <-); [|done].
      destruct (Hkeep x Hx) as (x' & Hx' & _ & Hxip' & Hxu).
      assert (x' = b) as -> by (apply (tok_ips _ _ (pi_table _ Hinv')); congruence).
      destruct (Hexact b Hb) as [Hbp|Hbu]; [|lia].
      assert (x = b) as -> by (apply (tok_ips _ _ (pi_table _ Hinv)); congruence). lia.
    + rewrite abs_lookup_None in Hl by done. destruct (Hexact b Hb) as [Hbp|]; [|done].
      by apply Hl in Hbp.
  - unfold BanIP in Hban. destruct (repo_Get ip (repository p)) as [r res] eqn:Hget.
    pose proof (repo_Get_spec _ _ _ _ Hget) as (Hrows & Hnext & Hres).
    destruct res as [cur|e].
    + destruct Hres as [Hcur Hip]. rewrite bool_decide_true.
      { destruct (Firewall_Ban _ _) as [f [e|]]; [|destruct (extendBan _ _ _)]; by simplify_eq. }
      assert (abs p !! ip = Some (BannedUntil cur)) as ->; [|done]. apply abs_lookup; eauto.
    + apply rel_Get in Hget as ->. apply (abs_lookup_None p ip Hinv) in Hres. rewrite Hres, bool_decide_false; [|by intros [? ?]].
      destruct (repo_Add _ _) as [r2 [id|e]]; [|by simplify_eq].
      destruct (Firewall_Ban _ _) as [f [e|]]; [|by simplify_eq]. destruct (repo_Delete _ _). by simplify_eq.
  - split.
    { intros ->. by apply (bp_ok _ _ _ _ _ _ _ _ Hpost). }
    intros Hv. destruct err as [e|]; [|done].
    by apply BanIP_refused in Hban as [? _].
  - intros p'' uerr Hu Hv. pose proof (unban_spec _ _ _ _ Hinv' Hu) as [Hi Honly _ _ _ _].
    apply unban_reliable in Hu as (-> & Hgone & _); [|done|done]. split; [done|].
    apply map_eq. intros i. destruct (decide (i = ip)) as [->|Hne].
    + rewrite lookup_delete_eq. by apply abs_lookup_None.
    + rewrite lookup_delete_ne by done. by eapply abs_other.
Qed.
End Refinement.
