(* ===== verification/BanPoolExamples.v ===== *)
(** * The ban pool in concrete worlds

    Two databases and two firewalls to run the pool in: [table_db] and [ipt_world], whose
    fault scripts make chosen statements and commands fail, and [clean_db] and
    [clean_ipt], which never fail and form a [ReliablePool].  The theorems of the other
    files are applied here to concrete runs; the window of [RestoreBans] between its two
    reads of the clock, and the ban that a failing check forgets, are shown. *)

From S2P Require Import Prelude.
From S2P Require Import GoStrings.
From S2P Require Import GoNet.
From S2P Require Import Repository.
From S2P Require Import Firewall.
From S2P Require Import FirewallEngines.
From S2P Require Import BanPool.
From S2P Require Import BanPoolOps.
From S2P Require Import BanPoolSystem.
From S2P Require Import BanPoolLiveness.

(** ** Worlds without faults *)
Record clean_db := CleanDB { c_rows : list Ban; c_next : Z }.
Definition of_table (d : table_db) : clean_db := CleanDB (t_rows d) (t_next d).
Definition to_table (d : clean_db) : table_db := TableDB (c_rows d) (c_next d) [].

#[global] Instance clean_sql : SqlDB clean_db := {
  db_Exec s d := let '(d', res) := db_Exec s (to_table d) in (of_table d', res);
  db_QueryRow_Scan ip d := let '(d', res) := db_QueryRow_Scan ip (to_table d) in (of_table d', res);
  db_Query q d := let '(d', res) := db_Query q (to_table d) in (of_table d', res);
  db_Close d := d }.

#[global] Instance clean_laws : SqlLaws clean_db.
Proof.
  refine {| table := c_rows; sequence := c_next; zone_offset := λ _, 0; stored_lt := Z.ltb |}.
  - exact (stored_lt_law (D := table_db)).
  - intros d ip a u d' res. unfold db_Exec at 1, clean_sql.
    destruct (db_Exec _ (to_table d)) as [t' r] eqn:He. intros [= <- <-].
    exact (exec_insert_law (to_table d) ip a u t' r He).
  - intros d ip a u id d' res. unfold db_Exec at 1, clean_sql.
    destruct (db_Exec _ (to_table d)) as [t' r] eqn:He. intros [= <- <-].
    exact (exec_update_law (to_table d) ip a u id t' r He).
  - intros d id d' res. unfold db_Exec at 1, clean_sql.
    destruct (db_Exec _ (to_table d)) as [t' r] eqn:He. intros [= <- <-].
    exact (exec_delete_law (to_table d) id t' r He).
  - intros d ip d' res. unfold db_QueryRow_Scan at 1, clean_sql.
    destruct (db_QueryRow_Scan _ (to_table d)) as [t' r] eqn:He. intros [= <- <-].
    exact (query_row_law (to_table d) ip t' r He).
  - intros d q d' res. unfold db_Query at 1, clean_sql.
    destruct (db_Query _ (to_table d)) as [t' r] eqn:He. intros [= <- <-].
    exact (query_law (to_table d) q t' r He).
Defined.

#[global] Instance clean_one_zone : OneZone clean_db.
Proof. done. Defined.

Definition clean_ipt : Type := list (string * string).
#[global] Instance clean_runner : Runner clean_ipt := λ argv w,
  let '(w', res) := ipt_runner argv (IptWorld w []) in (w_rules w', res).

#[global] Instance clean_ipt_laws : IptablesLaws clean_ipt.
Proof.
  refine {| ipt_rules := λ (w : clean_ipt) c i, count_rule w (c, i) |}.
  - intros w c ip w' o ok. unfold runCommand, clean_runner.
    destruct (ipt_runner _ (IptWorld w [])) as [w1 [o1 ok1]] eqn:Hr. intros [= <- <- <-].
    exact (ipt_check_law (IptWorld w []) c ip w1 o1 ok1 Hr).
  - intros w c ip w' o ok. unfold runCommand, clean_runner.
    destruct (ipt_runner _ (IptWorld w [])) as [w1 [o1 ok1]] eqn:Hr. intros [= <- <- <-].
    exact (ipt_insert_law (IptWorld w []) c ip w1 o1 ok1 Hr).
  - intros w c ip w' o ok. unfold runCommand, clean_runner.
    destruct (ipt_runner _ (IptWorld w [])) as [w1 [o1 ok1]] eqn:Hr. intros [= <- <- <-].
    exact (ipt_delete_law (IptWorld w []) c ip w1 o1 ok1 Hr).
Defined.

#[global] Instance clean_ipt_answers : IptablesAnswers clean_ipt.
Proof.
  intros w c ip w' o. unfold runCommand, clean_runner.
  destruct (ipt_runner _ (IptWorld w [])) as [w1 [o1 ok1]] eqn:Hr. intros [= <- <- ->].
  exact (ipt_check_answers (IptWorld w []) c ip w1 o1 Hr).
Qed.

(** Loops whose commands succeed keep no error. *)
Lemma clean_ban_loop ip cs b (w : clean_ipt) :
  snd (ban_loop default_firewall ip (insert_iptables ip) cs b None w) = None.
Proof.
  revert b w. induction cs as [|c cs IH]; intros b w; simpl; [done|].
  destruct (negb _); apply IH.
Qed.

Lemma clean_unban_loop ip cs (w : clean_ipt) :
  snd (unban_loop default_firewall ip (delete_iptables ip) cs None w) = None.
Proof.
  revert w. induction cs as [|c cs IH]; intros w; simpl; [done|].
  destruct (count_rule w (c, ip) =? 0)%nat eqn:Hz; simpl; [apply IH|].
  unfold delete_iptables, run_ok, runCommand, clean_runner, ipt_runner. simpl. rewrite Hz. apply IH.
Qed.

#[global] Instance clean_reliable : ReliablePool clean_db (fw_world default_firewall clean_ipt).
Proof.
  split.
  - intros r r' ip e. simpl. unfold Get, db_QueryRow_Scan, clean_sql, db_QueryRow_Scan, table_sql, to_table. simpl.
    destruct (List.find _ _); simpl; by intros [= <- <-].
  - intros r r' t e. simpl. unfold GetBanned, db_Query, clean_sql, db_Query, table_sql, to_table. simpl.
    unfold read_rows. simpl. intros [= _ Hs].
    enough (∀ l acc, scan_rows (map Ok l) acc = Ok (acc ++ l)) as Ha by (rewrite Ha in Hs; done).
    induction l as [|x l IH]; intros acc; simpl; [by rewrite app_nil_r|]. by rewrite IH, <- app_assoc.
  - intros r r' t e. simpl. unfold GetExpired, db_Query, clean_sql, db_Query, table_sql, to_table. simpl.
    unfold read_rows. simpl. intros [= _ Hs].
    enough (∀ l acc, scan_rows (map Ok l) acc = Ok (acc ++ l)) as Ha by (rewrite Ha in Hs; done).
    induction l as [|x l IH]; intros acc; simpl; [by rewrite app_nil_r|]. by rewrite IH, <- app_assoc.
  - intros r r' b e Hfresh. simpl in *. unfold Add, db_Exec, clean_sql, db_Exec, table_sql, to_table. simpl.
    destruct (existsb _ _) eqn:He; [|done]. exfalso.
    apply existsb_exists in He as (x & Hx%list_elem_of_In & Hip). simpl in Hip. bool_hyps. by apply (Hfresh x).
  - intros r r' b e (x & Hx & Hid) Hip. simpl in *. unfold Update, db_Exec, clean_sql, db_Exec, table_sql, to_table. simpl.
    assert (Hin : x ∈ List.filter (λ b0, ID b0 =? ID b) (c_rows r)).
    { apply elem_filter_row. by rewrite Z.eqb_eq. }
    destruct (List.filter _ (c_rows r)) as [|y ys]; [by apply elem_of_nil in Hin|]. simpl.
    destruct (existsb _ _) eqn:He; [|done]. exfalso.
    apply existsb_exists in He as (z & Hz%list_elem_of_In & Hc). simpl in Hc. bool_hyps. by apply (Hip z).
  - intros r r' id e. done.
  - intros f f' ip e _. change (Firewall_Ban ip f) with (fw_Ban (W := clean_ipt) default_firewall ip f).
    unfold fw_Ban. destruct (validateBanIP ip); [done|].
    rewrite (bool_decide_true (fwEngine default_firewall = "iptables")) by done.
    pose proof (clean_ban_loop ip (chains default_firewall) false f) as Hn.
    destruct (ban_loop _ _ _ _ _ _ _) as [[w s] fe]. simpl in Hn. subst fe. by intros [=].
  - intros f f' ip e _. change (Firewall_Unban ip f) with (fw_Unban (W := clean_ipt) default_firewall ip f).
    unfold fw_Unban. destruct (validateIP ip); [done|].
    rewrite (bool_decide_true (fwEngine default_firewall = "iptables")) by done.
    pose proof (clean_unban_loop ip (chains default_firewall) f) as Hn.
    destruct (unban_loop _ _ _ _ _ _) as [w fe]. simpl in Hn. subst fe. by intros [=].
Qed.

(** ** The window of [RestoreBans] *)
Section Window.
Context {R F : Type} `{RepositorySpec R} `{FirewallSpec F}.
Implicit Types p : banPool R F.

Lemma RestoreBans_window t1 t2 p p' started b :
  pool_inv p → RestoreBans t1 t2 p = (p', None, started) → b ∈ rows p → t1 < BannedUntil b <= t2 →
  b ∈ rows p' ∧ (block p (IP b) = true → block p' (IP b) = true) ∧ (b ∉ started).
Proof.
  intros Hinv Hr Hb Ht. pose proof (RestoreBans_spec _ _ _ _ _ _ Hinv Hr) as Hpost.
  unfold RestoreBans in Hr. destruct (repo_GetExpired t1 _) as [r1 [l|e]] eqn:H1e; [|done].
  apply repo_GetExpired_spec in H1e as (Hr1 & Hn1 & Hl).
  pose proof (pool_same_rows p r1 Hinv Hr1 Hn1) as Hinv1.
  pose proof (unban_all_spec l _ Hinv1) as [Hinv2 Hn2 _ _ Hk2]. set (p2 := unban_all l _) in *.
  destruct (Hk2 b) as [Hb2 Hbl2].
  { unfold rows. simpl. by rewrite Hr1. }
  { intros e. rewrite Hl, elem_filter_row, Z.leb_le. intros [He Hle] Hip.
    assert (e = b) as ->; [|lia]. by apply (tok_ips _ _ (pi_table _ Hinv)). }
  destruct (repo_GetBanned t2 _) as [r3 [l3|e]] eqn:H3e; [|done].
  apply repo_GetBanned_spec in H3e as (Hr3 & Hn3 & Hl3).
  pose proof (pool_same_rows p2 r3 Hinv2 Hr3 Hn3) as Hinv3.
  destruct (reban_all l3 _) as [p4 st] eqn:Hra. injection Hr as <- <-.
  apply reban_all_spec in Hra as [_ _ _ Hk Hbl4 _ _ _]; [|done| |].
  - split_and!.
    + apply Hk; [unfold rows; simpl; by rewrite Hr3|].
      rewrite Hl3, elem_filter_row, Z.ltb_lt. lia.
    + intros Hbl. apply Hbl4. change (block p2 (IP b) = true). by rewrite Hbl2.
    + intros (_ & _ & Hlt)%(rp_started _ _ _ _ _ _ Hpost). lia.
  - rewrite Hl3. apply (NoDup_fmap_1 ID), NoDup_map_filter, (tok_ids _ _ (pi_table _ Hinv2)).
  - intros y. rewrite Hl3, elem_filter_row. unfold rows. simpl. rewrite Hr3. by intros [? _].
Qed.

(** C9: the window.  [RestoreBans] asks for the expired bans at one instant and for the
    active ones at a later instant.  A ban that ends in between keeps its row and its
    rule and gets no goroutine, and no later [BanIP] of that address starts one: only
    [UnbanIP] or the next restart lifts it. *)
Theorem restore_window t1 t2 p p' started b :
  pool_inv p → RestoreBans t1 t2 p = (p', None, started) → b ∈ rows p → t1 < BannedUntil b <= t2 →
  b ∈ rows p' ∧ (block p (IP b) = true → block p' (IP b) = true) ∧ (b ∉ started) ∧
  ∀ now secs p'' res st, BanIP now (IP b) secs p' = (p'', res, st) → st = None.
Proof.
  intros Hinv Hr Hb Ht. pose proof (rp_inv _ _ _ _ _ _ (RestoreBans_spec _ _ _ _ _ _ Hinv Hr)) as Hinv'.
  destruct (RestoreBans_window _ _ _ _ _ _ Hinv Hr Hb Ht) as (Hb' & Hbl & Hst).
  split_and!; [done..|]. intros now secs p'' [already err] st Hban.
  apply BanIP_spec in Hban as [Hi _ Hkeep _ _ _ _ Hs _]; [|done]. destruct st as [x|]; [|done].
  exfalso. destruct Hs as (_ & _ & Hrows & Hid & Hip & _).
  assert (b = x) as ->.
  { apply (tok_ips _ _ (pi_table _ Hi)); rewrite ?Hrows; [set_solver|set_solver|done]. }
  pose proof (tok_next _ _ (pi_table _ Hinv') x Hb'). unfold pool_next in *. lia.
Qed.
End Window.

(** ** When the firewall cannot be asked *)

(** C30: a failing check forgets a ban.  [hasRule] takes a query that fails for a rule that
    is not there.  When the query of every managed chain fails, [unban] issues no other
    command, changes no rule, reports success and deletes the row of the address, whatever
    the engine: the chains that dropped the address still do, no row tells of it any more,
    and no later unban of the address looks at the firewall again. *)
Theorem failed_check_forgets_ban {R W} `{RepositorySpec R, RuleBackend W f} ip (p : banPool R (fw_world f W)) b r1 r2 w' :
  known_engine f → Forall (queried f) (chains f) → validateIP ip = None →
  table_ok (rows p) (pool_next p) → backend_ok (pool_firewall p) →
  repo_Get ip (repository p) = (r1, Ok b) → repo_Delete (ID b) r1 = (r2, Ok tt) →
  checks_fail f ip (chains f) (pool_firewall p) = Some w' →
  unban ip p = (MkPool r2 w', None) ∧
  (∀ c i, rules w' c i = rules (pool_firewall p) c i) ∧ chains_block w' ip = chains_block (pool_firewall p) ip ∧
  (∀ x, x ∈ bans r2 → IP x ≠ ip) ∧
  ∀ p' err, unban ip (MkPool r2 w') = (p', err) → pool_firewall p' = w'.
Proof.
  intros Hk Hq Hv Ht Hok Hget Hdel Hc.
  destruct (checks_fail_rules ip _ _ _ Hk Hq ltac:(done) (validateIP_text _ Hv) Hok Hc) as [_ Hr].
  pose proof (repo_Get_spec _ _ _ _ Hget) as (Hrows & _ & Hb & Hip).
  pose proof (repo_Delete_spec _ _ _ _ Hdel) as [_ Hrm].
  assert (Hgone : ∀ x, x ∈ bans r2 → IP x ≠ ip).
  { intros x. rewrite Hrm, elem_remove_row, Hrows. intros [Hx Hne] Hxip. apply Hne.
    f_equal. apply (tok_ips _ _ Ht x b Hx Hb). congruence. }
  split_and!; [|done|by apply chains_block_ext|done|].
  - pose proof (unban_checks_fail f ip _ _ Hk Hq Hv Hc : Firewall_Unban ip (pool_firewall p) = (w', None)) as Hu.
    unfold unban. by rewrite Hget, Hu, Hdel.
  - intros p' err. unfold unban. cbn [repository pool_firewall]. destruct (repo_Get ip r2) as [r3 [x|e]] eqn:Hg.
    + apply repo_Get_spec in Hg as (_ & _ & Hx & Hxip). by apply Hgone in Hx.
    + destruct e; by intros [= <- <-].
Qed.

(** ** Concrete runs *)
Definition ip7 : string := "10.0.0.7".
Definition db_world : Type := banPool table_db (fw_world default_firewall ipt_world).
Definition clean_world : Type := banPool clean_db (fw_world default_firewall clean_ipt).

(** Nothing banned; the address banned at instant 0 for 100 s. *)
Definition pool_empty : db_world := MkPool (TableDB [] 1 []) (IptWorld [] []).
Definition row7 : Ban := MkBan 1 ip7 0 (100 * second).
Definition pool_banned : db_world :=
  MkPool (TableDB [row7] 2 []) (IptWorld [(dockerUserChain, ip7); ("INPUT", ip7)] []).
Definition clean_empty : clean_world := MkPool (CleanDB [] 1) [].
Definition clean_banned : clean_world :=
  MkPool (CleanDB [row7] 2) [(dockerUserChain, ip7); ("INPUT", ip7)].

Lemma pool_empty_inv : pool_inv pool_empty.
Proof.
  split; [|split; [done|by intros c i; vm_compute; lia]|by intros i].
  split; [apply NoDup_nil_2|..]; intros b; by intros ?%elem_of_nil || by intros ? ?%elem_of_nil.
Qed.
Lemma clean_empty_inv : pool_inv clean_empty.
Proof.
  split; [|split; [done|by intros c i; vm_compute; lia]|by intros i].
  split; [apply NoDup_nil_2|..]; intros b; by intros ?%elem_of_nil || by intros ? ?%elem_of_nil.
Qed.

Lemma ban7 : BanIP 0 ip7 100 pool_empty = (pool_banned, (false, None), Some row7).
Proof. vm_compute. reflexivity. Qed.
Lemma clean_ban7 : BanIP 0 ip7 100 clean_empty = (clean_banned, (false, None), Some row7).
Proof. vm_compute. reflexivity. Qed.
Lemma pool_banned_inv : pool_inv pool_banned.
Proof. exact (bp_inv _ _ _ _ _ _ _ _ (BanIP_spec _ _ _ _ _ _ _ _ pool_empty_inv ban7)). Qed.
Lemma clean_banned_inv : pool_inv clean_banned.
Proof. exact (bp_inv _ _ _ _ _ _ _ _ (BanIP_spec _ _ _ _ _ _ _ _ clean_empty_inv clean_ban7)). Qed.

(** The address can be banned again while the firewall fails: the row keeps its end. *)
Lemma every_rule_has_a_row_witness :
  validateBanIP ip7 = None ∧ ∃ b, b ∈ rows pool_banned ∧ IP b = ip7.
Proof.
  apply (every_rule_has_a_row (Sys 0 false pool_empty []) (Sys 0 false pool_banned [spawn false row7])
           [EvBan ip7 100 false None]).
  - split; [exact pool_empty_inv|by intros g ?%elem_of_nil].
  - eapply steps_cons; [exact (step_ban (Sys 0 false pool_empty []) _ _ _ _ _ _ ban7)|constructor].
  - vm_compute. reflexivity.
Defined.

Lemma active_ban_survives_witness :
  (∃ b', b' ∈ rows pool_banned ∧ same_or_later row7 b') ∧
  (block pool_banned ip7 = true → block pool_banned ip7 = true).
Proof.
  apply (active_ban_survives (Sys 0 false pool_banned []) (Sys 5 false pool_banned []) EvTick row7).
  - split; [exact pool_banned_inv|by intros g ?%elem_of_nil].
  - apply (step_tick (Sys 0 false pool_banned [])). simpl. lia.
  - by apply list_elem_of_singleton.
  - simpl. unfold second. lia.
  - intros [[? ?]|(? & ? & ?)]; done.
Defined.

Lemma BanIP_outcome_witness :
  (true = true → ∃ b, b ∈ rows pool_banned ∧ IP b = ip7) ∧
  (Some ErrCantBanIP = None →
     validateBanIP ip7 = None ∧ block pool_banned ip7 = true ∧
     ∃ b, b ∈ rows pool_banned ∧ IP b = ip7 ∧ 0 + seconds_duration 10 <= BannedUntil b) ∧
  (true = true ∨ Some ErrCantBanIP ≠ None).
Proof.
  assert (Hb : BanIP 0 ip7 10 (MkPool (TableDB [row7] 2 []) (IptWorld [] [true; true]) : db_world) =
               (MkPool (TableDB [row7] 2 []) (IptWorld [] []), (true, Some ErrCantBanIP), None)).
  { vm_compute. reflexivity. }
  assert (Hinv : pool_inv (MkPool (TableDB [row7] 2 []) (IptWorld [] [true; true]) : db_world)).
  { destruct pool_banned_inv as [Ht _ _]. split; [exact Ht|split; [done|by intros c i; vm_compute; lia]|by intros i]. }
  destruct (BanIP_outcome 0 ip7 10 _ _ _ _ _ Hinv Hb) as (H1 & _ & H3 & _).
  split_and!; done.
Defined.

Lemma seconds_duration_exact_witness :
  seconds_duration 9223372036 = 9223372036 * second ∧ 0 <= seconds_duration 9223372036.
Proof. apply (seconds_duration_exact 9223372036); unfold in_u64; lia. Defined.

(** The restart of a cycle at an instant inside the ban, then a wait past its end. *)
Lemma clean_restore : RestoreBans 0 0 clean_banned = (clean_banned, None, [row7]).
Proof. vm_compute. reflexivity. Qed.

Lemma clean_rows_valid : rows_valid clean_banned.
Proof. intros b ->%list_elem_of_singleton. vm_compute. reflexivity. Qed.

Lemma bans_are_lifted_witness :
  ∃ es' s', Forall wakes es' ∧
    steps (Sys (200 * second) false clean_banned [spawn false row7]) es' s' ∧ now s' = 200 * second ∧
    (∀ x, x ∈ rows (spool s') → IP x ≠ ip7) ∧ block (spool s') ip7 = false.
Proof.
  apply (bans_are_lifted (Sys 0 false clean_banned []) (Sys 0 false clean_banned [spawn false row7])
           (Sys (200 * second) false clean_banned [spawn false row7]) 0 None [EvTick] row7).
  - split; [exact clean_banned_inv|by intros g ?%elem_of_nil].
  - done.
  - exact clean_rows_valid.
  - apply window_clear_instant.
  - apply (step_restore (Sys 0 false clean_banned []) 0 clean_banned None [row7]); [simpl; lia|].
    exact clean_restore.
  - by repeat constructor.
  - apply steps_one. apply (step_tick (Sys 0 false clean_banned [spawn false row7])). simpl. unfold second. lia.
  - by apply list_elem_of_singleton.
  - simpl. unfold second. lia.
Defined.

Lemma pool_refines_map_witness :
  abs clean_banned = spec_ban ip7 (0 + seconds_duration 100) (abs clean_empty) ∧
  false = bool_decide (is_Some (abs clean_empty !! ip7)).
Proof.
  destruct (pool_refines_map 0 ip7 100 _ _ _ _ _ clean_empty_inv clean_ban7) as (H1 & H2 & _). split; [exact H1|exact H2].
Defined.

Lemma restore_window_witness :
  row7 ∈ rows pool_banned ∧ (block pool_banned ip7 = true → block pool_banned ip7 = true) ∧
  (row7 ∉ []) ∧ ∀ now secs p'' res st, BanIP now ip7 secs pool_banned = (p'', res, st) → st = None.
Proof.
  apply (restore_window (99 * second) (101 * second) pool_banned pool_banned [] row7).
  - exact pool_banned_inv.
  - vm_compute. reflexivity.
  - by apply list_elem_of_singleton.
  - simpl. unfold second. lia.
Defined.

(** Others hold the lock of iptables while the pool asks about its two chains. *)
Definition held_ipt : busy_ipt := BusyIpt (IptWorld [(dockerUserChain, ip7); ("INPUT", ip7)] []) [true; true].
Lemma failed_check_forgets_ban_witness :
  unban ip7 (MkPool (TableDB [row7] 2 []) held_ipt : banPool table_db (fw_world default_firewall busy_ipt)) =
    (MkPool (TableDB [] 2 []) (BusyIpt (b_ipt held_ipt) []), None) ∧
  chains_block (f := default_firewall) (BusyIpt (b_ipt held_ipt) []) ip7 = true ∧ ∀ x, x ∈ @nil Ban → IP x ≠ ip7.
Proof.
  destruct (failed_check_forgets_ban (f := default_firewall) ip7 (MkPool (TableDB [row7] 2 []) held_ipt) row7
    (TableDB [row7] 2 []) (TableDB [] 2 []) (BusyIpt (b_ipt held_ipt) [])) as (Hu & _ & Hb & Hg & _).
  - by left.
  - by repeat constructor.
  - vm_compute. reflexivity.
  - apply (pi_table _ pool_banned_inv).
  - done.
  - vm_compute. reflexivity.
  - vm_compute. reflexivity.
  - vm_compute. reflexivity.
  - split; [exact Hu|]. split; [|exact Hg]. etrans; [exact Hb|vm_compute; reflexivity].
Defined.
