(* ===== verification/NetworkMonitor.v ===== *)
(** * pkg/ebpfmonitors: the network monitor

    network_monitor.go and the XDP program bpf/network_monitor.bpf.c that feeds it.  The
    kernel side is a function from a packet to the bytes of its ring buffer record; the
    user side counts the ports each address tried.  The counters are a [sync.Map] of Go
    maps: the event loop holds a reference to the map of an address while [clearMap] may
    empty the [sync.Map], so they are kept in a store and the two are interleaved. *)

From S2P Require Import Prelude.
From S2P Require Import GoStrings.
From S2P Require Import GoNet.
From S2P Require Import Words.
From S2P Require Import Repository.
From S2P Require Import Firewall.
From S2P Require Import FirewallEngines.
From S2P Require Import BanPool.
From S2P Require Import BanPoolOps.
From S2P Require Import BanPoolExamples.
From S2P Require Import Config.

(** ** Events *)
Record NetworkEvent := MkNetworkEvent { SrcIP : Z; DestPort : Z }.

Definition parseEvent (sample : list Z) : option NetworkEvent :=
  if (length sample <? 6)%nat then None
  else Some (MkNetworkEvent (be_load (take 4 sample)) (be_load (take 2 (drop 4 sample)))).

Definition ipString (ip : Z) : string :=
  dotted (wrap_u8 (Z.shiftr ip 24)) (wrap_u8 (Z.shiftr ip 16)) (wrap_u8 (Z.shiftr ip 8)) (wrap_u8 ip).

Definition portsToSet (ports : slice Z) : gset Z := list_to_set (map wrap_u16 (items ports)).

(** ** The kernel program

    [load n off pkt] is a load of [n] bytes at [off] on a little-endian machine; the
    checks against [data_end] make each of them one of bytes that are there. *)
Definition load (n : nat) (off : nat) (pkt : list Z) : Z := le_load (take n (drop off pkt)).

Definition ETH_P_IP : Z := 2048.
Definition IPPROTO_TCP : Z := 6.

(** The record the program submits, or [None] when it submits nothing.  [reserved] tells
    whether [bpf_ringbuf_reserve] succeeds; the two last bytes are padding. *)
Definition xdp_network_monitor (reserved : bool) (padding : list Z) (pkt : list Z) : option (list Z) :=
  if (length pkt <? 14)%nat then None
  else if negb (swap_bytes 2 (load 2 12 pkt) =? ETH_P_IP) then None
  else if (length pkt <? 34)%nat then None
  else if negb (load 1 23 pkt =? IPPROTO_TCP) then None
  else
    let ip_hdr_len := Z.to_nat (Z.land (load 1 14 pkt) 15 * 4) in
    if (ip_hdr_len <? 20)%nat then None
    else if (length pkt <? 14 + ip_hdr_len + 20)%nat then None
    else
      let flags := load 1 (14 + ip_hdr_len + 13) pkt in
      if negb (Z.testbit flags 1 && negb (Z.testbit flags 4)) then None
      else if negb reserved then None
      else
        let saddr := swap_bytes 4 (load 4 26 pkt) in
        let dport := swap_bytes 2 (load 2 (14 + ip_hdr_len + 2) pkt) in
        Some (le_bytes 4 saddr ++ le_bytes 2 dport ++ padding).

(** ** The counters *)
Inductive nm_message : Type :=
| HitBlacklisted (ip : string) (port : Z)
| Scanned (ip : string) (ports : Z).

(** Where the loop stands: waiting for a record, or holding the port set of an address. *)
Inductive nm_phase : Type :=
| Reading
| Counting (ip : string) (ports : nat) (port : Z).

Record nm_state := NmState {
  nm_at : nm_phase;
  ipPortsMap : gmap string nat;
  portSets : gmap nat (gset Z);
  nm_fresh : nat }.

(** [LoadOrStore]. *)
Definition LoadOrStore (ip : string) (st : nm_state) : nat * nm_state :=
  match ipPortsMap st !! ip with
  | Some l => (l, st)
  | None =>
      (nm_fresh st,
       NmState (nm_at st) (<[ip := nm_fresh st]> (ipPortsMap st))
         (<[nm_fresh st := ∅]> (portSets st)) (S (nm_fresh st)))
  end.

(** From [reader.Read] to [LoadOrStore]. *)
Definition nm_read (cfg : EbpfNetworkAntireconConfig) (sample : list Z) (st : nm_state)
    : nm_state * list nm_message :=
  match parseEvent sample with
  | None => (st, [])
  | Some event =>
      let ip := ipString (SrcIP event) in
      let port := DestPort event in
      if bool_decide (port ∈ portsToSet (WhitelistPorts cfg)) then (st, [])
      else if bool_decide (port ∈ portsToSet (BlacklistPorts cfg)) then (st, [HitBlacklisted ip port])
      else
        let '(l, st) := LoadOrStore ip st in
        (NmState (Counting ip l port) (ipPortsMap st) (portSets st) (nm_fresh st), [])
  end.

(** The rest of the iteration. *)
Definition nm_count (cfg : EbpfNetworkAntireconConfig) (ip : string) (l : nat) (port : Z) (st : nm_state)
    : nm_state * list nm_message :=
  let ports := {[port]} ∪ default ∅ (portSets st !! l) in
  let sets := <[l := ports]> (portSets st) in
  let n := Z.of_nat (size ports) in
  if (0 <? PortsCount cfg) && (PortsCount cfg <=? n)
  then (NmState Reading (delete ip (ipPortsMap st)) sets (nm_fresh st), [Scanned ip n])
  else (NmState Reading (ipPortsMap st) sets (nm_fresh st), []).

(** [clearMap] when its timer fires. *)
Definition nm_clear (st : nm_state) : nm_state :=
  NmState (nm_at st) ∅ (portSets st) (nm_fresh st).

Inductive nm_event : Type :=
| NmRead (sample : list Z)
| NmCount
| NmClear.

Inductive nm_step (cfg : EbpfNetworkAntireconConfig)
    : nm_state → nm_event → list nm_message → nm_state → Prop :=
| nm_step_read st sample st' out :
    nm_at st = Reading → nm_read cfg sample st = (st', out) → nm_step cfg st (NmRead sample) out st'
| nm_step_count st ip l port st' out :
    nm_at st = Counting ip l port → nm_count cfg ip l port st = (st', out) → nm_step cfg st NmCount out st'
| nm_step_clear st : nm_step cfg st NmClear [] (nm_clear st).

Inductive nm_steps (cfg : EbpfNetworkAntireconConfig)
    : nm_state → list nm_event → list nm_message → nm_state → Prop :=
| nm_steps_nil st : nm_steps cfg st [] [] st
| nm_steps_cons st1 e out1 st2 es out2 st3 :
    nm_step cfg st1 e out1 st2 → nm_steps cfg st2 es out2 st3 →
    nm_steps cfg st1 (e :: es) (out1 ++ out2) st3.

(** The same as a function: [None] where an event is not possible. *)
Definition nm_next (cfg : EbpfNetworkAntireconConfig) (e : nm_event) (st : nm_state)
    : option (nm_state * list nm_message) :=
  match e, nm_at st with
  | NmRead sample, Reading => Some (nm_read cfg sample st)
  | NmCount, Counting ip l port => Some (nm_count cfg ip l port st)
  | NmClear, _ => Some (nm_clear st, [])
  | _, _ => None
  end.
Fixpoint nm_run (cfg : EbpfNetworkAntireconConfig) (es : list nm_event) (st : nm_state)
    : option (nm_state * list nm_message) :=
  match es with
  | [] => Some (st, [])
  | e :: es' =>
      '(st1, out1) ← nm_next cfg e st;
      '(st2, out2) ← nm_run cfg es' st1;
      Some (st2, out1 ++ out2)
  end.

Lemma nm_run_steps cfg es st st' out : nm_run cfg es st = Some (st', out) → nm_steps cfg st es out st'.
Proof.
  revert st st' out. induction es as [|e es IH]; intros st st' out; simpl; [intros [= <- <-]; constructor|].
  destruct (nm_next cfg e st) as [[st1 out1]|] eqn:Hn; [|done]. simpl.
  destruct (nm_run cfg es st1) as [[st2 out2]|] eqn:Hr; [|done]. simpl. intros [= <- <-].
  econstructor; [|by apply IH]. unfold nm_next in Hn.
  destruct e, (nm_at st) eqn:Hat; simplify_eq; try done; try by apply nm_step_clear.
  - by apply nm_step_read.
  - by eapply nm_step_count.
Qed.

Definition nm_init : nm_state := NmState Reading ∅ ∅ 0.

(** ** [report]: the pool is asked in the blocker mode; the log gets the message and
    whether the ban is new. *)
Definition nm_report {P} `{BanPool P} (ctx : context) (cfg : EbpfNetworkAntireconConfig) (now : Z) (ip : string) (p : P)
    : P * option bool :=
  if bool_decide (na_Mode cfg = "blocker") then
    match bp_BanIP ctx now ip (na_BanSeconds cfg) p with
    | (p, (_, Some _)) => (p, None)
    | (p, (true, None)) => (p, None)
    | (p, (false, None)) => (p, Some true)
    end
  else (p, Some false).

(** ** The counters as they are meant: one step per record, no references *)
Definition nm_spec_count (cfg : EbpfNetworkAntireconConfig) (ip : string) (port : Z)
    (C : gmap string (gset Z)) : gmap string (gset Z) * list nm_message :=
  let ports := {[port]} ∪ default ∅ (C !! ip) in
  let n := Z.of_nat (size ports) in
  if (0 <? PortsCount cfg) && (PortsCount cfg <=? n)
  then (delete ip C, [Scanned ip n]) else (<[ip := ports]> C, []).

Definition nm_spec_read (cfg : EbpfNetworkAntireconConfig) (sample : list Z) (C : gmap string (gset Z))
    : gmap string (gset Z) * list nm_message :=
  match parseEvent sample with
  | None => (C, [])
  | Some event =>
      let ip := ipString (SrcIP event) in
      let port := DestPort event in
      if bool_decide (port ∈ portsToSet (WhitelistPorts cfg)) then (C, [])
      else if bool_decide (port ∈ portsToSet (BlacklistPorts cfg)) then (C, [HitBlacklisted ip port])
      else nm_spec_count cfg ip port C
  end.

Definition nm_spec_step (cfg : EbpfNetworkAntireconConfig) (e : nm_event) (C : gmap string (gset Z))
    : gmap string (gset Z) * list nm_message :=
  match e with
  | NmRead sample => nm_spec_read cfg sample C
  | NmCount => (C, [])
  | NmClear => (∅, [])
  end.

Fixpoint nm_spec_run (cfg : EbpfNetworkAntireconConfig) (es : list nm_event) (C : gmap string (gset Z))
    : gmap string (gset Z) * list nm_message :=
  match es with
  | [] => (C, [])
  | e :: es' =>
      let '(C, out1) := nm_spec_step cfg e C in
      let '(C, out2) := nm_spec_run cfg es' C in (C, out1 ++ out2)
  end.

Section Refine.
Variable cfg : EbpfNetworkAntireconConfig.
Implicit Types (st : nm_state) (C : gmap string (gset Z)).

Record nm_wf st : Prop := {
  nw_fresh : ∀ i l, ipPortsMap st !! i = Some l → (l < nm_fresh st)%nat;
  nw_inj : ∀ i j l, ipPortsMap st !! i = Some l → ipPortsMap st !! j = Some l → i = j }.

(** The set an address has, through the references. *)
Definition nm_ports st (i : string) : option (gset Z) :=
  (λ l, default ∅ (portSets st !! l)) <$> ipPortsMap st !! i.

(** The specification has counted the record the loop still holds; [pend] is what the
    loop has yet to report. *)
Definition nm_sim st C (pend : list nm_message) : Prop :=
  match nm_at st with
  | Reading => pend = [] ∧ ∀ i, C !! i = nm_ports st i
  | Counting ip l port =>
      let '(st', out) := nm_count cfg ip l port st in
      pend = out ∧ (l < nm_fresh st)%nat ∧
      (ipPortsMap st !! ip = Some l ∨ ipPortsMap st = ∅) ∧ ∀ i, C !! i = nm_ports st' i
  end.

Lemma nm_sim_clear st C pend : nm_sim st C pend → nm_sim (nm_clear st) ∅ pend.
Proof.
  unfold nm_sim, nm_clear, nm_count, nm_ports. simpl. destruct (nm_at st) as [|ip l port].
  - intros [-> _]. split; [done|]. intros i. by rewrite !lookup_empty.
  - destruct (_ && _); intros (-> & Hl & _ & _); (split_and!; [done|done|by right|]); intros i; simpl;
      by rewrite ?delete_empty, !lookup_empty.
Qed.

Lemma nm_sim_count st C ip l port st' out :
  nm_wf st → nm_at st = Counting ip l port → nm_sim st C out → nm_count cfg ip l port st = (st', out) →
  nm_wf st' ∧ nm_sim st' C [].
Proof.
  unfold nm_sim. intros [Hf Hi] ->. intros Hs Hc. rewrite Hc in Hs. destruct Hs as (_ & Hl & _ & Hr).
  unfold nm_count in Hc. destruct (_ && _); injection Hc as <- <-; simpl in *; (split; [split; simpl|done]).
  - intros i l' Hd. rewrite lookup_delete_Some in Hd. naive_solver.
  - intros i j l'. rewrite !lookup_delete_Some. naive_solver.
  - done.
  - done.
Qed.

Lemma nm_sim_read st C sample st' out :
  nm_wf st → nm_at st = Reading → nm_sim st C [] → nm_read cfg sample st = (st', out) →
  ∃ C' out' pend', nm_spec_read cfg sample C = (C', out') ∧ out' = out ++ pend' ∧
    nm_wf st' ∧ nm_sim st' C' pend'.
Proof.
  intros Hwf Hat Hs. unfold nm_read, nm_spec_read.
  destruct (parseEvent sample) as [event|].
  2: { intros [= <- <-]. by exists C, [], []. }
  case_bool_decide; [intros [= <- <-]; by exists C, [], []|].
  case_bool_decide; [intros [= <- <-]; eexists C, _, []; by rewrite app_nil_r|].
  generalize (ipString (SrcIP event)), (DestPort event). intros ip port.
  destruct (LoadOrStore ip st) as [l st1] eqn:Hlo. intros [= <- <-].
  unfold nm_sim in Hs. rewrite Hat in Hs. destruct Hs as [_ Hs]. destruct Hwf as [Hf Hi].
  assert (Hst1 : nm_wf st1 ∧ ipPortsMap st1 !! ip = Some l ∧ default ∅ (portSets st1 !! l) = default ∅ (C !! ip) ∧
                 (∀ i, i ≠ ip → nm_ports st1 i = C !! i) ∧ (l < nm_fresh st1)%nat).
  { unfold LoadOrStore in Hlo. rewrite (Hs ip). unfold nm_ports.
    destruct (ipPortsMap st !! ip) as [l0|] eqn:Hm; injection Hlo as <- <-; simpl.
    - split_and!; [by split|done|done|intros; symmetry; apply Hs|by eapply Hf].
    - rewrite !lookup_insert_eq. split_and!; [split; simpl|done|done| |lia].
      + intros i l. rewrite lookup_insert_Some. intros [[_ <-]|[_ Hl%Hf]]; lia.
      + intros i j l. rewrite !lookup_insert_Some.
        intros [[<- <-]|[? Hl]] [[<- ?]|[? Hl2]]; try done; [apply Hf in Hl2; lia|subst; apply Hf in Hl; lia|by eapply Hi].
      + intros i Hne. rewrite Hs. unfold nm_ports. simpl. rewrite lookup_insert_ne by done.
        destruct (ipPortsMap st !! i) as [l'|] eqn:Hl'; [|done]. simpl.
        apply Hf in Hl'. by rewrite lookup_insert_ne by lia. }
  destruct Hst1 as ([Hf1 Hi1] & Hm1 & Hset & Hoth & Hl).
  destruct (nm_spec_count cfg ip port C) as [C' out'] eqn:Hsp. exists C', out', out'.
  split_and!; [done|done|by split|]. unfold nm_sim. simpl.
  destruct (nm_count cfg ip l port _) as [st2 out2] eqn:Hc.
  unfold nm_count, nm_spec_count in *. simpl in Hc. rewrite Hset in Hc.
  assert (Hne : ∀ i l', i ≠ ip → ipPortsMap st1 !! i = Some l' → l' ≠ l).
  { intros i l' Hne Hl' ->. apply Hne. by eapply Hi1. }
  destruct (_ && _); injection Hc as <- <-; injection Hsp as <- <-; (split_and!; [done|done|by left|]); intros i;
    unfold nm_ports; simpl; (destruct (decide (i = ip)) as [->|Hi']).
  - by rewrite !lookup_delete_eq.
  - rewrite !lookup_delete_ne by done. rewrite <- Hoth by done. unfold nm_ports.
    destruct (ipPortsMap st1 !! i) as [l'|] eqn:Hl'; [|done]. simpl.
    rewrite lookup_insert_ne; [done|]. intros ->. by eapply Hne.
  - rewrite lookup_insert_eq, Hm1. simpl. by rewrite lookup_insert_eq.
  - rewrite lookup_insert_ne by done. rewrite <- Hoth by done. unfold nm_ports.
    destruct (ipPortsMap st1 !! i) as [l'|] eqn:Hl'; [|done]. simpl.
    rewrite lookup_insert_ne; [done|]. intros ->. by eapply Hne.
Qed.

Lemma nm_sim_steps st es out st' C pend :
  nm_wf st → nm_sim st C pend → nm_steps cfg st es out st' →
  ∃ C' pend' out', nm_spec_run cfg es C = (C', out') ∧ pend ++ out' = out ++ pend' ∧
    nm_wf st' ∧ nm_sim st' C' pend'.
Proof.
  intros Hwf Hs Hst. revert C pend Hwf Hs. induction Hst as [st|st1 e out1 st2 es out2 st3 H1 Hst IH]; intros C pend Hwf Hs.
  { exists C, pend, []. split_and!; [done|by rewrite app_nil_r|done|done]. }
  simpl. destruct H1 as [st sample st' out Hat Hr|st ip l port st' out Hat Hc|st]; simpl.
  - assert (pend = []) as -> by (unfold nm_sim in Hs; rewrite Hat in Hs; by destruct Hs).
    destruct (nm_sim_read _ _ _ _ _ Hwf Hat Hs Hr) as (C' & out' & pend' & -> & -> & Hwf' & Hs').
    destruct (IH C' pend' Hwf' Hs') as (S2 & pend2 & out2' & -> & Heq & Hwf2 & Hs2).
    exists S2, pend2, ((out ++ pend') ++ out2'). split_and!; [done| |done|done].
    simpl. by rewrite <- !app_assoc, Heq.
  - assert (pend = out) as -> by (unfold nm_sim in Hs; rewrite Hat, Hc in Hs; by destruct Hs).
    destruct (nm_sim_count _ _ _ _ _ _ _ Hwf Hat Hs Hc) as [Hwf' Hs'].
    destruct (IH C [] Hwf' Hs') as (S2 & pend2 & out2' & -> & Heq & Hwf2 & Hs2).
    exists S2, pend2, out2'. split_and!; [done| |done|done]. simpl in Heq. by rewrite Heq, app_assoc.
  - apply nm_sim_clear in Hs. destruct (IH ∅ pend) as (S2 & pend2 & out2' & -> & Heq & Hwf2 & Hs2); [by split|done|].
    by exists S2, pend2, out2'.
Qed.

(** C24: the race is harmless.  However [clearMap] is interleaved with the event loop, which
    keeps a reference to a port set across its iterations, the loop reports exactly what
    a counter reports that counts each record at once when it is read. *)
Theorem counters_linearizable es out st :
  nm_steps cfg nm_init es out st → nm_at st = Reading → snd (nm_spec_run cfg es ∅) = out.
Proof.
  intros Hst Hat. apply (nm_sim_steps _ _ _ _ ∅ []) in Hst as (C & pend & out' & Hrun & Heq & _ & Hs).
  - unfold nm_sim in Hs. rewrite Hat in Hs. destruct Hs as [-> _]. rewrite Hrun. simpl in *.
    by rewrite Heq, app_nil_r.
  - split; intros i; simpl; rewrite !lookup_empty; done.
  - split; [done|]. intros i. unfold nm_ports. by rewrite !lookup_empty.
Qed.
End Refine.

(** ** When a scan is reported *)
Section Threshold.
Variable cfg : EbpfNetworkAntireconConfig.

Definition below (C : gmap string (gset Z)) : Prop :=
  ∀ ip ports, C !! ip = Some ports → 0 < PortsCount cfg → Z.of_nat (size ports) < PortsCount cfg.

Lemma spec_step_below e C C' out :
  0 < PortsCount cfg → below C → nm_spec_step cfg e C = (C', out) →
  below C' ∧ ∀ ip n, Scanned ip n ∈ out → n = PortsCount cfg.
Proof.
  intros Hpos Hb. destruct e as [sample| |]; simpl.
  2: { intros [= <- <-]. split; [done|]. by intros ip n ?%elem_of_nil. }
  2: { intros [= <- <-]. split; [intros ip ports; by rewrite lookup_empty|]. by intros ip n ?%elem_of_nil. }
  unfold nm_spec_read. destruct (parseEvent sample) as [event|].
  2: { intros [= <- <-]. split; [done|]. by intros ip n ?%elem_of_nil. }
  case_bool_decide; [intros [= <- <-]; split; [done|]; by intros ip n ?%elem_of_nil|].
  case_bool_decide; [intros [= <- <-]; split; [done|]; by intros ip n ?%list_elem_of_singleton|].
  generalize (ipString (SrcIP event)), (DestPort event). intros ip port. unfold nm_spec_count.
  assert (Hold : Z.of_nat (size (default ∅ (C !! ip) : gset Z)) < PortsCount cfg).
  { destruct (C !! ip) as [ports|] eqn:Hc; [by eapply Hb|].
    change (Z.of_nat (size (∅ : gset Z)) < PortsCount cfg). by rewrite size_empty. }
  assert (Hle : (size ({[port]} ∪ default ∅ (C !! ip) : gset Z) <= S (size (default ∅ (C !! ip) : gset Z)))%nat).
  { rewrite size_union_alt, size_singleton.
    assert (size (default ∅ (C !! ip) ∖ {[port]} : gset Z) <= size (default ∅ (C !! ip) : gset Z))%nat; [|lia].
    apply subseteq_size. set_solver. }
  destruct (_ && _) eqn:Hth; bool_hyps; intros [= <- <-].
  - split; [intros i ports; rewrite lookup_delete_Some; intros [_ Hc]; by eapply Hb|].
    intros i n [= -> ->]%list_elem_of_singleton. lia.
  - split; [|by intros i n ?%elem_of_nil]. intros i ports. rewrite lookup_insert_Some.
    intros [[<- <-]|[_ Hc]]; [|by eapply Hb].
    apply andb_false_iff in Hth as [Hth|Hth]; bool_hyps; lia.
Qed.

Lemma spec_run_threshold es C C' out :
  0 < PortsCount cfg → below C → nm_spec_run cfg es C = (C', out) →
  ∀ ip n, Scanned ip n ∈ out → n = PortsCount cfg.
Proof.
  intros Hpos. revert C C' out. induction es as [|e es IH]; intros C C' out Hb; simpl.
  { intros [= <- <-]. by intros ip n ?%elem_of_nil. }
  destruct (nm_spec_step cfg e C) as [C1 out1] eqn:H1. apply spec_step_below in H1 as [Hb1 Ho1]; [|done..].
  destruct (nm_spec_run cfg es C1) as [C2 out2] eqn:H2. intros [= <- <-] ip n [?|?]%elem_of_app; [by eapply Ho1|].
  by eapply IH.
Qed.
End Threshold.

(** A scan that is reported counts exactly [ports_count] different ports, whatever the
    interleaving. *)
Theorem scan_reported_at_threshold cfg es out st ip n :
  0 < PortsCount cfg → nm_steps cfg nm_init es out st → Scanned ip n ∈ out → n = PortsCount cfg.
Proof.
  intros Hpos Hst Hin. apply (nm_sim_steps _ _ _ _ _ ∅ []) in Hst as (C & pend & out' & Hrun & Heq & _ & _).
  - simpl in Heq. apply (spec_run_threshold _ _ _ _ _ Hpos) with (ip := ip) (n := n) in Hrun; [done| |].
    + intros i ports. by rewrite lookup_empty.
    + rewrite Heq. set_solver.
  - split; intros i; simpl; rewrite !lookup_empty; done.
  - split; [done|]. intros i. unfold nm_ports. by rewrite !lookup_empty.
Qed.

(** ** The addresses *)
Lemma be_load_4 a b c d :
  be_load [a; b; c; d] = a * 2 ^ 24 + b * 2 ^ 16 + c * 2 ^ 8 + d.
Proof. unfold be_load. simpl. lia. Qed.

Lemma ipString_bytes a b c d :
  is_byte a → is_byte b → is_byte c → is_byte d → ipString (be_load [a; b; c; d]) = dotted a b c d.
Proof.
  unfold is_byte. intros Ha Hb Hc Hd. unfold ipString, wrap_u8.
  rewrite !Z.shiftr_div_pow2, be_load_4 by lia. change (2 ^ 8) with 256. change (2 ^ 16) with (256 * 256).
  change (2 ^ 24) with (256 * 256 * 256).
  f_equal; Z.to_euclidean_division_equations; nia.
Qed.

Lemma parseEvent_bytes a b c d h l rest :
  is_byte a → is_byte b → is_byte c → is_byte d →
  ∃ event, parseEvent ([a; b; c; d] ++ [h; l] ++ rest) = Some event ∧
    ipString (SrcIP event) = dotted a b c d ∧ DestPort event = h * 256 + l.
Proof.
  intros Ha Hb Hc Hd. eexists. split; [done|]. simpl. split; [by apply ipString_bytes|].
  unfold be_load. simpl. lia.
Qed.

Lemma list_4 (l : list Z) : length l = 4%nat → ∃ a b c d, l = [a; b; c; d].
Proof. destruct l as [|a [|b [|c [|d [|]]]]]; try done. eauto. Qed.
Lemma list_2 (l : list Z) : length l = 2%nat → ∃ h k, l = [h; k].
Proof. destruct l as [|h [|k [|]]]; try done. eauto. Qed.

(** C14: byte orders.  The kernel program turns the address and the port into host order
    before it stores them, and the user side reads them in network order: on the
    little-endian machines the program is built for, the address the monitor counts,
    reports and bans is the source address of the packet with its four octets reversed,
    and the port has its two bytes swapped. *)
Theorem reported_address_reversed padding pkt record a b c d :
  Forall is_byte pkt → take 4 (drop 26 pkt) = [a; b; c; d] →
  xdp_network_monitor true padding pkt = Some record →
  ∃ event h l, parseEvent record = Some event ∧ ipString (SrcIP event) = dotted d c b a ∧
    take 2 (drop (14 + Z.to_nat (Z.land (load 1 14 pkt) 15 * 4) + 2) pkt) = [h; l] ∧
    DestPort event = l * 256 + h.
Proof.
  intros Hb Haddr. unfold xdp_network_monitor.
  destruct (length pkt <? 14)%nat; [done|]. destruct (negb (_ =? ETH_P_IP)); [done|].
  destruct (length pkt <? 34)%nat; [done|]. destruct (negb (_ =? IPPROTO_TCP)); [done|].
  set (hl := Z.to_nat (Z.land (load 1 14 pkt) 15 * 4)). clearbody hl.
  destruct (hl <? 20)%nat; [done|].
  destruct (length pkt <? 14 + hl + 20)%nat eqn:Hlen; [done|]. apply Nat.ltb_ge in Hlen.
  destruct (negb (_ && _)); [done|]. cbn [negb]. intros Hrec. apply (inj Some) in Hrec as <-.
  destruct (list_2 (take 2 (drop (14 + hl + 2) pkt))) as (h & l & Hport).
  { rewrite length_take, length_drop. lia. }
  assert (Hbytes : Forall is_byte [a; b; c; d] ∧ Forall is_byte [h; l]).
  { rewrite <- Haddr, <- Hport. split; by apply Forall_take, Forall_drop. }
  destruct Hbytes as [Ha Hp]. unfold load. rewrite Haddr, Hport.
  pose proof (swap_le_load _ Ha) as E1. pose proof (swap_le_load _ Hp) as E2.
  pose proof (le_bytes_be_load _ Ha) as E3. pose proof (le_bytes_be_load _ Hp) as E4.
  cbn [length] in E1, E2, E3, E4. rewrite E1, E2, E3, E4.
  rewrite !Forall_cons in Ha. destruct Ha as (Ha1 & Ha2 & Ha3 & Ha4 & _).
  destruct (parseEvent_bytes d c b a l h padding) as (event & He & Hip & Hdp); [done..|].
  exists event, h, l. split_and!; done.
Qed.

(** What a report means.  The log is told of a new ban exactly when the monitor blocks
    and the address had no row; the firewall then drops the address and its row lasts
    [ban_seconds].  A failing or repeated ban logs nothing. *)
Theorem report_new_ban {R F} `{RepositorySpec R} `{FirewallSpec F} ctx cfg now ip (p p' : banPool R F) logged :
  pool_inv p → nm_report ctx cfg now ip p = (p', logged) →
  (na_Mode cfg ≠ "blocker" → p' = p ∧ logged = Some false) ∧
  (logged = Some true → na_Mode cfg = "blocker" ∧ block p' ip = true ∧
     (∀ b, b ∈ rows p → IP b ≠ ip) ∧
     ∃ b, b ∈ rows p' ∧ IP b = ip ∧ BannedUntil b = now + seconds_duration (na_BanSeconds cfg)) ∧
  (na_Mode cfg = "blocker" → logged ≠ Some false).
Proof.
  intros Hinv. unfold nm_report. case_bool_decide as Hm; [|by intros [= <- <-]].
  unfold bp_BanIP, pool_ops. destruct (BanIP now ip (na_BanSeconds cfg) p) as [[p1 [already err]] started] eqn:Hb.
  apply BanIP_spec in Hb as [Hinv' _ _ _ _ _ _ Hst Hok]; [|done].
  destruct err as [e|]; [destruct already; intros [= <- <-]; done|].
  destruct already; [intros [= <- <-]; done|].
  intros [= <- <-]. split_and!; [done| |done]. intros _. destruct started as [b|]; [|by destruct Hst].
  destruct Hst as (_ & _ & Hrows & Hid & Hip & _ & Hu). destruct (Hok eq_refl) as (_ & Hbl & _).
  split_and!; [done|done| |exists b; rewrite Hrows; set_solver].
  intros x Hx Hxip. assert (x = b) as ->; [|pose proof (tok_next _ _ (pi_table _ Hinv) b Hx); unfold pool_next in *; lia].
  apply (tok_ips _ _ (pi_table _ Hinv')); rewrite ?Hrows; [set_solver|set_solver|congruence].
Qed.

(** ** Concrete runs *)
Definition two_ports : EbpfNetworkAntireconConfig := MkAntirecon "blocker" 2 60 100 (Some [22]) (Some [23]).
Definition sample (port : Z) : list Z := [10; 0; 0; 7; 0; port].

(** The window ends while the loop holds the port set; the second port starts over. *)
Definition race : list nm_event :=
  [NmRead (sample 80); NmClear; NmCount; NmRead (sample 81); NmCount; NmRead (sample 23);
   NmRead (sample 22); NmRead (sample 82); NmCount].
Definition race_out : list nm_message := [HitBlacklisted "10.0.0.7" 23; Scanned "10.0.0.7" 2].

Lemma race_steps : ∃ st, nm_steps two_ports nm_init race race_out st ∧ nm_at st = Reading.
Proof.
  assert (Hr : ∃ st, nm_run two_ports race nm_init = Some (st, race_out) ∧ nm_at st = Reading).
  { eexists. vm_compute. split; reflexivity. }
  destruct Hr as (st & Hr & Hat). exists st. split; [by apply nm_run_steps|done].
Qed.

Lemma counters_linearizable_witness : snd (nm_spec_run two_ports race ∅) = race_out.
Proof.
  destruct race_steps as (st & Hst & Hat). exact (counters_linearizable two_ports race race_out st Hst Hat).
Defined.

Lemma scan_reported_at_threshold_witness : 2 = PortsCount two_ports.
Proof.
  destruct race_steps as (st & Hst & _).
  apply (scan_reported_at_threshold two_ports race race_out st "10.0.0.7" 2); [simpl; lia|done|].
  unfold race_out. set_solver.
Defined.

(** A SYN of 10.0.0.7 to port 80. *)
Definition syn_packet : list Z :=
  replicate 12 0 ++ [8; 0] ++
  [69; 0; 0; 40; 0; 0; 0; 0; 64; 6; 0; 0; 10; 0; 0; 7; 192; 168; 0; 1] ++
  [200; 0; 0; 80; 0; 0; 0; 1; 0; 0; 0; 0; 80; 2; 255; 255; 0; 0; 0; 0].

Lemma reported_address_reversed_witness :
  ∃ event h l, parseEvent [7; 0; 0; 10; 80; 0; 0; 0] = Some event ∧ ipString (SrcIP event) = dotted 7 0 0 10 ∧
    take 2 (drop (14 + Z.to_nat (Z.land (load 1 14 syn_packet) 15 * 4) + 2) syn_packet) = [h; l] ∧
    DestPort event = l * 256 + h.
Proof.
  apply (reported_address_reversed [0; 0] syn_packet [7; 0; 0; 10; 80; 0; 0; 0] 10 0 0 7).
  - unfold syn_packet, is_byte. repeat (constructor; [lia|]). constructor.
  - reflexivity.
  - vm_compute. reflexivity.
Defined.

Lemma report_new_ban_witness :
  na_Mode two_ports = "blocker" ∧ block pool_banned ip7 = true ∧
  (∀ b, b ∈ rows pool_empty → IP b ≠ ip7) ∧
  ∃ b, b ∈ rows pool_banned ∧ IP b = ip7 ∧ BannedUntil b = 0 + seconds_duration (na_BanSeconds two_ports).
Proof.
  assert (Hr : nm_report 0%nat two_ports 0 ip7 pool_empty = (pool_banned, Some true)) by (vm_compute; reflexivity).
  exact (proj1 (proj2 (report_new_ban 0%nat two_ports 0 ip7 pool_empty pool_banned (Some true) pool_empty_inv Hr)) eq_refl).
Defined.
