(* ===== verification/Protocol.v ===== *)
(** * pkg/protocol: envelopes and events

    The constants, records and constructors of the wire protocol.  [encoding/json] is the
    class [Json]: the text of a payload, and the reading of a text into each of the types
    the program decodes. *)

From Stdlib Require Import Floats.SpecFloat.
From S2P Require Import Prelude.
From S2P Require Import GoStrings.
From S2P Require Import Config.

Definition Version : Z := 2.
Definition ServiceSystem : string := "system".
Definition ServiceConfig : string := "config".
Definition ServiceAlert : string := "alert".
Definition OpHello : string := "hello".
Definition OpAck : string := "ack".
Definition OpSetConfig : string := "set_config".
Definition OpGetConfig : string := "get_config".
Definition OpConfig : string := "config".
Definition OpRaised : string := "raised".
Definition SourceSSHMonitor : string := "ssh_monitor".
Definition SourceWebBruteMonitor : string := "web_brute_monitor".
Definition SourceWebReconMonitor : string := "web_recon_monitor".
Definition SourceDatabaseMonitor : string := "database_monitor".
Definition SourceNetworkAntirecon : string := "network_antirecon".
Definition SourceResourceMonitor : string := "resource_monitor".
Definition SourceIPBan : string := "ip_ban".
Definition SourceUserCommandController : string := "user_command_controller".
Definition SeverityCritical : string := "critical".
Definition SeverityHigh : string := "high".
Definition SeverityWarning : string := "warning".
Definition SeverityAlert : string := "alert".
Definition StatusOK : string := "ok".
Definition StatusError : string := "error".

Record Envelope := MkEnvelope {
  env_Version : Z; TaskID : Z; Service : string; Operation : string;
  ConfigurationID : string; env_UserID : string; Payload : string }.

Record HelloPayload := MkHello { PublicKey : string; AgentVersion : string }.
Record AckPayload := MkAck { ack_Status : string; ack_Error : string }.
Record ConfigPayload := MkConfigPayload { cp_Config : string }.

(** The values [Details] holds. *)
Inductive detail : Type :=
| DString (s : string)
| DUint (n : Z)
| DFloat (f : spec_float).

(** [HappenedAt] is [None] for the zero time. *)
Record AlertEvent := MkAlert {
  ev_Source : string; Severity : string; ev_IP : string; Message : string;
  HappenedAt : option Z; Details : list (string * detail) }.
Record AlertPayload := MkAlertPayload { Events : list AlertEvent }.

(** The dynamic type of a payload. *)
Inductive payload : Type :=
| PNil
| PRaw (raw : string)
| PHello (p : HelloPayload)
| PAck (p : AckPayload)
| PConfig (p : ConfigPayload)
| PAlert (p : AlertPayload).

Inductive protocol_err : Type :=
| MarshalFailed
| EmptyPayload
| UnmarshalFailed.

Class Json := {
  json_Marshal : payload → option string;
  json_Marshal_Config : Config → option string;
  json_Marshal_Envelope : Envelope → option string;
  json_Unmarshal_Envelope : string → option Envelope;
  json_Unmarshal_Hello : string → option HelloPayload;
  json_Unmarshal_Ack : string → option AckPayload;
  json_Unmarshal_Config : string → option ConfigPayload;
  (** into an existing configuration, as [json.Unmarshal(raw, &incoming)] *)
  json_Unmarshal_into : string → Config → option Config }.

Section Envelopes.
Context `{Json}.

Definition marshalPayload (p : payload) : option string :=
  match p with
  | PNil => Some "{}"
  | PRaw raw => if bool_decide (raw = "") then Some "{}" else Some raw
  | _ => json_Marshal p
  end.
Definition MarshalPayload (p : payload) : option string := marshalPayload p.

Definition NewEnvelope (service operation configurationID userID : string) (taskID : Z) (p : payload)
    : result protocol_err Envelope :=
  match marshalPayload p with
  | None => Err MarshalFailed
  | Some raw => Ok (MkEnvelope Version taskID service operation configurationID userID raw)
  end.

(** [DecodePayload] into a type whose reading is [unmarshal]. *)
Definition DecodePayload {T} (unmarshal : string → option T) (e : Envelope) : result protocol_err T :=
  if bool_decide (Payload e = "") then Err EmptyPayload
  else match unmarshal (Payload e) with None => Err UnmarshalFailed | Some t => Ok t end.
End Envelopes.
