(* ===== verification/Monitor.v ===== *)
(** * pkg/monitor/monitor.go: the log monitors and the hub

    A log monitor counts the hits of each address over a window and bans it on the
    [tries]-th.  The counters are a [sync.Map] that [clearMaps] empties at any moment:
    the loop is split where it loads a counter and where it stores it back.  What the
    loop does to the outside is a list of [hub_out]. *)

From S2P Require Import Prelude.
From S2P Require Import GoStrings.
From S2P Require Import GoFloat.
From S2P Require Import Repository.
From S2P Require Import BanPool.
From S2P Require Import Firewall.
From S2P Require Import FirewallEngines.
From S2P Require Import BanPoolOps.
From S2P Require Import BanPoolExamples.
From S2P Require Import Config.
From S2P Require Import ConfigValidate.
From S2P Require Import ConfigExamples.
From S2P Require Import Protocol.

Definition journalAlert : Z := 1.
Definition journalWarning : Z := 4.
Definition journalInfo : Z := 6.
Definition exportQueueSize : Z := 1024.
Definition windowPollInterval : Z := 1 * second.

(** ** The export queue: the buffered channel [exportChan] *)
Definition with_happened_at (t : Z) (event : AlertEvent) : AlertEvent :=
  match HappenedAt event with
  | Some _ => event
  | None => MkAlert (ev_Source event) (Severity event) (ev_IP event) (Message event) (Some t) (Details event)
  end.

Definition export `{Json} (exporter : ExporterConfig) (now : Z) (event : AlertEvent) (queue : list Envelope)
    : list Envelope :=
  if negb (ex_Enabled exporter) then queue
  else
    let event := with_happened_at now event in
    match NewEnvelope ServiceAlert OpRaised (ConfigID exporter) (UserID exporter) 0
            (PAlert (MkAlertPayload [event])) with
    | Err _ => queue
    | Ok envelope =>
        if Z.of_nat (length queue) <? exportQueueSize then queue ++ [envelope] else queue
    end.

(** ** A log monitor *)
Inductive hub_out : Type :=
| AskedBan (ip : string) (seconds : Z)               (* mh.bp.BanIP *)
| Alerted (level : Z) (event : AlertEvent)           (* mh.alert: a log line and an export *)
| Exported (event : AlertEvent).                     (* mh.export *)

Definition getIp {RE} `{Regexp RE} (re : RE) (message : string) : option string :=
  match FindStringSubmatch re message with
  | None | Some [] => None
  | Some matches =>
      match list_find (λ name, name = "ip") (SubexpNames re) with
      | Some (i, _) => matches !! i
      | None => None
      end
  end.

Definition banned_event (ip : string) : AlertEvent :=
  MkAlert SourceIPBan "" ip ("ip_ban -> " +:+ ip +:+ " is banned") None [].

Definition offender_event (name ip : string) (bm : BaseFields) : AlertEvent :=
  MkAlert name "" ip
    (name +:+ " -> found offenders ip " +:+ ip +:+ " while scanning " +:+ Engine bm +:+ ": " +:+
     LogPath bm +:+ "-" +:+ UnitName bm) None
    [("engine", DString (Engine bm)); ("source", DString (Config.Source bm))].

(** The loop stands before a message, or holds the counter it loaded for an address. *)
Inductive bm_phase : Type :=
| BmIdle
| BmLoaded (ip : string) (counter : Z).

Record bm_state (P : Type) := BmState {
  bm_at : bm_phase; ipAttemptsMap : gmap string Z; bm_pool : P }.
Arguments BmState {_} _ _ _.
Arguments bm_at {_} _.
Arguments ipAttemptsMap {_} _.
Arguments bm_pool {_} _.

Inductive bm_event : Type :=
| BmRead (message : string)
| BmCount (now : Z)
| BmClear.

Section BaseMonitor.
Context {RE P : Type} `{Regexp RE} `{BanPool P}.
Variables (ctx : context) (name : string) (whitelist : slice string) (bm : BaseFields) (re : RE).

(** From the receive to [LoadOrStore]. *)
Definition bm_read (message : string) (st : bm_state P) : bm_state P :=
  match getIp re message with
  | None => st
  | Some ip =>
      if contains_elem (items whitelist) ip then st
      else
        match ipAttemptsMap st !! ip with
        | Some counter => BmState (BmLoaded ip counter) (ipAttemptsMap st) (bm_pool st)
        | None => BmState (BmLoaded ip 0) (<[ip := 0]> (ipAttemptsMap st)) (bm_pool st)
        end
  end.

(** The ban and the events of the [tries]-th hit. *)
Definition bm_hit (now : Z) (ip : string) (p : P) : P * list hub_out :=
  let '(p, isNewBan, asked) :=
    if bool_decide (Mode bm = modeBlocker) then
      match bp_BanIP ctx now ip (BanSeconds bm) p with
      | (p, (_, Some _)) => (p, false, [AskedBan ip (BanSeconds bm)])
      | (p, (alreadyBanned, None)) => (p, negb alreadyBanned, [AskedBan ip (BanSeconds bm)])
      end
    else (p, false, []) in
  if negb (bool_decide (Mode bm = modeBlocker)) || isNewBan then
    (p, asked ++ [Alerted journalInfo (offender_event name ip bm)] ++
        (if isNewBan then [Exported (banned_event ip)] else []))
  else (p, asked).

(** The rest of the iteration, up to [Store]. *)
Definition bm_count (now : Z) (ip : string) (counter : Z) (st : bm_state P) : bm_state P * list hub_out :=
  let counter := wrap_u64 (counter + 1) in
  if Tries bm <=? counter then
    let '(p, out) := bm_hit now ip (bm_pool st) in
    (BmState BmIdle (<[ip := 0]> (ipAttemptsMap st)) p, out)
  else (BmState BmIdle (<[ip := counter]> (ipAttemptsMap st)) (bm_pool st), []).

Definition bm_clear (st : bm_state P) : bm_state P := BmState (bm_at st) ∅ (bm_pool st).

(** One event; [None] where it is not possible. *)
Definition bm_next (e : bm_event) (st : bm_state P) : option (bm_state P * list hub_out) :=
  match e, bm_at st with
  | BmRead message, BmIdle => Some (bm_read message st, [])
  | BmCount now, BmLoaded ip counter => Some (bm_count now ip counter st)
  | BmClear, _ => Some (bm_clear st, [])
  | _, _ => None
  end.

Fixpoint bm_run (es : list bm_event) (st : bm_state P) : option (bm_state P * list hub_out) :=
  match es with
  | [] => Some (st, [])
  | e :: es' =>
      '(st1, out1) ← bm_next e st;
      '(st2, out2) ← bm_run es' st1;
      Some (st2, out1 ++ out2)
  end.
End BaseMonitor.

Definition bm_init {P} (p : P) : bm_state P := BmState BmIdle ∅ p.

Inductive monitor_err : Type :=
| ErrCompileRegexp
| ErrEngineNotFound
| ErrCantGetCPUUsage
| ErrCantGetRAMUsage
| ErrCantGetTrafficUsage
| ErrCantGetDiskUsage.

(** What [RunBaseMonitor] does before its loop: whether it cancels the context, and the
    error it returns or the pattern it loops with. *)
Definition RunBaseMonitor_start {RE} `{Regexp RE} (bm : BaseFields) : bool * result monitor_err (option RE) :=
  if bool_decide (Mode bm = modeDisabled) then (false, Ok None)
  else
    match Compile (Pattern bm) with
    | None => (true, Err ErrCompileRegexp)
    | Some re =>
        if contains_elem ["docker"; "journal"; "syslog"] (Engine bm) then (false, Ok (Some re))
        else (false, Err ErrEngineNotFound)
    end.

(** ** The resource monitor *)

(** What [checkLimits] found, [alerted] being its result. *)
Inductive limit_check : Type := LimitAlert | LimitWarning | NoLimit.
Definition alerted (c : limit_check) : bool := match c with LimitAlert => true | _ => false end.

Definition checkLimits (value : float64) (limits : ResourceFields) : limit_check :=
  if negb (Alert limits =? 0) && float_ge value (of_uint64 (Alert limits)) then LimitAlert
  else if negb (Warning limits =? 0) && float_ge value (of_uint64 (Warning limits)) then LimitWarning
  else NoLimit.

Record net_counters := MkNet { BytesRecv : Z; BytesSent : Z }.
Record disk_counters := MkDisk { ReadCount : Z; WriteCount : Z }.

(** The differences are those of 64-bit unsigned counters. *)
Definition traffic_bytes (before after : list net_counters) : option Z :=
  match before, after with
  | b :: _, a :: _ =>
      Some (wrap_u64 (wrap_u64 (BytesRecv a - BytesRecv b) + wrap_u64 (BytesSent a - BytesSent b)))
  | _, _ => None
  end.
Definition disk_delta (before after : disk_counters) : Z :=
  wrap_u64 (wrap_u64 (ReadCount after - ReadCount before) + wrap_u64 (WriteCount after - WriteCount before)).
(** The order of the disks does not matter: the sum is taken modulo [2 ^ 64]. *)
Definition disk_iops (before after : gmap string disk_counters) : Z :=
  map_fold (λ name a total, match before !! name with
                            | Some b => wrap_u64 (total + disk_delta b a)
                            | None => total
                            end) 0 after.

(** One second. *)
Definition poll_seconds : float64 := of_uint64 1.
Definition traffic_mbs (before after : list net_counters) : float64 :=
  match traffic_bytes before after with
  | Some n => f64_div (f64_div (f64_div (of_uint64 n) poll_seconds) (of_uint64 1024)) (of_uint64 1024)
  | None => S754_zero false
  end.

(** The measurements in the order they are taken, each of which may fail. *)
Record measurements := MkMeasurements {
  netBefore : option (list net_counters); diskBefore : option (gmap string disk_counters);
  cpuPercents : option (list float64);
  netAfter : option (list net_counters); diskAfter : option (gmap string disk_counters);
  ramPercent : option float64 }.

(** A measured value under its name, in its unit, with its limits. *)
Record metric := MkMetric { mt_name : string; mt_unit : string; mt_value : float64; mt_limits : ResourceFields }.

(** The measurements, the first that failed, and the four values. *)
Definition resource_metrics (rm : ResourceMonitorConfig) (m : measurements) : result monitor_err (list metric) :=
  match netBefore m, diskBefore m, cpuPercents m, netAfter m, diskAfter m, ramPercent m with
  | None, _, _, _, _, _ => Err ErrCantGetTrafficUsage
  | _, None, _, _, _, _ => Err ErrCantGetDiskUsage
  | _, _, None, _, _, _ => Err ErrCantGetCPUUsage
  | _, _, _, None, _, _ => Err ErrCantGetTrafficUsage
  | _, _, _, _, None, _ => Err ErrCantGetDiskUsage
  | _, _, _, _, _, None => Err ErrCantGetRAMUsage
  | Some nb, Some db, Some [], Some na, Some da, Some ram => Err ErrCantGetCPUUsage
  | Some nb, Some db, Some (cpu :: _), Some na, Some da, Some ram =>
      Ok [MkMetric "cpu usage" "%" cpu (CpuUsagePersentage rm);
          MkMetric "ram usage" "%" ram (RamUsagePersentage rm);
          MkMetric "traffic usage" "mb/s" (traffic_mbs nb na) (TrafficUsageMBs rm);
          MkMetric "disk usage" "iops" (f64_div (of_uint64 (disk_iops db da)) poll_seconds) (DiskUsageIOps rm)]
  end.

(** ** Whitelisted addresses *)
Section Whitelist.
Context {RE P : Type} `{Regexp RE} `{BanPool P}.
Variables (ctx : context) (name : string) (whitelist : slice string) (bm : BaseFields) (re : RE).

Lemma bm_hit_asked now ip (p p' : P) out i s :
  bm_hit ctx name bm now ip p = (p', out) → AskedBan i s ∈ out → i = ip ∧ s = BanSeconds bm.
Proof.
  unfold bm_hit. case_bool_decide; simpl.
  - destruct (bp_BanIP _ _ _ _ p) as [p1 [already [e|]]]; simpl; [|destruct already; simpl];
      intros [= <- <-]; set_solver.
  - intros [= <- <-]. set_solver.
Qed.

Definition loaded_allowed (st : bm_state P) : Prop :=
  match bm_at st with BmIdle => True | BmLoaded ip _ => ip ∉ items whitelist end.

Lemma bm_next_allowed e st st' out :
  loaded_allowed st → bm_next ctx name whitelist bm re e st = Some (st', out) →
  loaded_allowed st' ∧ ∀ ip s, AskedBan ip s ∈ out → ip ∉ items whitelist.
Proof.
  unfold loaded_allowed. intros Hst. destruct e as [m|now|]; simpl.
  - destruct (bm_at st) as [|ip c] eqn:Hat; [|done]. intros [= <- <-]. split; [|set_solver].
    unfold bm_read. destruct (getIp re m) as [ip|]; [|by rewrite Hat].
    destruct (contains_elem _ ip) eqn:Hc; [by rewrite Hat|]. apply contains_elem_false in Hc.
    by destruct (ipAttemptsMap st !! ip).
  - destruct (bm_at st) as [|ip c]; [done|]. intros Hn. injection Hn as Hn. unfold bm_count in Hn.
    destruct (Tries bm <=? _); [|by injection Hn as <- <-; split; [|set_solver]].
    destruct (bm_hit ctx name bm now ip (bm_pool st)) as [p out'] eqn:Hh. injection Hn as <- <-.
    split; [done|]. intros i s Hin. by apply (bm_hit_asked _ _ _ _ _ _ _ Hh) in Hin as [-> _].
  - intros [= <- <-]. split; [exact Hst|set_solver].
Qed.

Lemma bm_run_allowed es st st' out :
  loaded_allowed st → bm_run ctx name whitelist bm re es st = Some (st', out) →
  ∀ ip s, AskedBan ip s ∈ out → ip ∉ items whitelist.
Proof.
  revert st st' out. induction es as [|e es IH]; intros st st' out Hst; simpl; [intros [= <- <-]; set_solver|].
  destruct (bm_next _ _ _ _ _ e st) as [[st1 out1]|] eqn:Hn; [|done].
  apply bm_next_allowed in Hn as [Hst1 Ho]; [|done]. simpl.
  destruct (bm_run _ _ _ _ _ es st1) as [[st2 out2]|] eqn:Hr; [|done]. simpl. intros [= <- <-].
  intros ip s [?|?]%elem_of_app; [by eapply Ho|by eapply IH].
Qed.
End Whitelist.

(** C26: a log monitor never asks for the ban of an address of [ip_whitelist], whatever the
    messages and however [clearMaps] is interleaved. *)
Theorem whitelist_never_banned {RE P} `{Regexp RE} `{BanPool P} ctx name whitelist bm (re : RE) es (p : P) st out ip s :
  bm_run ctx name whitelist bm re es (bm_init p) = Some (st, out) → AskedBan ip s ∈ out →
  ip ∉ items whitelist.
Proof. intros Hr. by apply (bm_run_allowed ctx name whitelist bm re es (bm_init p) st out I Hr). Qed.

(** ** Counting *)
Section Counting.
Context {RE P : Type} `{Regexp RE} `{BanPool P}.
Variables (ctx : context) (name : string) (whitelist : slice string) (bm : BaseFields) (re : RE).

(** The messages of one window handled one after the other, at the given instants. *)
Fixpoint window_events (messages : list (string * Z)) : list bm_event :=
  match messages with
  | [] => []
  | (m, now) :: messages' =>
      BmRead m ::
      match getIp re m with
      | Some ip => if contains_elem (items whitelist) ip then [] else [BmCount now]
      | None => []
      end ++ window_events messages'
  end.

Fixpoint hits (ip : string) (messages : list (string * Z)) : Z :=
  match messages with
  | [] => 0
  | (m, _) :: messages' => (if bool_decide (getIp re m = Some ip) then 1 else 0) + hits ip messages'
  end.

Definition is_ask (ip : string) (o : hub_out) : bool :=
  match o with AskedBan i _ => bool_decide (i = ip) | _ => false end.
Definition asks (ip : string) (out : list hub_out) : Z :=
  Z.of_nat (length (List.filter (is_ask ip) out)).

Lemma asks_app ip l k : asks ip (l ++ k) = asks ip l + asks ip k.
Proof. unfold asks. rewrite List.filter_app, length_app. lia. Qed.

Lemma bm_hit_asks now ip (p p' : P) out i :
  Mode bm = modeBlocker → bm_hit ctx name bm now ip p = (p', out) →
  asks i out = if bool_decide (i = ip) then 1 else 0.
Proof.
  unfold bm_hit. intros ->. rewrite bool_decide_true by done.
  destruct (bp_BanIP _ _ _ _ p) as [p1 [already [e|]]]; simpl; [|destruct already; simpl]; intros [= <- <-];
    unfold asks; simpl; destruct (decide (i = ip)) as [->|Hne];
    rewrite ?(bool_decide_true (ip = ip)) by done; rewrite ?bool_decide_false by congruence; done.
Qed.

(** The count an address starts a message with, and the bans it was asked so far. *)
Definition counts (st : bm_state P) (ip : string) : Z := default 0 (ipAttemptsMap st !! ip).

Lemma bm_read_loads m st ip :
  bm_at st = BmIdle → getIp re m = Some ip → ip ∉ items whitelist →
  bm_at (bm_read whitelist re m st) = BmLoaded ip (counts st ip) ∧
  bm_pool (bm_read whitelist re m st) = bm_pool st ∧
  ∀ i, i ≠ ip → ipAttemptsMap (bm_read whitelist re m st) !! i = ipAttemptsMap st !! i.
Proof.
  intros Hat Hip Hw. unfold bm_read, counts. apply contains_elem_false in Hw. rewrite Hip, Hw.
  destruct (ipAttemptsMap st !! ip) as [c|]; simpl; split_and!; try done.
  intros i Hi. by rewrite lookup_insert_ne.
Qed.

Lemma bm_count_counts now ip c st st' out :
  1 <= Tries bm < 2 ^ 64 → Mode bm = modeBlocker → 0 <= c < Tries bm →
  bm_count ctx name bm now ip c st = (st', out) →
  bm_at st' = BmIdle ∧
  (∀ i, counts st' i = if bool_decide (i = ip) then (c + 1) mod Tries bm else counts st i) ∧
  (∀ i, asks i out = if bool_decide (i = ip) then (c + 1) / Tries bm else 0).
Proof.
  intros Ht Hm Hc. unfold bm_count. rewrite wrap_u64_small by (unfold in_u64; lia).
  destruct (Tries bm <=? c + 1) eqn:Hle; bool_hyps.
  - destruct (bm_hit ctx name bm now ip (bm_pool st)) as [p out'] eqn:Hh. intros [= <- <-].
    replace (c + 1) with (Tries bm) by lia. rewrite Z.mod_same, Z.div_same by lia. split_and!; [done| |].
    + intros i. unfold counts. simpl. destruct (decide (i = ip)) as [->|].
      * by rewrite lookup_insert_eq, bool_decide_true.
      * by rewrite lookup_insert_ne, bool_decide_false.
    + intros i. by eapply bm_hit_asks.
  - intros [= <- <-]. rewrite Z.mod_small, Z.div_small by lia. split_and!; [done| |].
    + intros i. unfold counts. simpl. destruct (decide (i = ip)) as [->|].
      * by rewrite lookup_insert_eq, bool_decide_true.
      * by rewrite lookup_insert_ne, bool_decide_false.
    + intros i. by destruct (bool_decide _).
Qed.

Lemma window_run messages st :
  1 <= Tries bm < 2 ^ 64 → Mode bm = modeBlocker → bm_at st = BmIdle → (∀ i, 0 <= counts st i < Tries bm) →
  ∃ st' out, bm_run ctx name whitelist bm re (window_events messages) st = Some (st', out) ∧
    ∀ i, i ∉ items whitelist →
      counts st' i = (counts st i + hits i messages) mod Tries bm ∧
      asks i out = (counts st i + hits i messages) / Tries bm.
Proof.
  intros Ht Hm. revert st. induction messages as [|[m now] messages IH]; intros st Hat Hc.
  { exists st, []. split; [done|]. intros i _. simpl. rewrite Z.add_0_r, Z.mod_small, Z.div_small by apply Hc. done. }
  simpl window_events. destruct (getIp re m) as [ip|] eqn:Hip; [destruct (contains_elem (items whitelist) ip) eqn:Hw|].
  - assert (Hr : bm_read whitelist re m st = st) by (unfold bm_read; by rewrite Hip, Hw).
    simpl. rewrite Hat. simpl. rewrite Hr. destruct (IH st Hat Hc) as (st' & out & -> & Hi).
    exists st', out. split; [done|]. intros i Hni. apply contains_elem_spec in Hw.
    rewrite Hip. rewrite bool_decide_false by (intros [= ->]; done). apply (Hi i Hni).
  - apply contains_elem_false in Hw. destruct (bm_read_loads m st ip Hat Hip Hw) as (Hat1 & _ & Hoth).
    set (st1 := bm_read whitelist re m st) in *.
    destruct (bm_count ctx name bm now ip (counts st ip) st1) as [st2 out2] eqn:Hcnt.
    pose proof (bm_count_counts _ _ _ _ _ _ Ht Hm (Hc ip) Hcnt) as (Hat2 & Hc2 & Ho2).
    assert (Hcs : ∀ i, counts st2 i = if bool_decide (i = ip) then (counts st ip + 1) mod Tries bm else counts st i).
    { intros i. rewrite Hc2. destruct (decide (i = ip)) as [->|Hne]; [by rewrite !bool_decide_true|].
      rewrite !bool_decide_false by done. unfold counts. by rewrite Hoth. }
    destruct (IH st2 Hat2) as (st3 & out3 & Hrun & Hi).
    { intros i. rewrite Hcs. destruct (bool_decide _); [apply Z.mod_pos_bound; lia|apply Hc]. }
    exists st3, (out2 ++ out3). split.
    + simpl. rewrite Hat. simpl. fold st1. rewrite Hat1. simpl. rewrite Hcnt. simpl. by rewrite Hrun.
    + intros i Hni. destruct (Hi i Hni) as [-> Ha]. rewrite asks_app, Ha, Ho2, Hcs. simpl. rewrite Hip.
      destruct (decide (i = ip)) as [->|Hne].
      * rewrite !bool_decide_true by done.
        rewrite Zplus_mod_idemp_l. replace (counts st ip + (1 + hits ip messages)) with (counts st ip + 1 + hits ip messages) by lia.
        split; [done|]. pose proof (Z.div_mod (counts st ip + 1) (Tries bm)).
        rewrite (Z.div_mod (counts st ip + 1) (Tries bm)) at 3 by lia.
        replace (Tries bm * ((counts st ip + 1) / Tries bm) + (counts st ip + 1) mod Tries bm + hits ip messages)
          with ((counts st ip + 1) mod Tries bm + hits ip messages + (counts st ip + 1) / Tries bm * Tries bm) by lia.
        rewrite Z.div_add by lia. lia.
      * rewrite !bool_decide_false by congruence. done.
  - assert (Hr : bm_read whitelist re m st = st) by (unfold bm_read; by rewrite Hip).
    simpl. rewrite Hat. simpl. rewrite Hr. destruct (IH st Hat Hc) as (st' & out & -> & Hi).
    exists st', out. split; [done|]. intros i Hni. rewrite Hip. apply (Hi i Hni).
Qed.
End Counting.

(** C15: within a window the pool is asked to ban an address on every [tries]-th hit and on
    no other: after [n] messages that name it, it was asked [n / tries] times, and the
    counter stands at [n mod tries]. *)
Theorem bans_every_tries_hits {RE P} `{Regexp RE} `{BanPool P} ctx name whitelist bm (re : RE) messages (p : P) ip :
  1 <= Tries bm < 2 ^ 64 → Mode bm = modeBlocker → ip ∉ items whitelist →
  ∃ st out, bm_run ctx name whitelist bm re (window_events whitelist re messages) (bm_init p) = Some (st, out) ∧
    counts st ip = hits re ip messages mod Tries bm ∧ asks ip out = hits re ip messages / Tries bm.
Proof.
  intros Ht Hm Hw. destruct (window_run ctx name whitelist bm re messages (bm_init p) Ht Hm eq_refl) as (st & out & Hr & Hi).
  - intros i. unfold counts, bm_init. simpl. rewrite lookup_empty. simpl. lia.
  - exists st, out. split; [done|]. destruct (Hi ip Hw) as [Hc Ha].
    unfold counts at 2 in Hc. unfold counts at 1 in Ha. unfold bm_init in *. simpl in *. rewrite lookup_empty in *. done.
Qed.

(** ** The race with [clearMaps] *)
Section Race.
Context {RE P : Type} `{Regexp RE} `{BanPool P}.
Variables (ctx : context) (name : string) (whitelist : slice string) (bm : BaseFields) (re : RE).
Variables (m : string) (ip : string).
Hypothesis Hip : getIp re m = Some ip.
Hypothesis Hw : ip ∉ items whitelist.
Hypothesis Ht : Tries bm = 3.

(** The asks of a run, which does not depend on what the pool answers. *)
Definition run_asks (es : list bm_event) (p : P) : option Z :=
  '(_, out) ← bm_run ctx name whitelist bm re es (bm_init p); Some (asks ip out).

Lemma read_known at_map c (p : P) :
  at_map !! ip = Some c → bm_read whitelist re m (BmState BmIdle at_map p) = BmState (BmLoaded ip c) at_map p.
Proof. intros Hl. unfold bm_read. rewrite Hip. apply contains_elem_false in Hw as ->. simpl. by rewrite Hl. Qed.
Lemma read_new at_map (p : P) :
  at_map !! ip = None → bm_read whitelist re m (BmState BmIdle at_map p) = BmState (BmLoaded ip 0) (<[ip := 0]> at_map) p.
Proof. intros Hl. unfold bm_read. rewrite Hip. apply contains_elem_false in Hw as ->. simpl. by rewrite Hl. Qed.
Lemma count_below now at_map c (p : P) :
  0 <= c < 2 →
  bm_count ctx name bm now ip c (BmState (BmLoaded ip c) at_map p) = (BmState BmIdle (<[ip := c + 1]> at_map) p, []).
Proof.
  intros Hc. unfold bm_count. rewrite wrap_u64_small by (unfold in_u64; lia). rewrite Ht.
  by rewrite (proj2 (Z.leb_gt _ _)) by lia.
Qed.
End Race.

(** C32: a hit that straddles the end of a window carries the whole count of that window
    into the next.  With [tries] 3, two hits in one window and one in the next make the
    loop ask for a ban when [clearMaps] runs between the load and the store of the
    second; with the same hits and the window ending before or after it, no ban is asked. *)
Theorem window_end_race {RE P} `{Regexp RE} `{BanPool P} ctx name whitelist bm (re : RE) m ip t (p : P) :
  getIp re m = Some ip → ip ∉ items whitelist → Tries bm = 3 → Mode bm = modeBlocker →
  run_asks ctx name whitelist bm re ip
    [BmRead m; BmCount t; BmRead m; BmClear; BmCount t; BmRead m; BmCount t] p = Some 1 ∧
  run_asks ctx name whitelist bm re ip
    [BmRead m; BmCount t; BmClear; BmRead m; BmCount t; BmRead m; BmCount t] p = Some 0 ∧
  run_asks ctx name whitelist bm re ip
    [BmRead m; BmCount t; BmRead m; BmCount t; BmClear; BmRead m; BmCount t] p = Some 0.
Proof.
  intros Hip Hw Ht Hm. unfold run_asks, bm_init. split_and!; simpl.
  all: rewrite !(read_new whitelist re m ip Hip Hw) by apply lookup_empty; simpl.
  all: rewrite !(count_below ctx name bm ip Ht) by lia; simpl.
  - rewrite !(read_known whitelist re m ip Hip Hw _ 1) by apply lookup_insert_eq. simpl.
    unfold bm_clear. simpl. rewrite !(count_below ctx name bm ip Ht) by lia. simpl.
    rewrite !(read_known whitelist re m ip Hip Hw _ 2) by apply lookup_insert_eq. simpl.
    unfold bm_count. rewrite wrap_u64_small by (unfold in_u64; lia). rewrite Ht. simpl.
    destruct (bm_hit ctx name bm t ip p) as [p' out] eqn:Hh. simpl.
    rewrite app_nil_r, (bm_hit_asks ctx name bm _ _ _ _ _ _ Hm Hh). by rewrite bool_decide_true.
  - unfold bm_clear. simpl. rewrite !(read_new whitelist re m ip Hip Hw) by apply lookup_empty. simpl.
    rewrite !(count_below ctx name bm ip Ht) by lia. simpl.
    rewrite !(read_known whitelist re m ip Hip Hw _ 1) by apply lookup_insert_eq. simpl.
    rewrite !(count_below ctx name bm ip Ht) by lia. done.
  - rewrite !(read_known whitelist re m ip Hip Hw _ 1) by apply lookup_insert_eq. simpl.
    rewrite !(count_below ctx name bm ip Ht) by lia. simpl. unfold bm_clear. simpl.
    rewrite !(read_new whitelist re m ip Hip Hw) by apply lookup_empty. simpl.
    rewrite !(count_below ctx name bm ip Ht) by lia. done.
Qed.

(** ** The export queue *)

(** The queue.  An export appends one envelope of the current version that carries the
    event and the identity of the configuration, or nothing; the channel never holds more
    than 1024 envelopes, and events are lost only when it is full. *)
Theorem export_bounded `{Json} exporter now event queue :
  Z.of_nat (length queue) <= exportQueueSize →
  Z.of_nat (length (export exporter now event queue)) <= exportQueueSize ∧
  (export exporter now event queue = queue ∨
   ∃ raw, export exporter now event queue =
          queue ++ [MkEnvelope Version 0 ServiceAlert OpRaised (ConfigID exporter) (UserID exporter) raw] ∧
          json_Marshal (PAlert (MkAlertPayload [with_happened_at now event])) = Some raw) ∧
  (ex_Enabled exporter = true → Z.of_nat (length queue) < exportQueueSize →
   (∃ raw, json_Marshal (PAlert (MkAlertPayload [with_happened_at now event])) = Some raw) →
   export exporter now event queue ≠ queue).
Proof.
  intros Hq. unfold export, NewEnvelope. simpl.
  destruct (ex_Enabled exporter); simpl; [|split_and!; [done|by left|done]].
  destruct (json_Marshal _) as [raw|].
  2: { split_and!; [done|by left|]. by intros _ _ [? ?]. }
  destruct (Z.of_nat (length queue) <? exportQueueSize) eqn:Hl; bool_hyps.
  - split_and!; [rewrite length_app; simpl; unfold exportQueueSize in *; lia|right; eauto|].
    intros _ _ _ He. apply (f_equal length) in He. rewrite length_app in He. simpl in He. lia.
  - split_and!; [done|by left|]. intros _ Hlt. lia.
Qed.

(** ** Resource limits *)

(** The traffic of an interval is what the counters advanced by as long as neither
    goes back; one that was reset makes the difference wrap to nearly [2 ^ 64]. *)
Theorem traffic_bytes_exact b a bs as_ :
  in_u64 (BytesRecv b) → in_u64 (BytesSent b) → in_u64 (BytesRecv a) → in_u64 (BytesSent a) →
  (BytesRecv b <= BytesRecv a → BytesSent b <= BytesSent a →
   BytesRecv a - BytesRecv b + (BytesSent a - BytesSent b) < 2 ^ 64 →
   traffic_bytes (b :: bs) (a :: as_) = Some (BytesRecv a - BytesRecv b + (BytesSent a - BytesSent b))) ∧
  (BytesRecv a < BytesRecv b → BytesSent a = BytesSent b →
   traffic_bytes (b :: bs) (a :: as_) = Some (2 ^ 64 - (BytesRecv b - BytesRecv a))).
Proof.
  unfold in_u64, traffic_bytes, wrap_u64. intros Hb1 Hb2 Ha1 Ha2. split.
  - intros H1 H2 H3. rewrite !Z.mod_small by (rewrite ?Z.mod_small by lia; lia). done.
  - intros H1 ->. rewrite Z.sub_diag, Zmod_0_l, Z.add_0_r, Zmod_mod. f_equal.
    rewrite <- (Z_mod_plus_full _ 1), Z.mod_small by lia. lia.
Qed.

(** ** Concrete runs *)
Definition ssh_toy (tries : Z) : BaseFields := MkBase "blocker" "syslog" "/var/log/auth.log" "sshd" tries 60 100 "from ".
Definition ssh_re : toy_regexp := "from ".
Definition line7 : string := "from 10.0.0.7".

Lemma whitelist_never_banned_witness : ip7 ∉ items (Some ["10.0.0.1"]).
Proof.
  assert (Hr : ∃ st, bm_run 0%nat "ssh_monitor" (Some ["10.0.0.1"]) (ssh_toy 2) ssh_re
      [BmRead "from 10.0.0.1"; BmRead line7; BmCount 0; BmRead line7; BmCount 0] (bm_init pool_empty) =
    Some (st, [AskedBan ip7 100; Alerted journalInfo (offender_event "ssh_monitor" ip7 (ssh_toy 2));
               Exported (banned_event ip7)])).
  { eexists. vm_compute. reflexivity. }
  destruct Hr as [st Hr].
  apply (whitelist_never_banned 0%nat "ssh_monitor" (Some ["10.0.0.1"]) (ssh_toy 2) ssh_re _ pool_empty st _ ip7 100 Hr).
  apply elem_of_cons. by left.
Defined.

Lemma bans_every_tries_hits_witness :
  ∃ st out, bm_run 0%nat "ssh_monitor" None (ssh_toy 2) ssh_re
      (window_events None ssh_re [(line7, 0); ("noise", 1); (line7, 2); (line7, 3)]) (bm_init pool_empty) = Some (st, out) ∧
    counts st ip7 = hits ssh_re ip7 [(line7, 0); ("noise", 1); (line7, 2); (line7, 3)] mod 2 ∧
    asks ip7 out = hits ssh_re ip7 [(line7, 0); ("noise", 1); (line7, 2); (line7, 3)] / 2.
Proof.
  apply (bans_every_tries_hits 0%nat "ssh_monitor" None (ssh_toy 2) ssh_re _ pool_empty ip7); [simpl; lia|done|].
  simpl. set_solver.
Defined.

Lemma window_end_race_witness :
  run_asks 0%nat "ssh_monitor" None (ssh_toy 3) ssh_re ip7
    [BmRead line7; BmCount 0; BmRead line7; BmClear; BmCount 0; BmRead line7; BmCount 0] pool_empty = Some 1.
Proof.
  refine (proj1 (window_end_race 0%nat "ssh_monitor" None (ssh_toy 3) ssh_re line7 ip7 0 pool_empty _ _ _ _)).
  - vm_compute. reflexivity.
  - simpl. set_solver.
  - done.
  - done.
Defined.

#[local] Instance quiet_json : Json := {
  json_Marshal _ := Some "{}"; json_Marshal_Config _ := None; json_Marshal_Envelope _ := None;
  json_Unmarshal_Envelope _ := None; json_Unmarshal_Hello _ := None; json_Unmarshal_Ack _ := None;
  json_Unmarshal_Config _ := None; json_Unmarshal_into _ _ := None }.
Definition exporter_on : ExporterConfig := MkExporter true "wss://host" "user" "cfg" "key".

Lemma export_bounded_witness :
  Z.of_nat (length (export exporter_on 5 (banned_event ip7) [])) <= exportQueueSize ∧
  export exporter_on 5 (banned_event ip7) [] ≠ [].
Proof.
  destruct (export_bounded exporter_on 5 (banned_event ip7) []) as (H1 & _ & H3); [done|].
  split; [exact H1|]. apply H3; [done|done|]. by exists "{}".
Defined.

Lemma traffic_bytes_exact_witness :
  traffic_bytes [MkNet 10 5] [MkNet 30 6] = Some 21 ∧ traffic_bytes [MkNet 30 5] [MkNet 10 5] = Some (2 ^ 64 - 20).
Proof.
  split.
  - apply (traffic_bytes_exact (MkNet 10 5) (MkNet 30 6) [] []); unfold in_u64; simpl; lia.
  - apply (traffic_bytes_exact (MkNet 30 5) (MkNet 10 5) [] []); unfold in_u64; simpl; lia.
Defined.
