(* ===== verification/Source.v ===== *)
(** * pkg/monitor/source.go: the sources of log lines

    Following a log file, reading the journal and a container.  The file system is a map
    from path to the file it names now and from file to its content; the follower of a
    log file is a state machine over the events of fsnotify.  What an attempt to read the
    journal or a container meets is an argument, and its result the lines it sends and the
    error it returns; DockerPipe has the two goroutines behind an attempt on a container. *)

From S2P Require Import Prelude.
From S2P Require Import GoStrings.
From S2P Require Import Config.

Inductive source_err : Type :=
| ErrCantConnectToDocker
| ErrCantReadContainerLogs
| ErrCantConnectToJournal
| ErrCantReadJournal
| ErrCantWatchLogFile
| ErrCantOpenLogFile
| ErrCantReadLogFile
| ErrWatcherClosed
| ErrSourceEngineNotFound.

(** The goroutine [startSource] starts. *)
Inductive source : Type :=
| ConnectToDocker (containerName : string)
| ConnectToJournal (unitName : string)
| ConnectToSyslog (path : string).

Definition startSource (bm : BaseFields) : result source_err source :=
  if bool_decide (Engine bm = "docker") then Ok (ConnectToDocker (UnitName bm))
  else if bool_decide (Engine bm = "journal") then Ok (ConnectToJournal (UnitName bm))
  else if bool_decide (Engine bm = "syslog") then Ok (ConnectToSyslog (LogPath bm))
  else Err ErrSourceEngineNotFound.

(** ** [runSource]: attach again and again until the context is done

    An attempt is what it sent, its error and whether the context was done afterwards. *)
Record attempt := MkAttempt { at_sent : list string; at_err : option source_err; at_done : bool }.

(** The lines sent, and whether the channel was closed: the attempts left are not made. *)
Fixpoint runSource (attempts : list attempt) : list string * bool :=
  match attempts with
  | [] => ([], false)
  | a :: attempts' =>
      if at_done a then (at_sent a, true)
      else let '(sent, closed) := runSource attempts' in (at_sent a ++ sent, closed)
  end.

(** ** Lines

    [ReadString] until the end of the file: each piece ends with its newline but the
    last, which is dropped when empty. *)
Fixpoint read_lines_go (cur l : list ascii) : list string :=
  match l with
  | [] => if bool_decide (cur = []) then [] else [of_bytes cur]
  | c :: l' =>
      if Ascii.eqb c newline then of_bytes (cur ++ [c]) :: read_lines_go [] l'
      else read_lines_go (cur ++ [c]) l'
  end.
Definition read_lines (l : list ascii) : list string := read_lines_go [] l.

(** [bufio.Scanner]: lines without their terminator; a token longer than [limit] ends
    the scan with an error. *)
Definition drop_cr (l : list ascii) : list ascii :=
  match rev l with c :: l' => if Ascii.eqb c (byte_of 13) then rev l' else l | [] => l end.
Fixpoint scan_go (limit : Z) (cur l : list ascii) : list string * bool :=
  if limit <=? Z.of_nat (length cur) then ([], false)
  else
    match l with
    | [] => (if bool_decide (cur = []) then [] else [of_bytes (drop_cr cur)], true)
    | c :: l' =>
        if Ascii.eqb c newline
        then let '(lines, ok) := scan_go limit [] l' in (of_bytes (drop_cr cur) :: lines, ok)
        else scan_go limit (cur ++ [c]) l'
    end.

(** The loop over [scanner.Scan]: [cancelled_at] is the line before which the context is
    done, if it ever is. *)
Definition send_lines (cancelled_at : option nat) (lines : list string) : list string * bool :=
  match cancelled_at with
  | Some n => if (n <? length lines)%nat then (take n lines, true) else (lines, false)
  | None => (lines, false)
  end.

Record journal_run := MkJournalRun {
  jr_LookPath : bool; jr_StdoutPipe : bool; jr_Start : bool;
  jr_output : list ascii; jr_Wait : bool; jr_ctx_done : bool; jr_cancelled_at : option nat }.

Definition maxLogLineSize : Z := 1024 * 1024.

Definition attachToJournal (r : journal_run) : list string * option source_err :=
  if negb (jr_LookPath r) || negb (jr_StdoutPipe r) || negb (jr_Start r) then ([], Some ErrCantConnectToJournal)
  else
    let '(lines, ok) := scan_go maxLogLineSize [] (jr_output r) in
    let '(sent, cancelled) := send_lines (jr_cancelled_at r) lines in
    if cancelled then (sent, None)
    else if negb ok then (sent, Some ErrCantReadJournal)
    else if negb (jr_Wait r) then (sent, if jr_ctx_done r then None else Some ErrCantReadJournal)
    else (sent, Some ErrCantReadJournal).

Record docker_run := MkDockerRun {
  dr_client : bool; dr_ContainerLogs : bool; dr_output : list ascii;
  dr_cancelled_at : option nat }.

(** The default limit of a scanner. *)
Definition MaxScanTokenSize : Z := 64 * 1024.

Definition attachToDocker (r : docker_run) : list string * option source_err :=
  if negb (dr_client r) then ([], Some ErrCantConnectToDocker)
  else if negb (dr_ContainerLogs r) then ([], Some ErrCantReadContainerLogs)
  else
    let '(lines, ok) := scan_go MaxScanTokenSize [] (dr_output r) in
    let '(sent, cancelled) := send_lines (dr_cancelled_at r) lines in
    if cancelled then (sent, None) else (sent, Some ErrCantReadContainerLogs).

(** ** Following a log file *)
Definition openLogFileRetries : nat := 10.

(** [opens] are the outcomes of [os.Open], each with whether the context is done when the
    wait after a failure begins. *)
Fixpoint openLogFile_go {A} (tries : nat) (opens : list (option A * bool)) : result source_err A :=
  match tries, opens with
  | S tries', (file, done) :: opens' =>
      match file with
      | Some file => Ok file
      | None => if done then Err ErrCantOpenLogFile else openLogFile_go tries' opens'
      end
  | _, _ => Err ErrCantOpenLogFile
  end.
Definition openLogFile {A} (opens : list (option A * bool)) : result source_err A :=
  openLogFile_go openLogFileRetries opens.

(** The files by inode; the follower has one open at an offset. *)
Abbreviation file_store := (gmap nat (list ascii)).
Record follower := Follower { fo_file : nat; fo_offset : nat }.

Definition content (files : file_store) (i : nat) : list ascii := default [] (files !! i).

(** [readNewLines]; the reads stop at the end of the file, a file that shrank yields
    nothing and leaves the offset. *)
Definition readNewLines (files : file_store) (f : follower) : follower * list string :=
  (Follower (fo_file f) (Nat.max (fo_offset f) (length (content files (fo_file f)))),
   read_lines (drop (fo_offset f) (content files (fo_file f)))).

(** An event of the watcher.  [Rotated opens watched] is a rename or a removal: the opens
    of the path that follow it and whether it could be watched again. *)
Inductive watch_event : Type :=
| Written
| Rotated (write : bool) (opens : list (option nat * bool)) (watched : bool)
| OtherEvent
| EventsClosed
| WatchError
| ContextDone.

(** One turn of the loop: the follower goes on, or the function returns. *)
Definition follow (files : file_store) (e : watch_event) (f : follower)
    : list string * result (option source_err) follower :=
  match e with
  | Written => let '(f, sent) := readNewLines files f in (sent, Ok f)
  | Rotated write opens watched =>
      let '(f, sent1) := if write then readNewLines files f else (f, []) in
      let '(f, sent2) := readNewLines files f in
      match openLogFile opens with
      | Err err => (sent1 ++ sent2, Err (Some err))
      | Ok file =>
          if watched then (sent1 ++ sent2, Ok (Follower file 0))
          else (sent1 ++ sent2, Err (Some ErrCantWatchLogFile))
      end
  | OtherEvent => ([], Ok f)
  | EventsClosed => ([], Err (Some ErrWatcherClosed))
  | WatchError => ([], Err (Some ErrCantWatchLogFile))
  | ContextDone => ([], Err None)
  end.

(** [attachToSyslog] up to its loop: the file open, placed at its end. *)
Definition attachToSyslog_start (watcher : bool) (opens : list (option nat * bool)) (seek added : bool)
    (files : file_store) : result source_err follower :=
  if negb watcher then Err ErrCantWatchLogFile
  else
    match openLogFile opens with
    | Err err => Err err
    | Ok file =>
        if negb seek then Err ErrCantReadLogFile
        else if negb added then Err ErrCantWatchLogFile
        else Ok (Follower file (length (content files file)))
    end.

(** ** No line is lost *)
Lemma read_lines_go_concat cur l :
  concat (map bytes (read_lines_go cur l)) = cur ++ l.
Proof.
  revert cur. induction l as [|c l IH]; intros cur; simpl.
  - case_bool_decide as Hc; [by rewrite Hc|]. simpl. by rewrite bytes_of_bytes.
  - destruct (Ascii.eqb c newline) eqn:He.
    + simpl. rewrite bytes_of_bytes, IH. simpl. by rewrite <- app_assoc.
    + rewrite IH, <- app_assoc. done.
Qed.
Lemma read_lines_concat l : concat (map bytes (read_lines l)) = l.
Proof. apply read_lines_go_concat. Qed.

(** A run: appends to the followed file, each with the event that follows it or none. *)
Inductive follow_run : file_store → follower → list (list ascii * bool) → list string → file_store → follower → Prop :=
| follow_done files f : follow_run files f [] [] files f
| follow_write files f text notified rest sent1 f1 sent files' f' :
    let files1 := <[fo_file f := content files (fo_file f) ++ text]> files in
    (if notified : bool then follow files1 Written f = (sent1, Ok f1) else sent1 = [] ∧ f1 = f) →
    follow_run files1 f1 rest sent files' f' →
    follow_run files f ((text, notified) :: rest) (sent1 ++ sent) files' f'.

Definition written (l : list (list ascii * bool)) : list ascii := concat (map fst l).

Lemma follow_run_content files f l sent files' f' :
  follow_run files f l sent files' f' → (fo_offset f <= length (content files (fo_file f)))%nat →
  fo_file f' = fo_file f ∧ content files' (fo_file f) = content files (fo_file f) ++ written l ∧
  (fo_offset f' <= length (content files' (fo_file f)))%nat ∧
  take (fo_offset f) (content files (fo_file f)) ++ concat (map bytes sent) = take (fo_offset f') (content files' (fo_file f)).
Proof.
  induction 1 as [files f|files f text notified rest sent1 f1 sent files' f' files1 H1 Hrun IH]; intros Hoff.
  { unfold written. simpl. by rewrite !app_nil_r. }
  assert (Hc1 : content files1 (fo_file f) = content files (fo_file f) ++ text).
  { unfold content at 1, files1. by rewrite lookup_insert_eq. }
  assert (Hf1 : fo_file f1 = fo_file f ∧ (fo_offset f1 <= length (content files1 (fo_file f)))%nat ∧
                take (fo_offset f) (content files (fo_file f)) ++ concat (map bytes sent1) =
                take (fo_offset f1) (content files1 (fo_file f))).
  { rewrite Hc1, length_app. destruct notified.
    - unfold follow, readNewLines in H1. injection H1 as <- <-. simpl. rewrite Hc1, length_app.
      split_and!; [done|lia|]. rewrite read_lines_concat, drop_app_le by done.
      rewrite app_assoc, take_drop. rewrite take_ge by (rewrite length_app; lia). done.
    - destruct H1 as [-> ->]. simpl. split_and!; [done|lia|]. by rewrite app_nil_r, take_app_le. }
  destruct Hf1 as (Hfile & Hoff1 & Htake). rewrite Hfile in IH. destruct (IH Hoff1) as (IH1 & IH2 & IH3 & IH4).
  split_and!; [by rewrite IH1| |done|].
  - rewrite IH2, Hc1. unfold written. simpl. by rewrite app_assoc.
  - by rewrite map_app, concat_app, app_assoc, Htake.
Qed.

Lemma readNewLines_content files f f1 sent text :
  (fo_offset f <= length (content files (fo_file f)))%nat →
  readNewLines (<[fo_file f := content files (fo_file f) ++ text]> files) f = (f1, sent) →
  fo_file f1 = fo_file f ∧ fo_offset f1 = (length (content files (fo_file f)) + length text)%nat.
Proof.
  intros Hoff. unfold readNewLines. intros [= <- _]. simpl.
  unfold content at 1. rewrite lookup_insert_eq. simpl. rewrite length_app. lia.
Qed.

Lemma follow_run_end files f l text sent files' f' :
  (fo_offset f <= length (content files (fo_file f)))%nat →
  follow_run files f (l ++ [(text, true)]) sent files' f' →
  fo_offset f' = length (content files' (fo_file f')).
Proof.
  revert files f sent. induction l as [|[t n] l IH]; intros files f sent Hoff Hrun; simpl in Hrun;
    inversion Hrun as [|? ? ? ? ? sent1 f1 sent2 ? ? files1 H1 H2]; subst.
  - inversion H2; subst. unfold follow in H1. destruct (readNewLines files1 f) as [f2 s2] eqn:Hr. injection H1 as -> ->.
    apply readNewLines_content in Hr as [Hfile ->]; [|done]. rewrite Hfile. unfold content at 2, files1.
    rewrite lookup_insert_eq. simpl. by rewrite length_app.
  - apply (IH files1 f1 sent2); [|done].
    assert (Hc1 : content files1 (fo_file f) = content files (fo_file f) ++ t).
    { unfold content at 1, files1. by rewrite lookup_insert_eq. }
    destruct n.
    + unfold follow in H1. destruct (readNewLines files1 f) as [f2 s2] eqn:Hr. injection H1 as -> ->.
      apply readNewLines_content in Hr as [Hfile ->]; [|done]. by rewrite Hfile, Hc1, length_app.
    + destruct H1 as [_ ->]. rewrite Hc1, length_app. lia.
Qed.

(** C36: nothing of a followed file is lost or sent twice.  Whatever is appended, in
    whatever pieces, once the last append has been notified the messages sent are, put
    together, the text appended since the file was attached. *)
Theorem follow_sends_all files f l text sent files' f' :
  fo_offset f = length (content files (fo_file f)) →
  follow_run files f (l ++ [(text, true)]) sent files' f' →
  concat (map bytes sent) = written l ++ text.
Proof.
  intros Hoff Hrun. pose proof (follow_run_end _ _ _ _ _ _ _ (Nat.eq_le_incl _ _ Hoff) Hrun) as Hend.
  apply follow_run_content in Hrun as (Hfile & Hcont & Hle & Htake); [|lia].
  rewrite Hend, Hfile, Hcont in Htake. rewrite Hoff in Htake.
  rewrite (take_ge (content files (fo_file f))) in Htake by done.
  rewrite take_ge in Htake by done. apply app_inv_head in Htake. rewrite Htake.
  unfold written. rewrite map_app, concat_app. simpl. by rewrite app_nil_r.
Qed.

Lemma follow_append files f t :
  fo_offset f = length (content files (fo_file f)) →
  follow (<[fo_file f := content files (fo_file f) ++ t]> files) Written f =
  (read_lines t, Ok (Follower (fo_file f) (length (content files (fo_file f) ++ t)))).
Proof.
  intros Hoff. unfold follow, readNewLines.
  assert (Hc : content (<[fo_file f := content files (fo_file f) ++ t]> files) (fo_file f) = content files (fo_file f) ++ t).
  { unfold content at 1. by rewrite lookup_insert_eq. }
  rewrite Hc, Hoff, drop_app_length. by rewrite Nat.max_r by (rewrite length_app; lia).
Qed.

(** A line that reaches the file in two pieces, each notified, is sent as two messages:
    a pattern that needs the whole line sees neither half of it whole. *)
Theorem split_line_sent_in_pieces files f (x y : list ascii) :
  fo_offset f = length (content files (fo_file f)) → x ≠ [] → newline ∉ x → newline ∉ y →
  ∃ files' f', follow_run files f [(x, true); (y ++ [newline], true)]
                 [of_bytes x; of_bytes (y ++ [newline])] files' f'.
Proof.
  intros Hoff Hx Hnx Hny.
  assert (Hplain : ∀ l cur, newline ∉ l → cur ++ l ≠ [] → read_lines_go cur l = [of_bytes (cur ++ l)]).
  { induction l as [|c l IH]; intros cur Hn Hne; simpl.
    - rewrite app_nil_r in *. by rewrite bool_decide_false.
    - rewrite not_elem_of_cons in Hn. destruct Hn as [Hc Hn]. rewrite (proj2 (Ascii.eqb_neq c newline)) by congruence.
      rewrite IH, <- app_assoc; [done|done|]. by destruct cur. }
  assert (Hline : ∀ l cur, newline ∉ l → read_lines_go cur (l ++ [newline]) = [of_bytes (cur ++ l ++ [newline])]).
  { induction l as [|c l IH]; intros cur Hn; [done|]. rewrite not_elem_of_cons in Hn. destruct Hn as [Hc Hn].
    cbn [app read_lines_go]. rewrite (proj2 (Ascii.eqb_neq c newline)) by congruence. rewrite IH by done.
    by rewrite <- app_assoc. }
  set (f1 := Follower (fo_file f) (length (content files (fo_file f) ++ x))).
  set (files1 := <[fo_file f := content files (fo_file f) ++ x]> files).
  assert (Hf1 : fo_offset f1 = length (content files1 (fo_file f1))).
  { simpl. unfold content at 2, files1. by rewrite lookup_insert_eq. }
  eexists _, _. change [of_bytes x; of_bytes (y ++ [newline])] with ([of_bytes x] ++ [of_bytes (y ++ [newline])] ++ []).
  eapply (follow_write files f x true _ _ f1); [|eapply (follow_write files1 f1 (y ++ [newline]) true); [|apply follow_done]].
  - rewrite follow_append by done. unfold read_lines. by rewrite Hplain.
  - rewrite follow_append by done. unfold read_lines. by rewrite Hline.
Qed.

(** ** A concrete file *)
Definition empty_log : file_store := {[1%nat := []]}.
Definition at_end : follower := Follower 1 0.

Lemma split_line_sent_in_pieces_witness :
  ∃ files' f', follow_run empty_log at_end
    [(bytes "from 10.", true); (bytes "0.0.7" ++ [newline], true)]
    [of_bytes (bytes "from 10."); of_bytes (bytes "0.0.7" ++ [newline])] files' f'.
Proof.
  apply (split_line_sent_in_pieces empty_log at_end (bytes "from 10.") (bytes "0.0.7")).
  - reflexivity.
  - done.
  - vm_compute. set_solver.
  - vm_compute. set_solver.
Defined.

Lemma follow_sends_all_witness :
  concat (map bytes ["ab"]) = written [] ++ bytes "ab".
Proof.
  apply (follow_sends_all empty_log at_end [] (bytes "ab") ["ab"]
           (<[1%nat := bytes "ab"]> empty_log) (Follower 1 2)).
  - reflexivity.
  - apply (follow_write empty_log at_end (bytes "ab") true [] ["ab"] (Follower 1 2)); [reflexivity|apply follow_done].
Defined.
