(* ===== verification/Snapshot.v ===== *)
(** * pkg/monitor/snapshot.go: the snapshot of the processes

    When a limit of the resource monitor is reached the processes are listed, sorted by
    their CPU usage and written to a file.  gopsutil, the file and the layout of
    text/tabwriter are the class [SnapshotHost]. *)

From S2P Require Import Prelude.
From S2P Require Import GoStrings.
From S2P Require Import GoFloat.
From S2P Require Import ConfigLoad.

Definition snapshotTimeLayout : string := "2006-01-02_15-04-05.000000".
Definition RFC3339 : string := "2006-01-02T15:04:05Z07:00".

Record processUsage := MkUsage {
  pid : Z; user : string; cpuPercent : float64; memPercent : float32; memoryMBs : float64; command : string }.

(** A process, each attribute [None] where its call fails; [pr_RSS] also when the memory
    info is nil. *)
Record process_info := MkProcess {
  Pid : Z; pr_Username : option string; pr_CPUPercent : option float64; pr_MemoryPercent : option float32;
  pr_RSS : option Z; pr_Cmdline : option string; pr_Name : option string }.

Class SnapshotHost (E : Type) := {
  ProcessesWithContext : E → option (list process_info);
  snapshot_Now : E → Z;
  time_Format : string → Z → string;                   (* in the time zone of the machine *)
  os_Create : string → E → E * bool;
  tabwriter_Flush : string → string → E → E * bool }.  (* lays the text out in the file *)

(** [sort.Slice]: the order of elements none of which is less is its own. *)
Class SortSlice := sort_Slice : ∀ {A}, (A → A → bool) → list A → list A.

Inductive snapshot_err : Type := ErrCantGetProcesses | ErrCantCreateSnapshotDir | ErrCantWriteSnapshot.

Definition processCommand (proc : process_info) : string :=
  match pr_Cmdline proc with
  | Some (String c s) => String c s
  | _ => match pr_Name proc with Some (String c s) => String c s | _ => EmptyString end
  end.

Definition process_usage (proc : process_info) : processUsage :=
  MkUsage (Pid proc)
    (default EmptyString (pr_Username proc))
    (default (S754_zero false) (pr_CPUPercent proc))
    (default (S754_zero false) (pr_MemoryPercent proc))
    (match pr_RSS proc with
     | Some rss => f64_div (f64_div (of_uint64 rss) (of_uint64 1024)) (of_uint64 1024)
     | None => S754_zero false
     end)
    (processCommand proc).

Fixpoint usages_of (processes : list process_info) : list processUsage :=
  match processes with
  | [] => []
  | proc :: processes' =>
      let usage := process_usage proc in
      if bool_decide (command usage = EmptyString) then usages_of processes' else usage :: usages_of processes'
  end.

(** ** The text *)
Definition tab : string := of_bytes [byte_of 9].
Definition dec_signed (n : Z) : string := if n <? 0 then "-" +:+ dec (- n) else dec n.

Definition usage_line (u : processUsage) : string :=
  dec_signed (pid u) +:+ tab +:+ user u +:+ tab +:+ format_fixed 1 (cpuPercent u) +:+ tab +:+
  format_fixed 1 (memPercent u) +:+ tab +:+ format_fixed 1 (memoryMBs u) +:+ tab +:+ command u +:+ nl.

Definition snapshot_head (taken_at : string) : string :=
  "snapshot taken at " +:+ taken_at +:+ nl +:+ nl +:+
  str_join tab ["PID"; "USER"; "CPU%"; "MEM%"; "RSS(MB)"; "COMMAND"] +:+ nl.

Definition snapshot_text (taken_at : string) (usages : list processUsage) : string :=
  snapshot_head taken_at +:+ str_join EmptyString (map usage_line usages).

Section Snapshot.
Context {E : Type} `{SnapshotHost E, FS E, SortSlice}.

Definition collectProcessUsages (e : E) : result snapshot_err (list processUsage) :=
  match ProcessesWithContext e with
  | None => Err ErrCantGetProcesses
  | Some processes => Ok (usages_of processes)
  end.

Definition writeSnapshot (file : string) (usages : list processUsage) (e : E) : E * bool :=
  tabwriter_Flush file (snapshot_text (time_Format RFC3339 (snapshot_Now e)) usages) e.

Definition more_cpu (x y : processUsage) : bool := float_gt (cpuPercent x) (cpuPercent y).

(** [filepath.Join] of two elements, the second not empty. *)
Definition filepath_join (dir name : string) : string :=
  if bool_decide (dir = EmptyString) then filepath_clean name else filepath_clean (dir +:+ "/" +:+ name).

Definition saveSnapshot (dir : string) (e : E) : E * option snapshot_err :=
  match collectProcessUsages e with
  | Err err => (e, Some err)
  | Ok usages =>
      let usages := sort_Slice more_cpu usages in
      let '(e, ok) := os_MkdirAll dir e in
      if negb ok then (e, Some ErrCantCreateSnapshotDir)
      else
        let path := filepath_join dir (time_Format snapshotTimeLayout (snapshot_Now e) +:+ ".sp") in
        let '(e, ok) := os_Create path e in
        if negb ok then (e, Some ErrCantWriteSnapshot)
        else
          let '(e, ok) := writeSnapshot path usages e in
          if ok then (e, None) else (e, Some ErrCantWriteSnapshot)
  end.
End Snapshot.

(** ** What a snapshot holds *)

(** The result is a permutation; when [less] is a strict weak order on the elements, no
    element is less than one before it. *)
Class SortSliceLaws `{SortSlice} : Prop := {
  sort_Slice_permutes {A} (less : A → A → bool) l : sort_Slice less l ≡ₚ l;
  sort_Slice_sorts {A} (less : A → A → bool) l :
    (∀ x y z, x ∈ l → y ∈ l → z ∈ l → less y x = false → less z y = false → less z x = false) →
    (∀ x y, x ∈ l → y ∈ l → less x y = true → less y x = false) →
    StronglySorted (λ x y, less y x = false) (sort_Slice less l) }.

Lemma usages_of_spec processes u :
  u ∈ usages_of processes ↔ ∃ proc, proc ∈ processes ∧ u = process_usage proc ∧ command u ≠ EmptyString.
Proof.
  induction processes as [|proc processes IH]; cbn [usages_of].
  { rewrite elem_of_nil. split; [done|]. by intros (? & ?%elem_of_nil & _). }
  case_bool_decide as Hc; rewrite ?elem_of_cons, IH.
  - split; [intros (p & ? & ?); exists p; set_solver|].
    intros (p & [->|Hp]%elem_of_cons & -> & Hne); [done|by exists p].
  - split.
    + intros [->|(p & ? & ?)]; [exists proc|exists p]; set_solver.
    + intros (p & [->|Hp]%elem_of_cons & -> & Hne); [by left|right; by exists p].
Qed.

Section Written.
Context {E : Type} `{SnapshotHost E, FS E, SortSliceLaws}.

Definition no_nan (usages : list processUsage) : Prop :=
  ∀ u, u ∈ usages → is_nan (cpuPercent u) = false.

Lemma more_cpu_sorts usages :
  no_nan usages → StronglySorted (λ x y, more_cpu y x = false) (sort_Slice more_cpu usages).
Proof.
  intros Hn. apply sort_Slice_sorts.
  - intros x y z Hx Hy Hz. apply float_gt_trans; by apply Hn.
  - intros x y Hx Hy Hxy. apply not_true_iff_false. unfold more_cpu in *.
    rewrite float_gt_key in * by (by apply Hn). unfold key_lt in *.
    destruct (float_key (cpuPercent x)) as [[? ?] ?], (float_key (cpuPercent y)) as [[? ?] ?]. lia.
Qed.

(** What [saveSnapshot] has when the directory is made: the rows it is to write, and the
    file, named after the time. *)
Record snapshot_rows (dir : string) (e : E) (usages : list processUsage) (e1 : E) (path : string) : Prop := {
  sr_processes : ∃ processes, ProcessesWithContext e = Some processes ∧ usages ≡ₚ usages_of processes;
  sr_sorted : no_nan usages → StronglySorted (λ x y, float_gt (cpuPercent y) (cpuPercent x) = false) usages;
  sr_dir : os_MkdirAll dir e = (e1, true);
  sr_path : path = filepath_join dir (time_Format snapshotTimeLayout (snapshot_Now e1) +:+ ".sp") }.

(** The file made, and the text laid out in it; [ok] whether the writer reached its end. *)
Definition snapshot_laid_out (usages : list processUsage) (path : string) (e1 e' : E) (ok : bool) : Prop :=
  ∃ e2, os_Create path e1 = (e2, true) ∧
    tabwriter_Flush path (snapshot_text (time_Format RFC3339 (snapshot_Now e2)) usages) e2 = (e', ok).

Lemma saveSnapshot_cases dir (e e' : E) err :
  saveSnapshot dir e = (e', err) →
  match err with
  | None => ∃ usages e1 path, snapshot_rows dir e usages e1 path ∧ snapshot_laid_out usages path e1 e' true
  | Some ErrCantGetProcesses => ProcessesWithContext e = None ∧ e' = e
  | Some ErrCantCreateSnapshotDir => os_MkdirAll dir e = (e', false)
  | Some ErrCantWriteSnapshot => ∃ usages e1 path, snapshot_rows dir e usages e1 path ∧
      (os_Create path e1 = (e', false) ∨ snapshot_laid_out usages path e1 e' false)
  end.
Proof.
  unfold saveSnapshot, collectProcessUsages. destruct (ProcessesWithContext e) as [processes|] eqn:Hp; [|by intros [= <- <-]].
  destruct (os_MkdirAll dir e) as [e1 []] eqn:Hm; cbn [negb]; [|by intros [= <- <-]].
  set (path := filepath_join _ _). set (usages := sort_Slice more_cpu (usages_of processes)).
  assert (Hrows : snapshot_rows dir e usages e1 path).
  { split; [exists processes; split; [done|apply sort_Slice_permutes]| |done|done].
    intros Hn. apply more_cpu_sorts. intros u Hu. apply Hn. unfold usages. by rewrite sort_Slice_permutes. }
  destruct (os_Create path e1) as [e2 []] eqn:Hc; cbn [negb].
  - unfold writeSnapshot. destruct (tabwriter_Flush _ _ e2) as [e3 []] eqn:Hf; intros [= <- <-];
      exists usages, e1, path; (split; [done|]); [|right]; by exists e2.
  - intros [= <- <-]. exists usages, e1, path. split; [done|by left].
Qed.
End Written.

(** C38: What [saveSnapshot] does, by its result.  Without an error it has listed, under the
    head line and the names of the columns, each process with a command exactly once, in
    the order of decreasing CPU usage, in a file of the directory named after the time.
    When the processes cannot be listed nothing is touched; when the directory cannot be
    made that was all that was tried; else the file could not be made, or exactly the text
    of the successful case was given to it and did not get through. *)
Theorem saveSnapshot_outcome {E} `{SnapshotHost E, FS E, SortSliceLaws} dir (e e' : E) err :
  saveSnapshot dir e = (e', err) →
  match err with
  | None => ∃ usages e1 path, snapshot_rows dir e usages e1 path ∧ snapshot_laid_out usages path e1 e' true
  | Some ErrCantGetProcesses => ProcessesWithContext e = None ∧ e' = e
  | Some ErrCantCreateSnapshotDir => os_MkdirAll dir e = (e', false)
  | Some ErrCantWriteSnapshot => ∃ usages e1 path, snapshot_rows dir e usages e1 path ∧
      (os_Create path e1 = (e', false) ∨ snapshot_laid_out usages path e1 e' false)
  end.
Proof. apply saveSnapshot_cases. Qed.

(** ** A concrete machine *)
Fixpoint insert_by {A} (less : A → A → bool) (x : A) (l : list A) : list A :=
  match l with
  | [] => [x]
  | y :: l' => if less y x then y :: insert_by less x l' else x :: y :: l'
  end.
#[global] Instance insertion_sort : SortSlice := λ A less l, foldr (insert_by less) [] l.

Lemma insert_by_permutes {A} (less : A → A → bool) x l : insert_by less x l ≡ₚ x :: l.
Proof. induction l as [|y l IH]; simpl; [done|]. destruct (less y x); [|done]. rewrite IH. apply Permutation_swap. Qed.

Lemma insertion_permutes {A} (less : A → A → bool) l : insertion_sort A less l ≡ₚ l.
Proof. induction l as [|x l IH]; simpl; [done|]. by rewrite insert_by_permutes, IH. Qed.

Lemma insert_by_sorted {A} (less : A → A → bool) x l :
  (∀ y z, y ∈ l → z ∈ l → less y x = false → less z y = false → less z x = false) →
  (∀ y, y ∈ l → less y x = true → less x y = false) →
  StronglySorted (λ x y, less y x = false) l → StronglySorted (λ x y, less y x = false) (insert_by less x l).
Proof.
  intros Ht Ha Hs. induction Hs as [|y l Hs IH Hy]; simpl; [by repeat constructor|].
  destruct (less y x) eqn:Hyx.
  - constructor; [apply IH; intros; [eapply Ht|apply Ha]; set_solver|].
    rewrite insert_by_permutes. constructor; [|done]. apply Ha; [set_solver|done].
  - constructor; [by constructor|]. constructor; [done|].
    rewrite Forall_forall in *. intros z Hz. apply (Ht y z); [set_solver|set_solver|done|by apply Hy].
Qed.

#[global] Instance insertion_sort_laws : SortSliceLaws.
Proof.
  split; [intros A; apply insertion_permutes|]. intros A less l Ht Ha. unfold sort_Slice.
  induction l as [|x l IH]; cbn; [constructor|]. apply insert_by_sorted.
  - intros y z Hy Hz. rewrite (insertion_permutes less l) in Hy, Hz. apply Ht; set_solver.
  - intros y Hy. rewrite (insertion_permutes less l) in Hy. apply Ha; set_solver.
  - apply IH; intros; [eapply Ht|apply Ha]; set_solver.
Qed.

(** Its processes and its files; the clock stands still. *)
Record proc_machine := ProcMachine { pm_processes : list process_info; pm_files : gmap string string }.
#[global] Instance proc_machine_snapshots : SnapshotHost proc_machine := {
  ProcessesWithContext m := Some (pm_processes m);
  snapshot_Now _ := 0;
  time_Format _ _ := "now";
  os_Create path m := (ProcMachine (pm_processes m) (<[path := EmptyString]> (pm_files m)), true);
  tabwriter_Flush path text m := (ProcMachine (pm_processes m) (<[path := text]> (pm_files m)), true) }.
#[global] Instance proc_machine_fs : FS proc_machine := {
  os_Stat path m := match pm_files m !! path with Some _ => StatOk | None => StatNotExist end;
  os_MkdirAll _ m := (m, true);
  os_ReadFile path m := pm_files m !! path;
  os_WriteFile path data m := (ProcMachine (pm_processes m) (<[path := data]> (pm_files m)), true) }.

Definition idle_proc : process_info := MkProcess 1 (Some "root") (Some (of_uint64 0)) None None None (Some "init").
Definition busy_proc : process_info := MkProcess 7 (Some "eve") (Some (of_uint64 99)) None (Some 1048576) (Some "miner -x") None.
Definition kernel_proc : process_info := MkProcess 2 None None None None None None.
Definition two_procs : proc_machine := ProcMachine [idle_proc; kernel_proc; busy_proc] ∅.
Definition the_snapshot : string :=
  snapshot_head "now" +:+ usage_line (process_usage busy_proc) +:+ usage_line (process_usage idle_proc).

Example busy_line : usage_line (process_usage busy_proc) =
  str_join tab ["7"; "eve"; "99.0"; "0.0"; "1.0"; "miner -x"] +:+ nl.
Proof. reflexivity. Qed.

Lemma two_procs_saved :
  saveSnapshot "/var/sp" two_procs = (ProcMachine (pm_processes two_procs) {["/var/sp/now.sp" := the_snapshot]}, None).
Proof. vm_compute. reflexivity. Qed.

Lemma saveSnapshot_outcome_witness :
  ∃ usages e1 path, snapshot_rows "/var/sp" two_procs usages e1 path ∧
    snapshot_laid_out usages path e1 (ProcMachine (pm_processes two_procs) {["/var/sp/now.sp" := the_snapshot]}) true.
Proof. exact (saveSnapshot_outcome "/var/sp" two_procs _ None two_procs_saved). Defined.
