(* ===== verification/CommandController.v ===== *)
(** * pkg/ebpfmonitors: the user command controller

    user_command_controller.go and the LSM program bpf/user_command_controller.bpf.c.
    The kernel maps are the class [KernelMaps]: every write of the user side is one
    [map_op] on a kernel state, and the functions that write also yield the states the
    kernel went through, which the program may read between any two of them.  Iteration
    over a Go map takes the order of the keys as an argument. *)

From S2P Require Import Prelude.
From S2P Require Import GoStrings.
From S2P Require Import Words.
From S2P Require Import Policy.
From S2P Require Import Repository.
From S2P Require Import BanPool.
From S2P Require Import Config.
From S2P Require Import ConfigValidate.
From S2P Require Import Protocol.

Definition modeLogger : Z := 1.
Definition kernel_modeBlocker : Z := 2.
Definition blockPositive : Z := 1.
Definition blockNegative : Z := 2.
Definition namespaceGracePeriod : Z := 150 * second.
Definition unmappedRootUID : Z := 4294967295.

(** ** Data *)
Record execEvent := MkExec {
  ee_TGID : Z; ee_PID : Z; ee_HostUID : Z; ee_UserNS : Z; ee_EffectiveUID : Z;
  ee_WouldBlock : Z; ee_Blocked : Z; ee_CommandTruncated : Z; ee_Command : list Z }.

Record namespacePolicy := MkNsPolicy { RootUID : Z; Generation : Z }.
Record userKey := MkUserKey { UserNS : Z; HostUid : Z }.
#[global] Instance userKey_eq_dec : EqDecision userKey. Proof. solve_decision. Defined.
#[global] Instance userKey_countable : Countable userKey.
Proof. apply (inj_countable' (λ k, (UserNS k, HostUid k)) (λ '(n, u), MkUserKey n u)). by intros []. Defined.

(** [ns_readyAt] is [None] for the zero time; the handle is the open file. *)
Record commandNamespace := MkNs {
  ns_handle : Z; ns_root : Z; ns_users : list userKey; ns_readyAt : option Z; ns_active : bool }.

Record kernelConfig := MkKernelConfig { kc_Mode : Z; kc_BlockType : Z; kc_HasUsers : Z; kc_HasCommands : Z }.

(** ** The rules of a namespace *)
Fixpoint namespace_users (ns : Z) (mapping : string) (uids : list Z) : result policy_err (list userKey) :=
  match uids with
  | [] => Ok []
  | uid :: uids' =>
      host ← HostUID uid mapping;
      users ← namespace_users ns mapping uids';
      Ok (match host with Some host => MkUserKey ns host :: users | None => users end)
  end.

Definition commandNamespaceRules (ns : Z) (mapping : string) (uids : list Z)
    : result policy_err (Z * list userKey) :=
  root ← HostUID 0 mapping;
  users ← namespace_users ns mapping uids;
  Ok (default unmappedRootUID root, users).

(** ** Discovery: an entry of /proc is what the opens and reads of it yield *)
Record proc_entry := MkProc {
  pe_name : string;
  pe_cancelled : bool;                (* ctx.Err() before the entry *)
  pe_open : bool;                     (* os.Open of the directory *)
  pe_handle : option Z;               (* os.Open of the namespace *)
  pe_ino : option Z;                  (* handle.Stat *)
  pe_uid_map : option string;
  pe_same : bool }.                   (* the namespace is still the same afterwards *)

Inductive discover_err : Type := ReadDirFailed | Cancelled.
#[global] Instance discover_err_eq_dec : EqDecision discover_err. Proof. solve_decision. Defined.

(** [closeNamespaces] closes the handles of the states. *)
Definition handles (states : gmap Z commandNamespace) : list Z := map (ns_handle ∘ snd) (map_to_list states).

(** The namespaces found and the handles closed on the way. *)
Fixpoint discover_loop (uids : list Z) (mounts : bool) (dirs : list proc_entry)
    (states : gmap Z commandNamespace) (closed : list Z)
    : result discover_err (gmap Z commandNamespace) * list Z :=
  match dirs with
  | [] => (Ok states, closed)
  | dir :: dirs' =>
      if pe_cancelled dir then (Err Cancelled, closed ++ handles states)
      else
        let continue := discover_loop uids mounts dirs' states in
        if bool_decide (parse_uint 32 (pe_name dir) = None) then continue closed
        else if negb (pe_open dir) then continue closed
        else
          match pe_handle dir with
          | None => continue closed
          | Some handle =>
              match pe_ino dir with
              | None => continue (closed ++ [handle])
              | Some ino =>
                  if 4294967295 <? ino then continue (closed ++ [handle])
                  else
                    let ns := wrap_u32 ino in
                    match states !! ns with
                    | Some _ => continue (closed ++ [handle])
                    | None =>
                        if mounts then
                          discover_loop uids mounts dirs' (<[ns := MkNs handle 0 [] None false]> states) closed
                        else
                          match pe_uid_map dir with
                          | None => continue (closed ++ [handle])
                          | Some mapping =>
                              if negb (pe_same dir) then continue (closed ++ [handle])
                              else if bool_decide (fields mapping = []) then continue (closed ++ [handle])
                              else
                                match commandNamespaceRules ns mapping uids with
                                | Err _ => continue (closed ++ [handle])
                                | Ok (root, users) =>
                                    discover_loop uids mounts dirs'
                                      (<[ns := MkNs handle root users None false]> states) closed
                                end
                          end
                    end
              end
          end
  end.
Definition discoverCommandContexts (dirs : option (list proc_entry)) (uids : list Z) (mounts : bool)
    : result discover_err (gmap Z commandNamespace) * list Z :=
  match dirs with
  | None => (Err ReadDirFailed, [])
  | Some dirs => discover_loop uids mounts dirs ∅ []
  end.

(** ** The kernel maps *)
Inductive map_op : Type :=
| UpdateUser (key : userKey)
| DeleteUser (key : userKey)
| UpdateNamespace (ns : Z) (policy : namespacePolicy)
| DeleteNamespace (ns : Z).

Inductive map_err : Type := ErrKeyNotExist | MapFailed.
#[global] Instance map_err_eq_dec : EqDecision map_err. Proof. solve_decision. Defined.

Class KernelMaps (K : Type) := exec_op : map_op → K → K * option map_err.

Inductive controller_err : Type := MapError (e : map_err) | GenerationExhausted.
#[global] Instance controller_err_eq_dec : EqDecision controller_err. Proof. solve_decision. Defined.

(** What the writers thread: the kernel maps and every state they went through since. *)
Definition kstate (K : Type) : Type := K * list K.

Section Writers.
Context {K : Type} `{KernelMaps K}.

Definition write (op : map_op) (k : kstate K) : kstate K * option map_err :=
  let '(k', err) := exec_op op (fst k) in ((k', snd k ++ [k']), err).

(** A failing deletion of a key that is not there is no error. *)
Definition delete_ok (err : option map_err) : option controller_err :=
  match err with None | Some ErrKeyNotExist => None | Some e => Some (MapError e) end.

Fixpoint update_users (keys : list userKey) (k : kstate K) : kstate K * option controller_err :=
  match keys with
  | [] => (k, None)
  | key :: keys' =>
      match write (UpdateUser key) k with
      | (k, Some e) => (k, Some (MapError e))
      | (k, None) => update_users keys' k
      end
  end.

Fixpoint delete_users (keys : list userKey) (k : kstate K) : kstate K * option controller_err :=
  match keys with
  | [] => (k, None)
  | key :: keys' =>
      let '(k, err) := write (DeleteUser key) k in
      match delete_ok err with
      | Some e => (k, Some e)
      | None => delete_users keys' k
      end
  end.

Definition set_active (st : commandNamespace) : commandNamespace :=
  MkNs (ns_handle st) (ns_root st) (ns_users st) (ns_readyAt st) true.

(** [now.Before(state.readyAt)]. *)
Definition not_ready (now : Z) (st : commandNamespace) : bool :=
  match ns_readyAt st with Some t => now <? t | None => false end.

(** The loop over [current] in the order [keys]; [gen] is the global generation counter. *)
Fixpoint activateCommandNamespaces (keys : list Z) (now : Z) (current : gmap Z commandNamespace) (gen : Z)
    (k : kstate K) : kstate K * gmap Z commandNamespace * Z * option controller_err :=
  match keys with
  | [] => (k, current, gen, None)
  | ns :: keys' =>
      match current !! ns with
      | None => activateCommandNamespaces keys' now current gen k
      | Some st =>
          if ns_active st || not_ready now st then activateCommandNamespaces keys' now current gen k
          else
            match update_users (ns_users st) k with
            | (k, Some e) => (k, current, gen, Some e)
            | (k, None) =>
                let gen := wrap_u64 (gen + 1) in
                if gen =? 0 then (k, current, gen, Some GenerationExhausted)
                else
                  match write (UpdateNamespace ns (MkNsPolicy (ns_root st) gen)) k with
                  | (k, Some e) => (k, current, gen, Some (MapError e))
                  | (k, None) =>
                      activateCommandNamespaces keys' now (<[ns := set_active st]> current) gen k
                  end
            end
      end
  end.

(** The first loop of [syncCommandNamespaces], over [current] in the order [keys]; the
    handles it closes are its last result. *)
Fixpoint remove_stale (keys : list Z) (desired current : gmap Z commandNamespace) (k : kstate K)
    : kstate K * gmap Z commandNamespace * option controller_err * list Z :=
  match keys with
  | [] => (k, current, None, [])
  | ns :: keys' =>
      match current !! ns with
      | None => remove_stale keys' desired current k
      | Some st =>
          match desired !! ns with
          | Some _ => remove_stale keys' desired current k
          | None =>
              let '(k, err) :=
                if ns_active st then
                  let '(k, err) := write (DeleteNamespace ns) k in
                  match delete_ok err with
                  | Some e => (k, Some e)
                  | None => delete_users (ns_users st) k
                  end
                else (k, None) in
              match err with
              | Some e => (k, current, Some e, [])
              | None =>
                  let '(k, current, err, closed) := remove_stale keys' desired (delete ns current) k in
                  (k, current, err, ns_handle st :: closed)
              end
          end
      end
  end.

(** The second loop: what is new moves from [desired] to [current]; [now ns] is the clock
    when the loop is at [ns]. *)
Definition set_readyAt (t : Z) (st : commandNamespace) : commandNamespace :=
  match ns_readyAt st with
  | Some _ => st
  | None => MkNs (ns_handle st) (ns_root st) (ns_users st) (Some (t + namespaceGracePeriod)) (ns_active st)
  end.
Definition take_new (now : Z → Z) (desired current : gmap Z commandNamespace) : gmap Z commandNamespace :=
  current ∪ map_imap (λ ns st, Some (set_readyAt (now ns) st)) desired.
(** What [delete(desired, ns)] leaves, for the caller to close. *)
Definition not_taken (desired current : gmap Z commandNamespace) : gmap Z commandNamespace :=
  filter (λ '(ns, _), is_Some (current !! ns)) desired.

(** [keys1] and [keys2] are the orders of the two iterations over [current], [now1] and
    [t2] the clock of the grace periods and of the activation.  The last results are what
    is left of [desired] and the handles closed, of the namespaces that went away. *)
Definition syncCommandNamespaces (keys1 keys2 : list Z) (now1 : Z → Z) (t2 : Z)
    (desired current : gmap Z commandNamespace) (gen : Z) (k : kstate K)
    : kstate K * gmap Z commandNamespace * Z * option controller_err * gmap Z commandNamespace * list Z :=
  match remove_stale keys1 desired current k with
  | (k, current, Some e, closed) => (k, current, gen, Some e, desired, closed)
  | (k, current, None, closed) =>
      let '(k, current', gen, err) :=
        activateCommandNamespaces keys2 t2 (take_new now1 desired current) gen k in
      (k, current', gen, err, not_taken desired current, closed)
  end.
End Writers.

(** ** The monitor: the goroutine that scans and activates

    [N] is the state of the users and namespaces maps, [M] that of the mounts map.  The
    error log keeps why the monitor cancelled itself. *)
Inductive command_monitor_err : Type := DiscoverFailed (e : discover_err) | ControllerFailed (e : controller_err).
#[global] Instance command_monitor_err_eq_dec : EqDecision command_monitor_err. Proof. solve_decision. Defined.

Record monitor (N M : Type) := MkMonitor {
  mo_maps : kstate N; mo_current : gmap Z commandNamespace;
  mo_mounts : kstate M; mo_currentMounts : gmap Z commandNamespace;
  mo_generation : Z;                  (* commandNamespaceGeneration *)
  mo_cancelled : bool; mo_errors : list command_monitor_err;
  mo_closed : list Z }.               (* the handles closed so far *)
Arguments MkMonitor {N M}. Arguments mo_maps {N M}. Arguments mo_current {N M}. Arguments mo_mounts {N M}.
Arguments mo_currentMounts {N M}. Arguments mo_generation {N M}. Arguments mo_cancelled {N M}.
Arguments mo_errors {N M}. Arguments mo_closed {N M}.

(** What one scan reads: the entries of /proc, twice, the clock and the orders of the
    iterations over the maps. *)
Record sync_input := MkSync { si_dirs : option (list proc_entry); si_keys1 : list Z; si_keys2 : list Z; si_now : Z → Z; si_now2 : Z }.

Inductive monitor_event : Type :=
| ScanTick (namespaces mounts : sync_input)
| ActivationTick (keys : list Z) (now : Z) (mountKeys : list Z) (mountNow : Z).

Section Monitor.
Context {N M : Type} `{KernelMaps N, KernelMaps M}.
Variable uids : list Z.

(** After a cancellation the first entry of /proc, which is never empty, ends the scan. *)
Definition discovered (cancelled : bool) (si : sync_input) (uids : list Z) (mounts : bool) :=
  if cancelled then (Err Cancelled, []) else discoverCommandContexts (si_dirs si) uids mounts.

Definition scan_namespaces (si : sync_input) (s : monitor N M) : monitor N M * option command_monitor_err :=
  match discovered (mo_cancelled s) si uids false with
  | (Err e, closed) =>
      (MkMonitor (mo_maps s) (mo_current s) (mo_mounts s) (mo_currentMounts s) (mo_generation s) (mo_cancelled s)
         (mo_errors s) (mo_closed s ++ closed), Some (DiscoverFailed e))
  | (Ok desired, closed) =>
      let '(k, current, gen, err, rest, gone) :=
        syncCommandNamespaces (si_keys1 si) (si_keys2 si) (si_now si) (si_now2 si) desired (mo_current s)
          (mo_generation s) (mo_maps s) in
      (MkMonitor k current (mo_mounts s) (mo_currentMounts s) gen (mo_cancelled s)
         (mo_errors s) (mo_closed s ++ closed ++ gone ++ handles rest), ControllerFailed <$> err)
  end.

Definition scan_mounts (si : sync_input) (s : monitor N M) : monitor N M * option command_monitor_err :=
  match discovered (mo_cancelled s) si [] true with
  | (Err e, closed) =>
      (MkMonitor (mo_maps s) (mo_current s) (mo_mounts s) (mo_currentMounts s) (mo_generation s) (mo_cancelled s)
         (mo_errors s) (mo_closed s ++ closed), Some (DiscoverFailed e))
  | (Ok desired, closed) =>
      let '(k, current, gen, err, rest, gone) :=
        syncCommandNamespaces (si_keys1 si) (si_keys2 si) (si_now si) (si_now2 si) desired (mo_currentMounts s)
          (mo_generation s) (mo_mounts s) in
      (MkMonitor (mo_maps s) (mo_current s) k current gen (mo_cancelled s)
         (mo_errors s) (mo_closed s ++ closed ++ gone ++ handles rest), ControllerFailed <$> err)
  end.

Definition scan (namespaces mounts : sync_input) (s : monitor N M) : monitor N M * option command_monitor_err :=
  match scan_namespaces namespaces s with
  | (s, Some e) => (s, Some e)
  | (s, None) => scan_mounts mounts s
  end.

(** [log.Printf] and [cancel()] where there is an error. *)
Definition log_and_cancel (r : monitor N M * option command_monitor_err) : monitor N M :=
  match r with
  | (s, None) => s
  | (s, Some e) =>
      MkMonitor (mo_maps s) (mo_current s) (mo_mounts s) (mo_currentMounts s) (mo_generation s) true
        (mo_errors s ++ [e]) (mo_closed s)
  end.

Definition activate_namespaces (keys : list Z) (now : Z) (s : monitor N M) : monitor N M * option command_monitor_err :=
  let '(k, current, gen, err) :=
    activateCommandNamespaces keys now (mo_current s) (mo_generation s) (mo_maps s) in
  (MkMonitor k current (mo_mounts s) (mo_currentMounts s) gen (mo_cancelled s) (mo_errors s) (mo_closed s),
   ControllerFailed <$> err).
Definition activate_mounts (keys : list Z) (now : Z) (s : monitor N M) : monitor N M * option command_monitor_err :=
  let '(k, current, gen, err) :=
    activateCommandNamespaces keys now (mo_currentMounts s) (mo_generation s) (mo_mounts s) in
  (MkMonitor (mo_maps s) (mo_current s) k current gen (mo_cancelled s) (mo_errors s) (mo_closed s),
   ControllerFailed <$> err).

Definition monitor_step (s : monitor N M) (ev : monitor_event) : monitor N M :=
  match ev with
  | ScanTick namespaces mounts => log_and_cancel (scan namespaces mounts s)
  | ActivationTick keys now mountKeys mountNow =>
      log_and_cancel (activate_mounts mountKeys mountNow (log_and_cancel (activate_namespaces keys now s)))
  end.

Definition monitor_run (s : monitor N M) (evs : list monitor_event) : monitor N M := fold_left monitor_step evs s.
End Monitor.

(** [nextCommandActivation]: the earliest [readyAt] of the inactive namespaces. *)
Definition earlier (st : commandNamespace) (earliest : option Z) : option Z :=
  if ns_active st then earliest
  else match earliest, ns_readyAt st with
       | None, t => t
       | Some e, Some t => if t <? e then Some t else Some e
       | Some e, None => None    (* the zero time is before any other *)
       end.
Definition nextCommandActivation (groups : list (list commandNamespace)) : option Z :=
  fold_left (λ e group, fold_left (λ e st, earlier st e) group e) groups None.

(** ** The settings the user side writes *)
Definition kernel_config (cfg : UserCommandExecutionController) (uids : list Z) (commands : list string)
    : kernelConfig :=
  MkKernelConfig
    (if bool_decide (uc_Mode cfg = "blocker") then kernel_modeBlocker else modeLogger)
    (if bool_decide (BlockType cfg = "negative") then blockNegative else blockPositive)
    (if bool_decide (uids = []) then 0 else 1) (if bool_decide (commands = []) then 0 else 1).

(** [copy(key.Name[:], command)] into 64 zero bytes. *)
Definition command_key (command : string) : list Z :=
  let name := take 64 (map byte_val (bytes command)) in name ++ replicate (64 - length name) 0.

(** ** Events *)
Definition COMMAND_SIZE : nat := 64.

(** [bytes.TrimRight(_, NUL)] and the string of the bytes. *)
Fixpoint drop_zeros (l : list Z) : list Z :=
  match l with b :: l' => if b =? 0 then drop_zeros l' else l | [] => [] end.
Definition trim_right_zeros (l : list Z) : list Z := rev (drop_zeros (rev l)).
Definition string_of (l : list Z) : string := of_bytes (map byte_of l).

Definition u32_at (i : nat) (sample : list Z) : Z := le_load (take 4 (drop (4 * i) sample)).

(** [binary.Read] of an [execEvent] in little-endian order. *)
Definition read_event (sample : list Z) : execEvent :=
  MkExec (u32_at 0 sample) (u32_at 1 sample) (u32_at 2 sample) (u32_at 3 sample) (u32_at 4 sample)
    (u32_at 5 sample) (u32_at 6 sample) (u32_at 7 sample) (drop 32 sample).

(** The alert, without the text that is built from the details. *)
Record commandAlert := MkCommandAlert {
  ca_result : string; ca_severity : string; ca_command : string; ca_uid : Z; ca_euid : Z;
  ca_userns : Z; ca_pid : Z; ca_tid : Z; ca_mode : string }.

(** [Err] for a sample of the wrong size; [Ok None] when there is nothing to report. *)
Definition decodeCommandEvent (sample : list Z) (mode : string) : result Z (option commandAlert) :=
  if negb (length sample =? 96)%nat then Err (Z.of_nat (length sample))
  else
    let evt := read_event sample in
    if (ee_HostUID evt =? 0) || (ee_EffectiveUID evt =? 0) || (ee_WouldBlock evt =? 0) then Ok None
    else if bool_decide (mode = "blocker") && (ee_Blocked evt =? 0) then Ok None
    else
      let '(result, severity) :=
        if bool_decide (mode = "blocker") then ("blocked", SeverityHigh) else ("logged", SeverityCritical) in
      let command := string_of (trim_right_zeros (ee_Command evt)) in
      let command := if ee_CommandTruncated evt =? 0 then command else command +:+ "..." in
      Ok (Some (MkCommandAlert result severity command (ee_HostUID evt) (ee_EffectiveUID evt)
                  (ee_UserNS evt) (ee_TGID evt) (ee_PID evt) mode)).

(** ** The kernel program

    [task] is what the program reads of the current task, the name is the bytes of the
    file name without its NUL, [None] where a read fails.  The maps are read at six
    instants: [at_ i] is the content at the [i]-th read. *)
Record task := MkTask {
  t_uid : Z; t_euid : Z; t_userns : Z; t_mntns : Z; t_tgid : Z; t_pid : Z }.

Record kernel_maps := MkMaps {
  m_users : gset userKey; m_namespaces : gmap Z namespacePolicy; m_mounts : gmap Z namespacePolicy;
  m_commands : gset (list Z) }.

Definition EPERM : Z := 1.

(** [bpf_probe_read_kernel_str] into 64 zero bytes, and whether the name was longer. *)
Definition name_key (name : list Z) : list Z :=
  let n := take 63 name in n ++ replicate (64 - length n) 0.
Definition name_truncated (name : list Z) : bool := (63 <? length name)%nat.

Definition bool_u32 (b : bool) : Z := if b then 1 else 0.

(** The result of the program and the event it submits; [reserved] tells whether the ring
    buffer has room. *)
Definition user_command_controller (prior_ret : Z) (cfg : kernelConfig) (t : task) (name : option (list Z))
    (at_ : nat → kernel_maps) (reserved : bool) : Z * option execEvent :=
  if negb (prior_ret =? 0) then (- EPERM, None)
  else if kc_Mode cfg =? 0 then (0, None)
  else if (t_uid t =? 0) || (t_euid t =? 0) then (0, None)
  else
    match m_namespaces (at_ 0%nat) !! t_userns t with
    | None => (0, None)
    | Some ns =>
        if (t_uid t =? RootUID ns) || (t_euid t =? RootUID ns) then (0, None)
        else
          match m_mounts (at_ 1%nat) !! t_mntns t with
          | None => (0, None)
          | Some mount =>
              match name with
              | None => (0, None)
              | Some name =>
                  let truncated := name_truncated name in
                  let has_users := negb (kc_HasUsers cfg =? 0) in
                  let has_commands := negb (kc_HasCommands cfg =? 0) in
                  let has_user := has_users && bool_decide (MkUserKey (t_userns t) (t_uid t) ∈ m_users (at_ 2%nat)) in
                  let has_command := negb truncated && has_commands &&
                                     bool_decide (name_key name ∈ m_commands (at_ 3%nat)) in
                  let selected := (has_users || has_commands) && (negb has_users || has_user) &&
                                  (negb has_commands || has_command) in
                  let would_block := if kc_BlockType cfg =? blockPositive then selected else negb selected in
                  let blocked := (kc_Mode cfg =? kernel_modeBlocker) && would_block in
                  if negb would_block then (0, None)
                  else
                    match m_namespaces (at_ 4%nat) !! t_userns t, m_mounts (at_ 5%nat) !! t_mntns t with
                    | Some ns', Some mount' =>
                        if negb (Generation ns' =? Generation ns) || negb (Generation mount' =? Generation mount)
                        then (0, None)
                        else
                          (if blocked then - EPERM else 0,
                           if reserved then
                             Some (MkExec (t_tgid t) (t_pid t) (t_uid t) (t_userns t) (t_euid t)
                                     (bool_u32 would_block) (bool_u32 blocked) (bool_u32 truncated)
                                     (name_key name))
                           else None)
                    | _, _ => (0, None)
                    end
              end
          end
    end.

(** The bytes of the record in the ring buffer. *)
Definition exec_event_bytes (e : execEvent) : list Z :=
  le_bytes 4 (ee_TGID e) ++ le_bytes 4 (ee_PID e) ++ le_bytes 4 (ee_HostUID e) ++ le_bytes 4 (ee_UserNS e) ++
  le_bytes 4 (ee_EffectiveUID e) ++ le_bytes 4 (ee_WouldBlock e) ++ le_bytes 4 (ee_Blocked e) ++
  le_bytes 4 (ee_CommandTruncated e) ++ ee_Command e.
