(* ===== verification/CommandPolicy.v ===== *)
(** * The kernel program decides what the policy says

    The keys the user side writes and the keys the kernel program builds agree, so the
    verdict of the program on a task of a namespace whose gate is open is the policy of
    [policy.go] applied to the configured lists. *)

From S2P Require Import Prelude.
From S2P Require Import GoStrings.
From S2P Require Import Words.
From S2P Require Import Policy.
From S2P Require Import Config.
From S2P Require Import ConfigValidate.
From S2P Require Import Protocol.
From S2P Require Import CommandController.

(** ** User keys *)
Lemma namespace_users_spec ns mapping uids users :
  namespace_users ns mapping uids = Ok users →
  ∀ key, key ∈ users ↔ UserNS key = ns ∧ ∃ uid, uid ∈ uids ∧ HostUID uid mapping = Ok (Some (HostUid key)).
Proof.
  revert users. induction uids as [|uid uids IH]; intros users; simpl.
  { intros [= <-] key. rewrite elem_of_nil. split; [done|]. intros (_ & u & Hu & _). by apply elem_of_nil in Hu. }
  destruct (HostUID uid mapping) as [host|e] eqn:Hh; [|done]. simpl.
  destruct (namespace_users ns mapping uids) as [us|e] eqn:Hu; [|done]. simpl. intros [= <-] key.
  specialize (IH us eq_refl key). destruct host as [h|].
  - rewrite elem_of_cons, IH. setoid_rewrite elem_of_cons. split.
    + intros [->|(Hns & u & Hu1 & Hu2)]; [by eauto 6|]. split; [done|]. eauto.
    + intros (Hns & u & [->|Hu1] & Hu2); [|eauto]. left. rewrite Hh in Hu2. injection Hu2 as ->.
      destruct key. simpl in *. by subst.
  - rewrite IH. setoid_rewrite elem_of_cons. split; [intros (? & u & ? & ?); eauto|].
    intros (Hns & u & [->|Hu1] & Hu2); [congruence|]. eauto.
Qed.

(** ** Command keys *)
Definition plain_name (l : list Z) : Prop := Forall (λ b, is_byte b ∧ b ≠ 0) l.

Lemma pad_inj (l k : list Z) n :
  Forall (λ b, b ≠ 0) l → Forall (λ b, b ≠ 0) k → (length l <= n)%nat → (length k <= n)%nat →
  l ++ replicate (n - length l) 0 = k ++ replicate (n - length k) 0 → l = k.
Proof.
  revert k n. induction l as [|b l IH]; intros [|c k] n Hl Hk Hn1 Hn2; simpl; [done| | |].
  - rewrite Nat.sub_0_r. destruct n as [|n]; [simpl in Hn2; lia|]. simpl.
    intros [= <- _]. by inversion Hk.
  - rewrite Nat.sub_0_r. destruct n as [|n]; [simpl in Hn1; lia|]. simpl.
    intros [= -> _]. by inversion Hl.
  - destruct n as [|n]; [simpl in Hn1; lia|]. simpl. intros [= <- He]. f_equal.
    inversion Hl; inversion Hk; subst. apply (IH k n); simpl in *; [done|done|lia|lia|done].
Qed.

Lemma command_key_eq c :
  command_name c → command_key c = map byte_val (bytes c) ++ replicate (64 - length (map byte_val (bytes c))) 0.
Proof.
  intros (_ & Hlen & _). unfold str_len in Hlen. unfold command_key. rewrite take_ge; [done|].
  rewrite length_map. lia.
Qed.

Lemma command_key_matches c name :
  command_name c → plain_name name → name_truncated name = false →
  command_key c = name_key name ↔ map byte_val (bytes c) = name.
Proof.
  intros Hc Hn Ht. unfold name_truncated in Ht. apply Nat.ltb_ge in Ht.
  unfold name_key. rewrite (take_ge name) by lia. rewrite command_key_eq by done.
  destruct Hc as (_ & Hlen & Hb). unfold str_len in Hlen. split; [|by intros ->].
  apply pad_inj.
  - apply Forall_forall. intros b Hin. apply list_elem_of_In, in_map_iff in Hin as (a & <- & Ha%list_elem_of_In).
    rewrite Forall_forall in Hb. by apply Hb.
  - apply (Forall_impl _ _ _ Hn). by intros b [_ ?].
  - rewrite length_map. lia.
  - lia.
Qed.

Lemma string_of_bytes c : string_of (map byte_val (bytes c)) = c.
Proof.
  unfold string_of. rewrite map_map. rewrite (map_ext _ id) by apply byte_of_val. by rewrite map_id, of_bytes_bytes.
Qed.

Lemma bytes_string_of l : Forall is_byte l → map byte_val (bytes (string_of l)) = l.
Proof.
  intros Hl. unfold string_of. rewrite bytes_of_bytes, map_map.
  induction Hl as [|b l Hb _ IH]; simpl; [done|]. rewrite IH. f_equal. by apply byte_val_of.
Qed.

(** *** The uids of the policy as the keys stand for them *)

(** Some configured uid is, through [mapping], the host uid [host]. *)
Definition user_selected (uids : list Z) (mapping : string) (host : Z) : bool :=
  existsb (λ uid, bool_decide (HostUID uid mapping = Ok (Some host))) uids.

Lemma user_key_selected ns mapping uids root users (m : gset userKey) host :
  commandNamespaceRules ns mapping uids = Ok (root, users) →
  (∀ h, MkUserKey ns h ∈ m ↔ MkUserKey ns h ∈ users) →
  bool_decide (MkUserKey ns host ∈ m) = user_selected uids mapping host.
Proof.
  intros Hr Hus. unfold commandNamespaceRules in Hr. destruct (HostUID 0 mapping) as [h0|]; [|done]. simpl in Hr.
  destruct (namespace_users _ _ _) as [us|] eqn:Hn; [|done]. injection Hr as _ <-.
  apply eq_iff_eq_true. rewrite bool_decide_eq_true, Hus, (namespace_users_spec _ _ _ _ Hn). unfold user_selected.
  rewrite existsb_exists. cbn [UserNS HostUid]. split.
  - intros (_ & uid & Hin & Hu). exists uid. rewrite <- list_elem_of_In. split; [done|by apply bool_decide_eq_true].
  - intros (uid & Hin%list_elem_of_In & Hu%bool_decide_eq_true). eauto.
Qed.

Lemma command_key_selected (uc : UserCommandExecutionController) (commands : list string) (name : list Z) (m : gset (list Z)) :
  NormalizeCommands (items (TargetCommands uc)) = Ok commands → plain_name name → m = list_to_set (map command_key commands) →
  negb (name_truncated name) && bool_decide (name_key name ∈ m) = bool_decide (string_of name ∈ commands).
Proof.
  intros Hcommands Hname ->. apply NormalizeCommands_ok in Hcommands as (_ & Hnames & _).
  rewrite Forall_forall in Hnames.
  assert (Hb : Forall is_byte name) by (apply (Forall_impl _ _ _ Hname); by intros b [? _]).
  destruct (name_truncated name) eqn:Ht; simpl.
  - symmetry. apply bool_decide_false. intros Hin. specialize (Hnames _ Hin). destruct Hnames as (_ & Hlen & _).
    unfold str_len in Hlen. rewrite <- (length_map byte_val), bytes_string_of in Hlen by done.
    unfold name_truncated in Ht. apply Nat.ltb_lt in Ht. lia.
  - apply bool_decide_ext. rewrite elem_of_list_to_set, list_elem_of_In, in_map_iff. split.
    + intros (c & Hk & Hin%list_elem_of_In). apply command_key_matches in Hk; [|by apply Hnames|done|done].
      by rewrite <- Hk, string_of_bytes.
    + intros Hin. exists (string_of name). rewrite <- list_elem_of_In. split; [|done].
      apply command_key_matches; [by apply Hnames|done|done|by apply bytes_string_of].
Qed.

(** The policy on what was found of the user and of the command. *)
Definition blocks (uc : UserCommandExecutionController) (uids : list Z) (commands : list string)
    (userMatch commandMatch : bool) : bool :=
  WouldBlock (BlockType uc)
    (Selected (negb (bool_decide (uids = []))) (negb (bool_decide (commands = []))) userMatch commandMatch).

(** With every gate open the program applies it to what it finds in the two maps. *)
Lemma kernel_verdict_keys (uc : UserCommandExecutionController) (uids : list Z) (commands : list string) t (name : list Z) at_ reserved root gen m m' userMatch commandMatch :
  BlockType uc = "positive" ∨ BlockType uc = "negative" →
  t_uid t ≠ 0 → t_euid t ≠ 0 → t_uid t ≠ root → t_euid t ≠ root →
  m_namespaces (at_ 0%nat) !! t_userns t = Some (MkNsPolicy root gen) →
  m_namespaces (at_ 4%nat) !! t_userns t = Some (MkNsPolicy root gen) →
  m_mounts (at_ 1%nat) !! t_mntns t = Some m → m_mounts (at_ 5%nat) !! t_mntns t = Some m' → Generation m = Generation m' →
  bool_decide (MkUserKey (t_userns t) (t_uid t) ∈ m_users (at_ 2%nat)) = userMatch →
  negb (name_truncated name) && bool_decide (name_key name ∈ m_commands (at_ 3%nat)) = commandMatch →
  user_command_controller 0 (kernel_config uc uids commands) t (Some name) at_ reserved =
  if blocks uc uids commands userMatch commandMatch then
    (if bool_decide (uc_Mode uc = "blocker") then - EPERM else 0,
     if reserved then
       Some (MkExec (t_tgid t) (t_pid t) (t_uid t) (t_userns t) (t_euid t) 1
               (bool_u32 (bool_decide (uc_Mode uc = "blocker"))) (bool_u32 (name_truncated name)) (name_key name))
     else None)
  else (0, None).
Proof.
  intros Htype Hu0 He0 Hr1 Hr2 Hn0 Hn4 Hm1 Hm5 Hmg Hum Hcm.
  unfold user_command_controller, blocks. cbn [kc_Mode kc_BlockType kc_HasUsers kc_HasCommands kernel_config].
  rewrite !Z.eqb_refl. cbn [negb].
  assert (Hm0 : ((if bool_decide (uc_Mode uc = "blocker") then kernel_modeBlocker else modeLogger) =? 0) = false).
  { destruct (bool_decide (uc_Mode uc = "blocker")); reflexivity. }
  rewrite Hm0. clear Hm0.
  rewrite (proj2 (Z.eqb_neq (t_uid t) 0)), (proj2 (Z.eqb_neq (t_euid t) 0)) by done. cbn [orb].
  rewrite Hn0, Hm1. cbn [RootUID Generation].
  rewrite (proj2 (Z.eqb_neq (t_uid t) root)), (proj2 (Z.eqb_neq (t_euid t) root)) by done. cbn [orb].
  rewrite Hn4, Hm5, Hum. cbn [Generation]. rewrite Hmg, !Z.eqb_refl. cbn [negb orb].
  replace (negb (name_truncated name) && negb ((if bool_decide (commands = []) then 0 else 1) =? 0) &&
           bool_decide (name_key name ∈ m_commands (at_ 3%nat)))
    with (negb (bool_decide (commands = [])) && commandMatch).
  2: { rewrite <- Hcm. destruct (bool_decide (commands = [])), (name_truncated name); done. }
  assert (Hhu : negb ((if bool_decide (uids = []) then 0 else 1) =? 0) = negb (bool_decide (uids = []))) by by destruct (bool_decide (uids = [])).
  assert (Hhc : negb ((if bool_decide (commands = []) then 0 else 1) =? 0) = negb (bool_decide (commands = []))) by by destruct (bool_decide (commands = [])).
  rewrite Hhu, Hhc. clear Hhu Hhc.
  assert (Hmode : ((if bool_decide (uc_Mode uc = "blocker") then kernel_modeBlocker else modeLogger) =? kernel_modeBlocker)
                  = bool_decide (uc_Mode uc = "blocker")) by by destruct (bool_decide (uc_Mode uc = "blocker")).
  rewrite Hmode. clear Hmode.
  assert (Hbt : ((if bool_decide (BlockType uc = "negative") then blockNegative else blockPositive) =? blockPositive)
                = bool_decide (BlockType uc = "positive")) by by destruct Htype as [-> | ->].
  rewrite Hbt. unfold WouldBlock, Selected. clear Hbt.
  destruct (bool_decide (BlockType uc = "positive")), (bool_decide (uids = [])), (bool_decide (commands = [])),
    userMatch, commandMatch; cbn [negb andb orb]; rewrite ?andb_true_r; done.
Qed.

(** ** The verdict *)
Section Verdict.
Variables (uc : UserCommandExecutionController) (uids : list Z) (commands : list string).
Hypothesis Huids : ParseUIDs (items (TargetUsersIDs uc)) = Ok uids.
Hypothesis Hcommands : NormalizeCommands (items (TargetCommands uc)) = Ok commands.
Hypothesis Htype : BlockType uc = "positive" ∨ BlockType uc = "negative".

Variables (t : task) (name : list Z) (mapping : string) (es : list extent) (uid : Z).
(** A task of the namespace, neither root of the host nor root of the namespace. *)
Hypothesis Hname : plain_name name.
Hypothesis Hes : extents (split_str mapping nl) = Some es.
Hypothesis Hdis : ∀ e1 e2, e1 ∈ es → e2 ∈ es → e1 = e2 ∨ host_disjoint e1 e2.
Hypothesis Hu32 : in_u32 uid.
Hypothesis Huid : HostUID uid mapping = Ok (Some (t_uid t)).
Hypothesis Hnot0 : t_uid t ≠ 0 ∧ t_euid t ≠ 0.

(** The gates are open at both readings and the rules of the namespace are those of the
    configured uids at the reading of the users, the commands those configured. *)
Record gates_open (at_ : nat → kernel_maps) : Prop := {
  go_rules : ∃ root users, commandNamespaceRules (t_userns t) mapping uids = Ok (root, users) ∧
    (∀ h, MkUserKey (t_userns t) h ∈ m_users (at_ 2%nat) ↔ MkUserKey (t_userns t) h ∈ users) ∧
    t_uid t ≠ root ∧ t_euid t ≠ root ∧
    ∃ gen gen', m_namespaces (at_ 0%nat) !! t_userns t = Some (MkNsPolicy root gen) ∧
      m_namespaces (at_ 4%nat) !! t_userns t = Some (MkNsPolicy root gen') ∧ gen = gen';
  go_mount : ∃ m m', m_mounts (at_ 1%nat) !! t_mntns t = Some m ∧ m_mounts (at_ 5%nat) !! t_mntns t = Some m' ∧
    Generation m = Generation m';
  go_commands : m_commands (at_ 3%nat) = list_to_set (map command_key commands) }.

Lemma user_match at_ :
  gates_open at_ → bool_decide (MkUserKey (t_userns t) (t_uid t) ∈ m_users (at_ 2%nat)) = bool_decide (uid ∈ uids).
Proof.
  intros [(root & users & Hr & Hus & _) _ _]. apply bool_decide_ext. rewrite Hus.
  unfold commandNamespaceRules in Hr. destruct (HostUID 0 mapping) as [h0|]; [|done]. simpl in Hr.
  destruct (namespace_users _ _ _) as [us|] eqn:Hn; [|done]. injection Hr as _ <-.
  rewrite (namespace_users_spec _ _ _ _ Hn). simpl. split; [|eauto].
  intros (_ & u & Hin & Hu). destruct (decide (u = uid)) as [->|Hne]; [done|]. exfalso.
  apply ParseUIDs_range in Huids as Hrange. rewrite Forall_forall in Hrange.
  by apply (HostUID_inj u uid (t_uid t) (t_uid t) mapping es (Hrange u Hin) Hu32 Hes Hdis Hu Huid Hne).
Qed.

Definition policy_blocks : bool :=
  blocks uc uids commands (bool_decide (uid ∈ uids)) (bool_decide (string_of name ∈ commands)).

Lemma kernel_verdict_policy at_ reserved :
  gates_open at_ →
  user_command_controller 0 (kernel_config uc uids commands) t (Some name) at_ reserved =
  if policy_blocks then
    (if bool_decide (uc_Mode uc = "blocker") then - EPERM else 0,
     if reserved then
       Some (MkExec (t_tgid t) (t_pid t) (t_uid t) (t_userns t) (t_euid t) 1
               (bool_u32 (bool_decide (uc_Mode uc = "blocker"))) (bool_u32 (name_truncated name)) (name_key name))
     else None)
  else (0, None).
Proof.
  intros Hg. pose proof (user_match at_ Hg) as Hum.
  destruct Hg as [(root & users & _ & _ & Hr1 & Hr2 & g & g' & Hn0 & Hn4 & ->) (m & m' & Hm1 & Hm5 & Hmg) Hc].
  apply (kernel_verdict_keys uc uids commands t name at_ reserved root g' m m'); try done; try apply Hnot0.
  by eapply command_key_selected.
Qed.
End Verdict.
