(* ===== verification/CommandGate.v ===== *)
(** * The gate of a namespace

    The user side writes the rules of a namespace before it opens its gate (the entry of
    the namespaces map, with a fresh generation) and removes them after it closed it.  So
    a reader that finds the same generation at two instants read, in between, exactly the
    rules of one activation: nothing is decided on half-written rules, through every
    failure of a write. *)

From S2P Require Import Prelude.
From S2P Require Import GoStrings.
From S2P Require Import Policy.
From S2P Require Import Config.
From S2P Require Import CommandController.
From S2P Require Import CommandPolicy.

(** ** What the maps of the kernel promise *)
Abbreviation view := (gset userKey * gmap Z namespacePolicy)%type.

Definition effect (op : map_op) (v : view) : view :=
  match op with
  | UpdateUser key => ({[key]} ∪ fst v, snd v)
  | DeleteUser key => (fst v ∖ {[key]}, snd v)
  | UpdateNamespace ns p => (fst v, <[ns := p]> (snd v))
  | DeleteNamespace ns => (fst v, delete ns (snd v))
  end.

(** The key of a deletion is not in its map. *)
Definition missing (op : map_op) (v : view) : Prop :=
  match op with
  | DeleteUser key => key ∉ fst v
  | DeleteNamespace ns => snd v !! ns = None
  | _ => True
  end.

Class KernelMapsLaws (K : Type) `{KernelMaps K} := {
  kview : K → view;
  exec_op_view op k k' err : exec_op op k = (k', err) →
    kview k' = match err with None => effect op (kview k) | Some _ => kview k end;
  exec_op_missing op k k' : exec_op op k = (k', Some ErrKeyNotExist) → missing op (kview k) }.

(** ** The steps of the maps *)
Section Steps.
(** What the root and the users of a namespace are. *)
Variable rule : Z → Z → list userKey → Prop.

Inductive gate_step : Z * view → Z * view → Prop :=
| gate_users c U U' N :
    (∀ key, (key ∈ U ↔ key ∈ U') ∨ N !! UserNS key = None) → gate_step (c, (U, N)) (c, (U', N))
| gate_open c ns p U N users :
    N !! ns = None → c < Generation p → rule ns (RootUID p) users →
    (∀ key, UserNS key = ns → key ∈ users ↔ key ∈ U) →
    gate_step (c, (U, N)) (Generation p, (U, <[ns := p]> N))
| gate_close c ns U N : gate_step (c, (U, N)) (c, (U, delete ns N)).

(** An open namespace has the rules it is to have, and no other. *)
Definition rules_loaded (v : view) : Prop :=
  ∀ ns p, snd v !! ns = Some p →
  ∃ users, rule ns (RootUID p) users ∧ ∀ key, UserNS key = ns → key ∈ users ↔ key ∈ fst v.

Lemma gate_step_loaded x y : gate_step x y → rules_loaded (snd x) → rules_loaded (snd y).
Proof.
  intros [c U U' N Hu|c ns p U N users Hn Hc Hr Hus|c ns U N] Hx ns' p' Hp; simpl in *.
  - destruct (Hx ns' p' Hp) as (users & Hr & Hus). exists users. split; [done|]. intros key Hk. rewrite (Hus key Hk).
    destruct (Hu key) as [Hiff|Hnone]; [done|]. simpl in *. congruence.
  - apply lookup_insert_Some in Hp as [[<- <-]|[_ Hp]]; [by exists users|by apply (Hx ns')].
  - apply lookup_delete_Some in Hp as [_ Hp]. by apply (Hx ns').
Qed.

Definition gens_le (x : Z * view) : Prop := ∀ ns p, snd (snd x) !! ns = Some p → Generation p <= fst x.

Lemma gate_step_gens x y : gate_step x y → gens_le x → gens_le y ∧ fst x <= fst y.
Proof.
  intros [c U U' N|c ns p U N users Hn Hc|c ns U N] Hx; (split; [|simpl; lia]); intros ns' p' Hp; simpl in *.
  - by apply (Hx ns').
  - apply lookup_insert_Some in Hp as [[<- <-]|[_ Hp]]; [lia|]. specialize (Hx _ _ Hp). simpl in Hx. lia.
  - apply lookup_delete_Some in Hp as [_ Hp]. by apply (Hx ns').
Qed.

Definition trace_of (tr : list (Z * view)) : Prop :=
  (∀ x, head tr = Some x → gens_le x ∧ rules_loaded (snd x)) ∧ ∀ i x y, tr !! i = Some x → tr !! S i = Some y → gate_step x y.

Lemma trace_ok tr i x : trace_of tr → tr !! i = Some x → gens_le x ∧ rules_loaded (snd x).
Proof.
  intros [Hh Hs]. revert x. induction i as [|i IH]; intros x Hx.
  { apply Hh. by rewrite head_lookup. }
  destruct (lookup_lt_is_Some_2 tr i) as [y Hy]; [apply lookup_lt_Some in Hx; lia|].
  destruct (IH y Hy) as [Hle Hl]. pose proof (Hs i y x Hy Hx) as Hst.
  split; [by eapply gate_step_gens|by eapply gate_step_loaded].
Qed.

(** From the instant a generation is seen, the gate and the rules are kept, or the
    generation is gone for good. *)
Definition kept (ns : Z) (p : namespacePolicy) (U0 : gset userKey) (v : view) : Prop :=
  snd v !! ns = Some p ∧ ∀ key, UserNS key = ns → key ∈ U0 ↔ key ∈ fst v.
Definition lost (ns g : Z) (x : Z * view) : Prop :=
  g <= fst x ∧ ∀ p, snd (snd x) !! ns = Some p → g < Generation p.

Lemma kept_step ns p U0 x y :
  gate_step x y → gens_le x → kept ns p U0 (snd x) → kept ns p U0 (snd y) ∨ lost ns (Generation p) y.
Proof.
  intros Hs Hle [Hg HU]. assert (Hpc : Generation p <= fst x) by by apply (Hle ns).
  destruct Hs as [c U U' N Hu|c ns' p' U N users Hn Hc|c ns' U N]; simpl in *.
  - left. split; [done|]. intros key Hk. rewrite (HU key Hk). destruct (Hu key) as [Hiff|Hnone]; [done|].
    rewrite Hk in Hnone. congruence.
  - left. split; [|done]. simpl. rewrite lookup_insert_ne; [done|]. intros ->. congruence.
  - destruct (decide (ns' = ns)) as [->|Hne].
    + right. split; [done|]. simpl. intros p' Hp'. by rewrite lookup_delete_eq in Hp'.
    + left. split; [|done]. simpl. by rewrite lookup_delete_ne.
Qed.

Lemma lost_step ns g x y : gate_step x y → lost ns g x → lost ns g y.
Proof.
  intros [c U U' N Hu|c ns' p' U N users Hn Hc|c ns' U N] [Hgc Hl]; (split; [simpl in *; lia|]); simpl in *; intros p Hp.
  - by apply Hl.
  - apply lookup_insert_Some in Hp as [[-> ->]|[_ Hp]]; [lia|by apply Hl].
  - apply lookup_delete_Some in Hp as [_ Hp]. by apply Hl.
Qed.

Lemma kept_or_lost tr ns p i x n y :
  trace_of tr → tr !! i = Some x → snd (snd x) !! ns = Some p → tr !! (i + n)%nat = Some y →
  kept ns p (fst (snd x)) (snd y) ∨ lost ns (Generation p) y.
Proof.
  intros Htr Hx Hp. revert y. induction n as [|n IH]; intros y Hy.
  { rewrite Nat.add_0_r in Hy. rewrite Hx in Hy. injection Hy as <-. left. by split. }
  destruct (lookup_lt_is_Some_2 tr (i + n)%nat) as [z Hz]; [apply lookup_lt_Some in Hy; lia|].
  assert (Hs : gate_step z y). { apply (proj2 Htr (i + n)%nat); [done|]. by rewrite <- Nat.add_succ_r. }
  destruct (IH z Hz) as [Hk|Hl]; [|right; by eapply lost_step].
  apply (kept_step ns p _ z y Hs); [by apply (trace_ok tr (i + n))|done].
Qed.

(** Two readings of a generation: the same policy, and the same rules throughout. *)
Lemma same_generation tr ns i l j x y z p q :
  trace_of tr → (i <= l)%nat → (l <= j)%nat → tr !! i = Some x → tr !! l = Some y → tr !! j = Some z →
  snd (snd x) !! ns = Some p → snd (snd z) !! ns = Some q → Generation q = Generation p →
  q = p ∧ kept ns p (fst (snd x)) (snd y).
Proof.
  intros Htr Hil Hlj Hx Hy Hz Hp Hq Hgen.
  replace l with (i + (l - i))%nat in Hy by lia. replace j with (i + (j - i))%nat in Hz by lia.
  destruct (kept_or_lost tr ns p i x _ z Htr Hx Hp Hz) as [[Hg _]|[_ Hl]]; [|specialize (Hl q Hq); lia].
  split; [congruence|].
  destruct (kept_or_lost tr ns p i x _ y Htr Hx Hp Hy) as [Hk|Hl]; [done|]. exfalso.
  assert (Hn : ∀ n z', tr !! (i + (l - i) + n)%nat = Some z' → lost ns (Generation p) z').
  { induction n as [|n IH]; intros z' Hz'; [rewrite Nat.add_0_r in Hz'; congruence|].
    destruct (lookup_lt_is_Some_2 tr (i + (l - i) + n)%nat) as [w Hw]; [apply lookup_lt_Some in Hz'; lia|].
    eapply lost_step; [|by apply IH]. apply (proj2 Htr (i + (l - i) + n)%nat); [done|]. by rewrite <- Nat.add_succ_r. }
  destruct (Hn (j - l)%nat z) as [_ Hl']; [rewrite <- Hz; f_equal; lia|]. specialize (Hl' q Hq). lia.
Qed.

End Steps.

(** ** The writers keep the gate *)
Section Gate.
Context {K : Type} `{KernelMapsLaws K}.
(** The [rule] of a namespace only has keys of it. *)
Variable rule : Z → Z → list userKey → Prop.
Hypothesis rule_keys : ∀ ns root users, rule ns root users → Forall (λ key, UserNS key = ns) users.

(** The states [snd k] went through the steps of a trace that ends at counter [c]. *)
Definition gated (c : Z) (k : kstate K) : Prop :=
  ∃ tr, trace_of rule tr ∧ tr.*2 = kview <$> snd k ∧ last tr = Some (c, kview (fst k)).

Lemma gated_write op c c' k k' err :
  gated c k → write op k = (k', err) → gate_step rule (c, kview (fst k)) (c', kview (fst k')) → gated c' k'.
Proof.
  intros (tr & [Hh Hs] & Hks & Hlast) Hw Hstep. unfold write in Hw.
  destruct (exec_op op (fst k)) as [k1 e]. injection Hw as <- <-. simpl in *.
  exists (tr ++ [(c', kview k1)]). split; [split|split].
  - intros x Hx. apply Hh. destruct tr as [|z tr]; [done|exact Hx].
  - intros i x y Hx Hy. rewrite last_lookup in Hlast.
    destruct (decide (S i < length tr)%nat) as [Hi|Hi].
    + rewrite lookup_app_l in Hx, Hy by lia. by apply (Hs i).
    + assert (Hlen : (length tr = S i)%nat).
      { apply lookup_lt_Some in Hy. rewrite length_app in Hy. simpl in Hy. destruct tr; [done|]. simpl in *. lia. }
      rewrite Hlen in Hlast. simpl in Hlast. rewrite lookup_app_l in Hx by lia.
      rewrite lookup_app_r in Hy by lia. rewrite Hlen, Nat.sub_diag in Hy. simpl in Hy. congruence.
  - rewrite fmap_app, Hks. by rewrite (fmap_app kview (snd k) [k1]).
  - by rewrite last_snoc.
Qed.

Lemma write_view op k k' err :
  write op k = (k', err) → kview (fst k') = match err with None => effect op (kview (fst k)) | Some _ => kview (fst k) end.
Proof.
  unfold write. destruct (exec_op op (fst k)) as [k1 e] eqn:He. intros [= <- <-]. by apply exec_op_view in He.
Qed.

(** A write that failed changed nothing. *)
Lemma gated_failed op c k k' e :
  gated c k → write op k = (k', Some e) → gated c k' ∧ kview (fst k') = kview (fst k).
Proof.
  intros Hg Hw. pose proof (write_view _ _ _ _ Hw) as Hv. simpl in Hv. split; [|done].
  eapply gated_write; [done..|]. rewrite Hv. destruct (kview (fst k)) as [U N]. apply gate_users. by left.
Qed.

Lemma gated_user_op op c ns k k' :
  gated c k → write op k = (k', None) → (∃ key, (op = UpdateUser key ∨ op = DeleteUser key) ∧ UserNS key = ns) →
  snd (kview (fst k)) !! ns = None →
  gated c k' ∧ kview (fst k') = effect op (kview (fst k)).
Proof.
  intros Hg Hw (key & Hop & Hns) Hcl. pose proof (write_view _ _ _ _ Hw) as Hv. simpl in Hv. split; [|done].
  eapply gated_write; [done..|]. rewrite Hv. destruct (kview (fst k)) as [U N]. simpl in Hcl.
  destruct Hop as [-> | ->]; simpl; apply gate_users; intros key'; (destruct (decide (key' = key)) as [->|Hne]; [right; congruence|left]);
    set_solver.
Qed.

Lemma update_users_gate ns keys : ∀ c k k' err,
  gated c k → update_users keys k = (k', err) → snd (kview (fst k)) !! ns = None → Forall (λ key, UserNS key = ns) keys →
  gated c k' ∧ snd (kview (fst k')) = snd (kview (fst k)) ∧
  (∀ key, key ∈ fst (kview (fst k)) → key ∈ fst (kview (fst k'))) ∧
  (∀ key, key ∈ fst (kview (fst k')) → key ∈ fst (kview (fst k)) ∨ key ∈ keys) ∧
  (err = None → ∀ key, key ∈ keys → key ∈ fst (kview (fst k'))).
Proof.
  induction keys as [|key keys IH]; intros c k k' err Hg Hu Hcl Hf; simpl in Hu.
  { injection Hu as <- <-. repeat split; [done|auto|auto|]. intros _ key Hin. by apply elem_of_nil in Hin. }
  inversion Hf as [|? ? Hk Hf']; subst. destruct (write (UpdateUser key) k) as [k1 [e|]] eqn:Hw.
  - injection Hu as <- <-. destruct (gated_failed _ _ _ _ _ Hg Hw) as [Hg' Hv]. rewrite Hv.
    repeat split; [done|auto|auto|done].
  - destruct (gated_user_op _ _ (UserNS key) _ _ Hg Hw) as [Hg' Hv]; [by eauto|done|].
    destruct (IH c k1 k' err Hg' Hu) as (Hg2 & HN & Hmono & Hadd & Hall); [by rewrite Hv|done|].
    rewrite Hv in HN, Hmono, Hadd. simpl in *. split; [done|]. split; [done|]. split; [set_solver|]. split.
    + intros key' Hin. rewrite elem_of_cons. destruct (Hadd key' Hin) as [Hin'|]; [set_solver|auto].
    + intros Herr key' Hin. apply elem_of_cons in Hin as [->|Hin]; [apply Hmono; set_solver|by apply Hall].
Qed.

Lemma delete_ok_spec op k k' err :
  write op k = (k', err) → delete_ok err = None → (∃ key, op = DeleteUser key) ∨ (∃ ns, op = DeleteNamespace ns) →
  kview (fst k') = effect op (kview (fst k)).
Proof.
  intros Hw Hok Hop. pose proof (write_view _ _ _ _ Hw) as Hv. destruct err as [[|]|]; [|done|done].
  rewrite Hv. unfold write in Hw. destruct (exec_op op (fst k)) as [k1 e] eqn:He. injection Hw as <- ->.
  apply exec_op_missing in He. destruct (kview (fst k)) as [U N].
  destruct Hop as [[key ->]|[ns ->]]; simpl in *; f_equal; [set_solver|]. by rewrite delete_id.
Qed.

Lemma gated_delete op c ns k k' err :
  gated c k → write op k = (k', err) →
  (op = DeleteNamespace ns ∨ ∃ key, op = DeleteUser key ∧ UserNS key = ns ∧ snd (kview (fst k)) !! ns = None) → gated c k'.
Proof.
  intros Hg Hw Hop. destruct err as [e|]; [by eapply gated_failed|]. destruct Hop as [->|(key & -> & Hns & Hcl)].
  - eapply gated_write; [done..|]. pose proof (write_view _ _ _ _ Hw) as ->. destruct (kview (fst k)) as [U N].
    apply gate_close.
  - eapply gated_user_op; [done|done|by eauto|done].
Qed.

Lemma delete_users_gate ns keys : ∀ c k k' err,
  gated c k → delete_users keys k = (k', err) → snd (kview (fst k)) !! ns = None → Forall (λ key, UserNS key = ns) keys →
  gated c k' ∧ snd (kview (fst k')) = snd (kview (fst k)) ∧
  (∀ key, key ∈ fst (kview (fst k')) → key ∈ fst (kview (fst k))) ∧
  (∀ key, key ∈ fst (kview (fst k)) → key ∉ keys → key ∈ fst (kview (fst k'))) ∧
  (err = None → ∀ key, key ∈ keys → key ∉ fst (kview (fst k'))).
Proof.
  induction keys as [|key keys IH]; intros c k k' err Hg Hu Hcl Hf; simpl in Hu.
  { injection Hu as <- <-. repeat split; [done|auto|auto|]. intros _ key Hin. by apply elem_of_nil in Hin. }
  inversion Hf as [|? ? Hk Hf']; subst. destruct (write (DeleteUser key) k) as [k1 e] eqn:Hw.
  assert (Hg1 : gated c k1) by (eapply gated_delete; [done|done|right; eauto]).
  destruct (delete_ok e) as [e'|] eqn:Hok.
  - injection Hu as <- <-. assert (Hv : kview (fst k1) = kview (fst k)).
    { pose proof (write_view _ _ _ _ Hw) as Hv. by destruct e as [[|]|]. }
    rewrite Hv. repeat split; [done|auto|auto|done].
  - assert (Hv : kview (fst k1) = effect (DeleteUser key) (kview (fst k))) by (eapply delete_ok_spec; eauto).
    destruct (IH c k1 k' err Hg1 Hu) as (Hg2 & HN & Hsub & Hkeep & Hall); [by rewrite Hv|done|].
    rewrite Hv in HN, Hsub, Hkeep. simpl in *. split; [done|]. split; [done|]. split; [set_solver|]. split.
    + intros key' Hin Hni. apply Hkeep; set_solver.
    + intros Herr key' Hin. apply elem_of_cons in Hin as [->|Hin]; [|by apply Hall]. intros Hin'.
      apply Hsub in Hin'. set_solver.
Qed.

(** ** The invariant of the monitor *)
Definition rules_of (ns : Z) (st : commandNamespace) : Prop := rule ns (ns_root st) (ns_users st).

(** What is open has its rules in the map, and nothing is in the map but rules of known
    namespaces. *)
Record gate_inv (current : gmap Z commandNamespace) (gen : Z) (v : view) : Prop := {
  gi_open ns p : snd v !! ns = Some p → Generation p <= gen ∧
    ∃ st, current !! ns = Some st ∧ ns_active st = true ∧ RootUID p = ns_root st ∧
          ∀ key, key ∈ ns_users st → key ∈ fst v;
  gi_users key : key ∈ fst v → ∃ st, current !! UserNS key = Some st ∧ key ∈ ns_users st;
  gi_rules ns st : current !! ns = Some st → rules_of ns st }.

(** Until a write fails, only active namespaces have rules in the map. *)
Definition only_active (current : gmap Z commandNamespace) (v : view) : Prop :=
  ∀ key st, key ∈ fst v → current !! UserNS key = Some st → ns_active st = true.

Lemma rules_keys ns st : rules_of ns st → Forall (λ key, UserNS key = ns) (ns_users st).
Proof. apply rule_keys. Qed.

Lemma inactive_closed current gen v ns st :
  gate_inv current gen v → current !! ns = Some st → ns_active st = false → snd v !! ns = None.
Proof.
  intros Hi Hst Ha. destruct (snd v !! ns) as [p|] eqn:Hp; [|done].
  destruct (gi_open _ _ _ Hi ns p Hp) as (_ & st' & Hst' & Ha' & _). congruence.
Qed.

Lemma gate_inv_later current gen gen' v : gate_inv current gen v → gen <= gen' → gate_inv current gen' v.
Proof.
  intros [Ho Hu Hr] Hle. split; [|done|done]. intros ns p Hp. destruct (Ho ns p Hp) as (? & ?). split; [lia|done].
Qed.

(** [gen] bounds the counter of the trace: others also draw generations. *)
Definition gated_upto (gen : Z) (k : kstate K) : Prop := ∃ c, c <= gen ∧ gated c k.

Lemma update_users_inv ns st current gen k k' err :
  gated_upto gen k → gate_inv current gen (kview (fst k)) → current !! ns = Some st → ns_active st = false →
  update_users (ns_users st) k = (k', err) →
  gated_upto gen k' ∧ gate_inv current gen (kview (fst k')) ∧ snd (kview (fst k')) = snd (kview (fst k)) ∧
  (∀ key, key ∈ fst (kview (fst k')) → key ∈ fst (kview (fst k)) ∨ key ∈ ns_users st) ∧
  (err = None → ∀ key, key ∈ ns_users st → key ∈ fst (kview (fst k'))).
Proof.
  intros (c & Hc & Hg) Hi Hst Ha Hu. pose proof (inactive_closed _ _ _ _ _ Hi Hst Ha) as Hcl.
  pose proof (rules_keys _ _ (gi_rules _ _ _ Hi _ _ Hst)) as Hkeys.
  destruct (update_users_gate ns _ _ _ _ _ Hg Hu Hcl Hkeys) as (Hg' & HN & Hmono & Hadd & Hall).
  split; [by exists c|]. split; [|done]. destruct Hi as [Ho HU HR]. split; [| |done].
  - rewrite HN. intros ns' p Hp. destruct (Ho ns' p Hp) as (? & st' & ? & ? & ? & Hin). split; [done|].
    exists st'. repeat split; [done..|]. auto.
  - intros key [Hin|Hin]%Hadd; [by apply HU|]. exists st. rewrite Forall_forall in Hkeys. by rewrite (Hkeys key Hin).
Qed.

Lemma set_active_rules ns st : rules_of ns st → rules_of ns (set_active st).
Proof. done. Qed.

Lemma open_gate_inv ns st current gen v :
  gate_inv current gen v → current !! ns = Some st → (∀ key, key ∈ ns_users st → key ∈ fst v) →
  gate_inv (<[ns := set_active st]> current) (gen + 1) (effect (UpdateNamespace ns (MkNsPolicy (ns_root st) (gen + 1))) v).
Proof.
  intros [Ho HU HR] Hst Hall. split; simpl.
  - intros ns' p Hp. destruct (decide (ns' = ns)) as [->|Hne].
    + rewrite lookup_insert_eq in Hp. injection Hp as <-. split; [simpl; lia|]. exists (set_active st).
      rewrite lookup_insert_eq. by repeat split.
    + rewrite lookup_insert_ne in Hp by done. destruct (Ho ns' p Hp) as (? & st' & ? & ?). split; [lia|].
      exists st'. by rewrite lookup_insert_ne.
  - intros key Hin. destruct (HU key Hin) as (st' & Hst' & Hin'). destruct (decide (UserNS key = ns)) as [He|Hne].
    + rewrite He in *. exists (set_active st). rewrite lookup_insert_eq. split; [done|]. simpl. congruence.
    + exists st'. by rewrite lookup_insert_ne.
  - intros ns' st' Hs'. apply lookup_insert_Some in Hs' as [[<- <-]|[_ Hs']]; [by apply set_active_rules, HR|by apply HR].
Qed.

Lemma wrap_generation gen :
  0 <= gen < 2 ^ 64 → (wrap_u64 (gen + 1) =? 0) = false → wrap_u64 (gen + 1) = gen + 1 ∧ gen + 1 < 2 ^ 64.
Proof.
  intros Hgen Hz%Z.eqb_neq. unfold wrap_u64 in *. destruct (decide (gen + 1 = 2 ^ 64)) as [He|]; [by rewrite He in Hz|].
  split; [apply Z.mod_small|]; lia.
Qed.

Lemma activate_inv keys now : ∀ current gen k k' current' gen' err,
  0 <= gen < 2 ^ 64 → gated_upto gen k → gate_inv current gen (kview (fst k)) →
  activateCommandNamespaces keys now current gen k = (k', current', gen', err) →
  err = Some GenerationExhausted ∧ (∃ c, gated c k') ∨
  (gen <= gen' < 2 ^ 64 ∧ gated_upto gen' k' ∧ gate_inv current' gen' (kview (fst k')) ∧
   (err = None → only_active current (kview (fst k)) → only_active current' (kview (fst k')))).
Proof.
  induction keys as [|ns keys IH]; intros current gen k k' current' gen' err Hgen Hg Hi Hact; simpl in Hact.
  { injection Hact as <- <- <- <-. right. split; [lia|]. split; [done|]. split; [done|auto]. }
  destruct (current !! ns) as [st|] eqn:Hst; [|by eapply IH]. destruct (ns_active st) eqn:Ha; [by eapply IH|].
  destruct (not_ready now st); [by eapply IH|]. simpl in Hact.
  destruct (update_users (ns_users st) k) as [k1 err1] eqn:Hu.
  destruct (update_users_inv _ _ _ _ _ _ _ Hg Hi Hst Ha Hu) as (Hg1 & Hi1 & HN & Hadd & Hall).
  destruct err1 as [e|].
  { injection Hact as <- <- <- <-. right. split; [lia|]. split; [done|]. by split. }
  destruct (wrap_u64 (gen + 1) =? 0) eqn:Hz.
  { injection Hact as <- <- <- <-. left. split; [done|]. destruct Hg1 as (c & _ & ?). by exists c. }
  destruct (wrap_generation gen Hgen Hz) as [Hw Hlt]. rewrite Hw in Hact.
  assert (Hcl : snd (kview (fst k1)) !! ns = None) by by eapply inactive_closed.
  destruct (write (UpdateNamespace ns _) k1) as [k2 [e|]] eqn:Hwr.
  { injection Hact as <- <- <- <-. right. destruct Hg1 as (c & Hc & Hg1).
    destruct (gated_failed _ _ _ _ _ Hg1 Hwr) as [Hg2 Hv]. rewrite Hv.
    split; [lia|]. split; [exists c; split; [lia|done]|]. split; [|done]. apply (gate_inv_later _ gen); [done|lia]. }
  pose proof (write_view _ _ _ _ Hwr) as Hv. simpl in Hv.
  assert (Hg2 : gated_upto (gen + 1) k2).
  { destruct Hg1 as (c & Hc & Hg1). exists (gen + 1). split; [done|]. eapply gated_write; [done..|]. rewrite Hv.
    destruct (kview (fst k1)) as [U N]. simpl in *.
    apply (gate_open rule c ns (MkNsPolicy (ns_root st) (gen + 1)) U N (ns_users st)); [done|simpl; lia|by apply (gi_rules _ _ _ Hi)|].
    intros key Hk. split; [by apply Hall|]. intros Hin. destruct (gi_users _ _ _ Hi1 key Hin) as (st' & Hst' & Hin'). congruence. }
  assert (Hi2 : gate_inv (<[ns := set_active st]> current) (gen + 1) (kview (fst k2))).
  { rewrite Hv. apply open_gate_inv; auto. }
  assert (Hgen2 : 0 <= gen + 1 < 2 ^ 64) by lia.
  destruct (IH _ _ _ _ _ _ _ Hgen2 Hg2 Hi2 Hact) as [?|(Hgen' & Hg' & Hi' & Honly)]; [by left|right].
  split; [lia|]. split; [done|]. split; [done|]. intros Herr Hoa. apply Honly; [done|].
  intros key st' Hin Hs'. rewrite Hv in Hin. simpl in Hin. destruct (decide (UserNS key = ns)) as [He|Hne].
  - rewrite He, lookup_insert_eq in Hs'. by injection Hs' as <-.
  - rewrite lookup_insert_ne in Hs' by done. destruct (Hadd key Hin) as [Hin'|Hin']; [by apply (Hoa key)|].
    pose proof (rules_keys _ _ (gi_rules _ _ _ Hi _ _ Hst)) as Hk. rewrite Forall_forall in Hk. by apply Hk in Hin'.
Qed.

(** The first loop: the gate is closed before the rules go, and a namespace is forgotten
    only when nothing of it is left. *)
Lemma remove_one_inv ns st current gen k k1 err :
  gated_upto gen k → gate_inv current gen (kview (fst k)) → current !! ns = Some st →
  (let '(k, err) := write (DeleteNamespace ns) k in
   match delete_ok err with Some e => (k, Some e) | None => delete_users (ns_users st) k end) = (k1, err) →
  gated_upto gen k1 ∧ gate_inv current gen (kview (fst k1)) ∧ (∀ key, key ∈ fst (kview (fst k1)) → key ∈ fst (kview (fst k))) ∧
  (err = None → snd (kview (fst k1)) !! ns = None ∧ ∀ key, key ∈ ns_users st → key ∉ fst (kview (fst k1))).
Proof.
  intros (c & Hc & Hg) Hi Hst. destruct (write (DeleteNamespace ns) k) as [k0 e] eqn:Hw.
  assert (Hg0 : gated c k0) by (eapply gated_delete; [done|done|by left]).
  pose proof (rules_keys _ _ (gi_rules _ _ _ Hi _ _ Hst)) as Hkeys.
  destruct (delete_ok e) as [e'|] eqn:Hok.
  - intros [= <- <-]. assert (Hv : kview (fst k0) = kview (fst k)).
    { pose proof (write_view _ _ _ _ Hw) as Hv. by destruct e as [[|]|]. }
    rewrite Hv. split; [by exists c|]. split; [done|]. split; [done|]. done.
  - intros Hd. assert (Hv : kview (fst k0) = effect (DeleteNamespace ns) (kview (fst k))) by (eapply delete_ok_spec; eauto).
    assert (Hcl : snd (kview (fst k0)) !! ns = None) by (rewrite Hv; apply lookup_delete_eq).
    destruct (delete_users_gate ns _ _ _ _ _ Hg0 Hd Hcl Hkeys) as (Hg1 & HN & Hsub & Hkeep & Hall).
    rewrite Hv in HN, Hsub, Hkeep. simpl in HN, Hsub, Hkeep. split; [by exists c|]. split; [|split; [done|]].
    + destruct Hi as [Ho HU HR]. split; [|auto|done]. rewrite HN. intros ns' p Hp.
      apply lookup_delete_Some in Hp as [Hne Hp]. destruct (Ho ns' p Hp) as (? & st' & Hst' & ? & ? & Hin).
      split; [done|]. exists st'. repeat split; [done..|]. intros key Hk. apply Hkeep; [by apply Hin|].
      pose proof (rules_keys _ _ (HR _ _ Hst')) as Hk'. rewrite Forall_forall in Hkeys, Hk'. intros Hbad.
      apply Hne. by rewrite <- (Hk' _ Hk), <- (Hkeys _ Hbad).
    + intros Herr. split; [by rewrite HN, lookup_delete_eq|auto].
Qed.

Lemma forget_inv ns current gen v :
  gate_inv current gen v → snd v !! ns = None → (∀ key, key ∈ fst v → UserNS key ≠ ns) →
  gate_inv (delete ns current) gen v.
Proof.
  intros [Ho HU HR] Hcl Hno. split.
  - intros ns' p Hp. destruct (Ho ns' p Hp) as (? & st & ?). split; [done|]. exists st.
    rewrite lookup_delete_ne; [done|]. intros <-. congruence.
  - intros key Hin. rewrite lookup_delete_ne; [by apply HU|]. intros He. by apply (Hno key Hin).
  - intros ns' st [_ Hst]%lookup_delete_Some. by apply HR.
Qed.

Lemma remove_stale_inv keys desired gen : ∀ current k k' current' err closed,
  gated_upto gen k → gate_inv current gen (kview (fst k)) → only_active current (kview (fst k)) →
  remove_stale keys desired current k = (k', current', err, closed) →
  gated_upto gen k' ∧ gate_inv current' gen (kview (fst k')) ∧ (err = None → only_active current' (kview (fst k'))).
Proof.
  induction keys as [|ns keys IH]; intros current k k' current' err closed Hg Hi Hoa Hr; simpl in Hr.
  { injection Hr as <- <- <- <-. auto. }
  destruct (current !! ns) as [st|] eqn:Hst; [|by eapply IH]. destruct (desired !! ns); [by eapply IH|].
  assert (Hno : ∀ v, gate_inv current gen v → (∀ key, key ∈ ns_users st → key ∉ fst v) → ∀ key, key ∈ fst v → UserNS key ≠ ns).
  { intros v Hv Hall key Hin He. destruct (gi_users _ _ _ Hv key Hin) as (st' & Hst' & Hk). rewrite He, Hst in Hst'.
    injection Hst' as <-. by apply (Hall key). }
  destruct (if ns_active st then _ else _) as [k1 err1] eqn:Hone.
  assert (Hstep : gated_upto gen k1 ∧ gate_inv current gen (kview (fst k1)) ∧
                  (∀ key, key ∈ fst (kview (fst k1)) → key ∈ fst (kview (fst k))) ∧
                  (err1 = None → snd (kview (fst k1)) !! ns = None ∧ ∀ key, key ∈ ns_users st → key ∉ fst (kview (fst k1)))).
  { destruct (ns_active st) eqn:Ha; [by eapply remove_one_inv|]. injection Hone as <- <-.
    split; [done|]. split; [done|]. split; [done|]. intros _. split; [by eapply inactive_closed|].
    intros key Hin Hbad. pose proof (rules_keys _ _ (gi_rules _ _ _ Hi _ _ Hst)) as Hkeys.
    rewrite Forall_forall in Hkeys. rewrite <- (Hkeys key Hin) in Hst. rewrite (Hoa key st Hbad Hst) in Ha. done. }
  destruct Hstep as (Hg1 & Hi1 & Hsub & Hgone). destruct err1 as [e|].
  { injection Hr as <- <- <- <-. split; [done|]. by split. }
  destruct (Hgone eq_refl) as [Hcl Hnone].
  destruct (remove_stale keys desired (delete ns current) k1) as [[[k2 cur2] err2] closed2] eqn:Hrec.
  injection Hr as <- <- <- _. eapply IH; [exact Hg1| | |done].
  - apply forget_inv; [done|done|by apply Hno].
  - intros key st' Hin [_ Hs']%lookup_delete_Some. apply (Hoa key); [by apply Hsub|done].
Qed.

Lemma take_new_lookup now desired current ns st :
  take_new now desired current !! ns = Some st →
  current !! ns = Some st ∨ current !! ns = None ∧ ∃ d, desired !! ns = Some d ∧ st = set_readyAt (now ns) d.
Proof.
  unfold take_new. rewrite lookup_union_Some_raw, map_lookup_imap. intros [?|[Hn Hd]]; [by left|right].
  split; [done|]. destruct (desired !! ns) as [d|]; [|done]. simpl in Hd. injection Hd as <-. by exists d.
Qed.

Lemma set_readyAt_rules t ns st : rules_of ns st → rules_of ns (set_readyAt t st).
Proof. unfold rules_of, set_readyAt. by destruct (ns_readyAt st). Qed.

Lemma take_new_inv now desired current gen v :
  gate_inv current gen v → (∀ ns st, desired !! ns = Some st → rules_of ns st) →
  gate_inv (take_new now desired current) gen v.
Proof.
  intros [Ho HU HR] Hd.
  assert (Hmono : ∀ ns st, current !! ns = Some st → take_new now desired current !! ns = Some st).
  { intros ns st Hs. unfold take_new. by apply lookup_union_Some_l. }
  split.
  - intros ns p Hp. destruct (Ho ns p Hp) as (? & st & ? & ?). split; [done|]. exists st. auto.
  - intros key Hin. destruct (HU key Hin) as (st & ? & ?). exists st. auto.
  - intros ns st [Hs|(_ & d & Hd' & ->)]%take_new_lookup; [by apply HR|]. by apply set_readyAt_rules, Hd.
Qed.

Lemma take_new_active now desired current gen v :
  gate_inv current gen v → only_active current v → only_active (take_new now desired current) v.
Proof.
  intros Hi Hoa key st Hin [Hs|(Hn & _)]%take_new_lookup; [by apply (Hoa key)|].
  destruct (gi_users _ _ _ Hi key Hin) as (st' & Hst' & _). congruence.
Qed.

Lemma sync_inv keys1 keys2 now1 t2 desired current gen k k' current' gen' err left closed :
  0 <= gen < 2 ^ 64 → gated_upto gen k → gate_inv current gen (kview (fst k)) → only_active current (kview (fst k)) →
  (∀ ns st, desired !! ns = Some st → rules_of ns st) →
  syncCommandNamespaces keys1 keys2 now1 t2 desired current gen k = (k', current', gen', err, left, closed) →
  err = Some GenerationExhausted ∧ (∃ c, gated c k') ∨
  (gen <= gen' < 2 ^ 64 ∧ gated_upto gen' k' ∧ gate_inv current' gen' (kview (fst k')) ∧
   (err = None → only_active current' (kview (fst k')))).
Proof.
  intros Hgen Hg Hi Hoa Hd Hs. unfold syncCommandNamespaces in Hs.
  destruct (remove_stale keys1 desired current k) as [[[k1 cur1] err1] closed1] eqn:Hr.
  destruct (remove_stale_inv _ _ _ _ _ _ _ _ _ Hg Hi Hoa Hr) as (Hg1 & Hi1 & Hoa1). destruct err1 as [e|].
  { injection Hs as <- <- <- <- _ _. right. split; [lia|]. by split. }
  destruct (activateCommandNamespaces _ _ _ _ _) as [[[k2 cur2] gen2] err2] eqn:Hact.
  injection Hs as <- <- <- <- _ _.
  destruct (activate_inv _ _ _ _ _ _ _ _ _ Hgen Hg1 (take_new_inv now1 desired _ _ _ Hi1 Hd) Hact)
    as [?|(? & ? & ? & Ho)]; [by left|right].
  split; [done|]. split; [done|]. split; [done|]. intros Herr. apply Ho; [done|]. by eapply take_new_active, Hoa1.
Qed.
End Gate.
