(* ===== verification/CommandRun.v ===== *)
(** * The user command controller as a whole

    Along every run of the goroutine that scans and activates, whatever write fails, the
    LSM program denies or reports an execution only when the policy of the configuration
    says so, though it reads the maps at six different instants while they are written.
    With open gates the verdict is the policy, and the alert decoded from the event of the
    program tells what was done. *)

From S2P Require Import Prelude.
From S2P Require Import GoStrings.
From S2P Require Import Words.
From S2P Require Import Policy.
From S2P Require Import Config.
From S2P Require Import Protocol.
From S2P Require Import CommandController.
From S2P Require Import CommandPolicy.
From S2P Require Import CommandGate.

(** ** What a scan finds *)

(** [mapping] is the [uid_map] the scan read of a process that was in the user namespace
    [ns] before and after the reading. *)
Definition uid_map_of (si : sync_input) (ns : Z) (mapping : string) : Prop :=
  ∃ dirs dir ino, si_dirs si = Some dirs ∧ dir ∈ dirs ∧ pe_ino dir = Some ino ∧ ino <= 4294967295 ∧ ns = wrap_u32 ino ∧
    pe_uid_map dir = Some mapping ∧ pe_same dir = true.

(** The rules of a namespace are those of a [uid_map] that was seen of it. *)
Definition uid_rule (seen : Z → string → Prop) (uids : list Z) (ns root : Z) (users : list userKey) : Prop :=
  ∃ mapping, seen ns mapping ∧ commandNamespaceRules ns mapping uids = Ok (root, users).
Definition mount_rule (ns root : Z) (users : list userKey) : Prop := users = [].

Lemma uid_rule_keys seen uids ns root users : uid_rule seen uids ns root users → Forall (λ key, UserNS key = ns) users.
Proof.
  intros (mapping & _ & Hr). unfold commandNamespaceRules in Hr. destruct (HostUID 0 mapping) as [h|]; [|done]. simpl in Hr.
  destruct (namespace_users _ _ _) as [us|] eqn:Hu; [|done]. injection Hr as _ <-.
  apply Forall_forall. intros key Hin. by apply (namespace_users_spec _ _ _ _ Hu) in Hin as [? _].
Qed.
Lemma mount_rule_keys ns root users : mount_rule ns root users → Forall (λ key, UserNS key = ns) users.
Proof. by intros ->. Qed.

Lemma discover_loop_rules (P : Z → commandNamespace → Prop) uids mounts dirs :
  (mounts = true → ∀ ns h, P ns (MkNs h 0 [] None false)) →
  (mounts = false → ∀ dir ino mapping root users h, dir ∈ dirs → pe_ino dir = Some ino → ino <= 4294967295 →
     pe_uid_map dir = Some mapping → pe_same dir = true →
     commandNamespaceRules (wrap_u32 ino) mapping uids = Ok (root, users) → P (wrap_u32 ino) (MkNs h root users None false)) →
  ∀ states closed states' closed',
  (∀ ns st, states !! ns = Some st → P ns st) →
  discover_loop uids mounts dirs states closed = (Ok states', closed') →
  ∀ ns st, states' !! ns = Some st → P ns st.
Proof.
  intros Hm. induction dirs as [|dir dirs IH]; intros Hn states closed states' closed' Hs Hd; cbn [discover_loop] in Hd.
  { injection Hd as <- <-. done. }
  assert (Hn' : mounts = false → ∀ dir0 ino mapping root users h, dir0 ∈ dirs → pe_ino dir0 = Some ino → ino <= 4294967295 →
     pe_uid_map dir0 = Some mapping → pe_same dir0 = true →
     commandNamespaceRules (wrap_u32 ino) mapping uids = Ok (root, users) → P (wrap_u32 ino) (MkNs h root users None false)).
  { intros Hf dir0 ino mapping root users h Hin. apply (Hn Hf). by right. }
  destruct (pe_cancelled dir); [done|]. destruct (bool_decide _); [by eapply (IH Hn')|].
  destruct (negb (pe_open dir)); [by eapply (IH Hn')|]. destruct (pe_handle dir) as [h|]; [|by eapply (IH Hn')].
  destruct (pe_ino dir) as [ino|] eqn:Hino; [|by eapply (IH Hn')]. destruct (4294967295 <? ino) eqn:Hle; [by eapply (IH Hn')|].
  destruct (states !! wrap_u32 ino); [by eapply (IH Hn')|]. destruct mounts.
  { eapply (IH Hn'); [|exact Hd]. intros ns st [[<- <-]|[_ Hst]]%lookup_insert_Some; [by apply Hm|by apply Hs]. }
  destruct (pe_uid_map dir) as [mapping|] eqn:Hmap; [|by eapply (IH Hn')].
  destruct (pe_same dir) eqn:Hsame; cbn [negb] in Hd; [|by eapply (IH Hn')].
  destruct (bool_decide (fields mapping = [])); [by eapply (IH Hn')|].
  destruct (commandNamespaceRules (wrap_u32 ino) mapping uids) as [[root users]|] eqn:Hr; [|by eapply (IH Hn')].
  eapply (IH Hn'); [|exact Hd]. intros ns st [[<- <-]|[_ Hst]]%lookup_insert_Some; [|by apply Hs].
  eapply (Hn eq_refl dir); [by left|done|by apply Z.ltb_ge|done|done|done].
Qed.

Lemma discovered_rules (seen : Z → string → Prop) cancelled si uids states closed :
  (∀ ns mapping, uid_map_of si ns mapping → seen ns mapping) →
  discovered cancelled si uids false = (Ok states, closed) →
  ∀ ns st, states !! ns = Some st → rules_of (uid_rule seen uids) ns st.
Proof.
  unfold discovered. intros Hseen. destruct cancelled; [done|]. unfold discoverCommandContexts.
  destruct (si_dirs si) as [dirs|] eqn:Hdirs; [|done].
  apply discover_loop_rules; [done| |done]. intros _ dir ino mapping root users h Hin Hino Hle Hmap Hsame Hr.
  exists mapping. split; [|done]. apply Hseen. by exists dirs, dir, ino.
Qed.

Lemma discovered_mounts cancelled si states closed :
  discovered cancelled si [] true = (Ok states, closed) →
  ∀ ns st, states !! ns = Some st → rules_of mount_rule ns st.
Proof.
  unfold discovered. destruct cancelled; [done|]. unfold discoverCommandContexts. destruct (si_dirs si); [|done].
  apply discover_loop_rules; [done|done|done].
Qed.

(** ** The invariant of a run *)
Section Run.
Context {N M : Type} `{KernelMapsLaws N, KernelMapsLaws M}.
Variable seen : Z → string → Prop.
Variable uids : list Z.

(** The [uid_map]s of a scan are among those seen. *)
Definition sees (si : sync_input) : Prop := ∀ ns mapping, uid_map_of si ns mapping → seen ns mapping.
Definition event_sees (ev : monitor_event) : Prop := match ev with ScanTick si _ => sees si | ActivationTick _ _ _ _ => True end.

(** One of the two groups of maps: the kernel state, the contexts known. *)
Definition side {K} `{KernelMapsLaws K} rule (gen : Z) (cancelled : bool) (k : kstate K) (current : gmap Z commandNamespace) : Prop :=
  gated_upto rule gen k ∧ gate_inv rule current gen (kview (fst k)) ∧
  (cancelled = false → only_active current (kview (fst k))).

Record run_inv (s : monitor N M) : Prop := {
  ri_generation : 0 <= mo_generation s < 2 ^ 64;
  ri_namespaces : side (uid_rule seen uids) (mo_generation s) (mo_cancelled s) (mo_maps s) (mo_current s);
  ri_mounts : side mount_rule (mo_generation s) (mo_cancelled s) (mo_mounts s) (mo_currentMounts s) }.

Lemma side_later {K} `{KernelMapsLaws K} rule gen gen' cancelled k current :
  side rule gen cancelled k current → gen <= gen' → side rule gen' cancelled k current.
Proof.
  intros ((c & Hc & Hg) & Hi & Ho) Hle. split; [exists c; split; [lia|done]|].
  split; [by apply (gate_inv_later _ _ gen)|done].
Qed.

Lemma side_cancel {K} `{KernelMapsLaws K} rule gen cancelled k current :
  side rule gen cancelled k current → side rule gen true k current.
Proof. intros (? & ? & _). by split. Qed.

(** The generations ran out: the states written are still a trace. *)
Definition exhausted (e : option command_monitor_err) : Prop :=
  e = Some (ControllerFailed GenerationExhausted).

(** A part of a step keeps the invariant; without an error also what only a monitor
    that is not cancelled has. *)
Definition part (f : monitor N M → monitor N M * option command_monitor_err) : Prop :=
  ∀ s s' e, run_inv s → f s = (s', e) →
  exhausted e ∨ match e with None => run_inv s' | Some _ => run_inv (log_and_cancel (s', e)) end.

Lemma scan_namespaces_part si : sees si → part (scan_namespaces uids si).
Proof.
  intros Hsees s s' e [Hgen (Hg & Hi & Hoa) Hm] Hf. unfold scan_namespaces in Hf.
  destruct (discovered (mo_cancelled s) si uids false) as [[desired|er] closed] eqn:Hd.
  2: { injection Hf as <- <-. right. split; simpl; [done|by apply (side_cancel _ _ (mo_cancelled s))|by eapply side_cancel]. }
  assert (Hc : mo_cancelled s = false) by by destruct (mo_cancelled s).
  destruct (syncCommandNamespaces _ _ _ _ _ _ _ _) as [[[[[k cur] gen] er] rest] gone] eqn:Hs.
  injection Hf as <- <-.
  destruct (sync_inv (uid_rule seen uids) (uid_rule_keys seen uids) _ _ _ _ _ _ _ _ _ _ _ _ _ _ Hgen Hg Hi (Hoa Hc) (discovered_rules seen _ _ _ _ _ Hsees Hd) Hs)
    as [[-> _]|(Hgen' & Hg' & Hi' & Hoa')]; [by left|right].
  destruct er as [er|]; simpl; (split; simpl; [lia| |]).
  - by split.
  - eapply side_cancel, side_later; [exact Hm|lia].
  - split; [done|]. split; [done|]. intros _. by apply Hoa'.
  - eapply side_later; [exact Hm|lia].
Qed.

Lemma scan_mounts_part si : part (scan_mounts si).
Proof.
  intros s s' e [Hgen Hn (Hg & Hi & Hoa)] Hf. unfold scan_mounts in Hf.
  destruct (discovered (mo_cancelled s) si [] true) as [[desired|er] closed] eqn:Hd.
  2: { injection Hf as <- <-. right. split; simpl; [done|by eapply side_cancel|by apply (side_cancel _ _ (mo_cancelled s))]. }
  assert (Hc : mo_cancelled s = false) by by destruct (mo_cancelled s).
  destruct (syncCommandNamespaces _ _ _ _ _ _ _ _) as [[[[[k cur] gen] er] rest] gone] eqn:Hs.
  injection Hf as <- <-.
  destruct (sync_inv mount_rule mount_rule_keys _ _ _ _ _ _ _ _ _ _ _ _ _ _ Hgen Hg Hi (Hoa Hc) (discovered_mounts _ _ _ _ Hd) Hs)
    as [[-> _]|(Hgen' & Hg' & Hi' & Hoa')]; [by left|right].
  destruct er as [er|]; simpl; (split; simpl; [lia| |]).
  - eapply side_cancel, side_later; [exact Hn|lia].
  - by split.
  - eapply side_later; [exact Hn|lia].
  - split; [done|]. split; [done|]. intros _. by apply Hoa'.
Qed.

Lemma activate_namespaces_part keys now : part (activate_namespaces keys now).
Proof.
  intros s s' e [Hgen (Hg & Hi & Hoa) Hm] Hf. unfold activate_namespaces in Hf.
  destruct (activateCommandNamespaces _ _ _ _ _) as [[[k cur] gen] er] eqn:Ha. injection Hf as <- <-.
  destruct (activate_inv (uid_rule seen uids) (uid_rule_keys seen uids) _ _ _ _ _ _ _ _ _ Hgen Hg Hi Ha)
    as [[-> _]|(Hgen' & Hg' & Hi' & Hoa')]; [by left|right].
  destruct er as [er|]; simpl; (split; simpl; [lia| |]).
  - by split.
  - eapply side_cancel, side_later; [exact Hm|lia].
  - split; [done|]. split; [done|]. auto.
  - eapply side_later; [exact Hm|lia].
Qed.

Lemma activate_mounts_part keys now : part (activate_mounts keys now).
Proof.
  intros s s' e [Hgen Hn (Hg & Hi & Hoa)] Hf. unfold activate_mounts in Hf.
  destruct (activateCommandNamespaces _ _ _ _ _) as [[[k cur] gen] er] eqn:Ha. injection Hf as <- <-.
  destruct (activate_inv mount_rule mount_rule_keys _ _ _ _ _ _ _ _ _ Hgen Hg Hi Ha)
    as [[-> _]|(Hgen' & Hg' & Hi' & Hoa')]; [by left|right].
  destruct er as [er|]; simpl; (split; simpl; [lia| |]).
  - eapply side_cancel, side_later; [exact Hn|lia].
  - by split.
  - eapply side_later; [exact Hn|lia].
  - split; [done|]. split; [done|]. auto.
Qed.

Lemma scan_part si1 si2 : sees si1 → part (scan uids si1 si2).
Proof.
  intros Hsees s s' e Hs Hf. unfold scan in Hf. destruct (scan_namespaces uids si1 s) as [s1 [e1|]] eqn:Hf1.
  - injection Hf as <- <-. exact (scan_namespaces_part si1 Hsees s s1 (Some e1) Hs Hf1).
  - destruct (scan_namespaces_part si1 Hsees _ _ _ Hs Hf1) as [?|Hs1]; [done|]. exact (scan_mounts_part si2 s1 s' e Hs1 Hf).
Qed.

(** A step is made of parts; unless the generations ran out it keeps the invariant. *)
Definition quiet (f : monitor N M → monitor N M * option command_monitor_err) : Prop :=
  ∀ s, mo_errors (fst (f s)) = mo_errors s.
Definition run_ok (s : monitor N M) : Prop := ControllerFailed GenerationExhausted ∉ mo_errors s → run_inv s.

Lemma cancel_ok f s : quiet f → part f → run_ok s → run_ok (log_and_cancel (f s)).
Proof.
  intros Hq Hp Hs Hn. specialize (Hq s). destruct (f s) as [s' [e|]] eqn:Hf; simpl in Hq.
  - change (ControllerFailed GenerationExhausted ∉ mo_errors s' ++ [e]) in Hn. rewrite Hq in Hn.
    destruct (Hp s s' (Some e)) as [Hx|Hr]; [apply Hs; set_solver|done| |exact Hr].
    injection Hx as ->. set_solver.
  - change (ControllerFailed GenerationExhausted ∉ mo_errors s') in Hn. rewrite Hq in Hn.
    by destruct (Hp s s' None) as [Hx|Hr]; [apply Hs|done|done|].
Qed.

Lemma scan_namespaces_quiet si : quiet (scan_namespaces uids si).
Proof.
  intros s. unfold scan_namespaces. destruct (discovered _ _ _ _) as [[d|] c]; [|done].
  by destruct (syncCommandNamespaces _ _ _ _ _ _ _ _) as [[[[[k cur] gen] er] rest] gone].
Qed.
Lemma scan_mounts_quiet si : quiet (scan_mounts si).
Proof.
  intros s. unfold scan_mounts. destruct (discovered _ _ _ _) as [[d|] c]; [|done].
  by destruct (syncCommandNamespaces _ _ _ _ _ _ _ _) as [[[[[k cur] gen] er] rest] gone].
Qed.
Lemma scan_quiet si1 si2 : quiet (scan uids si1 si2).
Proof.
  intros s. unfold scan. pose proof (scan_namespaces_quiet si1 s) as Hn.
  destruct (scan_namespaces uids si1 s) as [s1 [e|]]; [done|]. simpl in Hn. rewrite <- Hn. apply scan_mounts_quiet.
Qed.
Lemma activate_namespaces_quiet keys now : quiet (activate_namespaces keys now).
Proof. intros s. unfold activate_namespaces. by destruct (activateCommandNamespaces _ _ _ _ _) as [[[k cur] gen] er]. Qed.
Lemma activate_mounts_quiet keys now : quiet (activate_mounts keys now).
Proof. intros s. unfold activate_mounts. by destruct (activateCommandNamespaces _ _ _ _ _) as [[[k cur] gen] er]. Qed.

Lemma monitor_run_ok evs : Forall event_sees evs → ∀ s, run_ok s → run_ok (monitor_run uids s evs).
Proof.
  induction 1 as [|ev evs Hev _ IH]; intros s Hs; [done|]. apply IH. destruct ev as [si1 si2|keys now mkeys mnow].
  - apply cancel_ok; [apply scan_quiet|by apply scan_part|done].
  - apply cancel_ok; [apply activate_mounts_quiet|apply activate_mounts_part|].
    apply cancel_ok; [apply activate_namespaces_quiet|apply activate_namespaces_part|done].
Qed.

(** A monitor that starts: nothing in its maps. *)
Record fresh (s : monitor N M) : Prop := {
  fr_maps : snd (mo_maps s) = [fst (mo_maps s)] ∧ kview (fst (mo_maps s)) = (∅, ∅) ∧ mo_current s = ∅;
  fr_mounts : snd (mo_mounts s) = [fst (mo_mounts s)] ∧ kview (fst (mo_mounts s)) = (∅, ∅) ∧ mo_currentMounts s = ∅;
  fr_generation : 0 <= mo_generation s < 2 ^ 64 }.

Lemma fresh_side {K} `{KernelMapsLaws K} rule gen cancelled (k : kstate K) current :
  snd k = [fst k] → kview (fst k) = (∅, ∅) → current = ∅ → side rule gen cancelled k current.
Proof.
  intros Hk Hv ->. split; [|split].
  - exists gen. split; [done|]. exists [(gen, kview (fst k))]. rewrite Hk. split; [|done]. split.
    + intros x [= <-]. simpl. rewrite Hv. split; intros ns p Hp; simpl in Hp; by rewrite lookup_empty in Hp.
    + intros i x y _ Hy. simpl in Hy. by rewrite lookup_nil in Hy.
  - rewrite Hv. split; [intros ns p Hp; simpl in Hp; by rewrite lookup_empty in Hp|set_solver|].
    intros ns st Hst. by rewrite lookup_empty in Hst.
  - intros _ key st Hin. rewrite Hv in Hin. set_solver.
Qed.

Lemma fresh_ok s : fresh s → run_ok s.
Proof.
  intros [(?&?&?) (?&?&?) ?] _. split; [done| |]; by apply fresh_side.
Qed.

(** ** What the program reads *)
(** The three instants at which it reads the users and the namespaces are instants of the
    run, in this order. *)
Record reads (states : list N) (at_ : nat → kernel_maps) : Prop := {
  rd_instants : ∃ i0 i2 i4 k0 k2 k4, (i0 <= i2)%nat ∧ (i2 <= i4)%nat ∧
    states !! i0 = Some k0 ∧ states !! i2 = Some k2 ∧ states !! i4 = Some k4 ∧
    m_namespaces (at_ 0%nat) = snd (kview k0) ∧ m_users (at_ 2%nat) = fst (kview k2) ∧
    m_namespaces (at_ 4%nat) = snd (kview k4) }.

Lemma gated_reads c (k : kstate N) at_ ns p q :
  gated (uid_rule seen uids) c k → reads (snd k) at_ →
  m_namespaces (at_ 0%nat) !! ns = Some p → m_namespaces (at_ 4%nat) !! ns = Some q → Generation q = Generation p →
  q = p ∧ ∃ mapping users, seen ns mapping ∧ commandNamespaceRules ns mapping uids = Ok (RootUID p, users) ∧
    ∀ h, MkUserKey ns h ∈ m_users (at_ 2%nat) ↔ MkUserKey ns h ∈ users.
Proof.
  intros (tr & Htr & Hks & _) [(i0 & i2 & i4 & k0 & k2 & k4 & H02 & H24 & Hk0 & Hk2 & Hk4 & Hn0 & Hu2 & Hn4)] Hp Hq Hgen.
  assert (Hat : ∀ i k', snd k !! i = Some k' → ∃ x, tr !! i = Some x ∧ snd x = kview k').
  { intros i k' Hi. assert (Hf : (tr.*2) !! i = Some (kview k')) by (rewrite Hks, list_lookup_fmap, Hi; done).
    rewrite list_lookup_fmap in Hf. destruct (tr !! i) as [x|]; [|done]. injection Hf as Hf. by exists x. }
  destruct (Hat _ _ Hk0) as (x & Hx & Hvx), (Hat _ _ Hk2) as (y & Hy & Hvy), (Hat _ _ Hk4) as (z & Hz & Hvz).
  rewrite Hn0, <- Hvx in Hp. rewrite Hn4, <- Hvz in Hq.
  destruct (same_generation _ _ _ _ _ _ _ _ _ _ _ Htr H02 H24 Hx Hy Hz Hp Hq Hgen) as [-> [_ Hkept]].
  split; [done|]. destruct (trace_ok _ _ _ _ Htr Hx) as [_ Hl]. destruct (Hl ns p Hp) as (users & (mapping & Hseen & Hr) & Hus).
  exists mapping, users. split; [done|]. split; [done|]. intros h. rewrite Hu2, <- Hvy, <- (Hkept (MkUserKey ns h) eq_refl).
  by rewrite (Hus (MkUserKey ns h) eq_refl).
Qed.
End Run.

(** An outcome other than "allowed, nothing to tell" needs open gates. *)
Lemma outcome_gates cfg t name at_ reserved r ev :
  user_command_controller 0 cfg t (Some name) at_ reserved = (r, ev) → r ≠ 0 ∨ ev ≠ None →
  t_uid t ≠ 0 ∧ t_euid t ≠ 0 ∧
  ∃ p q m m', m_namespaces (at_ 0%nat) !! t_userns t = Some p ∧ m_namespaces (at_ 4%nat) !! t_userns t = Some q ∧
    m_mounts (at_ 1%nat) !! t_mntns t = Some m ∧ m_mounts (at_ 5%nat) !! t_mntns t = Some m' ∧
    Generation q = Generation p ∧ Generation m = Generation m' ∧ t_uid t ≠ RootUID p ∧ t_euid t ≠ RootUID p.
Proof.
  intros Hp Hout. assert (Hno : (r, ev) ≠ (0, None)) by (intros [= -> ->]; tauto).
  rewrite <- Hp in Hno. clear Hp Hout. unfold user_command_controller in Hno. rewrite Z.eqb_refl in Hno. cbn [negb] in Hno.
  destruct (kc_Mode cfg =? 0); [done|]. destruct (Z.eqb_spec (t_uid t) 0), (Z.eqb_spec (t_euid t) 0); [done..|].
  cbn [orb] in Hno. split; [done|]. split; [done|]. destruct (m_namespaces (at_ 0%nat) !! t_userns t) as [p|]; [|done].
  destruct (Z.eqb_spec (t_uid t) (RootUID p)), (Z.eqb_spec (t_euid t) (RootUID p)); [done..|]. cbn [orb] in Hno.
  destruct (m_mounts (at_ 1%nat) !! t_mntns t) as [m|]; [|done].
  cbv zeta in Hno.
  match type of Hno with (if ?b then _ else _) ≠ _ => destruct b; [done|] end.
  destruct (m_namespaces (at_ 4%nat) !! t_userns t) as [q|]; [|done].
  destruct (m_mounts (at_ 5%nat) !! t_mntns t) as [m'|]; [|done].
  destruct (Z.eqb_spec (Generation q) (Generation p)), (Z.eqb_spec (Generation m') (Generation m)); [|done..].
  by exists p, q, m, m'.
Qed.

(** What the policy says of a task: it is neither root of the host nor, by a [uid_map] that
    was seen of its user namespace, root of the namespace, and [WouldBlock] of [Selected]
    holds for what that map makes of the configured uids and for the name of the file. *)
Definition denied_by_policy (seen : Z → string → Prop) (uc : UserCommandExecutionController) (uids : list Z)
    (commands : list string) (t : task) (name : list Z) : Prop :=
  t_uid t ≠ 0 ∧ t_euid t ≠ 0 ∧
  ∃ mapping root, seen (t_userns t) mapping ∧ HostUID 0 mapping = Ok root ∧
    t_uid t ≠ default unmappedRootUID root ∧ t_euid t ≠ default unmappedRootUID root ∧
    WouldBlock (BlockType uc)
      (Selected (negb (bool_decide (uids = []))) (negb (bool_decide (commands = [])))
         (user_selected uids mapping (t_uid t)) (bool_decide (string_of name ∈ commands))) = true.

(** What the program does while the maps are those of a run. *)
Lemma run_inv_denies {N M} `{KernelMapsLaws N, KernelMapsLaws M}
    seen (uc : UserCommandExecutionController) uids commands (s : monitor N M) t name at_ reserved r ev :
  NormalizeCommands (items (TargetCommands uc)) = Ok commands →
  BlockType uc = "positive" ∨ BlockType uc = "negative" → run_inv seen uids s →
  reads (snd (mo_maps s)) at_ → m_commands (at_ 3%nat) = list_to_set (map command_key commands) → plain_name name →
  user_command_controller 0 (kernel_config uc uids commands) t (Some name) at_ reserved = (r, ev) → r ≠ 0 ∨ ev ≠ None →
  denied_by_policy seen uc uids commands t name ∧ r = if bool_decide (uc_Mode uc = "blocker") then - EPERM else 0.
Proof.
  intros Hc Ht [_ ((c & _ & Hg) & _ & _) _] Hreads Hcmd Hname Hp Hout.
  destruct (outcome_gates _ _ _ _ _ _ _ Hp Hout) as (Hu0 & He0 & p & q & m & m' & Hgp & Hgq & Hm & Hm' & Hgen & Hmgen & Hr1 & Hr2).
  destruct (gated_reads seen uids c _ at_ _ p q Hg Hreads Hgp Hgq Hgen) as [-> (mapping & users & Hseen & Hrules & Hus)].
  destruct p as [root gen]. cbn [RootUID] in *.
  rewrite (kernel_verdict_keys uc uids commands t name at_ reserved root gen m m' (user_selected uids mapping (t_uid t))
             (bool_decide (string_of name ∈ commands))) in Hp; try done.
  2:{ by eapply user_key_selected. }
  2:{ by eapply command_key_selected. }
  destruct (blocks _ _ _ _ _) eqn:Hb; [|injection Hp as <- <-; by destruct Hout].
  split; [|by injection Hp as <- _]. split; [done|]. split; [done|].
  unfold commandNamespaceRules in Hrules. destruct (HostUID 0 mapping) as [root0|] eqn:Hroot; [|done]. simpl in Hrules.
  destruct (namespace_users _ _ _); [|done]. injection Hrules as <- _. by exists mapping, root0.
Qed.

(** Whatever the interleaving of the LSM program with the scans and activations of the
    monitor, and whichever writes fail, an execution is denied or reported only if the
    configured policy blocks it, by a [uid_map] that some scan of the run read of the task's
    user namespace. *)
Theorem kernel_denies_only_policy {N M} `{KernelMapsLaws N, KernelMapsLaws M}
    (uc : UserCommandExecutionController) uids commands (s0 s : monitor N M) evs t name at_ reserved r ev :
  NormalizeCommands (items (TargetCommands uc)) = Ok commands →
  BlockType uc = "positive" ∨ BlockType uc = "negative" →
  fresh s0 → monitor_run uids s0 evs = s → ControllerFailed GenerationExhausted ∉ mo_errors s →
  reads (snd (mo_maps s)) at_ → m_commands (at_ 3%nat) = list_to_set (map command_key commands) → plain_name name →
  user_command_controller 0 (kernel_config uc uids commands) t (Some name) at_ reserved = (r, ev) → r ≠ 0 ∨ ev ≠ None →
  denied_by_policy (λ ns mapping, ∃ si mounts, ScanTick si mounts ∈ evs ∧ uid_map_of si ns mapping) uc uids commands t name.
Proof.
  intros Hc Ht Hf <- Herr Hreads Hcmd Hname Hp Hout. set (seen := λ ns mapping, ∃ si mounts, ScanTick si mounts ∈ evs ∧ uid_map_of si ns mapping).
  refine (proj1 (run_inv_denies seen uc uids commands _ t name at_ reserved r ev Hc Ht _ Hreads Hcmd Hname Hp Hout)).
  apply monitor_run_ok; [|by apply fresh_ok|done]. rewrite Forall_forall. intros [si mounts|] Hin; [|done].
  intros ns mapping Hmap. by exists si, mounts.
Qed.

(** C16: The verdict of the program on a task whose gates are open is the policy: it denies
    exactly when [WouldBlock] of [Selected] holds for the task's uid inside its namespace
    and the name of the file, in blocker mode, and only then submits an event, with the
    identity of the task. *)
Theorem kernel_decides_policy uc uids commands t name mapping es uid at_ reserved :
  ParseUIDs (items (TargetUsersIDs uc)) = Ok uids → NormalizeCommands (items (TargetCommands uc)) = Ok commands →
  BlockType uc = "positive" ∨ BlockType uc = "negative" →
  plain_name name → extents (split_str mapping nl) = Some es →
  (∀ e1 e2, e1 ∈ es → e2 ∈ es → e1 = e2 ∨ host_disjoint e1 e2) →
  in_u32 uid → HostUID uid mapping = Ok (Some (t_uid t)) → t_uid t ≠ 0 ∧ t_euid t ≠ 0 →
  gates_open uids commands t mapping at_ →
  user_command_controller 0 (kernel_config uc uids commands) t (Some name) at_ reserved =
  let blocked := bool_decide (uc_Mode uc = "blocker") in
  if WouldBlock (BlockType uc)
       (Selected (negb (bool_decide (uids = []))) (negb (bool_decide (commands = [])))
          (bool_decide (uid ∈ uids)) (bool_decide (string_of name ∈ commands)))
  then (if blocked then - EPERM else 0,
        if reserved then
          Some (MkExec (t_tgid t) (t_pid t) (t_uid t) (t_userns t) (t_euid t) 1 (bool_u32 blocked)
                  (bool_u32 (name_truncated name)) (name_key name))
        else None)
  else (0, None).
Proof. intros. by eapply kernel_verdict_policy. Qed.

(** ** The alert *)
Lemma drop_zeros_replicate n l : drop_zeros (replicate n 0 ++ l) = drop_zeros l.
Proof. induction n as [|n IH]; [done|]. by simpl. Qed.

Lemma rev_replicate (x : Z) n : rev (replicate n x) = replicate n x.
Proof. induction n as [|n IH]; [done|]. cbn [replicate rev]. by rewrite IH, <- replicate_cons_app. Qed.

Lemma trim_padded l n : Forall (λ b, b ≠ 0) l → trim_right_zeros (l ++ replicate n 0) = l.
Proof.
  intros Hl. unfold trim_right_zeros. rewrite rev_app_distr, rev_replicate, drop_zeros_replicate.
  destruct l as [|x l _] using rev_ind; [done|]. rewrite rev_app_distr. simpl.
  apply Forall_app in Hl as [_ Hx]. inversion Hx; subst. destruct (Z.eqb_spec x 0); [done|]. simpl. by rewrite rev_involutive.
Qed.

Definition in_event (e : execEvent) : Prop :=
  Forall in_u32 [ee_TGID e; ee_PID e; ee_HostUID e; ee_UserNS e; ee_EffectiveUID e; ee_WouldBlock e; ee_Blocked e; ee_CommandTruncated e] ∧
  length (ee_Command e) = 64%nat.

Lemma u32_at_bytes (vs : list Z) i v rest :
  Forall in_u32 vs → vs !! i = Some v → u32_at i (concat (map (le_bytes 4) vs) ++ rest) = v.
Proof.
  revert i. induction vs as [|w vs IH]; intros [|i] Hv Hi; [done|done| |].
  - injection Hi as ->. inversion Hv; subst. unfold u32_at. rewrite drop_0. cbn [map concat].
    rewrite <- !app_assoc, take_app_length' by by rewrite length_le_bytes. apply le_load_bytes. done.
  - inversion Hv; subst. unfold u32_at in *. cbn [map concat]. rewrite <- app_assoc, drop_app_ge; rewrite length_le_bytes; [|lia].
    replace (4 * S i - 4)%nat with (4 * i)%nat by lia. by apply IH.
Qed.

Lemma read_event_bytes e : in_event e → length (exec_event_bytes e) = 96%nat ∧ read_event (exec_event_bytes e) = e.
Proof.
  intros [Hf Hl]. set (vs := [ee_TGID e; ee_PID e; ee_HostUID e; ee_UserNS e; ee_EffectiveUID e; ee_WouldBlock e; ee_Blocked e; ee_CommandTruncated e]) in *.
  assert (Heq : exec_event_bytes e = concat (map (le_bytes 4) vs) ++ ee_Command e).
  { unfold exec_event_bytes, vs. cbn [map concat]. by rewrite <- !app_assoc. }
  split.
  - unfold exec_event_bytes. rewrite !length_app, !length_le_bytes. lia.
  - rewrite Heq. unfold read_event. pose proof (λ i v, u32_at_bytes vs i v (ee_Command e) Hf) as Hu.
    rewrite (Hu 0%nat (ee_TGID e) eq_refl), (Hu 1%nat (ee_PID e) eq_refl), (Hu 2%nat (ee_HostUID e) eq_refl),
      (Hu 3%nat (ee_UserNS e) eq_refl), (Hu 4%nat (ee_EffectiveUID e) eq_refl), (Hu 5%nat (ee_WouldBlock e) eq_refl),
      (Hu 6%nat (ee_Blocked e) eq_refl), (Hu 7%nat (ee_CommandTruncated e) eq_refl).
    rewrite drop_app_length' by (unfold vs; cbn [map concat]; rewrite !length_app, !length_le_bytes; done).
    by destruct e.
Qed.

Lemma name_key_trim name : plain_name name → trim_right_zeros (name_key name) = take 63 name ∧ length (name_key name) = 64%nat.
Proof.
  intros Hn. unfold name_key. split.
  - apply trim_padded. apply Forall_take, (Forall_impl _ _ _ Hn). by intros b [_ ?].
  - rewrite length_app, length_take, length_replicate. lia.
Qed.

Lemma string_app_nil_r s : s +:+ EmptyString = s.
Proof. induction s as [|c s IH]; [done|]. change (String c (s +:+ EmptyString) = String c s). by rewrite IH. Qed.

(** What the program submits: the blocked flag is the denial. *)
Lemma outcome_event uc uids commands t name at_ reserved r ev :
  user_command_controller 0 (kernel_config uc uids commands) t (Some name) at_ reserved = (r, Some ev) →
  let blocked := bool_decide (uc_Mode uc = "blocker") in
  r = (if blocked then - EPERM else 0) ∧
  ev = MkExec (t_tgid t) (t_pid t) (t_uid t) (t_userns t) (t_euid t) 1 (bool_u32 blocked)
         (bool_u32 (name_truncated name)) (name_key name).
Proof.
  intros Hp. unfold user_command_controller in Hp. rewrite Z.eqb_refl in Hp. cbn [negb] in Hp.
  destruct (kc_Mode _ =? 0); [done|]. destruct (_ || _); [done|].
  destruct (m_namespaces (at_ 0%nat) !! t_userns t) as [p|]; [|done]. destruct (_ || _); [done|].
  destruct (m_mounts (at_ 1%nat) !! t_mntns t) as [m|]; [|done]. cbv zeta in Hp.
  match type of Hp with (if negb ?b then _ else _) = _ => destruct b; [|done] end.
  destruct (m_namespaces (at_ 4%nat) !! t_userns t) as [q|]; [|done].
  destruct (m_mounts (at_ 5%nat) !! t_mntns t) as [m'|]; [|done]. cbn [negb] in Hp. destruct (_ || _); [done|].
  rewrite andb_true_r in Hp. destruct reserved; [|done]. injection Hp as <- <-.
  by destruct (bool_decide (uc_Mode uc = "blocker")).
Qed.

(** C17: What is reported is what was done: the record the program submits, read back from
    its bytes, becomes one alert with the identity of the task, "blocked" when the
    execution was denied and "logged" when it was only to be logged, and the name of the
    file, its first 63 bytes and "..." when it is longer. *)
Theorem alert_tells_the_outcome uc uids commands t name at_ r ev :
  uc_Mode uc = "logger" ∨ uc_Mode uc = "blocker" → plain_name name →
  Forall in_u32 [t_uid t; t_euid t; t_userns t; t_tgid t; t_pid t] →
  user_command_controller 0 (kernel_config uc uids commands) t (Some name) at_ true = (r, Some ev) →
  decodeCommandEvent (exec_event_bytes ev) (uc_Mode uc) =
  Ok (Some (MkCommandAlert (if bool_decide (r = - EPERM) then "blocked" else "logged")
              (if bool_decide (r = - EPERM) then SeverityHigh else SeverityCritical)
              (string_of (take 63 name) +:+ (if name_truncated name then "..." else EmptyString))
              (t_uid t) (t_euid t) (t_userns t) (t_tgid t) (t_pid t) (uc_Mode uc))).
Proof.
  intros Hmode Hname Ht Hp.
  destruct (outcome_gates _ _ _ _ _ _ _ Hp) as (Hu0 & He0 & _); [by right|].
  destruct (outcome_event _ _ _ _ _ _ _ _ _ Hp) as [-> ->]. destruct (name_key_trim name Hname) as [Htrim Hlen].
  assert (Hev : ∀ b c, in_event (MkExec (t_tgid t) (t_pid t) (t_uid t) (t_userns t) (t_euid t) 1 (bool_u32 b) (bool_u32 c) (name_key name))).
  { intros b c. split; [|done]. rewrite !Forall_cons in Ht. destruct Ht as (? & ? & ? & ? & ? & _).
    repeat (apply Forall_cons_2; [first [assumption|destruct b, c; unfold in_u32; simpl; lia]|]). apply Forall_nil_2. }
  destruct (read_event_bytes _ (Hev (bool_decide (uc_Mode uc = "blocker")) (name_truncated name))) as [Hl Hr].
  unfold decodeCommandEvent. rewrite Hl, Hr. cbn [negb Nat.eqb ee_HostUID ee_EffectiveUID ee_WouldBlock ee_Blocked ee_CommandTruncated ee_Command ee_UserNS ee_TGID ee_PID].
  rewrite (proj2 (Z.eqb_neq _ 0) Hu0), (proj2 (Z.eqb_neq _ 0) He0), Htrim.
  destruct Hmode as [-> | ->], (name_truncated name); cbn; by rewrite ?string_app_nil_r.
Qed.
