(* ===== verification/CommandHandles.v ===== *)
(** * Every namespace handle is closed once

    The monitor keeps a namespace alive by an open handle.  Over a scan, whatever fails,
    the handles opened are those kept and those closed: none is lost, none closed twice. *)

From S2P Require Import Prelude.
From S2P Require Import GoStrings.
From S2P Require Import Policy.
From S2P Require Import Config.
From S2P Require Import CommandController.

(** The handles [discover_loop] opens: those of the entries before a cancellation. *)
Fixpoint opened (dirs : list proc_entry) : list Z :=
  match dirs with
  | [] => []
  | dir :: dirs' =>
      if pe_cancelled dir then []
      else if bool_decide (parse_uint 32 (pe_name dir) = None) || negb (pe_open dir) then opened dirs'
      else match pe_handle dir with Some h => h :: opened dirs' | None => opened dirs' end
  end.

Lemma handles_empty : handles ∅ = [].
Proof. unfold handles. by rewrite map_to_list_empty. Qed.
Lemma handles_insert ns st m : m !! ns = None → handles (<[ns := st]> m) ≡ₚ ns_handle st :: handles m.
Proof. intros Hn. unfold handles. by rewrite (map_to_list_insert _ _ _ Hn). Qed.
Lemma handles_delete ns st m : m !! ns = Some st → handles m ≡ₚ ns_handle st :: handles (delete ns m).
Proof. intros Hs. unfold handles. by rewrite <- (map_to_list_delete _ _ _ Hs). Qed.
Lemma handles_replace ns st st' m : m !! ns = Some st → ns_handle st' = ns_handle st → handles (<[ns := st']> m) ≡ₚ handles m.
Proof.
  intros Hs Hh. rewrite (handles_delete _ _ _ Hs), <- insert_delete_eq, handles_insert by apply lookup_delete_eq. by rewrite Hh.
Qed.

Lemma discover_handles uids mounts dirs : ∀ states closed r closed',
  discover_loop uids mounts dirs states closed = (r, closed') →
  match r with Ok states' => handles states' ++ closed' | Err _ => closed' end ≡ₚ handles states ++ closed ++ opened dirs.
Proof.
  induction dirs as [|dir dirs IH]; intros states closed r closed' Hd; cbn [discover_loop opened] in *.
  { injection Hd as <- <-. by rewrite app_nil_r. }
  destruct (pe_cancelled dir). { injection Hd as <- <-. rewrite app_nil_r. apply Permutation_app_comm. }
  destruct (bool_decide _); [by apply IH|]. destruct (negb (pe_open dir)); [by apply IH|]. cbn [orb].
  destruct (pe_handle dir) as [h|]; [|by apply IH].
  assert (Hclose : discover_loop uids mounts dirs states (closed ++ [h]) = (r, closed') →
    match r with Ok states' => handles states' ++ closed' | Err _ => closed' end ≡ₚ handles states ++ closed ++ h :: opened dirs).
  { intros Hl. rewrite (IH _ _ _ _ Hl). by rewrite <- app_assoc. }
  assert (Hkeep : ∀ ns st, states !! ns = None → ns_handle st = h →
    discover_loop uids mounts dirs (<[ns := st]> states) closed = (r, closed') →
    match r with Ok states' => handles states' ++ closed' | Err _ => closed' end ≡ₚ handles states ++ closed ++ h :: opened dirs).
  { intros ns st Hn Hh Hl. rewrite (IH _ _ _ _ Hl). rewrite handles_insert, Hh by done. cbn [app]. rewrite !(app_assoc (handles states)). apply Permutation_middle. }
  destruct (pe_ino dir) as [ino|]; [|by apply Hclose]. destruct (4294967295 <? ino); [by apply Hclose|].
  destruct (states !! wrap_u32 ino) eqn:Hn; [by apply Hclose|]. destruct mounts; [by eapply Hkeep; [exact Hn| |exact Hd]|].
  destruct (pe_uid_map dir) as [mapping|]; [|by apply Hclose]. destruct (negb (pe_same dir)); [by apply Hclose|].
  destruct (bool_decide (fields mapping = [])); [by apply Hclose|].
  destruct (commandNamespaceRules _ mapping uids) as [[root users]|]; [by eapply Hkeep; [exact Hn| |exact Hd]|by apply Hclose].
Qed.

Section Handles.
Context {K : Type} `{KernelMaps K}.

Lemma activate_handles keys now : ∀ current gen (k : kstate K) k' current' gen' err,
  activateCommandNamespaces keys now current gen k = (k', current', gen', err) → handles current' ≡ₚ handles current.
Proof.
  induction keys as [|ns keys IH]; intros current gen k k' current' gen' err Ha; simpl in Ha.
  { by injection Ha as <- <- <- <-. }
  destruct (current !! ns) as [st|] eqn:Hst; [|by eapply IH]. destruct (ns_active st || not_ready now st); [by eapply IH|].
  destruct (update_users (ns_users st) k) as [k1 [e|]]; [by injection Ha as <- <- <- <-|].
  destruct (wrap_u64 (gen + 1) =? 0); [by injection Ha as <- <- <- <-|].
  destruct (write _ k1) as [k2 [e|]]; [by injection Ha as <- <- <- <-|].
  rewrite (IH _ _ _ _ _ _ _ Ha). by apply (handles_replace _ st).
Qed.

Lemma remove_stale_handles keys desired : ∀ current (k : kstate K) k' current' err closed,
  remove_stale keys desired current k = (k', current', err, closed) → handles current' ++ closed ≡ₚ handles current.
Proof.
  induction keys as [|ns keys IH]; intros current k k' current' err closed Hr; simpl in Hr.
  { injection Hr as <- <- <- <-. by rewrite app_nil_r. }
  destruct (current !! ns) as [st|] eqn:Hst; [|by eapply IH]. destruct (desired !! ns); [by eapply IH|].
  destruct (if ns_active st then _ else _) as [k1 [e|]]; [injection Hr as <- <- <- <-; by rewrite app_nil_r|].
  destruct (remove_stale keys desired (delete ns current) k1) as [[[k2 cur2] err2] closed2] eqn:Hrec.
  injection Hr as <- <- <- <-. rewrite (handles_delete _ _ _ Hst), <- Permutation_middle. by rewrite (IH _ _ _ _ _ _ Hrec).
Qed.
End Handles.

Lemma take_new_handles now desired current :
  handles (take_new now desired current) ++ handles (not_taken desired current) ≡ₚ handles current ++ handles desired.
Proof.
  induction desired as [|ns st desired Hn IH] using map_ind.
  { unfold take_new, not_taken. by rewrite map_imap_empty, map_union_empty, map_filter_empty. }
  assert (Hnt : not_taken desired current !! ns = None) by (unfold not_taken; by apply map_lookup_filter_None_2; left).
  rewrite (handles_insert _ _ _ Hn). destruct (current !! ns) as [st0|] eqn:Hc.
  - assert (Ht : take_new now (<[ns := st]> desired) current = take_new now desired current).
    { apply map_eq. intros i. unfold take_new. rewrite !lookup_union, !map_lookup_imap.
      destruct (decide (i = ns)) as [->|Hne]; [|by rewrite lookup_insert_ne]. rewrite Hc, lookup_insert_eq, Hn. done. }
    assert (Hl : not_taken (<[ns := st]> desired) current = <[ns := st]> (not_taken desired current)).
    { unfold not_taken. by rewrite map_filter_insert_True by (by exists st0). }
    rewrite Ht, Hl, (handles_insert _ _ _ Hnt), <- !Permutation_middle. by rewrite IH.
  - assert (Ht : take_new now (<[ns := st]> desired) current = <[ns := set_readyAt (now ns) st]> (take_new now desired current)).
    { apply map_eq. intros i. unfold take_new. rewrite !lookup_union, !map_lookup_imap.
      destruct (decide (i = ns)) as [->|Hne].
      - by rewrite Hc, !lookup_insert_eq.
      - rewrite !lookup_insert_ne by done. by rewrite lookup_union, map_lookup_imap. }
    assert (Hl : not_taken (<[ns := st]> desired) current = not_taken desired current).
    { unfold not_taken. rewrite map_filter_insert_False, delete_id; [done|done|]. rewrite Hc. by intros [? ?]. }
    assert (Hh : ns_handle (set_readyAt (now ns) st) = ns_handle st) by (unfold set_readyAt; by destruct (ns_readyAt st)).
    assert (Htn : take_new now desired current !! ns = None).
    { unfold take_new. rewrite lookup_union, map_lookup_imap, Hc, Hn. done. }
    rewrite Ht, Hl, (handles_insert _ _ _ Htn), Hh, <- Permutation_middle. by rewrite <- IH.
Qed.

Lemma sync_handles {K} `{KernelMaps K} keys1 keys2 now1 t2 desired current gen (k : kstate K) k' current' gen' err rest gone :
  syncCommandNamespaces keys1 keys2 now1 t2 desired current gen k = (k', current', gen', err, rest, gone) →
  handles current' ++ gone ++ handles rest ≡ₚ handles current ++ handles desired.
Proof.
  intros Hs. unfold syncCommandNamespaces in Hs.
  destruct (remove_stale keys1 desired current k) as [[[k1 cur1] [e|]] closed1] eqn:Hr.
  - injection Hs as <- <- <- <- <- <-. by rewrite app_assoc, (remove_stale_handles _ _ _ _ _ _ _ _ Hr).
  - destruct (activateCommandNamespaces _ _ _ _ _) as [[[k2 cur2] gen2] err2] eqn:Hact.
    injection Hs as <- <- <- <- <- <-. rewrite (activate_handles _ _ _ _ _ _ _ _ _ Hact).
    rewrite <- (remove_stale_handles _ _ _ _ _ _ _ _ Hr), (Permutation_app_comm closed1), app_assoc, take_new_handles.
    rewrite <- !app_assoc. apply Permutation_app_head, Permutation_app_comm.
Qed.

(** ** A scan *)
(** What the scan opens: the entries of both readings of /proc, the second one only
    where the first went well. *)
Definition opened_scan {N M} `{KernelMaps N, KernelMaps M} (uids : list Z) (si1 si2 : sync_input) (s : monitor N M) : list Z :=
  if mo_cancelled s then []
  else opened (default [] (si_dirs si1)) ++
       match snd (scan_namespaces uids si1 s) with None => opened (default [] (si_dirs si2)) | Some _ => [] end.

Definition open_handles {N M} (s : monitor N M) : list Z := handles (mo_current s) ++ handles (mo_currentMounts s).

Lemma discovered_handles si uids mounts r closed :
  discovered false si uids mounts = (r, closed) →
  match r with Ok states => handles states ++ closed | Err _ => closed end ≡ₚ opened (default [] (si_dirs si)).
Proof.
  unfold discovered, discoverCommandContexts. destruct (si_dirs si) as [dirs|]; [|by intros [= <- <-]].
  intros Hd. rewrite (discover_handles _ _ _ _ _ _ _ Hd). by rewrite handles_empty.
Qed.

Lemma scan_perm (cur' gone rest cur des closed op other mc : list Z) :
  cur' ++ gone ++ rest ≡ₚ cur ++ des → des ++ closed ≡ₚ op →
  cur' ++ other ++ mc ++ closed ++ gone ++ rest ≡ₚ cur ++ other ++ mc ++ op.
Proof.
  intros Hs Hd. rewrite <- Hd. trans ((cur' ++ gone ++ rest) ++ other ++ mc ++ closed); [solve_Permutation|].
  rewrite Hs. solve_Permutation.
Qed.

Section Scan.
Context {N M : Type} `{KernelMaps N, KernelMaps M}.

Lemma scan_namespaces_handles uids si (s s' : monitor N M) e :
  mo_cancelled s = false → scan_namespaces uids si s = (s', e) →
  open_handles s' ++ mo_closed s' ≡ₚ open_handles s ++ mo_closed s ++ opened (default [] (si_dirs si)) ∧ mo_cancelled s' = false.
Proof.
  intros Hc Hs. unfold scan_namespaces in Hs. rewrite Hc in Hs.
  destruct (discovered false si uids false) as [[desired|er] closed] eqn:Hd; apply discovered_handles in Hd.
  - destruct (syncCommandNamespaces _ _ _ _ _ _ _ _) as [[[[[k cur] gen] er] rest] gone] eqn:Hy. injection Hs as <- <-.
    split; [|done]. unfold open_handles. simpl. rewrite <- !app_assoc.
    eapply scan_perm; [exact (sync_handles _ _ _ _ _ _ _ _ _ _ _ _ _ _ Hy)|exact Hd].
  - injection Hs as <- <-. split; [|done]. unfold open_handles. simpl. by rewrite Hd.
Qed.

Lemma scan_mounts_handles si (s s' : monitor N M) e :
  mo_cancelled s = false → scan_mounts si s = (s', e) →
  open_handles s' ++ mo_closed s' ≡ₚ open_handles s ++ mo_closed s ++ opened (default [] (si_dirs si)).
Proof.
  intros Hc Hs. unfold scan_mounts in Hs. rewrite Hc in Hs.
  destruct (discovered false si [] true) as [[desired|er] closed] eqn:Hd; apply discovered_handles in Hd.
  - destruct (syncCommandNamespaces _ _ _ _ _ _ _ _) as [[[[[k cur] gen] er] rest] gone] eqn:Hy. injection Hs as <- <-.
    unfold open_handles. simpl. rewrite (Permutation_app_comm (handles (mo_current s))), (Permutation_app_comm (handles (mo_current s))).
    rewrite <- !app_assoc. eapply scan_perm; [exact (sync_handles _ _ _ _ _ _ _ _ _ _ _ _ _ _ Hy)|exact Hd].
  - injection Hs as <- <-. unfold open_handles. simpl. by rewrite Hd.
Qed.
End Scan.

(** No scan loses or doubly closes a namespace handle: the handles it opens, with those
    already held and closed, are those held and closed after it, each as many times,
    whatever read, discovery or kernel write fails on the way. *)
Lemma scan_handles {N M} `{KernelMaps N, KernelMaps M} uids si1 si2 (s : monitor N M) :
  let s' := fst (scan uids si1 si2 s) in
  open_handles s' ++ mo_closed s' ≡ₚ open_handles s ++ mo_closed s ++ opened_scan uids si1 si2 s.
Proof.
  simpl. unfold scan, opened_scan. destruct (mo_cancelled s) eqn:Hc.
  { unfold scan_namespaces, discovered. rewrite Hc. unfold open_handles. simpl. by rewrite !app_nil_r. }
  destruct (scan_namespaces uids si1 s) as [s1 e] eqn:Hs1. destruct (scan_namespaces_handles _ _ _ _ _ Hc Hs1) as [Hh Hc1].
  destruct e as [e|]; simpl; [by rewrite app_nil_r|].
  destruct (scan_mounts si2 s1) as [s2 e2] eqn:Hs2. simpl. rewrite (scan_mounts_handles _ _ _ _ Hc1 Hs2).
  by rewrite app_assoc, Hh, <- !app_assoc.
Qed.

Lemma log_and_cancel_handles {N M} (r : monitor N M * option command_monitor_err) :
  open_handles (log_and_cancel r) = open_handles (fst r) ∧ mo_closed (log_and_cancel r) = mo_closed (fst r).
Proof. by destruct r as [s [e|]]. Qed.

(** What a turn of the goroutine opens. *)
Definition opened_step {N M} `{KernelMaps N, KernelMaps M} (uids : list Z) (ev : monitor_event) (s : monitor N M) : list Z :=
  match ev with ScanTick si1 si2 => opened_scan uids si1 si2 s | ActivationTick _ _ _ _ => [] end.

Lemma monitor_step_handles {N M} `{KernelMaps N, KernelMaps M} uids ev (s : monitor N M) :
  let s' := monitor_step uids s ev in
  open_handles s' ++ mo_closed s' ≡ₚ open_handles s ++ mo_closed s ++ opened_step uids ev s.
Proof.
  destruct ev as [si1 si2|keys now mkeys mnow]; cbn [monitor_step opened_step].
  - destruct (log_and_cancel_handles (scan uids si1 si2 s)) as [-> ->]. apply scan_handles.
  - destruct (log_and_cancel_handles (activate_mounts mkeys mnow (log_and_cancel (activate_namespaces keys now s)))) as [-> ->].
    unfold activate_mounts. destruct (activateCommandNamespaces mkeys _ _ _ _) as [[[k cur] gen] er] eqn:Ha.
    apply activate_handles in Ha. destruct (log_and_cancel_handles (activate_namespaces keys now s)) as [Ho Hc].
    unfold open_handles in *. cbn [fst mo_current mo_currentMounts mo_closed] in *. rewrite Hc, Ha.
    rewrite Ho. clear Ho Hc Ha. unfold activate_namespaces.
    destruct (activateCommandNamespaces keys _ _ _ _) as [[[k1 cur1] gen1] er1] eqn:Ha1. cbn.
    apply activate_handles in Ha1. by rewrite Ha1, app_nil_r.
Qed.
