(* ===== verification/CommandExamples.v ===== *)
(** * The user command controller at work

    A user namespace with the identity map, a scan, the activation after the grace
    period, and an execution of a command the configuration blocks. *)

From S2P Require Import Prelude.
From S2P Require Import GoStrings.
From S2P Require Import Words.
From S2P Require Import Policy.
From S2P Require Import Config.
From S2P Require Import Protocol.
From S2P Require Import BanPool.
From S2P Require Import CommandController.
From S2P Require Import CommandPolicy.
From S2P Require Import CommandGate.
From S2P Require Import CommandRun.

(** Maps that never run full: a deletion fails when the key is not there. *)
Record mem := Mem { mem_view : gset userKey * gmap Z namespacePolicy }.
#[global] Instance mem_maps : KernelMaps mem := λ op m,
  let missing := match op with
                 | DeleteUser key => bool_decide (key ∉ fst (mem_view m))
                 | DeleteNamespace ns => bool_decide (snd (mem_view m) !! ns = None)
                 | _ => false
                 end in
  if missing then (m, Some ErrKeyNotExist) else (Mem (effect op (mem_view m)), None).
#[global] Instance mem_laws : KernelMapsLaws mem.
Proof.
  refine {| kview := mem_view |}.
  - intros op k k' err. unfold exec_op, mem_maps. cbv zeta. by destruct (match op with UpdateUser _ => _ | _ => _ end); intros [= <- <-].
  - intros op k k'. unfold exec_op, mem_maps. cbv zeta. destruct op as [key|key|ns p|ns]; simpl; try done;
      destruct (bool_decide _) eqn:Hb; try done; intros _; by apply bool_decide_eq_true in Hb.
Defined.

Definition ex_config : UserCommandExecutionController :=
  MkController "blocker" "positive" (Some ["1000"]) (Some ["nmap"]).

Definition ex_mapping : string := "0 100000 65536".
Definition ex_proc (ino : Z) : proc_entry := MkProc "42" false true (Some (ino + 100)) (Some ino) (Some ex_mapping) true.
Definition ex_sync (ino : Z) : sync_input := MkSync (Some [ex_proc ino]) [] [] (λ _, 0) 0.
Definition ex_run : list monitor_event :=
  [ScanTick (ex_sync 7) (ex_sync 9); ActivationTick [7] (150 * second) [9] (150 * second)].
Definition ex_empty : kstate mem := (Mem (∅, ∅), [Mem (∅, ∅)]).
Definition ex_fresh : monitor mem mem := MkMonitor ex_empty ∅ ex_empty ∅ 0 false [] [].
Definition ex_final : monitor mem mem := monitor_run [1000] ex_fresh ex_run.

(** The program reads the maps as they are in the end. *)
Definition ex_maps (_ : nat) : kernel_maps :=
  MkMaps (fst (mem_view (fst (mo_maps ex_final)))) (snd (mem_view (fst (mo_maps ex_final))))
    (snd (mem_view (fst (mo_mounts ex_final)))) (list_to_set (map command_key ["nmap"])).
Definition ex_task : task := MkTask 101000 101000 7 9 4242 4242.
Definition ex_name : list Z := map byte_val (bytes "nmap").

Lemma ex_config_uids : ParseUIDs (items (TargetUsersIDs ex_config)) = Ok [1000].
Proof. vm_compute. reflexivity. Qed.
Lemma ex_config_commands : NormalizeCommands (items (TargetCommands ex_config)) = Ok ["nmap"].
Proof. vm_compute. reflexivity. Qed.
Lemma ex_verdict_eq :
  user_command_controller 0 (kernel_config ex_config [1000] ["nmap"]) ex_task (Some ex_name) ex_maps true =
  (- EPERM, Some (MkExec 4242 4242 101000 7 101000 1 1 0 (name_key ex_name))).
Proof. vm_compute. reflexivity. Qed.

Lemma ex_plain : plain_name ex_name.
Proof. unfold plain_name, ex_name. repeat constructor; vm_compute; done. Qed.
Lemma ex_is_fresh : fresh ex_fresh.
Proof. split; [done|done|simpl; lia]. Qed.
Lemma ex_reads : reads (snd (mo_maps ex_final)) ex_maps.
Proof.
  constructor. exists 2%nat, 2%nat, 2%nat.
  assert (Hl : snd (mo_maps ex_final) !! 2%nat = Some (fst (mo_maps ex_final))) by (vm_compute; reflexivity).
  exists (fst (mo_maps ex_final)), (fst (mo_maps ex_final)), (fst (mo_maps ex_final)). rewrite Hl. by repeat split.
Qed.
Lemma ex_disjoint (e1 e2 : extent) : e1 ∈ [Extent 0 100000 65536] → e2 ∈ [Extent 0 100000 65536] → e1 = e2 ∨ host_disjoint e1 e2.
Proof. intros ->%list_elem_of_singleton ->%list_elem_of_singleton. by left. Qed.

(** Witness of [kernel_denies_only_policy]. *)
Lemma kernel_denies_only_policy_witness :
  denied_by_policy (λ ns mapping, ∃ si mounts, ScanTick si mounts ∈ ex_run ∧ uid_map_of si ns mapping)
    ex_config [1000] ["nmap"] ex_task ex_name.
Proof.
  eapply (kernel_denies_only_policy (N := mem) (M := mem) ex_config [1000] ["nmap"] ex_fresh ex_final ex_run ex_task ex_name ex_maps true).
  - exact ex_config_commands.
  - by left.
  - exact ex_is_fresh.
  - reflexivity.
  - vm_compute. intros Hin. by apply elem_of_nil in Hin.
  - exact ex_reads.
  - reflexivity.
  - exact ex_plain.
  - exact ex_verdict_eq.
  - by right.
Defined.

Lemma ex_gates : gates_open [1000] ["nmap"] ex_task ex_mapping ex_maps.
Proof.
  split.
  - exists 100000, [MkUserKey 7 101000]. split; [vm_compute; reflexivity|]. split; [|split; [done|split; [done|]]].
    + intros h. assert (Hm : m_users (ex_maps 2%nat) = {[MkUserKey 7 101000]}) by (vm_compute; reflexivity).
      rewrite Hm, elem_of_singleton, list_elem_of_singleton. done.
    + exists 1, 1. split; [vm_compute; reflexivity|]. split; [vm_compute; reflexivity|done].
  - exists (MkNsPolicy 0 2), (MkNsPolicy 0 2). split; [vm_compute; reflexivity|]. split; [vm_compute; reflexivity|done].
  - reflexivity.
Qed.

(** Witness of [kernel_decides_policy]. *)
Lemma kernel_decides_policy_witness :
  fst (user_command_controller 0 (kernel_config ex_config [1000] ["nmap"]) ex_task (Some ex_name) ex_maps true) = - EPERM.
Proof.
  rewrite (kernel_decides_policy ex_config [1000] ["nmap"] ex_task ex_name ex_mapping [Extent 0 100000 65536] 1000 ex_maps true).
  - vm_compute. reflexivity.
  - exact ex_config_uids.
  - exact ex_config_commands.
  - by left.
  - exact ex_plain.
  - vm_compute. reflexivity.
  - exact ex_disjoint.
  - unfold in_u32. lia.
  - vm_compute. reflexivity.
  - done.
  - exact ex_gates.
Defined.

(** Witness of [alert_tells_the_outcome]. *)
Lemma alert_tells_the_outcome_witness :
  decodeCommandEvent (exec_event_bytes (MkExec 4242 4242 101000 7 101000 1 1 0 (name_key ex_name))) "blocker" =
  Ok (Some (MkCommandAlert "blocked" SeverityHigh "nmap" 101000 101000 7 4242 4242 "blocker")).
Proof.
  rewrite (alert_tells_the_outcome ex_config [1000] ["nmap"] ex_task ex_name ex_maps (- EPERM)).
  - vm_compute. reflexivity.
  - by right.
  - exact ex_plain.
  - repeat (apply Forall_cons_2; [unfold in_u32; simpl; lia|]). apply Forall_nil_2.
  - exact ex_verdict_eq.
Defined.
