(* ===== verification/Goroutines.v ===== *)
(** * Goroutines that share a state and stop

    A goroutine is a state and what it does at an event, on its own state and on a state
    [X] it shares with others.  An event is internal when it is the goroutine's own next
    step, which nothing but itself has to provide; the others come from its environment:
    a line of a log, a tick, a message.  [Stops] is what a goroutine promises to whoever
    waits for it: once the shared state is stopped (its context is cancelled), it never
    has to wait for its environment, and it can only take finitely many steps of its own.
    The promise composes: goroutines that stop form a system that stops. *)

From S2P Require Import Prelude.

Class Goroutine (S Ev X : Type) := {
  g_next : Ev → S → X → option (S * X);        (* [None]: not possible now *)
  g_internal : Ev → bool;
  g_running : S → bool }.                      (* it has not returned *)

(** What the shared state has for the goroutines: whether it is stopped, and how much work
    waits in it. *)
Class Stoppable (X : Type) := { stopped : X → bool; waiting : X → nat }.

(** [g_measure] bounds the steps left, each event of the environment adds at most
    [g_burst] to them. *)
Class Stops (S Ev X : Type) `{Goroutine S Ev X, Stoppable X} := {
  g_measure : S → nat;
  g_burst : nat;
  g_stays_stopped e s x s' x' : g_next e s x = Some (s', x') → stopped x = true → stopped x' = true;
  g_proceeds s x : stopped x = true → g_running s = true → ∃ e, g_internal e = true ∧ is_Some (g_next e s x);
  g_step e s x s' x' :
    stopped x = true → g_next e s x = Some (s', x') →
    (g_measure s' + waiting x' + (if g_internal e then 1 else 0) <=
     g_measure s + waiting x + (if g_internal e then 0 else g_burst))%nat }.

Section Runs.
Context {S Ev X : Type} `{Goroutine S Ev X}.

Fixpoint g_run (es : list Ev) (s : S) (x : X) : option (S * X) :=
  match es with
  | [] => Some (s, x)
  | e :: es' => '(s, x) ← g_next e s x; g_run es' s x
  end.

Definition internals (es : list Ev) : nat := length (List.filter g_internal es).
Definition externals (es : list Ev) : nat := length (List.filter (λ e, negb (g_internal e)) es).

(** No step of its own is possible. *)
Definition stuck (s : S) (x : X) : Prop := ∀ e, g_internal e = true → g_next e s x = None.

Lemma g_run_app es1 es2 s x :
  g_run (es1 ++ es2) s x = '(s, x) ← g_run es1 s x; g_run es2 s x.
Proof.
  revert s x. induction es1 as [|e es1 IH]; intros s x; [done|]. cbn [app g_run].
  destruct (g_next e s x) as [[s1 x1]|]; [|done]. apply IH.
Qed.

Context `{Stoppable X, !Stops S Ev X}.

Lemma g_run_stopped es s x s' x' : g_run es s x = Some (s', x') → stopped x = true → stopped x' = true.
Proof.
  revert s x. induction es as [|e es IH]; intros s x; cbn [g_run]; [by intros [= <- <-]|].
  destruct (g_next e s x) as [[s1 x1]|] eqn:Hn; [|done]. cbn. intros Hr Hs. by eapply IH, g_stays_stopped.
Qed.

Lemma g_run_bound es s x s' x' :
  stopped x = true → g_run es s x = Some (s', x') →
  (internals es + g_measure s' + waiting x' <= g_measure s + waiting x + g_burst * externals es)%nat.
Proof.
  revert s x. induction es as [|e es IH]; intros s x Hs; cbn [g_run]; [intros [= <- <-]; cbn; lia|].
  destruct (g_next e s x) as [[s1 x1]|] eqn:Hn; [|done]. cbn. intros Hr.
  apply IH in Hr; [|by eapply g_stays_stopped]. apply g_step in Hn; [|done].
  unfold internals, externals in *. cbn [List.filter]. destruct (g_internal e); cbn [negb length]; lia.
Qed.

Lemma stuck_returned s x : stopped x = true → stuck s x → g_running s = false.
Proof.
  intros Hs Hk. apply not_true_iff_false. intros Hr. destruct (g_proceeds s x Hs Hr) as (e & He & [y Hy]).
  by rewrite Hk in Hy.
Qed.

(** Left alone it returns: by steps of its own, not more than its measure. *)
Lemma g_returns s x :
  stopped x = true →
  ∃ es s' x', Forall (λ e, g_internal e = true) es ∧ g_run es s x = Some (s', x') ∧ g_running s' = false ∧
    (length es <= g_measure s + waiting x)%nat.
Proof.
  remember (g_measure s + waiting x)%nat as n eqn:Hn. revert s x Hn.
  induction n as [n IH] using lt_wf_ind. intros s x -> Hs.
  destruct (g_running s) eqn:Hr; [|exists [], s, x; split_and!; [constructor|done|done|cbn; lia]].
  destruct (g_proceeds s x Hs Hr) as (e & He & [[s1 x1] Hn]).
  pose proof (g_step e s x s1 x1 Hs Hn) as Hm. rewrite He in Hm.
  destruct (IH (g_measure s1 + waiting x1)%nat) with (s := s1) (x := x1) as (es & s' & x' & Hf & Hrun & Hret & Hl);
    [lia|done|by eapply g_stays_stopped|].
  exists (e :: es), s', x'. split_and!; [by constructor|cbn; by rewrite Hn|done|cbn; lia].
Qed.
End Runs.

(** ** Composition

    [Respects R]: whatever the goroutine does, the shared state before and after are in
    the relation [R]. *)
Class Respects (S Ev X : Type) `{Goroutine S Ev X} (R : X → X → Prop) : Prop :=
  g_respects e s x s' x' : g_next e s x = Some (s', x') → R x x'.

Lemma g_run_respects {S Ev X} `{Goroutine S Ev X} R `{!PreOrder R, !Respects S Ev X R} es s x s' x' :
  g_run es s x = Some (s', x') → R x x'.
Proof.
  revert s x. induction es as [|e es IH]; intros s x; cbn [g_run]; [by intros [= <- <-]|].
  destruct (g_next e s x) as [[s1 x1]|] eqn:Hn; [|done]. cbn. intros Hr.
  etrans; [by eapply g_respects|by eapply IH].
Qed.

Section Pair.
Context {S1 S2 Ev1 Ev2 X : Type} `{Goroutine S1 Ev1 X, Goroutine S2 Ev2 X}.

#[global] Instance pair_goroutine : Goroutine (S1 * S2) (Ev1 + Ev2) X := {
  g_next e s x :=
    match e with
    | inl e => '(s1, x) ← g_next e (fst s) x; Some ((s1, snd s), x)
    | inr e => '(s2, x) ← g_next e (snd s) x; Some ((fst s, s2), x)
    end;
  g_internal e := match e with inl e => g_internal e | inr e => g_internal e end;
  g_running s := g_running (fst s) || g_running (snd s) }.

#[global] Instance pair_respects R : Respects S1 Ev1 X R → Respects S2 Ev2 X R → Respects (S1 * S2) (Ev1 + Ev2) X R.
Proof.
  intros R1 R2 [e|e] [s1 s2] x s' x'; simpl; intros Hn.
  - destruct (g_next e s1 x) as [[s x1]|] eqn:He; [|done]. injection Hn as <- <-. exact (R1 _ _ _ _ _ He).
  - destruct (g_next e s2 x) as [[s x1]|] eqn:He; [|done]. injection Hn as <- <-. exact (R2 _ _ _ _ _ He).
Qed.

Context `{Stoppable X, !Stops S1 Ev1 X, !Stops S2 Ev2 X}.

#[global] Program Instance pair_stops : Stops (S1 * S2) (Ev1 + Ev2) X := {
  g_measure s := (g_measure (fst s) + g_measure (snd s))%nat;
  g_burst := (g_burst (S := S1) (Ev := Ev1) (X := X) + g_burst (S := S2) (Ev := Ev2) (X := X))%nat }.
Next Obligation.
  intros [e|e] [s1 s2] x [s1' s2'] x'; simpl; intros Hn Hs.
  - destruct (g_next e s1 x) as [[s x1]|] eqn:He; [|done]. injection Hn as <- <- <-. exact (g_stays_stopped _ _ _ _ _ He Hs).
  - destruct (g_next e s2 x) as [[s x1]|] eqn:He; [|done]. injection Hn as <- <- <-. exact (g_stays_stopped _ _ _ _ _ He Hs).
Qed.
Next Obligation.
  intros [s1 s2] x Hs [Hr|Hr]%orb_true_iff; simpl in Hr.
  - destruct (g_proceeds s1 x Hs Hr) as (e & He & [[s' x'] Hn]). exists (inl e). simpl. by rewrite Hn.
  - destruct (g_proceeds s2 x Hs Hr) as (e & He & [[s' x'] Hn]). exists (inr e). simpl. by rewrite Hn.
Qed.
Next Obligation.
  intros [e|e] [s1 s2] x [s1' s2'] x' Hs; simpl; intros Hn.
  - destruct (g_next e s1 x) as [[s x1]|] eqn:He; [|done]. injection Hn as <- <- <-.
    apply g_step in He; [|done]. destruct (g_internal e); lia.
  - destruct (g_next e s2 x) as [[s x1]|] eqn:He; [|done]. injection Hn as <- <- <-.
    apply g_step in He; [|done]. destruct (g_internal e); lia.
Qed.
End Pair.

(** A goroutine that may not have been started. *)
Section Option.
Context {S Ev X : Type} `{Goroutine S Ev X}.

#[global] Instance option_goroutine : Goroutine (option S) Ev X := {
  g_next e s x := s ← s; '(s, x) ← g_next e s x; Some (Some s, x);
  g_internal := g_internal;
  g_running s := match s with Some s => g_running s | None => false end }.

#[global] Instance option_respects R : Respects S Ev X R → Respects (option S) Ev X R.
Proof.
  intros R1 e [s|] x s' x'; simpl; [|done]. intros Hn. destruct (g_next e s x) as [[s1 x1]|] eqn:He; [|done].
  injection Hn as <- <-. exact (R1 _ _ _ _ _ He).
Qed.

Context `{Stoppable X, !Stops S Ev X}.

#[global] Program Instance option_stops : Stops (option S) Ev X := {
  g_measure s := match s with Some s => g_measure s | None => O end;
  g_burst := g_burst (S := S) (Ev := Ev) (X := X) }.
Next Obligation.
  intros e [s|] x s' x'; simpl; [|done]. intros Hn Hs. destruct (g_next e s x) as [[s1 x1]|] eqn:He; [|done].
  injection Hn as <- <-. exact (g_stays_stopped _ _ _ _ _ He Hs).
Qed.
Next Obligation.
  intros [s|] x Hs Hr; [|done]. destruct (g_proceeds s x Hs Hr) as (e & He & [[s' x'] Hn]). exists e. simpl. by rewrite Hn.
Qed.
Next Obligation.
  intros e [s|] x s' x' Hs; simpl; [|done]. intros Hn. destruct (g_next e s x) as [[s1 x1]|] eqn:He; [|done].
  injection Hn as <- <-. by apply g_step in He.
Qed.
End Option.
