(* ===== verification/DockerPipe.v ===== *)
(** * pkg/monitor/source.go: the pipe of [attachToDocker]

    [attachToDocker] starts a goroutine that copies the stream of the container into one
    end of a pipe ([stdcopy.StdCopy], code of docker), and scans the other end itself.  The
    two share the pipe: a write returns when its bytes have been read.  Source says what
    an attempt sends and returns as a function of the text that is read; here every
    interleaving of the two is shown to come to that, and that a line which is too long
    ends the attempt and leaves the copying goroutine in its write. *)

From S2P Require Import Prelude.
From S2P Require Import GoStrings.
From S2P Require Import Config.
From S2P Require Import Source.
From S2P Require Import Goroutines.

(** ** [io.Pipe]: what the write in progress still has, and whether the end that is
    written to is closed *)
Record pipe := MkPipe { p_writing : option (list ascii); p_closed : bool }.

(** ** The copying goroutine

    The payloads of the frames, and the end of the stream or its error, are what docker
    sends. *)
Inductive copier : Type := CpCopying | CpWriting | CpReturned.
Inductive copier_event : Type := CpFrame (payload : list ascii) | CpWritten | CpStreamEnds.

Definition copier_next (e : copier_event) (c : copier) (p : pipe) : option (copier * pipe) :=
  match e, c with
  | CpFrame payload, CpCopying => Some (CpWriting, MkPipe (Some payload) (p_closed p))
  | CpWritten, CpWriting => match p_writing p with None => Some (CpCopying, p) | Some _ => None end
  | CpStreamEnds, CpCopying => Some (CpReturned, MkPipe (p_writing p) true)
  | _, _ => None
  end.

#[global] Instance copier_goroutine : Goroutine copier copier_event pipe := {
  g_next := copier_next;
  g_internal e := match e with CpWritten => true | _ => false end;
  g_running c := match c with CpReturned => false | _ => true end }.

(** ** [bufio.Scanner] over a buffer *)
Fixpoint split_newline (l : list ascii) : option (list ascii * list ascii) :=
  match l with
  | [] => None
  | c :: l' =>
      if Ascii.eqb c newline then Some ([], l')
      else '(line, rest) ← split_newline l'; Some (c :: line, rest)
  end.

Inductive token : Type := Token (line : string) (rest : list ascii) | NeedsMore | TooLong | Ended.

Definition scan_token (limit : Z) (buf : list ascii) (eof : bool) : token :=
  match split_newline buf with
  | Some (line, rest) => Token (of_bytes (drop_cr line)) rest
  | None =>
      if eof then if bool_decide (buf = []) then Ended else Token (of_bytes (drop_cr buf)) []
      else if limit <=? Z.of_nat (length buf) then TooLong else NeedsMore
  end.

(** After so many reads in a row without a byte the scanner stops reading. *)
Definition maxConsecutiveEmptyReads : nat := 100.

(** ** [attachToDocker] from the scanner on *)
Inductive attach_phase : Type :=
| AtScanning                               (* in [scanner.Scan] *)
| AtSending (line : string)                (* at the [select] *)
| AtReturned (err : option source_err).
Record attacher := MkAttacher {
  at_buf : list ascii; at_empties : nat; at_eof : bool; at_phase : attach_phase; at_lines : list string }.

Inductive attach_event : Type :=
| AtRead (n : nat)       (* a read of the pipe takes [n] bytes *)
| AtReadEnd              (* a read of the pipe that is closed *)
| AtToken                (* [Scan] is true *)
| AtSend                 (* the channel takes the line *)
| AtDone                 (* or the context is done *)
| AtStops.               (* [Scan] is false *)

Definition at_set_phase (ph : attach_phase) (a : attacher) : attacher :=
  MkAttacher (at_buf a) (at_empties a) (at_eof a) ph (at_lines a).

(** [n] bytes of the write [l]: as many as there are and as the buffer takes, at least one
    unless the write is empty. *)
Definition can_take (n : nat) (l buf : list ascii) : bool :=
  (n <=? length l)%nat && (Z.of_nat (length buf + n) <=? MaxScanTokenSize) && ((0 <? n)%nat || bool_decide (l = [])).

Definition take_bytes (n : nat) (l : list ascii) (a : attacher) : attacher :=
  let empties := if (0 <? n)%nat then O else S (at_empties a) in
  MkAttacher (at_buf a ++ take n l) empties (maxConsecutiveEmptyReads <? empties)%nat AtScanning (at_lines a).

Definition written_bytes (n : nat) (l : list ascii) (p : pipe) : pipe :=
  MkPipe (if (n <? length l)%nat then Some (drop n l) else None) (p_closed p).

Definition attach_next (e : attach_event) (a : attacher) (p : pipe) : option (attacher * pipe) :=
  match at_phase a with
  | AtScanning =>
      match e, scan_token MaxScanTokenSize (at_buf a) (at_eof a) with
      | AtRead n, NeedsMore =>
          l ← p_writing p;
          if can_take n l (at_buf a) then Some (take_bytes n l a, written_bytes n l p) else None
      | AtReadEnd, NeedsMore =>
          if p_closed p then Some (MkAttacher (at_buf a) (at_empties a) true AtScanning (at_lines a), p) else None
      | AtToken, Token line rest => Some (MkAttacher rest (at_empties a) (at_eof a) (AtSending line) (at_lines a), p)
      | AtStops, (TooLong | Ended) => Some (at_set_phase (AtReturned (Some ErrCantReadContainerLogs)) a, p)
      | _, _ => None
      end
  | AtSending line =>
      match e with
      | AtSend => Some (MkAttacher (at_buf a) (at_empties a) (at_eof a) AtScanning (at_lines a ++ [line]), p)
      | AtDone => Some (at_set_phase (AtReturned None) a, p)
      | _ => None
      end
  | AtReturned _ => None
  end.

#[global] Instance attach_goroutine : Goroutine attacher attach_event pipe := {
  g_next := attach_next;
  g_internal e := match e with AtDone => false | _ => true end;
  g_running a := match at_phase a with AtReturned _ => false | _ => true end }.

(** The two of them, from the start of the goroutine. *)
Abbreviation docker_event := (attach_event + copier_event)%type.
Definition docker_start : attacher * copier := (MkAttacher [] 0 false AtScanning [], CpCopying).
Definition docker_pipe : pipe := MkPipe None false.

(** What docker sent. *)
Definition payload (e : docker_event) : list ascii := match e with inr (CpFrame l) => l | _ => [] end.
Definition stream (es : list docker_event) : list ascii := concat (map payload es).

(** ** The scanner and its lines *)
Lemma split_newline_Some l line rest : split_newline l = Some (line, rest) → l = line ++ newline :: rest ∧ newline ∉ line.
Proof.
  revert line. induction l as [|c l IH]; intros line; cbn [split_newline]; [done|].
  destruct (Ascii.eqb_spec c newline) as [->|Hc]; [intros [= <- <-]; split; [done|by apply not_elem_of_nil]|].
  destruct (split_newline l) as [[line' rest']|] eqn:Hs; [|done]. intros [= <- <-].
  destruct (IH line' eq_refl) as [-> Hn]. split; [done|]. rewrite not_elem_of_cons. by split.
Qed.
Lemma split_newline_None l : newline ∉ l → split_newline l = None.
Proof.
  induction l as [|c l IH]; [done|]. rewrite not_elem_of_cons. intros [Hc Hn]. cbn [split_newline].
  rewrite (proj2 (Ascii.eqb_neq c newline)) by congruence. by rewrite IH.
Qed.
Lemma split_newline_plain l : split_newline l = None → newline ∉ l.
Proof.
  induction l as [|c l IH]; intros Hs; [apply not_elem_of_nil|]. cbn [split_newline] in Hs.
  destruct (Ascii.eqb_spec c newline) as [->|Hc]; [done|]. destruct (split_newline l) as [[]|]; [done|].
  rewrite not_elem_of_cons. split; [congruence|by apply IH].
Qed.

(** The lines found come after those there were. *)
Definition after (lines : list string) (r : list string * bool) : list string * bool := (lines ++ fst r, snd r).
Lemma after_app l1 l2 r : after l1 (after l2 r) = after (l1 ++ l2) r.
Proof. unfold after. simpl. by rewrite app_assoc. Qed.

(** Bytes that are no newline are gathered up to the limit. *)
Lemma scan_go_plain limit cur l more :
  newline ∉ l → Z.of_nat (length (cur ++ l)) <= limit → scan_go limit cur (l ++ more) = scan_go limit (cur ++ l) more.
Proof.
  revert cur. induction l as [|c l IH]; intros cur Hn Hlen; [by rewrite app_nil_r|].
  rewrite not_elem_of_cons in Hn. destruct Hn as [Hc Hn]. rewrite length_app in Hlen. cbn [length] in Hlen.
  cbn [app scan_go]. rewrite (proj2 (Z.leb_gt _ _)) by lia. rewrite (proj2 (Ascii.eqb_neq c newline)) by congruence.
  rewrite IH, <- app_assoc; [done|done|]. rewrite !length_app. cbn [length]. lia.
Qed.

(** What [Scan] finds in the buffer is what the function on the whole text finds next. *)
Lemma scan_token_go limit buf eof :
  Z.of_nat (length buf) <= limit → 0 < limit → (eof = true → Z.of_nat (length buf) < limit) →
  match scan_token limit buf eof with
  | Token line rest => ∀ more, (eof = true → more = []) → scan_go limit [] (buf ++ more) = after [line] (scan_go limit [] (rest ++ more))
  | NeedsMore => eof = false ∧ Z.of_nat (length buf) < limit
  | TooLong => ∀ more, scan_go limit [] (buf ++ more) = ([], false)
  | Ended => scan_go limit [] buf = ([], true)
  end.
Proof.
  intros Hlen Hpos Heof. unfold scan_token. destruct (split_newline buf) as [[line rest]|] eqn:Hs.
  - intros more _. apply split_newline_Some in Hs as [-> Hn]. rewrite length_app in Hlen. cbn [length] in Hlen.
    rewrite <- app_assoc. rewrite scan_go_plain by (done || (cbn [app]; lia)). cbn [app scan_go].
    rewrite (proj2 (Z.leb_gt _ _)) by lia. rewrite Ascii.eqb_refl. unfold after. by destruct (scan_go limit [] (rest ++ more)).
  - apply split_newline_plain in Hs. destruct eof.
    + specialize (Heof eq_refl). case_bool_decide as Hb.
      * subst buf. cbn [scan_go length]. by rewrite (proj2 (Z.leb_gt _ _)) by lia.
      * intros more Hm. rewrite (Hm eq_refl), scan_go_plain by done. cbn [app scan_go length].
        rewrite !(proj2 (Z.leb_gt _ _)) by lia. by rewrite bool_decide_false.
    + destruct (limit <=? Z.of_nat (length buf)) eqn:Hl; bool_hyps; [|by split].
      intros more. rewrite scan_go_plain by done. destruct more; cbn [app scan_go]; by rewrite (proj2 (Z.leb_le _ _)).
Qed.

Lemma scan_token_rest limit buf eof line rest : scan_token limit buf eof = Token line rest → (length rest <= length buf)%nat.
Proof.
  unfold scan_token. destruct (split_newline buf) as [[l r]|] eqn:Hs.
  - apply split_newline_Some in Hs as [-> _]. intros [= _ ->]. rewrite length_app. cbn. lia.
  - repeat case_match; intros [= _ <-]; cbn; lia.
Qed.

(** ** The run is an attempt

    [got] are the bytes the scanner has read: what has been found in them and what the
    buffer holds are, together, what [scan_go] finds in them. *)
Definition found (got : list ascii) (a : attacher) : Prop :=
  match at_phase a with
  | AtScanning => ∀ more, (at_eof a = true → more = []) →
      scan_go MaxScanTokenSize [] (got ++ more) = after (at_lines a) (scan_go MaxScanTokenSize [] (at_buf a ++ more))
  | AtSending line => ∀ more, (at_eof a = true → more = []) →
      scan_go MaxScanTokenSize [] (got ++ more) = after (at_lines a ++ [line]) (scan_go MaxScanTokenSize [] (at_buf a ++ more))
  | AtReturned (Some err) => err = ErrCantReadContainerLogs ∧ fst (scan_go MaxScanTokenSize [] got) = at_lines a
  | AtReturned None => ∃ line lines, fst (scan_go MaxScanTokenSize [] got) = at_lines a ++ line :: lines
  end.

Record pipe_inv (sent : list ascii) (s : attacher * copier) (p : pipe) : Prop := {
  pi_got : ∃ got, sent = got ++ default [] (p_writing p) ∧ found got (fst s);
  pi_buf : Z.of_nat (length (at_buf (fst s))) <= MaxScanTokenSize;
  pi_eof : at_eof (fst s) = true → Z.of_nat (length (at_buf (fst s))) < MaxScanTokenSize;
  pi_idle : snd s ≠ CpWriting → p_writing p = None;
  pi_closed : p_closed p = true → p_writing p = None ∧ snd s = CpReturned }.

Lemma take_bytes_inv sent n l a c :
  pipe_inv sent (a, c) (MkPipe (Some l) false) → at_phase a = AtScanning → at_eof a = false →
  Z.of_nat (length (at_buf a)) < MaxScanTokenSize → can_take n l (at_buf a) = true →
  pipe_inv sent (take_bytes n l a, c) (written_bytes n l (MkPipe (Some l) false)).
Proof.
  intros [(got & Hgot & Hf) Hb He Hi _] Hph Heof Hlt Hc. unfold can_take in Hc. cbn [fst snd p_writing p_closed] in *.
  apply andb_prop in Hc as [Hc Hne]. apply andb_prop in Hc as [Hn Hlim]. apply Nat.leb_le in Hn. bool_hyps.
  assert (Hbuf : length (at_buf a ++ take n l) = (length (at_buf a) + n)%nat) by (rewrite length_app, length_take; lia).
  split; cbn [fst snd take_bytes written_bytes at_buf at_eof at_phase at_lines p_writing p_closed]; rewrite ?Hbuf.
  - exists (got ++ take n l). split.
    + rewrite Hgot, <- app_assoc. f_equal. destruct (Nat.ltb_spec n (length l)); cbn [default].
      * cbn. by rewrite take_drop.
      * cbn. rewrite app_nil_r. by rewrite take_ge by lia.
    + unfold found in *. rewrite Hph in Hf. cbn. intros more _. rewrite <- !app_assoc.
      apply Hf. by rewrite Heof.
  - lia.
  - destruct (0 <? n)%nat eqn:Hz; cbn; [done|]. intros _. apply Nat.ltb_ge in Hz. lia.
  - intros Hw. by specialize (Hi Hw).
  - done.
Qed.

Lemma attach_inv sent e a c p a' p' :
  pipe_inv sent (a, c) p → attach_next e a p = Some (a', p') → pipe_inv sent (a', c) p'.
Proof.
  intros Hinv Hn. pose proof Hinv as [(got & Hgot & Hf) Hb He Hi Hcl]. cbn [fst snd] in *. unfold attach_next in Hn.
  destruct (at_phase a) as [|line|err] eqn:Hph; [|destruct e; try done|done].
  - pose proof (scan_token_go MaxScanTokenSize (at_buf a) (at_eof a) Hb ltac:(done) He) as Hs.
    destruct e; try done; destruct (scan_token MaxScanTokenSize (at_buf a) (at_eof a)) as [line rest| | |] eqn:Ht; try done.
    + destruct Hs as [Heof Hlt]. destruct (p_writing p) as [l|] eqn:Hw; [|done]. cbn in Hn.
      destruct (can_take n l (at_buf a)) eqn:Hc; [|done]. injection Hn as <- <-.
      assert (p = MkPipe (Some l) false) as ->.
      { destruct p as [w [|]]; cbn in *; [|congruence]. by destruct (Hcl eq_refl). }
      by apply take_bytes_inv.
    + destruct Hs as [Heof Hlt]. destruct (p_closed p) eqn:Hpc; [|done]. injection Hn as <- <-.
      split; cbn; try done; [|by intros _; apply Hcl]. exists got. split; [done|]. unfold found in *. rewrite Hph in Hf. cbn. intros more Hm.
      apply Hf. by rewrite Heof.
    + injection Hn as <- <-. pose proof (scan_token_rest _ _ _ _ _ Ht) as Hr.
      split; cbn; try done; [|lia|intros ?%He; lia]. exists got. split; [done|]. unfold found in *. rewrite Hph in Hf. cbn.
      intros more Hm. by rewrite Hf, Hs, after_app by done.
    + injection Hn as <- <-. split; cbn; try done. exists got. split; [done|]. unfold found in *. rewrite Hph in Hf. cbn.
      split; [done|]. specialize (Hf [] ltac:(done)). rewrite Hs, app_nil_r in Hf. rewrite Hf. apply app_nil_r.
    + injection Hn as <- <-. split; cbn; try done. exists got. split; [done|]. unfold found in *. rewrite Hph in Hf. cbn.
      split; [done|]. specialize (Hf [] ltac:(done)). rewrite !app_nil_r, Hs in Hf. rewrite Hf. apply app_nil_r.
  - injection Hn as <- <-. split; cbn; try done. exists got. split; [done|]. unfold found in *. by rewrite Hph in Hf.
  - injection Hn as <- <-. split; cbn; try done. exists got. split; [done|]. unfold found in *. rewrite Hph in Hf. cbn.
    specialize (Hf [] ltac:(done)). rewrite app_nil_r in Hf. rewrite Hf. cbn.
    exists line, (fst (scan_go MaxScanTokenSize [] (at_buf a ++ []))). by rewrite <- app_assoc.
Qed.

Lemma copier_inv sent e a c p c' p' :
  pipe_inv sent (a, c) p → copier_next e c p = Some (c', p') → pipe_inv (sent ++ payload (inr e)) (a, c') p'.
Proof.
  intros [(got & Hgot & Hf) Hb He Hi Hcl] Hn. cbn [fst snd] in *.
  destruct e as [l| |], c; try done; cbn in Hn.
  - injection Hn as <- <-. rewrite (Hi ltac:(done)) in Hgot. split; cbn; try done.
    + exists got. split; [|done]. rewrite Hgot. cbn. by rewrite app_nil_r.
    + intros Hc. by destruct (Hcl Hc).
  - destruct (p_writing p) eqn:Hw; [done|]. injection Hn as <- <-. rewrite app_nil_r. split; cbn; try done.
    + exists got. by rewrite Hw.
    + intros Hc. by destruct (Hcl Hc).
  - injection Hn as <- <-. rewrite app_nil_r. split; cbn; try done.
    + exists got. split; [|done]. exact Hgot.
    + intros _. by apply Hi.
    + intros _. split; [by apply Hi|done].
Qed.

Lemma docker_run_inv es sent s p s' p' :
  pipe_inv sent s p → g_run es s p = Some (s', p') → pipe_inv (sent ++ stream es) s' p'.
Proof.
  revert sent s p. induction es as [|e es IH]; intros sent [a c] p Hinv; cbn [g_run].
  { intros [= <- <-]. unfold stream. cbn. by rewrite app_nil_r. }
  unfold stream. cbn [map concat]. rewrite app_assoc. destruct e as [e|e]; cbn [g_next pair_goroutine fst snd].
  - destruct (g_next e a p) as [[a1 p1]|] eqn:Hn; [|done]. cbn. apply IH. rewrite app_nil_r. by eapply attach_inv.
  - destruct (g_next e c p) as [[c1 p1]|] eqn:Hn; [|done]. cbn. apply IH. by eapply copier_inv.
Qed.

Lemma docker_start_inv : pipe_inv [] docker_start docker_pipe.
Proof.
  split; cbn; try done. exists []. split; [done|]. intros more _. unfold after. cbn. by destruct (scan_go _ _ _).
Qed.

(** C34: Every interleaving of the scanner and of the goroutine that fills the pipe is one
    attempt: what a run that has returned sent, and its error, are those of
    [attachToDocker] on a beginning of the stream that docker sent, on all of it when
    the stream has ended. *)
Theorem docker_pipe_refines es a c p err :
  g_run es docker_start docker_pipe = Some ((a, c), p) → at_phase a = AtReturned err →
  ∃ r, dr_client r = true ∧ dr_ContainerLogs r = true ∧
    dr_output r `prefix_of` stream es ∧ (p_closed p = true → dr_output r = stream es) ∧
    attachToDocker r = (at_lines a, err).
Proof.
  intros Hr Hph. destruct (docker_run_inv _ [] _ _ _ _ docker_start_inv Hr) as [(got & Hgot & Hf) _ _ _ Hcl].
  cbn [app fst snd] in *. unfold found in Hf. rewrite Hph in Hf.
  exists (MkDockerRun true true got (match err with None => Some (length (at_lines a)) | Some _ => None end)).
  cbn [dr_client dr_ContainerLogs dr_output]. split_and!; [done|done|by eexists| |].
  - intros Hc. destruct (Hcl Hc) as [Hw _]. by rewrite Hw, app_nil_r in Hgot.
  - unfold attachToDocker. cbn [dr_client dr_ContainerLogs dr_output dr_cancelled_at negb].
    destruct (scan_go MaxScanTokenSize [] got) as [lines ok] eqn:Hs. cbn [fst] in Hf. destruct err as [err|].
    + by destruct Hf as [-> ->].
    + destruct Hf as (line & rest & ->). unfold send_lines. rewrite (proj2 (Nat.ltb_lt _ _)) by (rewrite length_app; cbn; lia).
      by rewrite take_app_length.
Qed.

(** ** What remains of the copying goroutine *)
Definition no_event (s : attacher * copier) (p : pipe) : Prop := ∀ e : docker_event, g_next e s p = None.

(** Nobody reads the pipe any more and nobody closes it. *)
Lemma blocked_in_write a p err l :
  at_phase a = AtReturned err → p_writing p = Some l → no_event (a, CpWriting) p.
Proof.
  intros Hph Hw [e|e]; cbn [g_next pair_goroutine fst snd attach_goroutine copier_goroutine].
  - unfold attach_next. by rewrite Hph.
  - destruct e; cbn; [done| |done]. by rewrite Hw.
Qed.

(** The text of whole lines, each short enough for the scanner. *)
Definition terminated (lines : list (list ascii)) : list ascii := concat (map (λ x, x ++ [newline]) lines).
Definition short_lines : list (list ascii) → Prop :=
  Forall (λ x, newline ∉ x ∧ Z.of_nat (length x) < MaxScanTokenSize).
Definition line_of (x : list ascii) : string := of_bytes (drop_cr x).

(** A text that stops at the end of a line. *)
Definition whole_lines (l : list ascii) : Prop := l = [] ∨ last l = Some newline.

Lemma terminated_cons x lines : terminated (x :: lines) = x ++ newline :: terminated lines.
Proof. unfold terminated. cbn [map concat]. by rewrite <- app_assoc. Qed.
Lemma terminated_snoc lines x more : terminated lines ++ x ++ newline :: more = terminated (lines ++ [x]) ++ more.
Proof. unfold terminated. rewrite map_app, concat_app. cbn. rewrite app_nil_r, <- !app_assoc. done. Qed.

Lemma scan_terminated lines more : short_lines lines →
  scan_go MaxScanTokenSize [] (terminated lines ++ more) = after (map line_of lines) (scan_go MaxScanTokenSize [] more).
Proof.
  induction 1 as [|x lines [Hx Hl] _ IH]; [cbn; unfold after; by destruct (scan_go _ _ _)|].
  rewrite terminated_cons, <- !app_assoc, scan_go_plain by (done || (cbn [app]; lia)). cbn [app scan_go].
  rewrite (proj2 (Z.leb_gt _ _)) by lia. rewrite Ascii.eqb_refl, IH. done.
Qed.

(** Where the first line of a text ends is determined. *)
Lemma first_line x y more more' :
  newline ∉ x → newline ∉ y → x ++ newline :: more = y ++ newline :: more' → x = y ∧ more = more'.
Proof.
  revert y. induction x as [|c x IH]; intros [|d y]; cbn; rewrite ?not_elem_of_cons; intros Hx Hy Heq; simplify_eq; try tauto.
  destruct (IH y) as [-> ->]; tauto.
Qed.

Lemma whole_lines_first pre : whole_lines pre → pre = [] ∨ ∃ y pre', pre = y ++ newline :: pre' ∧ newline ∉ y ∧ whole_lines pre'.
Proof.
  intros [->|Hl]; [by left|right]. destruct (split_newline pre) as [[y pre']|] eqn:Hs.
  - apply split_newline_Some in Hs as [-> Hn]. exists y, pre'. split; [done|]. split; [done|].
    destruct pre' as [|c pre']; [by left|right]. rewrite last_app in Hl. change (last (newline :: c :: pre')) with (last (c :: pre')) in Hl.
    destruct (last (c :: pre')) eqn:Hlast; [done|]. by apply last_None in Hlast.
  - apply split_newline_plain in Hs. destruct Hs. apply last_Some_elem_of, Hl.
Qed.

(** Short lines at the beginning of a text with a line that is too long come before it. *)
Lemma terminated_before lines : short_lines lines → ∀ pre l rest more,
  whole_lines pre → newline ∉ l → MaxScanTokenSize <= Z.of_nat (length l) →
  terminated lines ++ more = pre ++ l ++ rest →
  ∃ pre', pre = terminated lines ++ pre' ∧ more = pre' ++ l ++ rest ∧ whole_lines pre'.
Proof.
  induction 1 as [|x lines [Hx Hlen] _ IH]; intros pre l rest more Hpre Hl Hlong Heq; [by exists pre|].
  rewrite terminated_cons, <- app_assoc in Heq. cbn [app] in Heq.
  destruct (whole_lines_first pre Hpre) as [->|(y & pre1 & -> & Hy & Hpre1)].
  - destruct Hl. cbn in Heq. assert (Hi : (l ++ rest) !! length x = Some newline) by (rewrite <- Heq; by apply list_lookup_middle).
    rewrite lookup_app_l in Hi by lia. by eapply list_elem_of_lookup_2.
  - rewrite <- app_assoc in Heq. cbn in Heq. apply first_line in Heq as [-> Heq]; [|done|done].
    destruct (IH pre1 l rest more Hpre1 Hl Hlong Heq) as (pre' & -> & -> & Hpre'). exists pre'.
    split; [|done]. by rewrite terminated_cons, <- app_assoc.
Qed.

(** The text the scanner has taken are the lines it found and what its buffer holds. *)
Definition tokens_taken (lines : list (list ascii)) (a : attacher) : Prop :=
  match at_phase a with
  | AtScanning => at_lines a = map line_of lines
  | AtSending line => at_lines a ++ [line] = map line_of lines
  | AtReturned None => at_lines a `prefix_of` map line_of lines
  | AtReturned (Some err) => err = ErrCantReadContainerLogs ∧ at_lines a = map line_of lines ∧
      newline ∉ at_buf a ∧ MaxScanTokenSize <= Z.of_nat (length (at_buf a))
  end.

Record gathering (sent : list ascii) (s : attacher * copier) (p : pipe) : Prop := {
  ga_lines : ∃ lines, short_lines lines ∧ sent = terminated lines ++ at_buf (fst s) ++ default [] (p_writing p) ∧
    tokens_taken lines (fst s);
  ga_eof : at_eof (fst s) = false ∧ at_empties (fst s) = O;
  ga_write : p_writing p ≠ Some [] }.

(** Or the scanner came to the end of all there was, in a line that is not too long. *)
Definition came_to_end (sent : list ascii) (p : pipe) : Prop :=
  p_closed p = true ∧ ∃ lines rest, short_lines lines ∧ sent = terminated lines ++ rest ∧
    Z.of_nat (length rest) < MaxScanTokenSize.

Definition line_inv (sent : list ascii) (s : attacher * copier) (p : pipe) : Prop :=
  pipe_inv sent s p ∧ (gathering sent s p ∨ came_to_end sent p).

Lemma attach_closed e a p a' p' : attach_next e a p = Some (a', p') → p_closed p' = p_closed p.
Proof.
  unfold attach_next. repeat case_match; intros Hn; try done; try (by injection Hn as <- <-).
  destruct (p_writing p); [|done]. cbn in Hn. case_match; [|done]. by injection Hn as <- <-.
Qed.

Lemma read_gathering sent n l a c :
  gathering sent (a, c) (MkPipe (Some l) false) → at_phase a = AtScanning → can_take n l (at_buf a) = true →
  gathering sent (take_bytes n l a, c) (written_bytes n l (MkPipe (Some l) false)).
Proof.
  intros [(lines & Hs & Heq & Ht) [He Hz] Hw] Hph Hc. unfold can_take in Hc. cbn [fst snd p_writing default id] in *.
  apply andb_prop in Hc as [Hc Hne]. apply andb_prop in Hc as [Hn _]. apply Nat.leb_le in Hn.
  assert (Hpos : (0 <? n)%nat = true) by (apply orb_prop in Hne as [?|Hd]; [done|bool_hyps; by destruct Hw; f_equal]).
  split; cbn [fst snd take_bytes written_bytes at_buf at_eof at_empties p_writing]; rewrite ?Hpos; [|done|].
  - exists lines. split; [done|]. split.
    + rewrite Heq, <- !app_assoc. do 2 f_equal. destruct (Nat.ltb_spec n (length l)); cbn [default id].
      * by rewrite take_drop.
      * by rewrite app_nil_r, take_ge by lia.
    + unfold tokens_taken in *. by rewrite Hph in Ht.
  - destruct (Nat.ltb_spec n (length l)); [|done]. intros [= Hd]. apply (f_equal length) in Hd. rewrite length_drop in Hd. cbn in Hd. lia.
Qed.

Lemma token_taken buf line rest : Z.of_nat (length buf) <= MaxScanTokenSize → scan_token MaxScanTokenSize buf false = Token line rest →
  ∃ x, newline ∉ x ∧ Z.of_nat (length x) < MaxScanTokenSize ∧ buf = x ++ newline :: rest ∧ line = line_of x.
Proof.
  unfold scan_token. intros Hlen. destruct (split_newline buf) as [[x r]|] eqn:Hs.
  - apply split_newline_Some in Hs as [-> Hn]. intros [= <- <-]. exists x. rewrite length_app in Hlen. cbn in Hlen. split_and!; [done|lia|done|done].
  - by case_match.
Qed.

Lemma attach_gathering sent e a c p a' p' :
  pipe_inv sent (a, c) p → gathering sent (a, c) p → attach_next e a p = Some (a', p') →
  gathering sent (a', c) p' ∨ came_to_end sent p'.
Proof.
  intros [_ Hb _ _ Hcl] Hg Hn. pose proof Hg as [(lines & Hs & Heq & Ht) [He Hz] Hw]. cbn [fst snd] in *. unfold attach_next in Hn.
  unfold tokens_taken in Ht. destruct (at_phase a) as [|line|err] eqn:Hph; [|destruct e; try done|done].
  - rewrite He in Hn. destruct e; try done; destruct (scan_token MaxScanTokenSize (at_buf a) false) as [line rest| | |] eqn:Htok; try done.
    + left. destruct (p_writing p) as [l|] eqn:Hpw; [|done]. cbn in Hn. destruct (can_take n l (at_buf a)) eqn:Hc; [|done].
      injection Hn as <- <-. destruct p as [w []]; cbn in Hpw, Hcl; subst w; [by destruct (Hcl eq_refl)|]. by apply read_gathering.
    + right. destruct (p_closed p) eqn:Hpc; [|done]. injection Hn as <- <-. split; [done|].
      exists lines, (at_buf a). destruct (Hcl eq_refl) as [Hpw _]. rewrite Hpw, app_nil_r in Heq. split_and!; [done|done|].
      unfold scan_token in Htok. destruct (split_newline (at_buf a)) as [[]|]; [done|]. by destruct (Z.leb_spec MaxScanTokenSize (Z.of_nat (length (at_buf a)))).
    + left. injection Hn as <- <-. destruct (token_taken _ _ _ Hb Htok) as (x & Hx & Hxl & Hbuf & ->).
      split; [|done|done]. exists (lines ++ [x]). cbn [fst at_buf at_phase at_lines tokens_taken]. split_and!.
      * apply Forall_app_2; [done|]. by apply Forall_singleton.
      * by rewrite Heq, Hbuf, <- terminated_snoc, <- !app_assoc.
      * unfold tokens_taken. cbn. by rewrite map_app, Ht.
    + left. injection Hn as <- <-. unfold scan_token in Htok. destruct (split_newline (at_buf a)) as [[]|] eqn:Hsp; [done|].
      destruct (Z.leb_spec MaxScanTokenSize (Z.of_nat (length (at_buf a)))); [|done].
      split; [|done|done]. exists lines. split; [done|]. split; [done|]. unfold tokens_taken. cbn.
      split_and!; [done|done|by apply split_newline_plain|done].
    + unfold scan_token in Htok. by repeat case_match.
  - left. injection Hn as <- <-. split; [|done|done]. exists lines. by unfold tokens_taken.
  - left. injection Hn as <- <-. split; [|done|done]. exists lines. split; [done|]. split; [done|].
    unfold tokens_taken. cbn. rewrite <- Ht. by eexists.
Qed.

Lemma copier_gathering sent e a c p c' p' :
  pipe_inv sent (a, c) p → gathering sent (a, c) p → (∀ l, e = CpFrame l → l ≠ []) →
  copier_next e c p = Some (c', p') → gathering (sent ++ payload (inr e)) (a, c') p'.
Proof.
  intros [_ _ _ Hi _] [(lines & Hs & Heq & Ht) He Hw] Hne Hn. cbn [fst snd] in *.
  destruct e as [l| |], c; try done; cbn in Hn.
  - injection Hn as <- <-. specialize (Hi ltac:(done)). rewrite Hi, app_nil_r in Heq.
    split; [|done|]; cbn.
    + exists lines. split; [done|]. split; [|done]. by rewrite Heq, <- app_assoc.
    + intros [= ->]. by apply (Hne []).
  - destruct (p_writing p) eqn:Hpw; [done|]. injection Hn as <- <-. rewrite app_nil_r.
    split; [exists lines; by rewrite Hpw|done|by rewrite Hpw].
  - injection Hn as <- <-. rewrite app_nil_r. split; [by exists lines|done|done].
Qed.

(** No frame is empty. *)
Definition full_frame (e : docker_event) : bool := match e with inr (CpFrame []) => false | _ => true end.
Definition frames_full (es : list docker_event) : Prop := forallb full_frame es = true.

Lemma line_inv_run es sent s p s' p' :
  frames_full es → line_inv sent s p → g_run es s p = Some (s', p') → line_inv (sent ++ stream es) s' p'.
Proof.
  revert sent s p. induction es as [|e es IH]; intros sent [a c] p Hfull Hinv; cbn [g_run].
  { intros [= <- <-]. unfold stream. cbn. by rewrite app_nil_r. }
  unfold frames_full in Hfull. cbn [forallb] in Hfull. apply andb_prop in Hfull as [He Hfull'].
  unfold stream. cbn [map concat]. rewrite app_assoc. destruct Hinv as [Hp Hl]. destruct e as [e|e]; cbn [g_next pair_goroutine fst snd].
  - destruct (g_next e a p) as [[a1 p1]|] eqn:Hn; [|done]. cbn. apply (IH _ (a1, c) p1 Hfull'). rewrite app_nil_r. split; [by eapply attach_inv|].
    destruct Hl as [Hg|[Hc Hend]]; [by eapply attach_gathering|right]. split; [by rewrite (attach_closed _ _ _ _ _ Hn)|done].
  - destruct (g_next e c p) as [[c1 p1]|] eqn:Hn; [|done]. cbn. apply (IH _ (a, c1) p1 Hfull'). split; [by eapply copier_inv|].
    destruct Hl as [Hg|[Hc Hend]].
    + left. eapply copier_gathering; [done|done| |done]. by intros [] ->.
    + destruct Hp as [_ _ _ _ Hcl]. destruct (Hcl Hc) as [_ Hret]. cbn in Hret, Hn. subst c. by destruct e.
Qed.

Lemma docker_start_lines : line_inv [] docker_start docker_pipe.
Proof. split; [apply docker_start_inv|left]. split; [|done|done]. exists []. split; [apply Forall_nil_2|by split]. Qed.

(** What is left to do for [attachToDocker] while nothing more is written. *)
Definition attach_left (a : attacher) (p : pipe) : nat :=
  (3 * length (default [] (p_writing p)) + 2 * length (at_buf a) +
   match at_phase a with AtScanning => 1 | AtSending _ => 2 | AtReturned _ => 0 end)%nat.

Section LongLine.
Variables (pre l rest : list ascii).
Hypothesis pre_lines : whole_lines pre.
Hypothesis no_newline : newline ∉ l.
Hypothesis too_long : MaxScanTokenSize < Z.of_nat (length l).

(** All of the line was sent: it is still being written. *)
Lemma long_line_writing s p : line_inv (pre ++ l ++ rest) s p →
  gathering (pre ++ l ++ rest) s p ∧ snd s = CpWriting ∧ p_closed p = false ∧ ∃ b w, p_writing p = Some (b :: w).
Proof.
  intros [[_ Hb _ Hi Hcl] Hl].
  assert (Hg : gathering (pre ++ l ++ rest) s p).
  { destruct Hl as [?|(_ & lines & r & Hs & Heq & Hr)]; [done|]. symmetry in Heq.
    destruct (terminated_before lines Hs pre l rest r) as (pre' & _ & -> & _); [done|done|lia|done|].
    rewrite !length_app in Hr. lia. }
  split; [done|]. destruct Hg as [(lines & Hs & Heq & _) _ Hw]. symmetry in Heq.
  destruct (terminated_before lines Hs pre l rest _ pre_lines no_newline ltac:(lia) Heq) as (pre' & _ & Hr & _).
  destruct (p_writing p) as [w|] eqn:Hpw.
  - split; [|split].
    + destruct (snd s); [|done|]; by specialize (Hi ltac:(done)).
    + destruct (p_closed p); [|done]. by destruct (Hcl eq_refl).
    + destruct w as [|b w]; [done|]. by exists b, w.
  - cbn in Hr. rewrite app_nil_r in Hr. apply (f_equal length) in Hr. rewrite !length_app in Hr. lia.
Qed.

Lemma long_line_step e s p s' p' : line_inv (pre ++ l ++ rest) s p → g_next (e : docker_event) s p = Some (s', p') →
  line_inv (pre ++ l ++ rest) s' p' ∧ (attach_left (fst s') p' < attach_left (fst s) p)%nat.
Proof.
  intros Hinv Hn. destruct (long_line_writing s p Hinv) as (Hg & Hc & Hcl & b & w & Hw). destruct s as [a c]. cbn [fst snd] in *. subst c.
  destruct e as [e|e]; cbn [g_next pair_goroutine fst snd] in Hn.
  2: { destruct e; cbn in Hn; [done|by rewrite Hw in Hn|done]. }
  destruct (g_next e a p) as [[a1 p1]|] eqn:Hn1; [|done]. cbn in Hn, Hn1. injection Hn as <- <-. split.
  - destruct Hinv as [Hp _]. split; [by eapply attach_inv|by eapply attach_gathering].
  - destruct Hg as [_ [He _] _]. destruct Hinv as [[_ Hb _ _ _] _]. cbn [fst] in *. unfold attach_next in Hn1. unfold attach_left.
    rewrite He, Hw, Hcl in Hn1. rewrite Hw. destruct (at_phase a) eqn:Hph; [|destruct e; try done|done].
    + destruct e; try done; destruct (scan_token MaxScanTokenSize (at_buf a) false) as [line r| | |] eqn:Htok; try done.
      * cbn [mbind option_bind] in Hn1. destruct (can_take n (b :: w) (at_buf a)) eqn:Hcan; [|done]. injection Hn1 as <- <-.
        unfold can_take in Hcan. apply andb_prop in Hcan as [Hcan Hne]. apply andb_prop in Hcan as [Hle _].
        apply Nat.leb_le in Hle. rewrite orb_false_r in Hne. apply Nat.ltb_lt in Hne.
        cbn [take_bytes at_buf at_phase fst written_bytes p_writing default id]. rewrite length_app, length_take.
        destruct (Nat.ltb_spec n (length (b :: w))); cbn [default id]; [rewrite length_drop|]; cbn [length] in *; lia.
      * injection Hn1 as <- <-. destruct (token_taken _ _ _ Hb Htok) as (x & _ & _ & -> & _). cbn [at_buf at_phase fst]. rewrite Hw, length_app. cbn [length default id]. lia.
      * injection Hn1 as <- <-. cbn [at_buf at_phase at_set_phase fst]. rewrite Hw. lia.
      * injection Hn1 as <- <-. cbn [at_buf at_phase at_set_phase fst]. rewrite Hw. lia.
    + injection Hn1 as <- <-. cbn [at_buf at_phase fst]. rewrite Hw. lia.
    + injection Hn1 as <- <-. cbn [at_buf at_phase at_set_phase fst]. rewrite Hw. lia.
Qed.

Lemma long_line_ends es s p s' p' : line_inv (pre ++ l ++ rest) s p → g_run (es : list docker_event) s p = Some (s', p') →
  (length es <= attach_left (fst s) p)%nat.
Proof.
  revert s p. induction es as [|e es IH]; intros s p Hinv; cbn [g_run length]; [lia|].
  destruct (g_next e s p) as [[s1 p1]|] eqn:Hn; [|done]. cbn [mbind option_bind].
  destruct (long_line_step e s p s1 p1 Hinv Hn) as [Hinv1 Hlt]. intros Hr. specialize (IH s1 p1 Hinv1 Hr). lia.
Qed.

Lemma long_line_proceeds a c p : line_inv (pre ++ l ++ rest) (a, c) p → g_running a = true →
  ∃ e, g_internal e = true ∧ is_Some (attach_next e a p).
Proof.
  intros Hinv Hrun. destruct (long_line_writing _ p Hinv) as (Hg & _ & _ & b & w & Hw).
  destruct Hg as [_ [He _] _]. cbn [fst] in *. cbn in Hrun. unfold attach_next. destruct (at_phase a) as [|line|err] eqn:Hph; [| |done].
  2: { exists AtSend. by eauto. }
  rewrite He. destruct (scan_token MaxScanTokenSize (at_buf a) false) as [line r| | |] eqn:Htok.
  - exists AtToken. by eauto.
  - exists (AtRead 1). split; [done|]. rewrite Hw. cbn [mbind option_bind].
    unfold scan_token in Htok. destruct (split_newline (at_buf a)) as [[]|]; [done|].
    destruct (Z.leb_spec MaxScanTokenSize (Z.of_nat (length (at_buf a)))); [done|].
    unfold can_take. rewrite (proj2 (Z.leb_le _ _)) by lia. by eexists.
  - exists AtStops. by eauto.
  - exists AtStops. by eauto.
Qed.

(** The lines sent are those before the line, all of them when the scanner has given up. *)
Lemma long_line_sent a c p : line_inv (pre ++ l ++ rest) (a, c) p →
  at_lines a `prefix_of` fst (scan_go MaxScanTokenSize [] pre) ∧
  ∀ err, at_phase a = AtReturned (Some err) →
    err = ErrCantReadContainerLogs ∧ at_lines a = fst (scan_go MaxScanTokenSize [] pre).
Proof.
  intros Hinv. destruct (long_line_writing _ p Hinv) as (Hg & _ & _ & b & w & Hw). destruct Hinv as [[_ Hb _ _ _] _].
  destruct Hg as [(lines & Hs & Heq & Ht) _ _]. cbn [fst] in *. rewrite Hw in Heq. cbn [default id] in Heq. symmetry in Heq.
  destruct (terminated_before lines Hs pre l rest _ pre_lines no_newline ltac:(lia) Heq) as (pre' & Hpre & Hr & Hpre').
  rewrite Hpre, scan_terminated by done. unfold tokens_taken in Ht. cbn [after fst]. split.
  - apply (prefix_app_r _ (map line_of lines)). destruct (at_phase a) as [|line|[err|]].
    + by rewrite Ht.
    + rewrite <- Ht. by eexists.
    + by destruct Ht as (_ & -> & _).
    + done.
  - intros err Hph. rewrite Hph in Ht. destruct Ht as (-> & -> & Hn & Hlong). split; [done|].
    destruct (whole_lines_first pre' Hpre') as [->|(y & z & -> & Hy & _)]; [by rewrite app_nil_r|].
    assert (Hpfx : ∃ z', y ++ newline :: z = at_buf a ++ z').
    { destruct (decide (length (at_buf a) <= length y)%nat) as [Hle|Hgt].
      - exists (drop (length (at_buf a)) y ++ newline :: z). apply (f_equal (take (length (at_buf a)))) in Hr.
        rewrite take_app_length, <- app_assoc, take_app_le in Hr by done. pose proof (take_drop (length (at_buf a)) y) as Htd. rewrite <- Hr in Htd.
        rewrite <- Htd at 1. by rewrite <- app_assoc.
      - destruct Hn. rewrite <- app_assoc in Hr. cbn [app] in Hr. apply (f_equal (λ x, x !! length y)) in Hr.
        rewrite lookup_app_l, list_lookup_middle in Hr by (done || lia).
        by eapply list_elem_of_lookup_2. }
    destruct Hpfx as [z' ->]. pose proof (scan_token_go MaxScanTokenSize (at_buf a) false Hb ltac:(done) ltac:(done)) as Hscan.
    unfold scan_token in Hscan. rewrite split_newline_None in Hscan by done. rewrite (proj2 (Z.leb_le _ _) Hlong) in Hscan.
    rewrite Hscan. cbn. by rewrite app_nil_r.
Qed.
End LongLine.

(** C35: A line of more than 64 KiB ends the attempt and leaves its goroutine behind,
    however the line is cut into frames and whatever was in the pipe before.  In every run
    from the start of the two goroutines in which docker has sent such a line [l] - after
    whole lines [pre], with or without more text behind, in frames that are not empty - the
    lines sent are the first of those of [pre], and the copying goroutine is in a write.
    As long as [attachToDocker] has not returned it can go on, and whatever the scheduling
    only so many steps follow as its buffer and that write have bytes for.  When it has
    returned no step is possible any more: the goroutine stays in that write for ever; and
    unless the context was done it returned [ErrCantReadContainerLogs], with all the
    lines of [pre] sent. *)
Theorem long_line_blocks_copier pre l rest es a c p :
  whole_lines pre → newline ∉ l → MaxScanTokenSize < Z.of_nat (length l) → frames_full es →
  g_run (es : list docker_event) docker_start docker_pipe = Some ((a, c), p) → stream es = pre ++ l ++ rest →
  c = CpWriting ∧ at_lines a `prefix_of` fst (scan_go MaxScanTokenSize [] pre) ∧
  (∀ es' s' p', g_run (es' : list docker_event) (a, c) p = Some (s', p') →
     (length es' <= 3 * length (default [] (p_writing p)) + 2 * length (at_buf a) + 2)%nat) ∧
  match at_phase a with
  | AtReturned err => no_event (a, c) p ∧
      (err ≠ None → err = Some ErrCantReadContainerLogs ∧ at_lines a = fst (scan_go MaxScanTokenSize [] pre))
  | _ => ∃ e, g_internal e = true ∧ is_Some (attach_next e a p)
  end.
Proof.
  intros Hpre Hn Hlong Hfull Hr Hst. pose proof (line_inv_run es [] _ _ _ _ Hfull docker_start_lines Hr) as Hinv.
  cbn [app] in Hinv. rewrite Hst in Hinv. destruct (long_line_writing pre l rest Hpre Hn Hlong _ p Hinv) as (_ & Hc & _ & b & w & Hw).
  cbn in Hc. subst c. destruct (long_line_sent pre l rest Hpre Hn Hlong a _ p Hinv) as [Hpfx Hall]. split_and!; [done|done| |].
  - intros es' s' p' Hr'. pose proof (long_line_ends pre l rest Hpre Hn Hlong es' _ _ _ _ Hinv Hr') as Hle.
    unfold attach_left in Hle. cbn [fst] in Hle. destruct (at_phase a); lia.
  - pose proof (long_line_proceeds pre l rest Hpre Hn Hlong a _ p Hinv) as Hgo. cbn in Hgo.
    destruct (at_phase a) as [|line|err] eqn:Hph; [by apply Hgo|by apply Hgo|]. split; [by eapply blocked_in_write|].
    intros Herr. destruct err as [err|]; [|done]. by destruct (Hall err eq_refl) as [-> ->].
Qed.

(** ** Two runs: a line and what precedes the end of the stream; a line that is too long *)
Definition two_frames : list docker_event :=
  [inr (CpFrame (bytes "from 10.")); inl (AtRead 3); inl (AtRead 5); inr CpWritten; inr (CpFrame (bytes "0.0.7" ++ [newline; byte_of 120]));
   inl (AtRead 7); inl AtToken; inr CpWritten; inr CpStreamEnds; inl AtSend; inl AtReadEnd; inl AtToken; inl AtSend; inl AtStops].

Lemma docker_pipe_refines_witness : ∃ r,
  dr_output r = bytes "from 10.0.0.7" ++ [newline; byte_of 120] ∧
  attachToDocker r = (["from 10.0.0.7"; "x"], Some ErrCantReadContainerLogs).
Proof.
  destruct (docker_pipe_refines two_frames (MkAttacher [] 0 true (AtReturned (Some ErrCantReadContainerLogs)) ["from 10.0.0.7"; "x"])
              CpReturned (MkPipe None true) (Some ErrCantReadContainerLogs)) as (r & _ & _ & _ & Hall & Ha).
  - vm_compute. reflexivity.
  - reflexivity.
  - exists r. split; [|exact Ha]. rewrite Hall by reflexivity. vm_compute. reflexivity.
Defined.

(** A line, then one of 65600 bytes in two frames, and what the scanner does with them. *)
Definition long_line : list ascii := replicate (Z.to_nat 65600) (byte_of 120).
Definition long_run : list docker_event :=
  [inr (CpFrame (bytes "up" ++ newline :: take (Z.to_nat 40000) long_line)); inl (AtRead (Z.to_nat 40003)); inl AtToken; inr CpWritten;
   inr (CpFrame (drop (Z.to_nat 40000) long_line)); inl AtSend; inl (AtRead (Z.to_nat 25536)); inl AtStops].
Definition gave_up (r : option ((attacher * copier) * pipe)) : bool :=
  match r with Some ((a, _), _) => negb (g_running a) | None => false end.

Lemma long_line_blocks_copier_witness : ∃ a p,
  g_run long_run docker_start docker_pipe = Some ((a, CpWriting), p) ∧
  at_lines a = ["up"] ∧ no_event (a, CpWriting) p.
Proof.
  assert (Hg : gave_up (g_run long_run docker_start docker_pipe) = true) by (vm_compute; reflexivity).
  destruct (g_run long_run _ _) as [[[a c] p]|] eqn:Hr; [|discriminate Hg].
  destruct (long_line_blocks_copier (bytes "up" ++ [newline]) long_line [] long_run a c p) as (-> & _ & _ & Hend).
  - right. reflexivity.
  - intros Hin%elem_of_replicate. destruct Hin as [Hx _]. discriminate Hx.
  - unfold long_line. rewrite length_replicate. reflexivity.
  - vm_compute. reflexivity.
  - exact Hr.
  - unfold stream, long_run. cbn [map payload concat app bytes]. by rewrite !app_nil_r, take_drop.
  - exists a, p. split; [reflexivity|]. unfold gave_up in Hg. cbn in Hg. destruct (at_phase a) as [|line|[err|]] eqn:Hph; [discriminate Hg..| |].
    + destruct Hend as [Hno Hall]. split; [|exact Hno]. destruct Hall as [_ ->]; [discriminate|]. vm_compute. reflexivity.
    + split; [|apply Hend]. assert (Hp : match g_run long_run docker_start docker_pipe with Some ((a, _), _) => at_phase a ≠ AtReturned None | None => True end)
        by (vm_compute; discriminate). rewrite Hr, Hph in Hp. by destruct Hp.
Defined.
