(* ===== verification/HubEvents.v ===== *)
(** * pkg/monitor/monitor.go: the events the hub raises

    What a monitor found becomes an event: the message of the network monitor, from which
    the address is taken back with [ipPattern]; the limits of the resource monitor; the
    alerts of the user command controller. *)

From S2P Require Import Prelude.
From S2P Require Import GoStrings.
From S2P Require Import GoNet.
From S2P Require Import GoFloat.
From S2P Require Import Config.
From S2P Require Import Protocol.
From S2P Require Import NetworkMonitor.
From S2P Require Import Monitor.
From S2P Require Import CommandController.

(** ** [ipPattern.FindString]: the leftmost match of three groups of one to three digits
    each followed by a dot, and a last group

    A dot is no digit, so a group is followed by one only if it is the whole run of
    digits: there is nothing to backtrack to. *)
Fixpoint take_digits (n : nat) (l : list ascii) : list ascii * list ascii :=
  match n, l with
  | S n', c :: l' => if is_digit c then let '(d, r) := take_digits n' l' in (c :: d, r) else ([], l)
  | _, _ => ([], l)
  end.

Fixpoint match_groups (dots : nat) (l : list ascii) : option (list ascii) :=
  match take_digits 3 l with
  | ([], _) => None
  | (group, rest) =>
      match dots, rest with
      | O, _ => Some group
      | S dots', c :: rest' =>
          if Ascii.eqb c "." then app (group ++ [c]) <$> match_groups dots' rest' else None
      | S _, [] => None
      end
  end.

Fixpoint find_ip (l : list ascii) : option (list ascii) :=
  match match_groups 3 l with
  | Some m => Some m
  | None => match l with _ :: l' => find_ip l' | [] => None end
  end.
Definition FindString (message : string) : string :=
  of_bytes (default [] (find_ip (bytes message))).

(** ** The network monitor: the argument of [NewNetworkMonitor]'s callback *)
Definition nm_address (m : nm_message) : string :=
  match m with HitBlacklisted ip _ => ip | Scanned ip _ => ip end.
Definition nm_text (cfg : EbpfNetworkAntireconConfig) (m : nm_message) : string :=
  match m with
  | HitBlacklisted ip port => "network_antirecon -> ip " +:+ ip +:+ " hit blacklisted port " +:+ dec port
  | Scanned ip n =>
      "network_antirecon -> ip " +:+ ip +:+ " scanned " +:+ dec n +:+ " ports in " +:+
      dec (na_WindowSeconds cfg) +:+ "s window"
  end.

Definition scan_event (message : string) : AlertEvent :=
  MkAlert SourceNetworkAntirecon EmptyString (FindString message) message None [].

(** The events of one call: the report, and the ban when it is new. *)
Definition network_events (message : string) (isNewBan : bool) : AlertEvent * option AlertEvent :=
  (scan_event message, if isNewBan then Some (banned_event (FindString message)) else None).

(** ** The resource monitor *)
Definition limit_event (severity word name unit : string) (value : float64) (limit : Z) : AlertEvent :=
  MkAlert SourceResourceMonitor severity EmptyString
    ("resource_monitor -> " +:+ name +:+ " is " +:+ format_fixed 2 value +:+ unit +:+ ", " +:+ word +:+
     " limit is " +:+ dec limit +:+ unit) None
    [("metric", DString name); ("value", DFloat value); ("unit", DString unit); ("limit", DUint limit)].

(** The journal level and the event of a check, if it raises one. *)
Definition check_event (m : metric) : option (Z * AlertEvent) :=
  let limits := mt_limits m in
  match checkLimits (mt_value m) limits with
  | LimitAlert =>
      Some (journalAlert, limit_event SeverityAlert "alert" (mt_name m) (mt_unit m) (mt_value m) (Alert limits))
  | LimitWarning =>
      Some (journalWarning, limit_event SeverityWarning "warning" (mt_name m) (mt_unit m) (mt_value m) (Warning limits))
  | NoLimit => None
  end.

(** ** The user command controller *)

(** [strconv.Quote], whose tables of printable runes are not modelled. *)
Class GoQuote := Quote : string → string.

Definition command_event `{GoQuote} (a : commandAlert) : AlertEvent :=
  MkAlert SourceUserCommandController (ca_severity a) EmptyString
    ("user_command_controller -> " +:+ ca_result a +:+ " command " +:+ Quote (ca_command a) +:+
     " uid=" +:+ dec (ca_uid a) +:+ " euid=" +:+ dec (ca_euid a) +:+ " userns=" +:+ dec (ca_userns a) +:+
     " pid=" +:+ dec (ca_pid a) +:+ " tid=" +:+ dec (ca_tid a)) None
    [("result", DString (ca_result a)); ("command", DString (ca_command a)); ("uid", DUint (ca_uid a));
     ("effective_uid", DUint (ca_euid a)); ("user_namespace", DUint (ca_userns a)); ("pid", DUint (ca_pid a));
     ("tid", DUint (ca_tid a)); ("mode", DString (ca_mode a))].

(** ** The address comes back *)
Definition no_digits (l : list ascii) : Prop := Forall (λ c, is_digit c = false) l.

Lemma match_groups_no_digit c n l : is_digit c = false → match_groups n (c :: l) = None.
Proof. intros Hc. destruct n; simpl; by rewrite Hc. Qed.

Lemma find_ip_skip pre l : no_digits pre → find_ip (pre ++ l) = find_ip l.
Proof.
  induction 1 as [|c pre Hc _ IH]; [done|]. cbn [app find_ip]. by rewrite match_groups_no_digit.
Qed.

Lemma take_digits_all n g rest :
  Forall (λ c, is_digit c = true) g → (length g <= n)%nat →
  match rest with c :: _ => is_digit c = false | [] => True end →
  take_digits n (g ++ rest) = (g, rest).
Proof.
  intros Hg. revert n. induction Hg as [|c g Hc _ IH]; intros n Hn Hr; cbn [app].
  - destruct n; [done|]. destruct rest as [|c rest]; [done|]. simpl. by rewrite Hr.
  - destruct n as [|n]; simpl in Hn; [lia|]. simpl. rewrite Hc, IH; [done|lia|done].
Qed.

Lemma dec_byte_length n : in_u8 n → (1 <= length (bytes (dec n)) <= 3)%nat.
Proof.
  intros Hn. assert (Hall : forallb (λ i, let k := length (bytes (dec (Z.of_nat i))) in (1 <=? k) && (k <=? 3))%nat (seq 0 256) = true)
    by (vm_compute; reflexivity).
  rewrite forallb_forall in Hall. unfold in_u8 in Hn. specialize (Hall (Z.to_nat n)).
  rewrite Z2Nat.id in Hall by lia. rewrite andb_true_iff, !Nat.leb_le in Hall. apply Hall.
  apply in_seq. lia.
Qed.

(** A group of the address and what follows it. *)
Lemma match_group n d rest :
  in_u8 n → match rest with c :: _ => is_digit c = false | [] => True end →
  match_groups d (bytes (dec n) ++ rest) =
  match d, rest with
  | O, _ => Some (bytes (dec n))
  | S d', c :: rest' => if Ascii.eqb c "." then app (bytes (dec n) ++ [c]) <$> match_groups d' rest' else None
  | S _, [] => None
  end.
Proof.
  intros Hn Hr. pose proof (dec_byte_length n Hn) as Hl.
  destruct (dec_spec n) as (Hne & Hdig & _); [unfold in_u8 in Hn; lia|].
  destruct d; cbn [match_groups]; rewrite take_digits_all by (done || lia);
    by destruct (bytes (dec n)).
Qed.

Lemma find_dotted a b c d rest :
  in_u8 a → in_u8 b → in_u8 c → in_u8 d → match rest with x :: _ => is_digit x = false | [] => True end →
  find_ip (bytes (dotted a b c d) ++ rest) = Some (bytes (dotted a b c d)).
Proof.
  intros Ha Hb Hc Hd Hr. rewrite bytes_dotted.
  assert (Hm : match_groups 3 ((bytes (dec a) ++ bytes "." ++ bytes (dec b) ++ bytes "." ++ bytes (dec c) ++ bytes "." ++ bytes (dec d)) ++ rest)
    = Some (bytes (dec a) ++ bytes "." ++ bytes (dec b) ++ bytes "." ++ bytes (dec c) ++ bytes "." ++ bytes (dec d))).
  { rewrite <- !app_assoc. rewrite match_group by done. cbn [bytes app Ascii.eqb Bool.eqb].
    rewrite match_group by done. cbn [bytes app Ascii.eqb Bool.eqb]. rewrite match_group by done.
    cbn [bytes app Ascii.eqb Bool.eqb]. rewrite match_group by done. cbn. by rewrite <- !app_assoc. }
  destruct (_ ++ rest) eqn:Hl; cbn [find_ip]; by rewrite Hm.
Qed.

Lemma FindString_reported a b c d pre post :
  in_u8 a → in_u8 b → in_u8 c → in_u8 d → no_digits (bytes pre) →
  match bytes post with x :: _ => is_digit x = false | [] => True end →
  FindString (pre +:+ dotted a b c d +:+ post) = dotted a b c d.
Proof.
  intros Ha Hb Hc Hd Hpre Hpost. unfold FindString. rewrite !bytes_app, find_ip_skip by done.
  rewrite find_dotted by done. apply of_bytes_bytes.
Qed.

(** C37: The event and the ban exported for a report of the network monitor name the
    address the monitor reported: taking the first address out of the text of the message
    undoes the formatting, for both messages and every IPv4 address. *)
Theorem reported_ip_recovered cfg m a b c d isNewBan :
  in_u8 a → in_u8 b → in_u8 c → in_u8 d → nm_address m = dotted a b c d →
  let '(report, ban) := network_events (nm_text cfg m) isNewBan in
  ev_IP report = dotted a b c d ∧ Message report = nm_text cfg m ∧
  ban = if isNewBan then Some (banned_event (dotted a b c d)) else None.
Proof.
  intros Ha Hb Hc Hd Hm.
  assert (Hf : FindString (nm_text cfg m) = dotted a b c d).
  { assert (Hpre : no_digits (bytes "network_antirecon -> ip ")) by (repeat (constructor; [reflexivity|]); constructor).
    destruct m as [ip port|ip n]; simpl in Hm; subst ip; by apply FindString_reported. }
  unfold network_events, scan_event. rewrite Hf. by destruct isNewBan.
Qed.

Lemma reported_ip_recovered_witness :
  ev_IP (scan_event (nm_text two_ports (Scanned (dotted 10 0 0 7) 2))) = dotted 10 0 0 7.
Proof.
  apply (reported_ip_recovered two_ports (Scanned (dotted 10 0 0 7) 2) 10 0 0 7 true); try (unfold in_u8; lia).
  reflexivity.
Defined.

Example FindString_ex : map FindString ["x 1.2.3.4444 y"; "1234.5.6.7"; "1.2.3"; "12..3.4.5.6.7"]
                        = ["1.2.3.444"; "234.5.6.7"; EmptyString; "3.4.5.6"].
Proof. reflexivity. Qed.
