(* ===== verification/HubState.v ===== *)
(** * pkg/monitor/monitor.go: what the monitors share

    [monitorHub] as the goroutines see it: the configuration, the context (the number of the
    current one, and whether it is cancelled), the restart
    channel, the export queue, the ban pool, and a world [E] for the files and the
    websocket.  The journal is what [log.Printf] of [alert] writes.  The instants one step
    reads from the clock are one instant [now]. *)

From S2P Require Import Prelude.
From S2P Require Import Config.
From S2P Require Import BanPool.
From S2P Require Import Protocol.
From S2P Require Import Monitor.
From S2P Require Import Goroutines.

Record hub (E P : Type) := MkHub {
  h_cfg : Config; h_configPath : string; h_ctx : context; h_cancelled : bool; h_restart : bool;
  exportChan : list Envelope; h_pool : P; h_world : E; journal : list (Z * string) }.
Arguments MkHub {E P}. Arguments h_cfg {E P}. Arguments h_configPath {E P}. Arguments h_ctx {E P}. Arguments h_cancelled {E P}.
Arguments h_restart {E P}. Arguments exportChan {E P}. Arguments h_pool {E P}. Arguments h_world {E P}.
Arguments journal {E P}.

Section Hub.
Context {E P : Type}.
Implicit Types h : hub E P.

Definition set_pool (p : P) h : hub E P :=
  MkHub (h_cfg h) (h_configPath h) (h_ctx h) (h_cancelled h) (h_restart h) (exportChan h) p (h_world h) (journal h).
Definition set_queue (q : list Envelope) h : hub E P :=
  MkHub (h_cfg h) (h_configPath h) (h_ctx h) (h_cancelled h) (h_restart h) q (h_pool h) (h_world h) (journal h).
Definition set_world (e : E) h : hub E P :=
  MkHub (h_cfg h) (h_configPath h) (h_ctx h) (h_cancelled h) (h_restart h) (exportChan h) (h_pool h) e (journal h).
Definition log_line (level : Z) (text : string) h : hub E P :=
  MkHub (h_cfg h) (h_configPath h) (h_ctx h) (h_cancelled h) (h_restart h) (exportChan h) (h_pool h) (h_world h)
    (journal h ++ [(level, text)]).
(** [mh.cancel()] where [b]; a restart asked for where [r]. *)
Definition signal (b r : bool) h : hub E P :=
  MkHub (h_cfg h) (h_configPath h) (h_ctx h) (h_cancelled h || b) (h_restart h || r) (exportChan h) (h_pool h) (h_world h)
    (journal h).

Context `{Json}.

Definition hub_export (now : Z) (event : AlertEvent) h : hub E P :=
  set_queue (export (Exporter (h_cfg h)) now event (exportChan h)) h.
(** The after action of [alert] runs in its own goroutine and does nothing in any call. *)
Definition alert (now level : Z) (event : AlertEvent) h : hub E P :=
  hub_export now event (log_line level (Message event) h).
Definition alertSync (now level : Z) (event : AlertEvent) (afterAction : hub E P → hub E P) h : hub E P :=
  afterAction (hub_export now event (log_line level (Message event) h)).

(** The hub is stopped when its context is cancelled; what waits is the export queue. *)
#[global] Instance hub_stoppable : Stoppable (hub E P) := {
  stopped := h_cancelled;
  waiting h := length (exportChan h) }.

(** ** What no goroutine undoes: a cancelled context, a restart asked for, the
    configuration and the context of the cycle *)
Record later h h' : Prop := {
  lt_cancelled : h_cancelled h = true → h_cancelled h' = true;
  lt_restart : h_restart h = true → h_restart h' = true;
  lt_cfg : h_cfg h' = h_cfg h;
  lt_path : h_configPath h' = h_configPath h;
  lt_ctx : h_ctx h' = h_ctx h }.

#[global] Instance later_preorder : PreOrder later.
Proof. split; [by split|]. intros h1 h2 h3 [? ? Hc Hp Hx] [? ? Hc' Hp' Hx'].
  split; [by auto|by auto|by rewrite Hc'|by rewrite Hp'|by rewrite Hx']. Qed.

Lemma later_pool p h : later h (set_pool p h). Proof. by split. Qed.
Lemma later_queue q h : later h (set_queue q h). Proof. by split. Qed.
Lemma later_world e h : later h (set_world e h). Proof. by split. Qed.
Lemma later_signal b r h : later h (signal b r h).
Proof. split; simpl; [by intros ->|by intros ->|done|done|done]. Qed.
Lemma later_alert now level event h : later h (alert now level event h). Proof. by split. Qed.
Lemma later_export now event h : later h (hub_export now event h). Proof. by split. Qed.

(** ** The queue

    Every envelope in it was made by [export] from one event that tells when it happened,
    under the settings of an enabled exporter of [X]; the channel has room for
    [exportQueueSize]. *)
Definition raised_by (x : ExporterConfig) (e : Envelope) : Prop :=
  env_Version e = Version ∧ TaskID e = 0 ∧ Service e = ServiceAlert ∧ Operation e = OpRaised ∧
  ConfigurationID e = ConfigID x ∧ env_UserID e = UserID x ∧
  ∃ event t, json_Marshal (PAlert (MkAlertPayload [event])) = Some (Payload e) ∧ HappenedAt event = Some t.

Record queue_ok (X : ExporterConfig → Prop) (q : list Envelope) : Prop := {
  qo_bounded : Z.of_nat (length q) <= exportQueueSize;
  qo_raised : Forall (λ e, ∃ x, X x ∧ ex_Enabled x = true ∧ raised_by x e) q }.

(** What every step keeps, for every [X] the settings of the cycle belong to. *)
Definition queue_kept h h' : Prop :=
  Exporter (h_cfg h') = Exporter (h_cfg h) ∧
  ∀ X : ExporterConfig → Prop, X (Exporter (h_cfg h)) → queue_ok X (exportChan h) → queue_ok X (exportChan h').

#[global] Instance queue_kept_preorder : PreOrder queue_kept.
Proof.
  split; [by split; [|auto]|]. intros h1 h2 h3 [Hx1 H1] [Hx2 H2]. split; [by rewrite Hx2|].
  intros X HX Hq. apply H2; [by rewrite Hx1|]. by apply H1.
Qed.

Lemma happened_at now event : ∃ t, HappenedAt (with_happened_at now event) = Some t.
Proof. unfold with_happened_at. destruct (HappenedAt event) eqn:He; by eexists. Qed.

Lemma export_ok (X : ExporterConfig → Prop) x now event q : X x → queue_ok X q → queue_ok X (export x now event q).
Proof.
  intros HX Hq. unfold export, NewEnvelope. destruct (ex_Enabled x) eqn:Hx; cbn [negb]; [|exact Hq].
  cbn [marshalPayload]. destruct (json_Marshal _) as [raw|] eqn:Hraw; [|exact Hq].
  destruct (Z.of_nat (length q) <? exportQueueSize) eqn:Hl; bool_hyps; [|exact Hq].
  destruct Hq as [Hb Hr]. split; [rewrite length_app; simpl; lia|].
  apply Forall_app. split; [done|]. constructor; [|constructor]. exists x. repeat (split; [done|]).
  destruct (happened_at now event) as [t Ht]. by exists (with_happened_at now event), t.
Qed.

Lemma export_length x now event q : (length (export x now event q) <= length q + 1)%nat.
Proof.
  unfold export. destruct (negb _); [lia|]. destruct (NewEnvelope _ _ _ _ _ _); [|lia].
  destruct (_ <? _); rewrite ?length_app; simpl; lia.
Qed.

Lemma kept_export now event h : queue_kept h (hub_export now event h).
Proof. split; [done|]. intros X. apply export_ok. Qed.
Lemma kept_alert now level event h : queue_kept h (alert now level event h).
Proof. split; [done|]. intros X. apply export_ok. Qed.
Lemma kept_same h h' : h_cfg h' = h_cfg h → exportChan h' = exportChan h → queue_kept h h'.
Proof. intros Hc Hq. split; [by rewrite Hc|by rewrite Hq]. Qed.
Lemma kept_take m q h : exportChan h = m :: q → queue_kept h (set_queue q h).
Proof.
  intros Hq. split; [done|]. intros X HX. rewrite Hq. intros [Hb Hr]. cbn [length] in Hb.
  split; [simpl; lia|by inversion Hr].
Qed.

Lemma waiting_export now event h : (waiting (hub_export now event h) <= waiting h + 1)%nat.
Proof. apply export_length. Qed.
Lemma waiting_alert now level event h : (waiting (alert now level event h) <= waiting h + 1)%nat.
Proof. apply export_length. Qed.
End Hub.

Create HintDb hub.
#[export] Hint Resolve later_pool later_queue later_world later_signal later_alert later_export : hub.
#[export] Hint Resolve kept_export kept_alert : hub.
