(* ===== verification/HubMonitors.v ===== *)
(** * pkg/monitor: the goroutines of the log monitors and of the resource monitor

    [RunBaseMonitor] with the source that feeds it ([runSource] around one of the
    [attachTo] functions, whose sends are the [select]s of Source.v) and the channel
    between them; [clearMaps]; [RunResourceMonitor].  Each is a [Goroutine] on the state of
    the hub. *)

From S2P Require Import Prelude.
From S2P Require Import GoStrings.
From S2P Require Import GoFloat.
From S2P Require Import Config.
From S2P Require Import ConfigValidate.
From S2P Require Import ConfigLoad.
From S2P Require Import BanPool.
From S2P Require Import Protocol.
From S2P Require Import Monitor.
From S2P Require Import Snapshot.
From S2P Require Import HubEvents.
From S2P Require Import Goroutines.
From S2P Require Import HubState.

(** ** A log monitor *)

(** The source is in [attach] between two lines, in the [select] of a send, in that of
    [runSource] after [attach] returned, or has closed the channel. *)
Inductive source_phase : Type :=
| Attached
| Sending (line : string)
| Retrying
| Closed.

Inductive log_phase (RE : Type) : Type :=
| LogStarting
| LogLoop (re : RE) (at_ : bm_phase) (source : source_phase) (outputChan : list string)
| LogReturned (err : option monitor_err).
Arguments LogStarting {RE}. Arguments LogLoop {RE}. Arguments LogReturned {RE}.

(** [lm_clearing]: the goroutine of [clearMaps] is there. *)
Record log_monitor (RE : Type) := MkLog {
  lm_name : string; lm_base : BaseFields; lm_phase : log_phase RE;
  lm_counters : gmap string Z; lm_clearing : bool }.
Arguments MkLog {RE}. Arguments lm_name {RE}. Arguments lm_base {RE}. Arguments lm_phase {RE}.
Arguments lm_counters {RE}. Arguments lm_clearing {RE}.

Inductive log_event : Type :=
| LogStart
| LineRead (line : string)      (* a line arrives *)
| AttachEnds                    (* [attach] returns: the log ended or failed *)
| RetryFires                    (* [time.After(sourceRetryInterval)] *)
| LineSent                      (* [logsChan <- line] *)
| SendAborted                   (* the context in the [select] of the send *)
| AttachStops                   (* the context where [attach] waits for a line *)
| SourceReturns                 (* the context in the [select] of [runSource], [close(logsChan)] *)
| LineTaken                     (* [range outputChan] *)
| LineCounted (now : Z)
| LoopEnds                      (* the channel is closed and empty *)
| ClearFires
| ClearStops.

Definition outputChanSize : nat := 1000.

Definition log_internal (e : log_event) : bool :=
  match e with LineRead _ | AttachEnds | RetryFires | ClearFires => false | _ => true end.

Section LogMonitor.
Context {E P RE : Type} `{Json, BanPool P, Regexp RE}.
Abbreviation hub := (HubState.hub E P).

Definition set_phase (ph : log_phase RE) (lm : log_monitor RE) : log_monitor RE :=
  MkLog (lm_name lm) (lm_base lm) ph (lm_counters lm) (lm_clearing lm).
Definition set_clearing (b : bool) (lm : log_monitor RE) : log_monitor RE :=
  MkLog (lm_name lm) (lm_base lm) (lm_phase lm) (lm_counters lm) b.

(** What an iteration does to the outside. *)
Definition apply_out (now : Z) (o : hub_out) (h : hub) : hub :=
  match o with
  | AskedBan _ _ => h                        (* [bm_hit] has asked the pool *)
  | Alerted level event => alert now level event h
  | Exported event => hub_export now event h
  end.
Definition apply_outs (now : Z) (out : list hub_out) (h : hub) : hub := foldl (λ h o, apply_out now o h) h out.

(** A step of the loop of Monitor.v on the counters, the position and the pool. *)
Definition loop_step (now : Z) (e : bm_event) (re : RE) (at_ : bm_phase) (lm : log_monitor RE) (h : hub)
    : option (bm_phase * gmap string Z * hub) :=
  '(st, out) ← bm_next (h_ctx h) (lm_name lm) (IPWhiteList (h_cfg h)) (lm_base lm) re e
                 (BmState at_ (lm_counters lm) (h_pool h));
  Some (bm_at st, ipAttemptsMap st, apply_outs now out (set_pool (bm_pool st) h)).

Definition log_start (lm : log_monitor RE) (h : hub) : log_monitor RE * hub :=
  let clearing := negb (bool_decide (Mode (lm_base lm) = modeDisabled)) in
  match RunBaseMonitor_start (RE := RE) (lm_base lm) with
  | (cancels, Err err) => (set_clearing clearing (set_phase (LogReturned (Some err)) lm), signal cancels false h)
  | (_, Ok None) => (set_phase (LogReturned None) lm, h)
  | (_, Ok (Some re)) => (set_clearing clearing (set_phase (LogLoop re BmIdle Attached []) lm), h)
  end.

(** Where a send that meets the cancelled context leads: [readNewLines] returns into the
    loop of [attachToSyslog], the other two return from [attach]. *)
Definition after_abort (bm : BaseFields) : source_phase :=
  if bool_decide (Engine bm = "syslog") then Attached else Retrying.

Definition source_next (e : log_event) (bm : BaseFields) (cancelled : bool) (src : source_phase) (chan : list string)
    : option (source_phase * list string) :=
  match e, src with
  | LineRead line, Attached => Some (Sending line, chan)
  | AttachEnds, Attached => Some (Retrying, chan)
  | RetryFires, Retrying => Some (Attached, chan)
  | LineSent, Sending line => if (length chan <? outputChanSize)%nat then Some (Attached, chan ++ [line]) else None
  | SendAborted, Sending _ => if cancelled then Some (after_abort bm, chan) else None
  | AttachStops, Attached => if cancelled then Some (Retrying, chan) else None
  | SourceReturns, Retrying => if cancelled then Some (Closed, chan) else None
  | _, _ => None
  end.

(** An iteration, [chan] being what it leaves in the channel. *)
Definition iterate (now : Z) (e : bm_event) (chan : list string) (lm : log_monitor RE) (h : hub)
    : option (log_monitor RE * hub) :=
  match lm_phase lm with
  | LogLoop re at_ src _ =>
      '(at_, counters, h) ← loop_step now e re at_ lm h;
      Some (MkLog (lm_name lm) (lm_base lm) (LogLoop re at_ src chan) counters (lm_clearing lm), h)
  | _ => None
  end.

Definition log_next (e : log_event) (lm : log_monitor RE) (h : hub) : option (log_monitor RE * hub) :=
  match e with
  | LogStart => match lm_phase lm with LogStarting => Some (log_start lm h) | _ => None end
  | ClearFires => if lm_clearing lm then Some (MkLog (lm_name lm) (lm_base lm) (lm_phase lm) ∅ true, h) else None
  | ClearStops => if lm_clearing lm && h_cancelled h then Some (set_clearing false lm, h) else None
  | LineTaken =>
      match lm_phase lm with LogLoop _ _ _ (line :: chan) => iterate 0 (BmRead line) chan lm h | _ => None end
  | LineCounted now => match lm_phase lm with LogLoop _ _ _ chan => iterate now (BmCount now) chan lm h | _ => None end
  | LoopEnds =>
      match lm_phase lm with LogLoop _ BmIdle Closed [] => Some (set_phase (LogReturned None) lm, h) | _ => None end
  | _ =>
      match lm_phase lm with
      | LogLoop re at_ src chan =>
          '(src, chan) ← source_next e (lm_base lm) (h_cancelled h) src chan;
          Some (set_phase (LogLoop re at_ src chan) lm, h)
      | _ => None
      end
  end.

#[global] Instance log_goroutine : Goroutine (log_monitor RE) log_event hub := {
  g_next := log_next;
  g_internal := log_internal;
  g_running lm := match lm_phase lm with LogReturned _ => false | _ => true end }.

(** *** It stops *)
Definition source_measure (src : source_phase) : nat :=
  match src with Sending _ => 7 | Attached => 2 | Retrying => 1 | Closed => 0 end.
Definition at_measure (at_ : bm_phase) : nat := match at_ with BmIdle => 0 | BmLoaded _ _ => 3 end.
Definition log_measure (lm : log_monitor RE) : nat :=
  (if lm_clearing lm then 1 else 0) +
  match lm_phase lm with
  | LogStarting => 5
  | LogLoop _ at_ src chan => 1 + at_measure at_ + source_measure src + 4 * length chan
  | LogReturned _ => 0
  end.

Lemma apply_outs_later now out h : later h (apply_outs now out h).
Proof.
  revert h. induction out as [|o out IH]; intros h; [reflexivity|]. etrans; [|apply IH].
  destruct o; [reflexivity|apply later_alert|apply later_export].
Qed.
Lemma apply_outs_kept now out h : queue_kept h (apply_outs now out h).
Proof.
  revert h. induction out as [|o out IH]; intros h; [reflexivity|]. etrans; [|apply IH].
  destruct o; [reflexivity|apply kept_alert|apply kept_export].
Qed.

Definition exports (o : hub_out) : nat := match o with AskedBan _ _ => 0 | _ => 1 end.
Lemma apply_outs_waiting now out h :
  (waiting (apply_outs now out h) <= waiting h + sum_list_with exports out)%nat.
Proof.
  revert h. induction out as [|o out IH]; intros h; [cbn; lia|]. etrans; [apply IH|].
  destruct o as [|level event|event]; cbn [apply_out sum_list_with exports]; [lia| |].
  - pose proof (waiting_alert now level event h). lia.
  - pose proof (waiting_export now event h). lia.
Qed.

(** An iteration raises two events at most. *)
Lemma bm_next_exports ctx name wl bm re e (st st' : bm_state P) out :
  bm_next ctx name wl bm re e st = Some (st', out) → (sum_list_with exports out <= 2)%nat.
Proof.
  destruct e as [m|now|]; cbn; destruct (bm_at st) as [|ip c]; try done; intros Hn; injection Hn as Hn.
  1, 3, 4: by subst out; cbn; lia.
  unfold bm_count in Hn. destruct (Tries bm <=? _); [|injection Hn as _ <-; cbn; lia].
  destruct (bm_hit ctx name bm now ip (bm_pool st)) as [p o] eqn:Hh. injection Hn as _ <-. revert Hh. unfold bm_hit.
  case_bool_decide; [destruct (bp_BanIP _ _ _ _ _) as [p1 [al [er|]]]; [|destruct al]|]; cbn; intros [= _ <-]; cbn; lia.
Qed.

Lemma loop_step_later now e re at_ lm h at' counters h' :
  loop_step now e re at_ lm h = Some (at', counters, h') → later h h' ∧ queue_kept h h' ∧
  (waiting h' <= waiting h + 2)%nat.
Proof.
  unfold loop_step. destruct (bm_next _ _ _ _ _ _ _) as [[st out]|] eqn:Hn; [|done]. cbn. intros [= <- <- <-].
  apply bm_next_exports in Hn. split_and!.
  - etrans; [apply (later_pool (bm_pool st))|apply apply_outs_later].
  - etrans; [by apply (kept_same _ (set_pool (bm_pool st) h))|apply apply_outs_kept].
  - pose proof (apply_outs_waiting now out (set_pool (bm_pool st) h)) as Hw. cbn in *. lia.
Qed.

Lemma log_start_later lm h lm' h' :
  log_start lm h = (lm', h') → later h h' ∧ queue_kept h h' ∧ exportChan h' = exportChan h.
Proof.
  unfold log_start. destruct (RunBaseMonitor_start _) as [c [[re|]|err]]; intros [= <- <-];
    (split_and!; [auto with hub; reflexivity|by apply kept_same|done]).
Qed.
(** The source only moves lines: it never lengthens the work but for a line or a retry. *)
Lemma source_next_measure e bm cancelled src chan src' chan' :
  source_next e bm cancelled src chan = Some (src', chan') →
  (source_measure src' + 4 * length chan' + (if log_internal e then 1 else 0) <=
   source_measure src + 4 * length chan + (if log_internal e then 0 else 5))%nat.
Proof.
  unfold source_next, after_abort. destruct e, src; try done; repeat case_match; try done; intros [= <- <-];
    rewrite ?length_app; simpl; lia.
Qed.

Lemma iterate_later now e chan lm h lm' h' :
  iterate now e chan lm h = Some (lm', h') → later h h' ∧ queue_kept h h'.
Proof.
  unfold iterate. destruct (lm_phase lm) as [|re at_ src chan0|]; try done.
  destruct (loop_step _ _ _ _ _ _) as [[[a c] h1]|] eqn:Hl; [|done]. intros [= <- <-].
  by apply loop_step_later in Hl as (? & ? & _).
Qed.

Lemma log_next_later e lm h lm' h' : log_next e lm h = Some (lm', h') → later h h' ∧ queue_kept h h'.
Proof.
  destruct e; cbn [log_next]; try (intros Hn; repeat case_match; simplify_option_eq; repeat case_match; simplify_option_eq; split; reflexivity).
  - case_match; try done. intros [= Hs]. by apply log_start_later in Hs as (? & ? & _).
  - repeat (case_match; try done). apply iterate_later.
  - repeat (case_match; try done). apply iterate_later.
Qed.

Lemma loop_step_read line re at_ lm h at' counters h' :
  loop_step 0 (BmRead line) re at_ lm h = Some (at', counters, h') →
  at_ = BmIdle ∧ (at_measure at' <= 3)%nat ∧ waiting h' = waiting h.
Proof.
  unfold loop_step, bm_next. cbn [bm_at]. destruct at_; [|done]. cbn. intros [= <- _ <-].
  split_and!; [done| |done]. destruct (bm_at _); cbn; lia.
Qed.
Lemma loop_step_count now re at_ lm h at' counters h' :
  loop_step now (BmCount now) re at_ lm h = Some (at', counters, h') →
  at_measure at_ = 3%nat ∧ at' = BmIdle ∧ (waiting h' <= waiting h + 2)%nat.
Proof.
  intros Hl. pose proof (loop_step_later _ _ _ _ _ _ _ _ _ Hl) as (_ & _ & Hw). revert Hl.
  unfold loop_step, bm_next. cbn [bm_at]. destruct at_ as [|ip c]; [done|]. unfold bm_count.
  destruct (Tries _ <=? _); [destruct (bm_hit _ _ _ _ _ _)|]; by intros [= <- _ <-].
Qed.

Lemma log_start_measure lm h lm' h' :
  lm_phase lm = LogStarting → log_start lm h = (lm', h') →
  (log_measure lm' + waiting h' + 1 <= log_measure lm + waiting h)%nat.
Proof.
  unfold log_start, log_measure. intros ->.
  destruct (RunBaseMonitor_start _) as [c [[re|]|err]]; intros [= <- <-]; cbn; repeat case_match; lia.
Qed.

Lemma log_next_measure e lm h lm' h' :
  log_next e lm h = Some (lm', h') →
  (log_measure lm' + waiting h' + (if log_internal e then 1 else 0) <=
   log_measure lm + waiting h + (if log_internal e then 0 else 5))%nat.
Proof.
  assert (Hsrc : ∀ re at_ src chan, lm_phase lm = LogLoop re at_ src chan →
    ('(src, chan) ← source_next e (lm_base lm) (h_cancelled h) src chan;
      Some (set_phase (LogLoop re at_ src chan) lm, h)) = Some (lm', h') →
    (log_measure lm' + waiting h' + (if log_internal e then 1 else 0) <=
     log_measure lm + waiting h + (if log_internal e then 0 else 5))%nat).
  { intros re at_ src chan Hph. destruct (source_next _ _ _ _ _) as [[s c]|] eqn:Hs; [|done]. intros [= <- <-].
    apply source_next_measure in Hs. unfold log_measure, set_phase. cbn [lm_phase lm_clearing]. rewrite Hph. lia. }
  destruct e; cbn [log_next]; try (destruct (lm_phase lm) as [|re at_ src chan|]; [done|by apply Hsrc|done]).
  - destruct (lm_phase lm) eqn:Hph; try done. intros [= Hs]. cbn [log_internal]. apply log_start_measure in Hs; [lia|done].
  - unfold iterate. destruct (lm_phase lm) as [|re at_ src [|l chan]|] eqn:Hph; try done.
    destruct (loop_step _ _ _ _ _ _) as [[[a c] h1]|] eqn:Hl; [|done]. intros [= <- <-].
    apply loop_step_read in Hl as (-> & Ha & Hw). unfold log_measure. cbn [lm_phase lm_clearing log_internal length]. rewrite Hph.
    cbn [at_measure length] in *. lia.
  - unfold iterate. destruct (lm_phase lm) as [|re at_ src chan|] eqn:Hph; try done.
    destruct (loop_step _ _ _ _ _ _) as [[[a c] h1]|] eqn:Hl; [|done]. intros [= <- <-].
    apply loop_step_count in Hl as (Ha & -> & Hw). unfold log_measure. cbn [lm_phase lm_clearing log_internal]. rewrite Hph.
    cbn [at_measure]. lia.
  - destruct (lm_phase lm) as [|re [|] [| | |] [|]|] eqn:Hph; try done. intros [= <- <-].
    unfold log_measure, set_phase. cbn. rewrite Hph. cbn. lia.
  - destruct (lm_clearing lm) eqn:Hc; [|done]. intros [= <- <-]. unfold log_measure. cbn. rewrite Hc. lia.
  - destruct (lm_clearing lm) eqn:Hc; [|done]. destruct (h_cancelled h); [|done]. intros [= <- <-].
    unfold log_measure. cbn. rewrite Hc. lia.
Qed.

#[global] Instance log_later : Respects (log_monitor RE) log_event hub later.
Proof. intros e lm h lm' h' Hn. by apply log_next_later in Hn as [? _]. Qed.
#[global] Instance log_kept : Respects (log_monitor RE) log_event hub queue_kept.
Proof. intros e lm h lm' h' Hn. by apply log_next_later in Hn as [_ ?]. Qed.

#[global] Program Instance log_stops : Stops (log_monitor RE) log_event hub := { g_measure := log_measure; g_burst := 5 }.
Next Obligation. intros e lm h lm' h' Hn. by apply log_next_later in Hn as [[? _ _ _] _]. Qed.
Next Obligation.
  intros lm h Hs Hr. cbn in Hs, Hr. cbn [g_next log_goroutine g_internal].
  assert (Hgo : ∀ e, log_internal e = true → is_Some (log_next e lm h) → ∃ e, log_internal e = true ∧ is_Some (log_next e lm h)) by eauto.
  destruct (lm_phase lm) as [|re at_ src chan|err] eqn:Hph; [|clear Hr|done].
  - apply (Hgo LogStart); [done|]. cbn. rewrite Hph. by eexists.
  - destruct at_ as [|ip c].
    + destruct chan as [|line chan].
      * destruct src; [apply (Hgo AttachStops)|apply (Hgo LineSent)|apply (Hgo SourceReturns)|apply (Hgo LoopEnds)];
          try done; cbn; rewrite Hph; cbn; rewrite ?Hs; by eexists.
      * apply (Hgo LineTaken); [done|]. cbn. unfold iterate. rewrite Hph. cbn. by eexists.
    + apply (Hgo (LineCounted 0)); [done|]. cbn. rewrite Hph. unfold iterate. rewrite Hph. unfold loop_step. cbn.
      destruct (bm_count _ _ _ _ _ _ _). cbn. by eexists.
Qed.
Next Obligation. intros e lm h lm' h' _. apply log_next_measure. Qed.
End LogMonitor.

(** ** The resource monitor *)
Inductive resource_phase : Type := RmStarting | RmWaiting | RmMeasuring | RmCooling | RmReturned.
Record resource_monitor := MkResource { rm_config : ResourceMonitorConfig; rm_phase : resource_phase }.

Inductive resource_event : Type :=
| RmStart
| RmTick                                          (* [ticker.C] *)
| RmMeasured (now : Z) (m : measurements)
| RmCooled                                        (* the timer of the cooldown *)
| RmCoolingStops                                  (* the context, in the cooldown *)
| RmStops.                                        (* the context, in the loop *)

Section ResourceMonitor.
Context {E P : Type} `{Json, SnapshotHost E, FS E, SortSlice}.
Abbreviation hub := (HubState.hub E P).

Definition set_rm_phase (ph : resource_phase) (rm : resource_monitor) : resource_monitor :=
  MkResource (rm_config rm) ph.

(** [checkLimits]: an alert is raised with [alertSync], its after action saves a snapshot
    whose error is only logged; a warning with [alert].  The result is the function's. *)
Definition check_limits_of (now : Z) (snapshotDir : string) (m : metric) (h : hub) : hub * bool :=
  match check_event m with
  | None => (h, false)
  | Some (level, event) =>
      if alerted (checkLimits (mt_value m) (mt_limits m)) then
        (alertSync now level event (λ h, set_world (fst (saveSnapshot snapshotDir (h_world h))) h) h, true)
      else (alert now level event h, false)
  end.

Fixpoint check_all (now : Z) (snapshotDir : string) (ms : list metric) (h : hub) : hub * bool :=
  match ms with
  | [] => (h, false)
  | m :: ms' =>
      let '(h, alerted) := check_limits_of now snapshotDir m h in
      let '(h, more) := check_all now snapshotDir ms' h in
      (h, alerted || more)
  end.

(** Whether the cooldown follows; an error of a measurement is only logged. *)
Definition checkResourceMetrics (now : Z) (rm : ResourceMonitorConfig) (m : measurements) (h : hub) : hub * bool :=
  match resource_metrics rm m with
  | Err _ => (h, false)
  | Ok ms => check_all now (OutputTopSnapshotDir rm) ms h
  end.

Definition resource_next (e : resource_event) (rm : resource_monitor) (h : hub) : option (resource_monitor * hub) :=
  match e, rm_phase rm with
  | RmStart, RmStarting => Some (set_rm_phase (if rm_Enabled (rm_config rm) then RmWaiting else RmReturned) rm, h)
  | RmTick, RmWaiting => Some (set_rm_phase RmMeasuring rm, h)
  | RmMeasured now m, RmMeasuring =>
      let '(h, alerted) := checkResourceMetrics now (rm_config rm) m h in
      Some (set_rm_phase (if alerted then RmCooling else RmWaiting) rm, h)
  | RmCooled, RmCooling => Some (set_rm_phase RmWaiting rm, h)
  | RmCoolingStops, RmCooling => if h_cancelled h then Some (set_rm_phase RmWaiting rm, h) else None
  | RmStops, RmWaiting => if h_cancelled h then Some (set_rm_phase RmReturned rm, h) else None
  | _, _ => None
  end.

#[global] Instance resource_goroutine : Goroutine resource_monitor resource_event hub := {
  g_next := resource_next;
  g_internal e := match e with RmTick | RmCooled => false | _ => true end;
  g_running rm := match rm_phase rm with RmReturned => false | _ => true end }.

Definition resource_measure (rm : resource_monitor) : nat :=
  match rm_phase rm with
  | RmStarting => 2 | RmWaiting => 1 | RmMeasuring => 7 | RmCooling => 2 | RmReturned => 0
  end.

Lemma check_limits_of_later now dir m h h' b :
  check_limits_of now dir m h = (h', b) → later h h' ∧ queue_kept h h' ∧ (waiting h' <= waiting h + 1)%nat.
Proof.
  unfold check_limits_of. destruct (check_event m) as [[level event]|].
  2: { intros [= <- <-]. split_and!; [reflexivity|reflexivity|lia]. }
  pose proof (waiting_alert now level event h) as Hw.
  destruct (alerted _); intros [= <- <-].
  - split_and!; [by split| |exact Hw]. etrans; [apply (kept_alert now level event)|by apply kept_same].
  - split_and!; [auto with hub|auto with hub|exact Hw].
Qed.

Lemma check_all_later now dir ms h h' b :
  check_all now dir ms h = (h', b) → later h h' ∧ queue_kept h h' ∧ (waiting h' <= waiting h + length ms)%nat.
Proof.
  revert h h' b. induction ms as [|m ms IH]; intros h h' b; cbn [check_all length].
  { intros [= <- <-]. split_and!; [reflexivity|reflexivity|lia]. }
  destruct (check_limits_of now dir m h) as [h1 b1] eqn:Hc1. apply check_limits_of_later in Hc1 as (L1 & K1 & W1).
  destruct (check_all now dir ms h1) as [h2 b2] eqn:Hc2. apply IH in Hc2 as (L2 & K2 & W2). intros [= <- <-].
  split_and!; [by etrans|by etrans|lia].
Qed.

Lemma checkResourceMetrics_later now rm m h h' b :
  checkResourceMetrics now rm m h = (h', b) → later h h' ∧ queue_kept h h' ∧ (waiting h' <= waiting h + 4)%nat.
Proof.
  unfold checkResourceMetrics. destruct (resource_metrics rm m) as [ms|err] eqn:Hm.
  2: { intros [= <- <-]. split_and!; [reflexivity|reflexivity|lia]. }
  assert (Hl : length ms = 4%nat).
  { unfold resource_metrics in Hm. repeat (case_match; try done). by injection Hm as <-. }
  intros (? & ? & ?)%check_all_later. rewrite Hl in *. by split_and!.
Qed.

Lemma resource_next_later e rm h rm' h' :
  resource_next e rm h = Some (rm', h') → later h h' ∧ queue_kept h h' ∧
  (resource_measure rm' + waiting h' + (if g_internal e then 1 else 0) <=
   resource_measure rm + waiting h + (if g_internal e then 0 else 6))%nat.
Proof.
  unfold resource_next, resource_measure. intros Hn.
  destruct (rm_phase rm) eqn:Hph, e as [| |now m| | |]; try done.
  4: { destruct (checkResourceMetrics now (rm_config rm) m h) as [h1 b] eqn:Hc. injection Hn as <- <-.
       apply checkResourceMetrics_later in Hc as (? & ? & ?). split_and!; [done|done|]. destruct b; simpl in *; lia. }
  all: try (destruct (h_cancelled h); [|done]); injection Hn as <- <-; (split_and!; [reflexivity|reflexivity|]).
  all: try destruct (rm_Enabled _); simpl; lia.
Qed.

#[global] Instance resource_later : Respects resource_monitor resource_event hub later.
Proof. by intros e rm h rm' h' (? & _ & _)%resource_next_later. Qed.
#[global] Instance resource_kept : Respects resource_monitor resource_event hub queue_kept.
Proof. by intros e rm h rm' h' (_ & ? & _)%resource_next_later. Qed.

#[global] Program Instance resource_stops : Stops resource_monitor resource_event hub := {
  g_measure := resource_measure; g_burst := 6 }.
Next Obligation. intros e rm h rm' h' ([Hc _ _ _] & _ & _)%resource_next_later. exact Hc. Qed.
Next Obligation.
  intros rm h Hs Hr. cbn in Hs, Hr. cbn [g_next resource_goroutine]. unfold resource_next.
  set (no_measure := MkMeasurements None None None None None None).
  destruct (rm_phase rm) eqn:Hph; [exists RmStart|exists RmStops|exists (RmMeasured 0 no_measure)|exists RmCoolingStops|done];
    (split; [done|]); rewrite ?Hs; by eexists.
Qed.
Next Obligation. by intros e rm h rm' h' _ (_ & _ & ?)%resource_next_later. Qed.
End ResourceMonitor.

(** *** What a pass does *)
Section ResourcePass.
Context {E P : Type} `{Json, SnapshotHost E, FS E, SortSlice}.
Abbreviation hub := (HubState.hub E P).

(** The measured value reaches its limit, which is set. *)
Definition reaches (value : float64) (limit : Z) : Prop := limit ≠ 0 ∧ float_ge value (of_uint64 limit) = true.
Definition alerts (m : metric) : Prop := reaches (mt_value m) (Alert (mt_limits m)).
Definition warns (m : metric) : Prop := ¬ alerts m ∧ reaches (mt_value m) (Warning (mt_limits m)).
#[global] Instance alerts_dec m : Decision (alerts m).
Proof. unfold alerts, reaches. apply _. Defined.
#[global] Instance warns_dec m : Decision (warns m).
Proof. unfold warns, reaches. apply _. Defined.

(** The level and the event a metric calls for. *)
Definition called_for (m : metric) : option (Z * AlertEvent) :=
  let l := mt_limits m in
  if decide (alerts m) then Some (journalAlert, limit_event SeverityAlert "alert" (mt_name m) (mt_unit m) (mt_value m) (Alert l))
  else if decide (warns m) then Some (journalWarning, limit_event SeverityWarning "warning" (mt_name m) (mt_unit m) (mt_value m) (Warning l))
  else None.

(** What a pass over [ms] makes of the hub. *)
Record passed (now : Z) (dir : string) (ms : list metric) (h h' : hub) (cooldown : bool) : Prop := {
  ps_journal : journal h' = journal h ++ map (λ e, (fst e, Message (snd e))) (omap called_for ms);
  ps_queue : exportChan h' = foldl (λ q e, export (Exporter (h_cfg h)) now (snd e) q) (exportChan h) (omap called_for ms);
  ps_world : h_world h' = Nat.iter (length (filter alerts ms)) (λ e, fst (saveSnapshot dir e)) (h_world h);
  ps_cooldown : cooldown = true ↔ Exists alerts ms;
  ps_rest : h_cfg h' = h_cfg h ∧ h_pool h' = h_pool h ∧ h_cancelled h' = h_cancelled h ∧ h_restart h' = h_restart h }.

Lemma checkLimits_cases value l :
  match checkLimits value l with
  | LimitAlert => reaches value (Alert l)
  | LimitWarning => ¬ reaches value (Alert l) ∧ reaches value (Warning l)
  | NoLimit => ¬ reaches value (Alert l) ∧ ¬ reaches value (Warning l)
  end.
Proof.
  unfold checkLimits, reaches.
  destruct (Alert l =? 0) eqn:Ha, (float_ge value (of_uint64 (Alert l))) eqn:Hga; cbn [negb andb];
    destruct (Warning l =? 0) eqn:Hw, (float_ge value (of_uint64 (Warning l))) eqn:Hgw; cbn [negb andb]; bool_hyps; naive_solver.
Qed.

Lemma check_event_called m : check_event m = called_for m.
Proof.
  unfold check_event, called_for, warns, alerts. pose proof (checkLimits_cases (mt_value m) (mt_limits m)) as Hc.
  destruct (checkLimits _ _); repeat case_decide; tauto.
Qed.

Lemma alerted_spec m : alerted (checkLimits (mt_value m) (mt_limits m)) = bool_decide (alerts m).
Proof.
  pose proof (checkLimits_cases (mt_value m) (mt_limits m)) as Hc. unfold alerts.
  destruct (checkLimits _ _); cbn [alerted]; case_bool_decide; tauto.
Qed.

Lemma check_one_passed now dir m (h h' : hub) b : check_limits_of now dir m h = (h', b) → passed now dir [m] h h' b.
Proof.
  unfold check_limits_of. rewrite check_event_called, alerted_spec. unfold called_for.
  assert (Hex : Exists alerts [m] ↔ alerts m) by (rewrite Exists_cons, Exists_nil; tauto).
  destruct (decide (alerts m)) as [Ha|Ha]; [rewrite bool_decide_true by done|].
  - intros [= <- <-]. split; cbn [omap list_omap]; unfold called_for; rewrite ?filter_cons_True, ?Hex, ?decide_True by done; done.
  - destruct (decide (warns m)) as [Hw|Hw]; rewrite ?bool_decide_false by done; intros [= <- <-];
      (split; cbn [omap list_omap]; unfold called_for; rewrite ?filter_cons_False, ?Hex, ?(decide_False (P := alerts m)) by done);
      rewrite ?(decide_True (P := warns m)), ?(decide_False (P := warns m)) by done; try done.
    cbn. by rewrite app_nil_r.
Qed.

Lemma passed_app now dir ms1 ms2 (h h1 h2 : hub) b1 b2 :
  passed now dir ms1 h h1 b1 → passed now dir ms2 h1 h2 b2 → passed now dir (ms1 ++ ms2) h h2 (b1 || b2).
Proof.
  intros [J1 Q1 W1 C1 (R1 & R2 & R3 & R4)] [J2 Q2 W2 C2 (S1 & S2 & S3 & S4)]. split.
  - by rewrite J2, J1, omap_app, map_app, app_assoc.
  - by rewrite Q2, Q1, R1, omap_app, foldl_app.
  - rewrite W2, W1, filter_app, length_app, Nat.add_comm. symmetry. apply Nat.iter_add.
  - rewrite orb_true_iff, Exists_app. tauto.
  - split_and!; congruence.
Qed.

Lemma check_all_passed now dir ms (h h' : hub) b : check_all now dir ms h = (h', b) → passed now dir ms h h' b.
Proof.
  revert h h' b. induction ms as [|m ms IH]; intros h h' b; cbn [check_all].
  { intros [= <- <-]. split; cbn; try done; [by rewrite app_nil_r|by rewrite Exists_nil]. }
  destruct (check_limits_of now dir m h) as [h1 b1] eqn:Hone. destruct (check_all now dir ms h1) as [h2 b2] eqn:Hall.
  intros [= <- <-]. apply (passed_app now dir [m] ms _ h1); [by apply check_one_passed|by apply IH].
Qed.
End ResourcePass.

(** C31: A pass of the resource monitor.  A measurement that fails ends it and nothing
    happens.  Otherwise each of the four values raises at most one event, in the order of
    cpu, ram, traffic and disk: an alert when it reaches a set alert limit, else a warning
    when it reaches a set warning limit; the events are logged at their level and queued in
    that order, a snapshot is saved for each alert, and the cooldown follows exactly after
    an alert. *)
Theorem resource_pass {E P} `{Json, SnapshotHost E, FS E, SortSlice} now rm m (h h' : HubState.hub E P) cooldown :
  checkResourceMetrics now rm m h = (h', cooldown) →
  match resource_metrics rm m with
  | Err _ => h' = h ∧ cooldown = false
  | Ok ms =>
      map mt_name ms = ["cpu usage"; "ram usage"; "traffic usage"; "disk usage"] ∧
      passed now (OutputTopSnapshotDir rm) ms h h' cooldown
  end.
Proof.
  unfold checkResourceMetrics. destruct (resource_metrics rm m) as [ms|err] eqn:Hm; [|by intros [= <- <-]].
  intros Hc. split; [|by apply check_all_passed]. unfold resource_metrics in Hm. repeat (case_match; try done). by injection Hm as <-.
Qed.
