(* ===== verification/HubEbpf.v ===== *)
(** * pkg/ebpfmonitors: the goroutines of the network monitor and of the command controller

    [networkMonitor.Run] and [userCommandControllerMonitor.Run] from their start to their
    return: what is loaded and attached, the loops over the ring buffers, the goroutines
    that close the readers when the context is done, and what is closed at the end.  What
    the kernel answers while they start is a record of outcomes. *)

From S2P Require Import Prelude.
From S2P Require Import GoStrings.
From S2P Require Import Policy.
From S2P Require Import Config.
From S2P Require Import ConfigValidate.
From S2P Require Import BanPool.
From S2P Require Import Protocol.
From S2P Require Import NetworkMonitor.
From S2P Require Import Monitor.
From S2P Require Import CommandController.
From S2P Require Import HubEvents.
From S2P Require Import Goroutines.
From S2P Require Import HubState.

Inductive ebpf_err : Type := ErrCantLoadObjects | ErrCantAttachProgram | ErrCantOpenRingbuf.

(** ** The network monitor *)

(** An interface: whether it is up, and the link [AttachXDP] gives, if it succeeds. *)
Record iface := MkIface { if_up : bool; if_AttachXDP : option Z }.

Fixpoint attach_xdp (ifaces : list iface) : list Z :=
  match ifaces with
  | [] => []
  | i :: ifaces' =>
      if negb (if_up i) then attach_xdp ifaces'
      else match if_AttachXDP i with None => attach_xdp ifaces' | Some l => l :: attach_xdp ifaces' end
  end.

Record network_boot := MkNetworkBoot {
  nb_LoadObjects : bool; nb_Interfaces : option (list iface); nb_NewReader : bool }.

(** Up to the loop: the links attached, [None] in the disabled mode; those of a start that
    fails are closed by the deferred function. *)
Definition network_start (cfg : EbpfNetworkAntireconConfig) (b : network_boot) : result ebpf_err (option (list Z)) :=
  if bool_decide (na_Mode cfg = "disabled") then Ok None
  else if negb (nb_LoadObjects b) then Err ErrCantLoadObjects
  else
    match nb_Interfaces b with
    | None => Err ErrCantAttachProgram
    | Some ifaces =>
        let xdpLinks := attach_xdp ifaces in
        if negb (nb_NewReader b) then Err ErrCantOpenRingbuf else Ok (Some xdpLinks)
    end.

(** [closed]: the goroutine that waits for the context has closed the reader. *)
Inductive network_phase : Type :=
| NwStarting
| NwLoop (nm : nm_state) (xdpLinks : list Z) (closed : bool)
| NwReturned (err : option ebpf_err).
Record network_monitor := MkNetwork { nw_cfg : EbpfNetworkAntireconConfig; nw_phase : network_phase; nw_clearing : bool }.

Inductive network_event : Type :=
| NwStart (b : network_boot)
| NwRecord (now : Z) (sample : list Z)     (* [reader.Read] *)
| NwReadFails                              (* with another error than [ErrClosed] *)
| NwCounted (now : Z)
| NwCloses                                 (* [<-nm.ctx.Done(); reader.Close()] *)
| NwReturns                                (* [ErrClosed] *)
| NwClearFires
| NwClearStops.

Section NetworkMonitor.
Context {E P : Type} `{Json, BanPool P}.
Abbreviation hub := (HubState.hub E P).

(** The callback [RunNetworkMonitor] passes. *)
Definition logFunction (now : Z) (message : string) (isNewBan : bool) (h : hub) : hub :=
  let '(event, ban) := network_events message isNewBan in
  let h := alert now journalInfo event h in
  match ban with Some ban => hub_export now ban h | None => h end.

Definition report (now : Z) (cfg : EbpfNetworkAntireconConfig) (m : nm_message) (h : hub) : hub :=
  let '(p, logged) := nm_report (h_ctx h) cfg now (nm_address m) (h_pool h) in
  let h := set_pool p h in
  match logged with None => h | Some isNewBan => logFunction now (nm_text cfg m) isNewBan h end.

(** A step of the loop of NetworkMonitor.v, each message reported. *)
Definition nm_loop (now : Z) (e : nm_event) (cfg : EbpfNetworkAntireconConfig) (st : nm_state) (h : hub)
    : option (nm_state * hub) :=
  '(st, out) ← nm_next cfg e st;
  Some (st, foldl (λ h m, report now cfg m h) h out).

Definition set_network (ph : network_phase) (nw : network_monitor) : network_monitor :=
  MkNetwork (nw_cfg nw) ph (nw_clearing nw).

Definition nw_loop (now : Z) (e : nm_event) (nw : network_monitor) (h : hub) : option (network_monitor * hub) :=
  match nw_phase nw with
  | NwLoop st links closed => '(st, h) ← nm_loop now e (nw_cfg nw) st h; Some (set_network (NwLoop st links closed) nw, h)
  | _ => None
  end.

Definition network_next (e : network_event) (nw : network_monitor) (h : hub) : option (network_monitor * hub) :=
  match e, nw_phase nw with
  | NwStart b, NwStarting =>
      match network_start (nw_cfg nw) b with
      | Err err => Some (set_network (NwReturned (Some err)) nw, h)
      | Ok None => Some (set_network (NwReturned None) nw, h)
      | Ok (Some links) => Some (MkNetwork (nw_cfg nw) (NwLoop nm_init links false) true, h)
      end
  | NwRecord now sample, NwLoop _ _ false => nw_loop now (NmRead sample) nw h
  | NwReadFails, NwLoop st _ false => match nm_at st with Reading => Some (nw, h) | _ => None end
  | NwCounted now, NwLoop _ _ _ => nw_loop now NmCount nw h
  | NwCloses, NwLoop st links false => if h_cancelled h then Some (set_network (NwLoop st links true) nw, h) else None
  | NwReturns, NwLoop st _ true =>
      match nm_at st with Reading => Some (set_network (NwReturned None) nw, h) | _ => None end
  | NwClearFires, NwLoop _ _ _ => if nw_clearing nw then nw_loop 0 NmClear nw h else None
  | NwClearStops, _ =>
      if nw_clearing nw && h_cancelled h then Some (MkNetwork (nw_cfg nw) (nw_phase nw) false, h) else None
  | _, _ => None
  end.

Definition network_internal (e : network_event) : bool :=
  match e with NwRecord _ _ | NwReadFails | NwClearFires => false | _ => true end.

#[global] Instance network_goroutine : Goroutine network_monitor network_event hub := {
  g_next := network_next;
  g_internal := network_internal;
  g_running nw := match nw_phase nw with NwReturned _ => false | _ => true end }.

(** *** It stops *)
Definition nm_measure (st : nm_state) : nat := match nm_at st with Reading => 0 | Counting _ _ _ => 3 end.
Definition network_measure (nw : network_monitor) : nat :=
  (if nw_clearing nw then 1 else 0) +
  match nw_phase nw with
  | NwStarting => 4
  | NwLoop st _ closed => 1 + nm_measure st + (if closed then 0 else 1)
  | NwReturned _ => 0
  end.

Lemma report_later now cfg m h :
  later h (report now cfg m h) ∧ queue_kept h (report now cfg m h) ∧ (waiting (report now cfg m h) <= waiting h + 2)%nat.
Proof.
  unfold report. destruct (nm_report (h_ctx h) cfg now (nm_address m) (h_pool h)) as [p [isNewBan|]].
  2: { split_and!; [by split|by apply kept_same|cbn; lia]. }
  unfold logFunction, network_events.
  assert (Hp : queue_kept h (set_pool p h)) by by apply kept_same.
  set (h1 := alert now journalInfo (scan_event (nm_text cfg m)) (set_pool p h)).
  assert (Hw : (waiting h1 <= waiting h + 1)%nat) by exact (waiting_alert now journalInfo _ (set_pool p h)).
  assert (Hk : queue_kept h h1) by (etrans; [exact Hp|apply kept_alert]).
  destruct isNewBan; (split_and!; [by split| |]).
  - etrans; [exact Hk|apply kept_export].
  - etrans; [apply waiting_export|lia].
  - exact Hk.
  - lia.
Qed.

(** One message at most comes out of a step. *)
Lemma nm_next_out cfg e st st' out :
  nm_next cfg e st = Some (st', out) →
  (nm_measure st' + 2 * length out + (match e with NmCount => 1 | _ => 0 end) <=
   nm_measure st + (match e with NmRead _ => 3 | _ => 0 end))%nat.
Proof.
  unfold nm_next, nm_measure.
  destruct e as [sample| |], (nm_at st) as [|ip l port] eqn:Hat; try done; intros Hn.
  - injection Hn as Hn. revert Hn. unfold nm_read. destruct (parseEvent sample) as [event|]; [|intros [= <- <-]; rewrite Hat; cbn; lia].
    case_bool_decide; [intros [= <- <-]; rewrite Hat; cbn; lia|].
    case_bool_decide; [intros [= <- <-]; rewrite Hat; cbn; lia|].
    destruct (LoadOrStore _ st) as [l st1]. intros [= <- <-]. cbn. lia.
  - injection Hn as Hn. revert Hn. unfold nm_count. destruct (_ && _); intros [= <- <-]; cbn; lia.
  - injection Hn as <- <-. cbn. rewrite Hat. lia.
  - injection Hn as <- <-. cbn. rewrite Hat. lia.
Qed.

Lemma reports_later now cfg out h :
  let h' := foldl (λ h m, report now cfg m h) h out in
  later h h' ∧ queue_kept h h' ∧ (waiting h' <= waiting h + 2 * length out)%nat.
Proof.
  revert h. induction out as [|m out IH]; intros h; cbn [foldl length].
  { split_and!; [reflexivity|reflexivity|lia]. }
  destruct (report_later now cfg m h) as (L1 & K1 & W1). destruct (IH (report now cfg m h)) as (L2 & K2 & W2).
  split_and!; [by etrans|by etrans|cbn in *; lia].
Qed.

Lemma nw_loop_later now e nw h nw' h' :
  nw_loop now e nw h = Some (nw', h') → later h h' ∧ queue_kept h h' ∧
  (network_measure nw' + waiting h' + (match e with NmCount => 1 | _ => 0 end) <=
   network_measure nw + waiting h + (match e with NmRead _ => 3 | _ => 0 end))%nat.
Proof.
  unfold nw_loop, nm_loop, network_measure. destruct (nw_phase nw) as [|st links closed|]; try done.
  destruct (nm_next (nw_cfg nw) e st) as [[st1 out]|] eqn:Hn; [|done]. cbn [mbind option_bind]. intros [= <- <-].
  apply nm_next_out in Hn. destruct (reports_later now (nw_cfg nw) out h) as (? & ? & ?).
  split_and!; [done|done|]. cbn in *. lia.
Qed.

Lemma network_next_later e nw h nw' h' :
  network_next e nw h = Some (nw', h') → later h h' ∧ queue_kept h h' ∧
  (network_measure nw' + waiting h' + (if network_internal e then 1 else 0) <=
   network_measure nw + waiting h + (if network_internal e then 0 else 3))%nat.
Proof.
  assert (Hloop : ∀ now e', nw_loop now e' nw h = Some (nw', h') → later h h' ∧ queue_kept h h' ∧
    (network_measure nw' + waiting h' + (match e' with NmCount => 1 | _ => 0 end) <=
     network_measure nw + waiting h + (match e' with NmRead _ => 3 | _ => 0 end))%nat) by (intros; by eapply nw_loop_later).
  unfold network_next. destruct e as [b|now sample| |now| | | |]; cbn [network_internal].
  - unfold network_measure. destruct (nw_phase nw) eqn:Hph; try done.
    destruct (network_start (nw_cfg nw) b) as [[links|]|err]; intros [= <- <-];
      (split_and!; [reflexivity|reflexivity|cbn; destruct (nw_clearing nw); lia]).
  - destruct (nw_phase nw) as [|st links []|]; try done. intros (? & ? & ?)%Hloop. split_and!; [done|done|lia].
  - destruct (nw_phase nw) as [|st links []|]; try done. destruct (nm_at st); [|done]. intros [= <- <-].
    split_and!; [reflexivity|reflexivity|lia].
  - destruct (nw_phase nw) as [|st links closed|]; try done. intros (? & ? & ?)%Hloop. split_and!; [done|done|lia].
  - unfold network_measure. destruct (nw_phase nw) as [|st links []|]; try done. destruct (h_cancelled h); [|done]. intros [= <- <-].
    split_and!; [reflexivity|reflexivity|cbn; lia].
  - unfold network_measure. destruct (nw_phase nw) as [|st links []|]; try done. destruct (nm_at st) eqn:Hat; [|done].
    intros [= <- <-]. split_and!; [reflexivity|reflexivity|cbn; unfold nm_measure; rewrite Hat; lia].
  - destruct (nw_phase nw) as [|st links closed|]; try done. destruct (nw_clearing nw); [|done].
    intros (? & ? & ?)%Hloop. split_and!; [done|done|lia].
  - unfold network_measure. destruct (nw_clearing nw); [|by destruct (nw_phase nw)].
    destruct (h_cancelled h); [|by destruct (nw_phase nw)]. intros Hn.
    assert (nw' = MkNetwork (nw_cfg nw) (nw_phase nw) false ∧ h' = h) as [-> ->].
    { destruct (nw_phase nw) eqn:Hph; simpl in Hn; by injection Hn as <- <-. }
    split_and!; [reflexivity|reflexivity|cbn; lia].
Qed.

#[global] Instance network_later : Respects network_monitor network_event hub later.
Proof. by intros e nw h nw' h' (? & _ & _)%network_next_later. Qed.
#[global] Instance network_kept : Respects network_monitor network_event hub queue_kept.
Proof. by intros e nw h nw' h' (_ & ? & _)%network_next_later. Qed.

#[global] Program Instance network_stops : Stops network_monitor network_event hub := {
  g_measure := network_measure; g_burst := 3 }.
Next Obligation. intros e nw h nw' h' ([Hc _ _ _] & _ & _)%network_next_later. exact Hc. Qed.
Next Obligation.
  intros nw h Hs Hr. cbn in Hs, Hr. cbn [g_next network_goroutine].
  destruct (nw_phase nw) as [|st links closed|] eqn:Hph; [| |done].
  - exists (NwStart (MkNetworkBoot false None false)). split; [done|]. cbn. rewrite Hph.
    destruct (network_start _ _) as [[links|]|err]; by eexists.
  - destruct (nm_at st) as [|ip l port] eqn:Hat.
    + destruct closed; [exists NwReturns|exists NwCloses]; (split; [done|]); cbn; rewrite Hph, ?Hat, ?Hs; by eexists.
    + exists (NwCounted 0). split; [done|]. cbn. rewrite Hph. unfold nw_loop, nm_loop, nm_next. rewrite Hph, Hat.
      destruct (nm_count _ _ _ _ _). cbn. by eexists.
Qed.
Next Obligation. by intros e nw h nw' h' _ (_ & _ & ?)%network_next_later. Qed.
End NetworkMonitor.
