(* ===== verification/HubCommand.v ===== *)
(** * pkg/ebpfmonitors/user_command_controller.go: [Run]

    The controller from its checks to its return, as a goroutine of the hub: what it loads,
    the first scan, the attachment of the LSM program, the loop over the ring buffer, the
    goroutine of the scans and activations with its timer, and the deferred calls. *)

From S2P Require Import Prelude.
From S2P Require Import GoStrings.
From S2P Require Import Policy.
From S2P Require Import Config.
From S2P Require Import ConfigValidate.
From S2P Require Import Protocol.
From S2P Require Import Monitor.
From S2P Require Import CommandController.
From S2P Require Import CommandHandles.
From S2P Require Import HubEvents.
From S2P Require Import Goroutines.
From S2P Require Import HubState.

Inductive command_run_err : Type :=
| InvalidController (e : problem_err)
| NotHostRoot
| UidMapUnreadable
| NotHostNamespace
| MemlockFailed
| LoadFailed
| CommandsUpdateFailed
| ScanFailed (e : command_monitor_err)
| SettingsUpdateFailed
| RingbufFailed
| AttachLSMFailed
| ReadFailed.

(** What the machine answers while the controller starts; [cb_objects] are the maps of a
    program just loaded, with the generations counted so far in the process. *)
Record command_boot (N M : Type) := MkCommandBoot {
  cb_Geteuid : Z; cb_uid_map : option string; cb_RemoveMemlock : bool; cb_objects : option (monitor N M);
  cb_Updates : bool; cb_namespaces : sync_input; cb_mounts : sync_input;
  cb_Settings : bool; cb_NewReader : bool; cb_AttachLSM : bool }.
Arguments MkCommandBoot {N M}. Arguments cb_Geteuid {N M}. Arguments cb_uid_map {N M}. Arguments cb_RemoveMemlock {N M}.
Arguments cb_objects {N M}. Arguments cb_Updates {N M}. Arguments cb_namespaces {N M}. Arguments cb_mounts {N M}.
Arguments cb_Settings {N M}. Arguments cb_NewReader {N M}. Arguments cb_AttachLSM {N M}.

(** What a running controller has: its target uids, the commands and settings it wrote,
    the state of the scans, whether the program is attached, the instant its activation
    timer is set to, and the handles it opened so far. *)
Record command_objects (N M : Type) := MkObjects {
  co_uids : list Z; co_commands : gset (list Z); co_settings : kernelConfig;
  co_monitor : monitor N M; co_attached : bool; co_armed : option Z; co_opened : list Z }.
Arguments MkObjects {N M}. Arguments co_uids {N M}. Arguments co_commands {N M}. Arguments co_settings {N M}.
Arguments co_monitor {N M}. Arguments co_attached {N M}. Arguments co_armed {N M}. Arguments co_opened {N M}.

(** [scanning]: the goroutine of the scans has not returned, the reader is open. *)
Inductive command_phase (N M : Type) : Type :=
| UcStarting
| UcLoop (o : command_objects N M) (scanning : bool)
| UcWaiting (o : command_objects N M) (scanning : bool) (err : option command_run_err)
| UcReturned (o : option (command_objects N M)) (err : option command_run_err).
Arguments UcStarting {N M}. Arguments UcLoop {N M}. Arguments UcWaiting {N M}. Arguments UcReturned {N M}.

Record controller (N M : Type) := MkCtl { uc_cfg : UserCommandExecutionController; uc_phase : command_phase N M }.
Arguments MkCtl {N M}. Arguments uc_cfg {N M}. Arguments uc_phase {N M}.

Inductive controller_event (N M : Type) : Type :=
| UcStart (b : command_boot N M)
| UcRecord (now : Z) (sample : list Z)
| UcReadFails                                    (* the reader is open *)
| UcScan (ev : CommandController.monitor_event)  (* [ticker.C], [activationC] *)
| UcScannerStops                                 (* [ctx.Done]: the link and the reader are closed *)
| UcReadClosed
| UcWaited.                                      (* [wg.Wait] and the other deferred calls *)
Arguments UcStart {N M}. Arguments UcRecord {N M}. Arguments UcReadFails {N M}. Arguments UcScan {N M}.
Arguments UcScannerStops {N M}. Arguments UcReadClosed {N M}. Arguments UcWaited {N M}.

Section Controller.
Context {E P N M : Type} `{Json, KernelMaps N, KernelMaps M, GoQuote}.
Abbreviation hub := (HubState.hub E P).
Implicit Types (m : monitor N M) (o : command_objects N M).

(** A child context: cancelled with its parent. *)
Definition inherit (cancelled : bool) m : monitor N M :=
  MkMonitor (mo_maps m) (mo_current m) (mo_mounts m) (mo_currentMounts m) (mo_generation m)
    (mo_cancelled m || cancelled) (mo_errors m) (mo_closed m).

(** The deferred [closeNamespaces]; the two maps are not used after it. *)
Definition close_namespaces m : monitor N M :=
  MkMonitor (mo_maps m) ∅ (mo_mounts m) ∅ (mo_generation m) true (mo_errors m) (mo_closed m ++ open_handles m).

(** [resetActivation]. *)
Definition resetActivation m : option Z :=
  nextCommandActivation [map snd (map_to_list (mo_current m)); map snd (map_to_list (mo_currentMounts m))].

Definition set_monitor m o : command_objects N M :=
  MkObjects (co_uids o) (co_commands o) (co_settings o) m (co_attached o) (resetActivation m) (co_opened o).
Definition detach o : command_objects N M :=
  MkObjects (co_uids o) (co_commands o) (co_settings o) (co_monitor o) false (co_armed o) (co_opened o).
Definition shut_down o : command_objects N M := detach (set_monitor (close_namespaces (co_monitor o)) o).

Definition host_uid_map (raw : string) : bool :=
  (length (fields raw) =? 3)%nat && bool_decide (str_join " " (fields raw) = "0 0 4294967295").

(** What follows the loading of the objects, the maps being in [m]. *)
Definition command_attach (cfg : UserCommandExecutionController) (b : command_boot N M) m : command_phase N M :=
  let uids := default [] (ok_opt (ParseUIDs (items (TargetUsersIDs cfg)))) in
  let commands := default [] (ok_opt (NormalizeCommands (items (TargetCommands cfg)))) in
  let objects m attached opened :=
    MkObjects uids (list_to_set (map command_key commands)) (kernel_config cfg uids commands) m attached
      (resetActivation m) opened in
  if negb (cb_Updates b) then UcReturned (Some (objects (close_namespaces m) false [])) (Some CommandsUpdateFailed)
  else
    let opened := opened_scan uids (cb_namespaces b) (cb_mounts b) m in
    let '(m, err) := scan uids (cb_namespaces b) (cb_mounts b) m in
    let returned err := UcReturned (Some (objects (close_namespaces m) false opened)) (Some err) in
    match err with
    | Some err => returned (ScanFailed err)
    | None =>
        if negb (cb_Settings b) then returned SettingsUpdateFailed
        else if negb (cb_NewReader b) then returned RingbufFailed
        else if negb (cb_AttachLSM b) then returned AttachLSMFailed
        else UcLoop (objects m true opened) true
    end.

Definition command_start (cfg : UserCommandExecutionController) (b : command_boot N M) (cancelled : bool)
    : command_phase N M :=
  if bool_decide (uc_Mode cfg = EmptyString) || bool_decide (uc_Mode cfg = "disabled") then UcReturned None None
  else
    match validateController cfg with
    | Err e => UcReturned None (Some (InvalidController e))
    | Ok _ =>
        if negb (cb_Geteuid b =? 0) then UcReturned None (Some NotHostRoot)
        else
          match cb_uid_map b with
          | None => UcReturned None (Some UidMapUnreadable)
          | Some raw =>
              if negb (host_uid_map raw) then UcReturned None (Some NotHostNamespace)
              else if negb (cb_RemoveMemlock b) then UcReturned None (Some MemlockFailed)
              else
                match cb_objects b with
                | None => UcReturned None (Some LoadFailed)
                | Some m => command_attach cfg b (inherit cancelled m)
                end
          end
    end.

(** One turn of the goroutine of the scans that is not its end: the activation timer fires
    only when it is set, and not before its instant. *)
Definition scanner_turn (cancelled : bool) (ev : CommandController.monitor_event) o : option (command_objects N M) :=
  let m := inherit cancelled (co_monitor o) in
  let m' := monitor_step (co_uids o) m ev in
  let after :=
    MkObjects (co_uids o) (co_commands o) (co_settings o) m' (co_attached o) (resetActivation m')
      (co_opened o ++ opened_step (co_uids o) ev m) in
  match ev, co_armed o with
  | ScanTick _ _, _ => Some after
  | ActivationTick _ now _ _, Some deadline => if deadline <=? now then Some after else None
  | ActivationTick _ _ _ _, None => None
  end.

Definition set_command (ph : command_phase N M) (c : controller N M) : controller N M := MkCtl (uc_cfg c) ph.

(** A record of the ring buffer: an event that cannot be decoded is only logged. *)
Definition command_record (now : Z) (sample : list Z) (mode : string) (h : hub) : hub :=
  match decodeCommandEvent sample mode with
  | Ok (Some a) => alert now journalInfo (command_event a) h
  | _ => h
  end.

Definition controller_next (e : controller_event N M) (c : controller N M) (h : hub) : option (controller N M * hub) :=
  match e, uc_phase c with
  | UcStart b, UcStarting => Some (set_command (command_start (uc_cfg c) b (h_cancelled h)) c, h)
  | UcRecord now sample, UcLoop o true => Some (c, command_record now sample (uc_Mode (uc_cfg c)) h)
  | UcReadFails, UcLoop o true =>
      let m := inherit (h_cancelled h) (co_monitor o) in
      Some (set_command (UcWaiting (set_monitor (inherit true m) o) true
                           (if mo_cancelled m then None else Some ReadFailed)) c, h)
  | UcScan ev, UcLoop o true =>
      o ← scanner_turn (h_cancelled h) ev o; Some (set_command (UcLoop o true) c, h)
  | UcScan ev, UcWaiting o true err =>
      o ← scanner_turn (h_cancelled h) ev o; Some (set_command (UcWaiting o true err) c, h)
  | UcScannerStops, UcLoop o true =>
      if mo_cancelled (inherit (h_cancelled h) (co_monitor o)) then Some (set_command (UcLoop (detach o) false) c, h) else None
  | UcScannerStops, UcWaiting o true err =>
      if mo_cancelled (inherit (h_cancelled h) (co_monitor o)) then Some (set_command (UcWaiting (detach o) false err) c, h) else None
  | UcReadClosed, UcLoop o false => Some (set_command (UcWaiting o false None) c, h)
  | UcWaited, UcWaiting o false err => Some (set_command (UcReturned (Some (shut_down o)) err) c, h)
  | _, _ => None
  end.

#[global] Instance controller_goroutine : Goroutine (controller N M) (controller_event N M) hub := {
  g_next := controller_next;
  g_internal e := match e with UcRecord _ _ | UcReadFails | UcScan _ => false | _ => true end;
  g_running c := match uc_phase c with UcReturned _ _ => false | _ => true end }.

(** ** It stops *)
Definition controller_measure (c : controller N M) : nat :=
  match uc_phase c with
  | UcStarting => 4
  | UcLoop _ scanning => 2 + (if scanning then 1 else 0)
  | UcWaiting _ scanning _ => 1 + (if scanning then 1 else 0)
  | UcReturned _ _ => 0
  end.

Lemma command_start_phase cfg b cancelled :
  (controller_measure (MkCtl cfg (command_start cfg b cancelled)) <= 3)%nat.
Proof.
  unfold command_start, command_attach. repeat case_match; cbn; lia.
Qed.

Lemma command_record_later now sample mode h :
  later h (command_record now sample mode h) ∧ queue_kept h (command_record now sample mode h) ∧
  (waiting (command_record now sample mode h) <= waiting h + 1)%nat.
Proof.
  unfold command_record. destruct (decodeCommandEvent sample mode) as [[a|]|];
    [split_and!; [apply later_alert|apply kept_alert|apply waiting_alert]| |];
    (split_and!; [reflexivity|reflexivity|lia]).
Qed.

Lemma controller_next_later e c h c' h' :
  controller_next e c h = Some (c', h') → later h h' ∧ queue_kept h h' ∧
  (controller_measure c' + waiting h' + (if g_internal e then 1 else 0) <=
   controller_measure c + waiting h + (if g_internal e then 0 else 1))%nat.
Proof.
  unfold controller_next.
  destruct e as [b|now sample| |ev| | |]; cbn [g_internal controller_goroutine].
  - destruct (uc_phase c) eqn:Hph; try done. intros [= <- <-]. split_and!; [reflexivity|reflexivity|].
    pose proof (command_start_phase (uc_cfg c) b (h_cancelled h)). unfold controller_measure in *. cbn in *. rewrite Hph. lia.
  - destruct (uc_phase c) as [|o []| |]; try done. intros [= <- <-].
    destruct (command_record_later now sample (uc_Mode (uc_cfg c)) h) as (? & ? & ?). split_and!; [done|done|lia].
  - destruct (uc_phase c) as [|o []| |] eqn:Hph; try done. intros [= <- <-]. split_and!; [reflexivity|reflexivity|].
    unfold controller_measure. cbn. rewrite Hph. lia.
  - destruct (uc_phase c) as [|o []|o [] err|] eqn:Hph; try done;
      (destruct (scanner_turn _ _ _) as [o'|]; [|done]); intros [= <- <-]; (split_and!; [reflexivity|reflexivity|]);
      unfold controller_measure; cbn; rewrite Hph; lia.
  - destruct (uc_phase c) as [|o []|o [] err|] eqn:Hph; try done; (destruct (mo_cancelled _); [|done]);
      intros [= <- <-]; (split_and!; [reflexivity|reflexivity|]); unfold controller_measure; cbn; rewrite Hph; lia.
  - destruct (uc_phase c) as [|o []| |] eqn:Hph; try done. intros [= <- <-]. split_and!; [reflexivity|reflexivity|].
    unfold controller_measure. cbn. rewrite Hph. lia.
  - destruct (uc_phase c) as [| |o [] err|] eqn:Hph; try done. intros [= <- <-]. split_and!; [reflexivity|reflexivity|].
    unfold controller_measure. cbn. rewrite Hph. lia.
Qed.

#[global] Instance controller_later : Respects (controller N M) (controller_event N M) hub later.
Proof. by intros e c h c' h' (? & _ & _)%controller_next_later. Qed.
#[global] Instance controller_kept : Respects (controller N M) (controller_event N M) hub queue_kept.
Proof. by intros e c h c' h' (_ & ? & _)%controller_next_later. Qed.

#[global] Program Instance controller_stops : Stops (controller N M) (controller_event N M) hub := {
  g_measure := controller_measure; g_burst := 1 }.
Next Obligation. intros e c h c' h' ([Hc _ _ _] & _ & _)%controller_next_later. exact Hc. Qed.
Next Obligation.
  intros c h Hs Hr. cbn in Hs, Hr. cbn [g_next controller_goroutine]. unfold controller_next.
  set (no_boot := MkCommandBoot (N := N) (M := M) 1 None false None false (MkSync None [] [] (λ _, 0) 0) (MkSync None [] [] (λ _, 0) 0) false false false).
  destruct (uc_phase c) as [|o []|o [] err|] eqn:Hph;
    [exists (UcStart no_boot)|exists UcScannerStops|exists UcReadClosed|exists UcScannerStops|exists UcWaited|done];
    (split; [done|]); unfold inherit; cbn [mo_cancelled]; rewrite ?Hs, ?orb_true_r; by eexists.
Qed.
Next Obligation. by intros e c h c' h' _ (_ & _ & ?)%controller_next_later. Qed.
End Controller.

(** ** What is left when it returns *)
Section Closed.
Context {E P N M : Type} `{Json, KernelMaps N, KernelMaps M, GoQuote}.
Abbreviation hub := (HubState.hub E P).
Implicit Types (m : monitor N M) (o : command_objects N M).

Definition nothing_open m : Prop := open_handles m = [] ∧ mo_closed m = [].

Definition handles_ok o : Prop := open_handles (co_monitor o) ++ mo_closed (co_monitor o) ≡ₚ co_opened o.
Definition shut o : Prop := open_handles (co_monitor o) = [] ∧ co_attached o = false.

Definition phase_ok (ph : command_phase N M) : Prop :=
  match ph with
  | UcStarting | UcReturned None _ => True
  | UcLoop o _ | UcWaiting o _ _ => handles_ok o
  | UcReturned (Some o) _ => handles_ok o ∧ shut o
  end.

Lemma close_namespaces_handles m : open_handles (close_namespaces m) = [].
Proof. reflexivity. Qed.
Lemma close_namespaces_closed m opened :
  open_handles m ++ mo_closed m ≡ₚ opened → mo_closed (close_namespaces m) ≡ₚ opened.
Proof. intros <-. cbn. apply Permutation_app_comm. Qed.
Lemma inherit_handles cancelled m :
  open_handles (inherit cancelled m) = open_handles m ∧ mo_closed (inherit cancelled m) = mo_closed m.
Proof. done. Qed.

Lemma command_attach_ok cfg b m : nothing_open m → phase_ok (command_attach cfg b m).
Proof.
  intros [Ho Hcl]. unfold command_attach. destruct (cb_Updates b); cbn [negb].
  2: { cbn. split; [|done]. unfold handles_ok. cbn [co_monitor co_opened]. by rewrite close_namespaces_handles, close_namespaces_closed by (by rewrite Ho, Hcl). }
  set (uids := default [] (ok_opt _)).
  pose proof (scan_handles uids (cb_namespaces b) (cb_mounts b) m) as Hs. cbn zeta in Hs. rewrite Ho, Hcl in Hs. cbn [app] in Hs.
  destruct (scan uids (cb_namespaces b) (cb_mounts b) m) as [m' err]. cbn [fst] in Hs.
  assert (Hret : ∀ settings commands armed err', phase_ok (UcReturned (Some (MkObjects uids commands settings (close_namespaces m') false
    armed (opened_scan uids (cb_namespaces b) (cb_mounts b) m))) err')).
  { intros. cbn. split; [|done]. unfold handles_ok. cbn [co_monitor co_opened].
    by rewrite close_namespaces_handles, (close_namespaces_closed _ _ Hs). }
  destruct err as [err|]; [apply Hret|].
  destruct (cb_Settings b); cbn [negb]; [|apply Hret]. destruct (cb_NewReader b); cbn [negb]; [|apply Hret].
  destruct (cb_AttachLSM b); cbn [negb]; [|apply Hret]. exact Hs.
Qed.

Lemma command_start_ok cfg b cancelled :
  (∀ m, cb_objects b = Some m → nothing_open m) → phase_ok (command_start cfg b cancelled).
Proof.
  intros Hb. unfold command_start. repeat (case_match; try exact I). apply command_attach_ok.
  destruct (Hb _ eq_refl) as [Ho Hc]. by split.
Qed.

Lemma scanner_turn_ok cancelled ev o o' : handles_ok o → scanner_turn cancelled ev o = Some o' → handles_ok o'.
Proof.
  intros Ho Ht.
  assert (Hs : ∃ armed, o' = MkObjects (co_uids o) (co_commands o) (co_settings o)
    (monitor_step (co_uids o) (inherit cancelled (co_monitor o)) ev) (co_attached o) armed
    (co_opened o ++ opened_step (co_uids o) ev (inherit cancelled (co_monitor o)))).
  { unfold scanner_turn in Ht. destruct ev; [injection Ht as <-; eauto|].
    destruct (co_armed o); [|done]. destruct (_ <=? _); [|done]. injection Ht as <-. eauto. }
  destruct Hs as [armed ->]. unfold handles_ok in *. cbn [co_monitor co_opened].
  pose proof (monitor_step_handles (co_uids o) ev (inherit cancelled (co_monitor o))) as Hm. cbn zeta in Hm.
  rewrite Hm, <- Ho. by rewrite <- app_assoc.
Qed.

(** The maps of every program that is loaded belong to no scan yet. *)
Definition boots_fresh (es : list (controller_event N M)) : Prop :=
  ∀ b m, UcStart b ∈ es → cb_objects b = Some m → nothing_open m.

Lemma controller_next_ok e c (h : hub) c' h' :
  boots_fresh [e] → phase_ok (uc_phase c) → controller_next e c h = Some (c', h') → phase_ok (uc_phase c').
Proof.
  intros Hb Hc. unfold controller_next.
  destruct e as [b|now sample| |ev| | |]; destruct (uc_phase c) as [|o []|o [] err|] eqn:Hph; try done.
  - intros [= <- <-]. apply command_start_ok. intros m. by apply Hb, list_elem_of_singleton.
  - intros [= <- <-]. by rewrite Hph.
  - intros [= <- <-]. exact Hc.
  - destruct (scanner_turn _ _ _) as [o'|] eqn:Ht; [|done]. intros [= <- <-]. by eapply (scanner_turn_ok _ ev o).
  - destruct (scanner_turn _ _ _) as [o'|] eqn:Ht; [|done]. intros [= <- <-]. by eapply (scanner_turn_ok _ ev o).
  - destruct (mo_cancelled _); [|done]. intros [= <- <-]. exact Hc.
  - destruct (mo_cancelled _); [|done]. intros [= <- <-]. exact Hc.
  - intros [= <- <-]. exact Hc.
  - intros [= <- <-]. cbn. split; [|done]. unfold handles_ok, shut_down. cbn [co_monitor co_opened detach set_monitor].
    by rewrite close_namespaces_handles, (close_namespaces_closed _ _ Hc).
Qed.

Lemma controller_run_ok es c (h : hub) c' h' :
  boots_fresh es → phase_ok (uc_phase c) → g_run es c h = Some (c', h') → phase_ok (uc_phase c').
Proof.
  revert c h. induction es as [|e es IH]; intros c h Hb Hc; cbn [g_run]; [by intros [= <- <-]|].
  destruct (g_next e c h) as [[c1 h1]|] eqn:Hn; [|done]. cbn. apply IH.
  - intros b m Hin. apply Hb. by right.
  - eapply controller_next_ok; [|exact Hc|exact Hn]. intros b m Hin%list_elem_of_singleton. subst e. apply Hb. by left.
Qed.
End Closed.

(** C18: The namespace handles of the user command controller, at every moment of every run,
    whatever its scans, activations and failures: while it runs those it opened are those
    in its tables and those it closed, each once; when it has returned it has closed
    exactly those it opened, none twice, its tables are empty and the LSM program is
    detached. *)
Theorem controller_closes_handles {E P N M} `{Json, KernelMaps N, KernelMaps M, GoQuote}
    cfg es (h h' : hub E P) (c' : controller N M) :
  boots_fresh es → g_run es (MkCtl cfg UcStarting) h = Some (c', h') →
  match uc_phase c' with
  | UcStarting | UcReturned None _ => True
  | UcLoop o _ | UcWaiting o _ _ => open_handles (co_monitor o) ++ mo_closed (co_monitor o) ≡ₚ co_opened o
  | UcReturned (Some o) _ =>
      mo_closed (co_monitor o) ≡ₚ co_opened o ∧ open_handles (co_monitor o) = [] ∧ co_attached o = false
  end.
Proof.
  intros Hb Hr. apply controller_run_ok in Hr; [|done|done]. destruct (uc_phase c') as [|o ?|o ? ?|[o|] ?]; try done.
  destruct Hr as [Hh [Ho Ha]]. unfold handles_ok in Hh. rewrite Ho in Hh. by split_and!.
Qed.
