(* ===== verification/HubCommandPolicy.v ===== *)
(** * The command controller as the hub runs it denies only what the policy blocks

    The invariant of CommandRun along the runs of [userCommandControllerMonitor.Run]: from
    the checks of its start, which make the target lists valid, through the first scan and
    the turns of its goroutine under a context that may be cancelled at any moment.  What
    the policy says is said of the [uid_map]s the run itself has read ([uid_map_read]). *)

From S2P Require Import Prelude.
From S2P Require Import GoStrings.
From S2P Require Import Policy.
From S2P Require Import Config.
From S2P Require Import ConfigValidate.
From S2P Require Import Protocol.
From S2P Require Import CommandController.
From S2P Require Import CommandPolicy.
From S2P Require Import CommandGate.
From S2P Require Import CommandRun.
From S2P Require Import CommandHandles.
From S2P Require Import HubEvents.
From S2P Require Import Goroutines.
From S2P Require Import HubState.
From S2P Require Import HubCommand.

Section Policy.
Context {E P N M : Type} `{Json, KernelMapsLaws N, KernelMapsLaws M, GoQuote}.
Abbreviation hub := (HubState.hub E P).
Variable cfg : UserCommandExecutionController.
(** The [uid_map]s that were seen of the namespaces. *)
Variable seen : Z → string → Prop.
Implicit Types (m : monitor N M) (o : command_objects N M).

(** What the checks of [Run] and the writes of its start establish. *)
Record started (uids : list Z) (commands : list string) o : Prop := {
  st_uids : ParseUIDs (items (TargetUsersIDs cfg)) = Ok uids ∧ co_uids o = uids;
  st_commands : NormalizeCommands (items (TargetCommands cfg)) = Ok commands ∧
    co_commands o = list_to_set (map command_key commands);
  st_block : BlockType cfg = "positive" ∨ BlockType cfg = "negative";
  st_settings : co_settings o = kernel_config cfg uids commands;
  st_run : run_ok seen uids (co_monitor o) }.

(** The controllers whose program is attached. *)
Definition phase_started (ph : command_phase N M) : Prop :=
  match ph with
  | UcLoop o _ | UcWaiting o _ _ => ∃ uids commands, started uids commands o
  | _ => True
  end.

Lemma inherit_run_ok uids cancelled m : run_ok seen uids m → run_ok seen uids (inherit cancelled m).
Proof.
  intros Hr Hn. destruct (Hr Hn) as [Hgen Hns Hms]. destruct cancelled.
  - split; [done| |]; cbn [inherit mo_cancelled mo_maps mo_mounts mo_current mo_currentMounts mo_generation];
      rewrite orb_true_r; by eapply side_cancel.
  - split; [done| |]; cbn [inherit mo_cancelled mo_maps mo_mounts mo_current mo_currentMounts mo_generation];
      by rewrite orb_false_r.
Qed.

Lemma started_monitor uids commands o m attached armed opened :
  started uids commands o → run_ok seen uids m →
  started uids commands (MkObjects (co_uids o) (co_commands o) (co_settings o) m attached armed opened).
Proof. by intros [? ? ? ? _] Hr. Qed.

Lemma validateController_targets :
  bool_decide (uc_Mode cfg = EmptyString) || bool_decide (uc_Mode cfg = "disabled") = false → validateController cfg = Ok tt →
  (BlockType cfg = "positive" ∨ BlockType cfg = "negative") ∧
  ∃ uids commands, ParseUIDs (items (TargetUsersIDs cfg)) = Ok uids ∧ NormalizeCommands (items (TargetCommands cfg)) = Ok commands.
Proof.
  intros Hmode Hv. unfold validateController in Hv.
  match type of Hv with (if ?b then _ else _) = _ => change b with (bool_decide (uc_Mode cfg = EmptyString) || bool_decide (uc_Mode cfg = "disabled")) in Hv end.
  rewrite Hmode in Hv. destruct (_ && _); [done|].
  destruct (bool_decide (BlockType cfg = "positive")) eqn:Hp, (bool_decide (BlockType cfg = "negative")) eqn:Hq; cbn in Hv; try done;
    (split; [bool_hyps; try (by left); by right|]);
    (destruct (ParseUIDs _) as [uids|]; [|done]); (destruct (NormalizeCommands _) as [commands|]; [|done]); by exists uids, commands.
Qed.

(** The programs loaded have empty maps. *)
Definition boots_empty (es : list (controller_event N M)) : Prop :=
  ∀ b m, UcStart b ∈ es → cb_objects b = Some m → fresh m.

(** The [uid_map]s of all its scans were seen. *)
Definition start_sees (b : command_boot N M) : Prop := sees seen (cb_namespaces b).
Definition events_seen (es : list (controller_event N M)) : Prop :=
  (∀ b, UcStart b ∈ es → start_sees b) ∧ (∀ ev, UcScan ev ∈ es → event_sees seen ev).

Lemma inherit_fresh cancelled m : fresh m → fresh (inherit cancelled m).
Proof. by intros [? ? ?]. Qed.

Lemma command_start_started b cancelled :
  start_sees b → (∀ m, cb_objects b = Some m → fresh m) → phase_started (command_start cfg b cancelled).
Proof.
  intros Hsees Hb. unfold command_start. destruct (_ || _) eqn:Hmode; [done|].
  destruct (validateController cfg) as [[]|] eqn:Hv; [|done].
  destruct (validateController_targets Hmode Hv) as (Hblock & uids & commands & Hu & Hc).
  destruct (negb (cb_Geteuid b =? 0)); [done|]. destruct (cb_uid_map b); [|done]. destruct (negb (host_uid_map _)); [done|].
  destruct (negb (cb_RemoveMemlock b)); [done|]. destruct (cb_objects b) as [m|]; [|done].
  pose proof (inherit_fresh cancelled m (Hb m eq_refl)) as Hf. generalize dependent (inherit cancelled m). clear m Hb. intros m Hf.
  unfold command_attach. rewrite Hu, Hc. cbn [ok_opt default id]. destruct (negb (cb_Updates b)); [done|].
  destruct (scan uids (cb_namespaces b) (cb_mounts b) m) as [m' [err|]] eqn:Hs; [done|].
  destruct (negb (cb_Settings b)); [done|]. destruct (negb (cb_NewReader b)); [done|]. destruct (negb (cb_AttachLSM b)); [done|].
  exists uids, commands. split; [done|done|done|done|]. cbn [co_monitor]. intros Hn.
  assert (Hn' : ControllerFailed GenerationExhausted ∉ mo_errors m).
  { pose proof (scan_quiet uids (cb_namespaces b) (cb_mounts b) m) as Hq. rewrite Hs in Hq. simpl in Hq. by rewrite <- Hq. }
  destruct (scan_part seen uids (cb_namespaces b) (cb_mounts b) Hsees m m' None (fresh_ok seen uids m Hf Hn') Hs) as [?|Hr]; [done|exact Hr].
Qed.

Lemma scanner_turn_started cancelled ev o o' uids commands :
  event_sees seen ev → started uids commands o → scanner_turn cancelled ev o = Some o' → started uids commands o'.
Proof.
  intros Hsees Ho Ht.
  assert (Hr : run_ok seen uids (monitor_step (co_uids o) (inherit cancelled (co_monitor o)) ev)).
  { destruct Ho as [[_ ->] _ _ _ Hr]. by apply (monitor_run_ok seen uids [ev]); [by constructor|apply inherit_run_ok]. }
  unfold scanner_turn in Ht. destruct ev; [injection Ht as <-; by apply started_monitor|].
  destruct (co_armed o); [|done]. destruct (_ <=? _); [|done]. injection Ht as <-. by apply started_monitor.
Qed.

Lemma controller_next_started e (c c' : controller N M) (h h' : hub) :
  boots_empty [e] → events_seen [e] → uc_cfg c = cfg → phase_started (uc_phase c) → controller_next e c h = Some (c', h') →
  uc_cfg c' = cfg ∧ phase_started (uc_phase c').
Proof.
  intros Hb [Hs1 Hs2] Hcfg Hc. unfold controller_next.
  destruct e as [b|now sample| |ev| | |]; destruct (uc_phase c) as [|o []|o [] err|] eqn:Hph; try done.
  - intros [= <- <-]. split; [done|]. cbn [set_command uc_phase]. rewrite Hcfg. apply command_start_started; [by apply Hs1, list_elem_of_singleton|].
    intros m. by apply Hb, list_elem_of_singleton.
  - intros [= <- <-]. split; [done|]. by rewrite Hph.
  - intros [= <- <-]. split; [done|]. destruct Hc as (uids & commands & Ho). exists uids, commands.
    apply started_monitor; [done|]. apply inherit_run_ok, inherit_run_ok, Ho.
  - destruct (scanner_turn _ _ _) as [o'|] eqn:Ht; [|done]. intros [= <- <-]. split; [done|].
    destruct Hc as (uids & commands & Ho). exists uids, commands. eapply (scanner_turn_started _ ev o); [by apply Hs2, list_elem_of_singleton|done|done].
  - destruct (scanner_turn _ _ _) as [o'|] eqn:Ht; [|done]. intros [= <- <-]. split; [done|].
    destruct Hc as (uids & commands & Ho). exists uids, commands. eapply (scanner_turn_started _ ev o); [by apply Hs2, list_elem_of_singleton|done|done].
  - destruct (mo_cancelled _); [|done]. intros [= <- <-]. split; [done|].
    destruct Hc as (uids & commands & [? ? ? ? ?]). by exists uids, commands.
  - destruct (mo_cancelled _); [|done]. intros [= <- <-]. split; [done|].
    destruct Hc as (uids & commands & [? ? ? ? ?]). by exists uids, commands.
  - intros [= <- <-]. by split.
  - intros [= <- <-]. by split.
Qed.

Lemma controller_run_started es (c c' : controller N M) (h h' : hub) :
  boots_empty es → events_seen es → uc_cfg c = cfg → phase_started (uc_phase c) → g_run es c h = Some (c', h') →
  phase_started (uc_phase c').
Proof.
  revert c h. induction es as [|e es IH]; intros c h Hb Hs Hcfg Hc; cbn [g_run]; [by intros [= <- <-]|].
  destruct (g_next e c h) as [[c1 h1]|] eqn:Hn; [|done]. cbn. apply controller_next_started in Hn as [Hcfg1 Hc1]; [..|done|done].
  - apply IH; [| |done|done].
    + intros b m Hin. apply Hb. by right.
    + split; intros x Hx; apply Hs; by right.
  - intros b m Hin%list_elem_of_singleton. subst e. apply Hb. by left.
  - split; intros x Hx%list_elem_of_singleton; subst e; apply Hs; by left.
Qed.
End Policy.

(** The controller read [mapping] as the [uid_map] of the user namespace [ns], in the scan of
    its start or in one of a tick. *)
Definition uid_map_read {N M} (es : list (controller_event N M)) (ns : Z) (mapping : string) : Prop :=
  (∃ b, UcStart b ∈ es ∧ uid_map_of (cb_namespaces b) ns mapping) ∨
  (∃ si mounts, UcScan (ScanTick si mounts) ∈ es ∧ uid_map_of si ns mapping).

Lemma events_read {N M} (es : list (controller_event N M)) : events_seen (uid_map_read es) es.
Proof.
  split.
  - intros b Hb ns mapping Hm. left. by exists b.
  - intros [si mounts|] He; [|done]. intros ns mapping Hm. right. by exists si, mounts.
Qed.

(** C2: Whatever the command controller goes through as a goroutine of the hub, from its
    start to its return, and whatever write fails: as long as its program is attached an
    execution is denied or reported only if the configured policy blocks it.  The task is
    neither root of the host nor root of its user namespace, and [WouldBlock] of [Selected]
    holds for the block type, the configured commands and the uids of the host that a
    [uid_map] makes of the configured ones - a [uid_map] the controller itself read of that
    very namespace in a scan of this run.  It is denied in blocker mode only.  The target
    lists are valid by the checks of the start; the program reads the maps at instants of
    the run; they were empty when it was loaded, and the 64-bit generations have not run
    out. *)
Theorem controller_denies_only_policy {E P N M} `{Json, KernelMapsLaws N, KernelMapsLaws M, GoQuote}
    cfg es (h h' : hub E P) (c' : controller N M) (o : command_objects N M) scanning t name at_ reserved r ev :
  boots_empty es → g_run es (MkCtl cfg UcStarting) h = Some (c', h') → uc_phase c' = UcLoop o scanning →
  ControllerFailed GenerationExhausted ∉ mo_errors (co_monitor o) →
  reads (snd (mo_maps (co_monitor o))) at_ → m_commands (at_ 3%nat) = co_commands o → plain_name name →
  user_command_controller 0 (co_settings o) t (Some name) at_ reserved = (r, ev) → r ≠ 0 ∨ ev ≠ None →
  ∃ uids commands, ParseUIDs (items (TargetUsersIDs cfg)) = Ok uids ∧
    NormalizeCommands (items (TargetCommands cfg)) = Ok commands ∧
    denied_by_policy (uid_map_read es) cfg uids commands t name ∧
    r = if bool_decide (uc_Mode cfg = "blocker") then - EPERM else 0.
Proof.
  intros Hb Hr Hph Herr Hreads Hcmd Hname Hp Hout.
  apply (controller_run_started cfg (uid_map_read es)) in Hr; [|done|apply events_read|done|done]. rewrite Hph in Hr.
  destruct Hr as (uids & commands & [[Hu _] [Hc Hkeys] Hblock Hset Hrun]). exists uids, commands. split; [done|]. split; [done|].
  rewrite Hset in Hp. eapply (run_inv_denies (uid_map_read es) cfg uids commands (co_monitor o)); [done|done|exact (Hrun Herr)|done|by rewrite Hcmd|done|done|done].
Qed.
