(* ===== verification/Cryptography.v ===== *)
(** * pkg/cryptography: the messages of the connector

    A message travels as the RSA-encrypted AES key, the 12-byte nonce and the AES-GCM
    ciphertext, one after the other.  The primitives of crypto/rsa and crypto/aes are the
    class [Primitives]; reading random bytes may fail. *)

From S2P Require Import Prelude.
From S2P Require Import GoStrings.

Abbreviation octets := (list ascii).

(** [R] is the state of [cryptorand.Reader].  A cipher is one of a key whose length
    [aes.NewCipher] accepts. *)
Class Primitives (R PublicKey PrivateKey : Type) := {
  ReadFull : nat → R → R * option octets;
  rsa_GenerateKey : Z → R → R * option PrivateKey;
  public_key : PrivateKey → PublicKey;
  rsa_Size : PrivateKey → nat;
  EncryptOAEP : PublicKey → octets → R → R * option octets;
  DecryptOAEP : PrivateKey → octets → option octets;
  gcm_Seal : octets → octets → octets → octets;           (* key, nonce, plaintext *)
  gcm_Open : octets → octets → octets → option octets }.  (* key, nonce, ciphertext *)

Inductive crypto_err : Type :=
| RandFailed
| BadKeySize
| OAEPFailed
| OpenFailed
| ErrWrongMessageLen.

(** [aes.NewCipher]. *)
Definition aes_key (key : octets) : bool :=
  (length key =? 16)%nat || (length key =? 24)%nat || (length key =? 32)%nat.
(** [cipher.NewGCM(block).NonceSize()]. *)
Definition NonceSize : nat := 12.

Section Messages.
Context {R PublicKey PrivateKey : Type} `{Primitives R PublicKey PrivateKey}.

(** The ciphertext and the nonce. *)
Definition encryptWithAES (key plaintext : octets) (r : R) : R * result crypto_err (octets * octets) :=
  if negb (aes_key key) then (r, Err BadKeySize)
  else
    let '(r, nonce) := ReadFull NonceSize r in
    match nonce with
    | None => (r, Err RandFailed)
    | Some nonce => (r, Ok (gcm_Seal key nonce plaintext, nonce))
    end.

Definition decryptWithAES (key nonce ciphertext : octets) : result crypto_err octets :=
  if negb (aes_key key) then Err BadKeySize
  else match gcm_Open key nonce ciphertext with None => Err OpenFailed | Some plaintext => Ok plaintext end.

Definition EncryptMessage (publicKey : PublicKey) (message : octets) (r : R) : R * result crypto_err octets :=
  let '(r, aesKey) := ReadFull 32 r in
  match aesKey with
  | None => (r, Err RandFailed)
  | Some aesKey =>
      let '(r, encrypted) := encryptWithAES aesKey message r in
      match encrypted with
      | Err e => (r, Err e)
      | Ok (encryptedData, iv) =>
          let '(r, encryptedAESKey) := EncryptOAEP publicKey aesKey r in
          match encryptedAESKey with
          | None => (r, Err OAEPFailed)
          | Some encryptedAESKey => (r, Ok ((encryptedAESKey ++ iv) ++ encryptedData))
          end
      end
  end.

Definition DecryptMessage (privateKey : PrivateKey) (cipherData : octets) : result crypto_err octets :=
  let keySize := rsa_Size privateKey in
  if (length cipherData <? keySize + 12)%nat then Err ErrWrongMessageLen
  else
    let encryptedAESKey := take keySize cipherData in
    let iv := take 12 (drop keySize cipherData) in
    let encryptedData := drop (keySize + 12) cipherData in
    match DecryptOAEP privateKey encryptedAESKey with
    | None => Err OAEPFailed
    | Some aesKey => decryptWithAES aesKey iv encryptedData
    end.

Definition GenerateKeys (bits : Z) (r : R) : R * option (PrivateKey * PublicKey) :=
  let '(r, key) := rsa_GenerateKey bits r in
  (r, (λ key, (key, public_key key)) <$> key).
End Messages.

(** ** What the primitives promise *)
Class PrimitivesLaws (R PublicKey PrivateKey : Type) `{Primitives R PublicKey PrivateKey} : Prop := {
  ReadFull_length n (r r' : R) l : ReadFull n r = (r', Some l) → length l = n;
  OAEP_roundtrip (key : PrivateKey) m (r r' : R) c :
    EncryptOAEP (public_key key) m r = (r', Some c) → length c = rsa_Size key ∧ DecryptOAEP key c = Some m;
  gcm_roundtrip key nonce m : gcm_Open key nonce (gcm_Seal key nonce m) = Some m }.

(** C22: A message encrypted for a key pair is read back with its private key, whatever its
    length. *)
Theorem DecryptMessage_EncryptMessage {R PublicKey PrivateKey} `{PrimitivesLaws R PublicKey PrivateKey}
    (key : PrivateKey) message (r r' : R) data :
  EncryptMessage (public_key key) message r = (r', Ok data) → DecryptMessage key data = Ok message.
Proof.
  unfold EncryptMessage. destruct (ReadFull 32 r) as [r1 [aes|]] eqn:Hk; [|done].
  unfold encryptWithAES. apply ReadFull_length in Hk. destruct (aes_key aes) eqn:Ha; [|done]. cbn [negb].
  destruct (ReadFull NonceSize r1) as [r2 [iv|]] eqn:Hn; [|done]. apply ReadFull_length in Hn.
  destruct (EncryptOAEP (public_key key) aes r2) as [r3 [c|]] eqn:Ho; [|done]. apply OAEP_roundtrip in Ho as [Hc Hd].
  intros [= _ <-]. unfold DecryptMessage. unfold NonceSize in Hn.
  assert (Hlen : length (c ++ iv) = (rsa_Size key + 12)%nat) by (rewrite length_app; lia).
  assert (Hl : (length ((c ++ iv) ++ gcm_Seal aes iv message) <? rsa_Size key + 12)%nat = false).
  { apply Nat.ltb_ge. rewrite length_app. lia. }
  rewrite Hl, <- Hlen, drop_app_length, <- (app_assoc c), <- Hc, take_app_length, Hd, drop_app_length.
  rewrite <- Hn, take_app_length. unfold decryptWithAES. by rewrite Ha, gcm_roundtrip.
Qed.

(** ** Primitives that hide nothing, for the witness *)
Inductive toy_rand : Type := ToyRand.
Inductive toy_key : Type := ToyKey.
#[global] Instance toy_primitives : Primitives toy_rand toy_key toy_key := {
  ReadFull n r := (r, Some (replicate n zero));
  rsa_GenerateKey _ r := (r, Some ToyKey);
  public_key k := k;
  rsa_Size _ := 32%nat;
  EncryptOAEP _ m r := (r, if (length m =? 32)%nat then Some m else None);
  DecryptOAEP _ c := Some c;
  gcm_Seal _ _ m := m;
  gcm_Open _ _ c := Some c }.
#[global] Instance toy_laws : PrimitivesLaws toy_rand toy_key toy_key.
Proof.
  split.
  - intros n r r' l. simpl. intros [= _ <-]. apply length_replicate.
  - intros key m r r' c. simpl. destruct (length m =? 32)%nat eqn:Hl; [|done]. intros [= _ <-].
    split; [by apply Nat.eqb_eq|done].
  - done.
Qed.

Lemma DecryptMessage_EncryptMessage_witness :
  DecryptMessage (R := toy_rand) ToyKey (replicate 32 zero ++ replicate 12 zero ++ bytes "hello") = Ok (bytes "hello").
Proof. apply (DecryptMessage_EncryptMessage (R := toy_rand) ToyKey (bytes "hello") ToyRand ToyRand). reflexivity. Defined.
