(* ===== verification/Connector.v ===== *)
(** * pkg/connector: the client of the dashboard

    connector.go over one world [E]: the websocket library, the random source, the file
    system, the network interfaces and the clock.  What is not the connector's own code
    are the classes [Websocket], [KeyText], [Primitives], [FS], [Yaml], [Json], [Regexp];
    the read limit and the ping handler it sets on a connection are not modelled. *)

From S2P Require Import Prelude.
From S2P Require Import GoStrings.
From S2P Require Import Config.
From S2P Require Import ConfigValidate.
From S2P Require Import ConfigLoad.
From S2P Require Import BanPool.
From S2P Require Import Protocol.
From S2P Require Import Cryptography.

Definition agentVersion : string := "v1.5.2".
Definition keyBits : Z := 2048.
Definition handshakeTimeout : Z := 30 * second.
Definition readWait : Z := 90 * second.
Definition writeWait : Z := 15 * second.
Definition minRetrySleep : Z := 5.
Definition maxRetrySleep : Z := 100.
Definition retrySleepStep : Z := 10.

(** ** What the connector uses *)
Class Websocket (E Conn : Type) := {
  Dial : string → E → E * option Conn;
  SetReadDeadline : Conn → Z → E → E * bool;
  ReadMessage : Conn → E → E * option octets;
  SetWriteDeadline : Conn → Z → E → E * bool;
  WriteMessage : Conn → octets → E → E * bool;
  ws_Close : Conn → E → E }.

Class Host (E : Type) := {
  time_Now : E → Z;
  interfaceAddrs : E → option (list net_addr);
  canRead : E → string → bool }.            (* os.Open of a log file *)

(** Base64 of the PKCS1 form of a public key. *)
Class KeyText (PublicKey : Type) := {
  base64_DecodeString : string → option octets;
  ParsePKCS1PublicKey : octets → option PublicKey;
  encoded_key : PublicKey → string }.

Inductive connector_err : Type :=
| ErrSomethingWrongInWriteChanel
| ErrWebscoketIsNull
| ErrBadEndpointKey
| ErrCantDialEndpoint
| ErrUnexpectedMessage (service operation : string)
| ErrUnsupportedVersion (version : Z)
| ErrBadConfigPayload
| ErrInvalidConfig (problems : list problem)
| ProtocolFailed (e : protocol_err)
| ConfigFailed (e : config_err)
| CryptoFailed (e : crypto_err)
| KeysFailed
| NilKey                       (* crypto/rsa panics on a nil key *)
| JsonFailed
| TransportFailed.

(** [restart] tells whether its one place is taken, [cancelled] whether [cancel] was
    called. *)
Record connector (PublicKey PrivateKey Conn : Type) := MkConnector {
  cn_cfg : Config; configPath : string; cancelled : bool; restart : bool;
  privateKey : option PrivateKey; publicKey : option PublicKey; serverKey : option PublicKey;
  ws : option Conn }.
Arguments MkConnector {_ _ _}. Arguments cn_cfg {_ _ _}. Arguments configPath {_ _ _}. Arguments cancelled {_ _ _}.
Arguments restart {_ _ _}. Arguments privateKey {_ _ _}. Arguments publicKey {_ _ _}. Arguments serverKey {_ _ _}.
Arguments ws {_ _ _}.

Section Connector.
Context {E Conn PublicKey PrivateKey RE : Type}.
Context `{Websocket E Conn, Host E, FS E, Yaml, Json, Regexp RE, Primitives E PublicKey PrivateKey, KeyText PublicKey}.
(** [err.Error()]. *)
Variable Error : connector_err → string.
Abbreviation conn := (connector PublicKey PrivateKey Conn).

Definition set_keys (priv : option PrivateKey) (pub : option PublicKey) (c : conn) : conn :=
  MkConnector (cn_cfg c) (configPath c) (cancelled c) (restart c) priv pub (serverKey c) (ws c).
Definition set_serverKey (k : option PublicKey) (c : conn) : conn :=
  MkConnector (cn_cfg c) (configPath c) (cancelled c) (restart c) (privateKey c) (publicKey c) k (ws c).
Definition set_ws (s : option Conn) (c : conn) : conn :=
  MkConnector (cn_cfg c) (configPath c) (cancelled c) (restart c) (privateKey c) (publicKey c) (serverKey c) s.

(** ** Sending and reading *)
Definition send (message : Envelope) (c : conn) (e : E) : E * option connector_err :=
  match ws c with
  | None => (e, Some ErrWebscoketIsNull)
  | Some sock =>
      match json_Marshal_Envelope message with
      | None => (e, Some JsonFailed)
      | Some raw =>
          match serverKey c with
          | None => (e, Some NilKey)
          | Some key =>
              let '(e, encrypted) := EncryptMessage key (bytes raw) e in
              match encrypted with
              | Err err => (e, Some (CryptoFailed err))
              | Ok encrypted =>
                  let '(e, ok) := SetWriteDeadline sock (time_Now e + writeWait) e in
                  if negb ok then (e, Some TransportFailed)
                  else
                    let '(e, ok) := WriteMessage sock encrypted e in
                    if negb ok then (e, Some TransportFailed) else (e, None)
              end
          end
      end
  end.

Definition readFrom (sock : option Conn) (key : option PrivateKey) (budget : Z) (e : E)
    : E * result connector_err Envelope :=
  match sock with
  | None => (e, Err ErrWebscoketIsNull)
  | Some sock =>
      let '(e, ok) := SetReadDeadline sock (time_Now e + budget) e in
      if negb ok then (e, Err TransportFailed)
      else
        let '(e, raw) := ReadMessage sock e in
        match raw, key with
        | None, _ => (e, Err TransportFailed)
        | Some _, None => (e, Err NilKey)
        | Some raw, Some key =>
            match DecryptMessage (R := E) key raw with
            | Err err => (e, Err (CryptoFailed err))
            | Ok decrypted =>
                match json_Unmarshal_Envelope (of_bytes decrypted) with
                | None => (e, Err JsonFailed)
                | Some envelope =>
                    if negb (env_Version envelope =? Version) then
                      (e, Err (ErrUnsupportedVersion (env_Version envelope)))
                    else (e, Ok envelope)
                end
            end
        end
  end.
Definition read (budget : Z) (c : conn) (e : E) : E * result connector_err Envelope :=
  readFrom (ws c) (privateKey c) budget e.

Definition closeWS (c : conn) (e : E) : conn * E :=
  match ws c with Some sock => (set_ws None c, ws_Close sock e) | None => (c, e) end.

Definition to_config (service operation : string) (taskID : Z) (p : payload) (c : conn) : result protocol_err Envelope :=
  NewEnvelope service operation (ConfigID (Exporter (cn_cfg c))) (UserID (Exporter (cn_cfg c))) taskID p.

Definition send_new (service operation : string) (taskID : Z) (p : payload) (c : conn) (e : E) : E * option connector_err :=
  match to_config service operation taskID p c with
  | Err err => (e, Some (ProtocolFailed err))
  | Ok envelope => send envelope c e
  end.

Definition acknowledge (taskID : Z) (applyErr : option connector_err) (c : conn) (e : E) : E * option connector_err :=
  send_new ServiceSystem OpAck taskID
    (PAck (match applyErr with
           | None => MkAck StatusOK EmptyString
           | Some err => MkAck StatusError (Error err)
           end)) c e.

Definition sendConfig (taskID : Z) (c : conn) (e : E) : E * option connector_err :=
  match json_Marshal_Config (cn_cfg c) with
  | None => (e, Some JsonFailed)
  | Some raw => send_new ServiceConfig OpConfig taskID (PConfig (MkConfigPayload raw)) c e
  end.

Definition requestRestart (c : conn) : conn :=
  MkConnector (cn_cfg c) (configPath c) true true (privateKey c) (publicKey c) (serverKey c) (ws c).

(** ** A configuration from the server *)
Fixpoint append_missing (ips : list string) (whitelist : list string) : list string :=
  match ips with
  | [] => whitelist
  | ip :: ips' => append_missing ips' (if contains_elem whitelist ip then whitelist else whitelist ++ [ip])
  end.

Definition keepLocalIps (whitelist : slice string) (e : E) : slice string :=
  match GetLocalIps (interfaceAddrs e) with
  | Err _ => whitelist
  | Ok local => Some (append_missing (items local) (items whitelist))
  end.

Definition with_exporter (x : ExporterConfig) (c : Config) : Config :=
  MkConfig (IPWhiteList c) (BlockedIPsDatabase c) (FirewallEngine c) (FirewallChains c) x
    (SSHMonitor c) (WebReconMonitor c) (WebBruteMonitor c) (DatabaseMonitor c) (ResourceMonitor c) (EbpfMonitors c).

Definition applyConfig (envelope : Envelope) (c : conn) (e : E) : E * (bool * option connector_err) :=
  match DecodePayload json_Unmarshal_Config envelope with
  | Err err => (e, (false, Some (ProtocolFailed err)))
  | Ok payload =>
      let incoming := with_firewall_chains None New in
      match json_Unmarshal_into (cp_Config payload) incoming with
      | None => (e, (false, Some ErrBadConfigPayload))
      | Some incoming =>
          let incoming := NormalizeFirewallChains incoming in
          let incoming := with_exporter (Exporter (cn_cfg c)) incoming in
          let incoming := with_ip_whitelist (keepLocalIps (IPWhiteList incoming) e) incoming in
          match Validate (RE := RE) (canRead e) incoming with
          | _ :: _ as problems => (e, (false, Some (ErrInvalidConfig problems)))
          | [] =>
              if bool_decide (incoming = cn_cfg c) then (e, (false, None))
              else
                let '(e, res) := SaveConfig (configPath c) incoming e in
                match res with
                | Err err => (e, (false, Some (ConfigFailed err)))
                | Ok _ => (e, (true, None))
                end
          end
      end
  end.

(** [applyConfig], its acknowledgement and the restart, in [handle] and [handshake]. *)
Definition set_config (envelope : Envelope) (c : conn) (e : E) : conn * E * option connector_err :=
  let '(e, (changed, applyErr)) := applyConfig envelope c e in
  let '(e, err) := acknowledge (TaskID envelope) applyErr c e in
  match err, applyErr with
  | Some err, _ => (c, e, Some err)
  | None, Some applyErr => (c, e, Some applyErr)
  | None, None => (if changed then requestRestart c else c, e, None)
  end.

Definition handle (envelope : Envelope) (c : conn) (e : E) : conn * E * option connector_err :=
  if bool_decide (Service envelope = ServiceConfig) && bool_decide (Operation envelope = OpSetConfig) then
    set_config envelope c e
  else if bool_decide (Service envelope = ServiceConfig) && bool_decide (Operation envelope = OpGetConfig) then
    let '(e, err) := sendConfig (TaskID envelope) c e in (c, e, err)
  else (c, e, Some (ErrUnexpectedMessage (Service envelope) (Operation envelope))).

(** One pass of [readLoop]: [None] when the loop goes on, after an error of [handle] too. *)
Definition readLoop_pass (sock : Conn) (key : PrivateKey) (c : conn) (e : E) : conn * E * option connector_err :=
  let '(e, envelope) := readFrom (Some sock) (Some key) readWait e in
  match envelope with
  | Err err => (c, e, Some err)
  | Ok envelope => let '(c, e, _) := handle envelope c e in (c, e, None)
  end.

(** ** Connecting *)
Definition parseServerKey (c : conn) : result connector_err PublicKey :=
  match base64_DecodeString (EndpointRsaPublicKey (Exporter (cn_cfg c))) with
  | None => Err ErrBadEndpointKey
  | Some raw => match ParsePKCS1PublicKey raw with None => Err ErrBadEndpointKey | Some key => Ok key end
  end.

Definition handshake (c : conn) (e : E) : conn * E * option connector_err :=
  match publicKey c with
  | None => (c, e, Some NilKey)
  | Some pub =>
      let '(e, err) := send_new ServiceSystem OpHello 0 (PHello (MkHello (encoded_key pub) agentVersion)) c e in
      match err with
      | Some err => (c, e, Some err)
      | None =>
          let '(e, envelope) := read handshakeTimeout c e in
          match envelope with
          | Err err => (c, e, Some err)
          | Ok envelope =>
              if negb (bool_decide (Service envelope = ServiceConfig)) || negb (bool_decide (Operation envelope = OpSetConfig))
              then (c, e, Some (ErrUnexpectedMessage (Service envelope) (Operation envelope)))
              else set_config envelope c e
          end
      end
  end.

Definition connect (c : conn) (e : E) : conn * E * option connector_err :=
  let '(e, keys) := GenerateKeys keyBits e in
  match keys with
  | None => (c, e, Some KeysFailed)
  | Some (priv, pub) =>
      let c := set_keys (Some priv) (Some pub) c in
      match parseServerKey c with
      | Err err => (c, e, Some err)
      | Ok key =>
          let c := set_serverKey (Some key) c in
          let '(e, sock) := Dial (EndpointAddress (Exporter (cn_cfg c))) e in
          match sock with
          | None => (c, e, Some ErrCantDialEndpoint)
          | Some sock =>
              let '(c, e, err) := handshake (set_ws (Some sock) c) e in
              match err with
              | Some err => let '(c, e) := closeWS c e in (c, e, Some err)
              | None => (c, e, None)
              end
          end
      end
  end.

(** ** Serving: what the [select] of [serve] meets, in order *)
Inductive serve_event : Type :=
| ContextDone
| ReadFailed (err : connector_err)
| Outgoing (message : option Envelope).     (* [None]: the channel is closed *)

(** [None]: still serving after these events. *)
Fixpoint serve_loop (evs : list serve_event) (c : conn) (e : E) : E * option (option connector_err) :=
  match evs with
  | [] => (e, None)
  | ContextDone :: _ => (e, Some None)
  | ReadFailed err :: _ => (e, Some (Some err))
  | Outgoing None :: _ => (e, Some (Some ErrSomethingWrongInWriteChanel))
  | Outgoing (Some message) :: evs' =>
      let '(e, err) := send message c e in
      match err with Some err => (e, Some (Some err)) | None => serve_loop evs' c e end
  end.
Definition serve (evs : list serve_event) (c : conn) (e : E) : conn * E * option (option connector_err) :=
  let '(e, res) := serve_loop evs c e in
  match res with None => (c, e, None) | Some res => let '(c, e) := closeWS c e in (c, e, Some res) end.
End Connector.

(** ** [Run]

    How one pass of the loop goes. *)
Inductive round : Type :=
| Done                      (* the context is done at the top of the loop *)
| SleepCancelled
| ConnectFailed
| Served (err : option connector_err).

(** The next value of [retrySleep], [None] where [Run] returns. *)
Definition next_sleep (retrySleep : Z) (r : round) : option Z :=
  match r with
  | Done | SleepCancelled => None
  | ConnectFailed => Some (if retrySleep <? maxRetrySleep then retrySleep + retrySleepStep else retrySleep)
  | Served (Some ErrSomethingWrongInWriteChanel) => None
  | Served _ => Some minRetrySleep
  end.

(** The delays, in seconds, a run that goes through these rounds sleeps. *)
Fixpoint Run_delays (retrySleep : Z) (rounds : list round) : list Z :=
  match rounds with
  | [] => []
  | Done :: _ => []
  | r :: rounds' =>
      retrySleep :: match next_sleep retrySleep r with Some s => Run_delays s rounds' | None => [] end
  end.
Definition Run (rounds : list round) : list Z := Run_delays minRetrySleep rounds.

(** ** Properties *)

(** The values [retrySleep] takes. *)
Definition a_delay (d : Z) : Prop := ∃ k, d = 5 + 10 * k ∧ 0 <= k <= 10.

Lemma next_sleep_delay d r d' : a_delay d → next_sleep d r = Some d' → a_delay d'.
Proof.
  intros (k & -> & Hk) Hn. unfold next_sleep, maxRetrySleep, retrySleepStep, minRetrySleep in Hn.
  assert (H5 : a_delay 5) by (exists 0; lia).
  destruct r as [| | |[[]|]]; try done; try (injection Hn as <-; done).
  injection Hn as <-. destruct (Z.ltb_spec (5 + 10 * k) 100); [exists (k + 1)|exists k]; lia.
Qed.

Lemma Run_delays_bounded rounds d : a_delay d → Forall a_delay (Run_delays d rounds).
Proof.
  revert d. induction rounds as [|r rounds IH]; intros d Hd; [constructor|]. cbn [Run_delays].
  assert (Hrest : Forall a_delay (d :: match next_sleep d r with Some s => Run_delays s rounds | None => [] end)).
  { constructor; [done|]. destruct (next_sleep d r) eqn:Hn; [|constructor]. by eapply IH, next_sleep_delay. }
  by destruct r.
Qed.

Lemma failures_delays n : ∀ k, 0 <= k <= 10 →
  Run_delays (5 + 10 * k) (replicate n ConnectFailed) = map (λ i, Z.min (5 + 10 * (k + Z.of_nat i)) 105) (seq 0 n).
Proof.
  induction n as [|n IH]; intros k Hk; [done|]. cbn [replicate Run_delays next_sleep seq map].
  f_equal; [lia|]. rewrite <- seq_shift, map_map. unfold maxRetrySleep, retrySleepStep.
  destruct (Z.ltb_spec (5 + 10 * k) 100).
  - replace (5 + 10 * k + 10) with (5 + 10 * (k + 1)) by lia. rewrite IH by lia. apply map_ext. intros i. lia.
  - rewrite IH by lia. apply map_ext. intros i. lia.
Qed.

(** C40: The delays between connections: whatever happens each is one of 5, 15, ..., 105
    seconds, and after [n] failures in a row the next is 5 + 10 [n] seconds, 105 at most. *)
Theorem reconnect_delays rounds n :
  Forall a_delay (Run rounds) ∧
  Run (replicate n ConnectFailed) = map (λ i, Z.min (5 + 10 * Z.of_nat i) 105) (seq 0 n).
Proof.
  split; [apply Run_delays_bounded; exists 0; unfold minRetrySleep; lia|]. exact (failures_delays n 0 ltac:(lia)).
Qed.

(** *** The whitelist *)
Lemma append_missing_spec ips whitelist ip : ip ∈ append_missing ips whitelist ↔ ip ∈ whitelist ∨ ip ∈ ips.
Proof.
  revert whitelist. induction ips as [|i ips IH]; intros whitelist; cbn [append_missing].
  { rewrite elem_of_nil. tauto. }
  rewrite IH, elem_of_cons. destruct (contains_elem whitelist i) eqn:Hc.
  - apply contains_elem_spec in Hc. split; [tauto|]. intros [?|[->|?]]; tauto.
  - rewrite elem_of_app, list_elem_of_singleton. tauto.
Qed.
