(* ===== verification/ConnectorClaims.v ===== *)
(** * What the server can make the client do

    A configuration from the server is applied only when it is valid, never touches the
    exporter settings or the addresses of the machine in the whitelist, is on disk before
    the client restarts, and is what the restarted client reads. *)

From S2P Require Import Prelude.
From S2P Require Import GoStrings.
From S2P Require Import Config.
From S2P Require Import ConfigValidate.
From S2P Require Import ConfigLoad.
From S2P Require Import Protocol.
From S2P Require Import Cryptography.
From S2P Require Import Connector.

Section Claims.
Context {E Conn PublicKey PrivateKey RE : Type}.
Context `{Websocket E Conn, Host E, FSLaws E, YamlLaws, Json, Regexp RE, Primitives E PublicKey PrivateKey, KeyText PublicKey}.
Abbreviation conn := (connector PublicKey PrivateKey Conn).

(** The configuration an envelope asks for: its payload read over the defaults, with the
    exporter of the running configuration and the local addresses whitelisted. *)
Definition incoming_config (envelope : Envelope) (running : Config) (e : E) : option Config :=
  match DecodePayload json_Unmarshal_Config envelope with
  | Err _ => None
  | Ok payload =>
      incoming ← json_Unmarshal_into (cp_Config payload) (with_firewall_chains None New);
      let incoming := with_exporter (Exporter running) (NormalizeFirewallChains incoming) in
      Some (with_ip_whitelist (keepLocalIps (IPWhiteList incoming) e) incoming)
  end.

(** [applyConfig] past the decoding. *)
Lemma applyConfig_incoming envelope (c : conn) (e : E) incoming :
  incoming_config envelope (cn_cfg c) e = Some incoming →
  applyConfig (RE := RE) envelope c e =
  match Validate (RE := RE) (canRead e) incoming with
  | _ :: _ as problems => (e, (false, Some (ErrInvalidConfig problems)))
  | [] =>
      if bool_decide (incoming = cn_cfg c) then (e, (false, None))
      else
        let '(e, res) := SaveConfig (configPath c) incoming e in
        match res with
        | Err err => (e, (false, Some (ConfigFailed err)))
        | Ok _ => (e, (true, None))
        end
  end.
Proof.
  unfold incoming_config, applyConfig. destruct (DecodePayload json_Unmarshal_Config envelope) as [p|]; [|done].
  destruct (json_Unmarshal_into (cp_Config p) _) as [inc|]; [|done]. cbn [mbind option_bind]. by intros [= <-].
Qed.

Lemma applyConfig_no_incoming envelope (c : conn) (e : E) :
  incoming_config envelope (cn_cfg c) e = None → ∃ err, applyConfig (RE := RE) envelope c e = (e, (false, Some err)).
Proof.
  unfold incoming_config, applyConfig. destruct (DecodePayload json_Unmarshal_Config envelope) as [p|]; [|by eexists].
  destruct (json_Unmarshal_into (cp_Config p) _) as [inc|]; [done|by eexists].
Qed.

Lemma incoming_exporter envelope running (e : E) incoming :
  incoming_config envelope running e = Some incoming → Exporter incoming = Exporter running.
Proof.
  unfold incoming_config. destruct (DecodePayload json_Unmarshal_Config envelope) as [p|]; [|done].
  destruct (json_Unmarshal_into (cp_Config p) _) as [inc|]; [|done]. cbn [mbind option_bind]. by intros [= <-].
Qed.

(** What [applyConfig] wrote: the configuration of the envelope, valid, with the exporter
    of the running one and the local addresses whitelisted, and read back by
    [LoadConfigReadOnly]. *)
Definition applied (envelope : Envelope) (c : conn) (e e' : E) : Prop :=
  ∃ incoming, incoming_config envelope (cn_cfg c) e = Some incoming ∧ Validate (RE := RE) (canRead e) incoming = [] ∧
    Exporter incoming = Exporter (cn_cfg c) ∧ incoming ≠ cn_cfg c ∧
    (∀ ips ip, GetLocalIps (interfaceAddrs e) = Ok ips → ip ∈ items ips → ip ∈ items (IPWhiteList incoming)) ∧
    ∀ c0, ∃ d, LoadConfigReadOnly (configPath c) c0 e' = (d, Ok tt) ∧ same_config d incoming.

Lemma incoming_normal c x ips : setFirewallChains (with_ip_whitelist ips (with_exporter x (NormalizeFirewallChains c))) =
  with_ip_whitelist ips (with_exporter x (NormalizeFirewallChains c)).
Proof.
  unfold NormalizeFirewallChains. pose proof (setFirewallChains_idem c) as Ht.
  destruct (setFirewallChains c) as [w b eng ch xp s r t d m p]. unfold with_exporter, with_ip_whitelist. simpl in *.
  unfold setFirewallChains in *. simpl in *.
  destruct (negb _); [done|]. destruct (bool_decide (eng = "iptables")); [by injection Ht as <-|].
  destruct (bool_decide (eng = "nftables")); [by injection Ht as <-|]. destruct (bool_decide (eng = "firewalld")); [by injection Ht as <-|done].
Qed.

Lemma incoming_reload envelope running path c0 (e e' e1 : E) incoming :
  incoming_config envelope running e = Some incoming → SaveConfig path incoming e1 = (e', Ok tt) →
  ∃ d, LoadConfigReadOnly path c0 e' = (d, Ok tt) ∧ same_config d incoming.
Proof.
  unfold incoming_config. destruct (DecodePayload json_Unmarshal_Config envelope) as [p|]; [|done].
  destruct (json_Unmarshal_into (cp_Config p) _) as [inc|]; [|done]. cbn [mbind option_bind]. intros [= <-] Hs.
  destruct (SaveConfig_reload path _ c0 e1 e' Hs) as (d & Hd & Hsame). exists d. split; [done|].
  by rewrite incoming_normal in Hsame.
Qed.

Lemma applyConfig_applied envelope (c : conn) e e' changed err :
  applyConfig (RE := RE) envelope c e = (e', (changed, err)) →
  match changed, err with
  | true, None => applied envelope c e e'
  | true, Some _ => False
  | false, Some (ConfigFailed _) => True
  | false, _ => e' = e
  end.
Proof.
  intros Ha. destruct (incoming_config envelope (cn_cfg c) e) as [inc|] eqn:Hi.
  2:{ destruct (applyConfig_no_incoming _ _ _ Hi) as [er Ha']. rewrite Ha' in Ha. injection Ha as <- <- <-. by destruct er. }
  rewrite (applyConfig_incoming _ _ _ _ Hi) in Ha.
  destruct (Validate (canRead e) inc) as [|pr prs] eqn:Hv; [|by injection Ha as <- <- <-].
  destruct (bool_decide (inc = cn_cfg c)) eqn:Heq; [by injection Ha as <- <- <-|].
  destruct (SaveConfig (configPath c) inc e) as [e1 [[]|er]] eqn:Hs; [|by injection Ha as <- <- <-].
  injection Ha as <- <- <-. exists inc. split; [done|]. split; [done|]. split; [by eapply incoming_exporter|].
  split; [by apply bool_decide_eq_false in Heq|]. split; [|intros c0; by eapply incoming_reload].
  intros ips ip Hips Hin. unfold incoming_config in Hi. destruct (DecodePayload json_Unmarshal_Config envelope) as [p|]; [|done].
  destruct (json_Unmarshal_into (cp_Config p) _) as [i|]; [|done]. cbn [mbind option_bind] in Hi. injection Hi as <-.
  unfold keepLocalIps. rewrite Hips. cbn. apply append_missing_spec. by right.
Qed.

(** C19: A configuration from the server is applied only if it is valid; what is written is
    the configuration of the envelope, keeps the exporter settings of the running one and
    whitelists the addresses of the machine, and is the configuration a restart reads.  Every other outcome leaves the
    world as it was, but for a write that failed. *)
Theorem applyConfig_outcome envelope (c : conn) e e' changed err :
  applyConfig (RE := RE) envelope c e = (e', (changed, err)) →
  match changed, err with
  | true, None => applied envelope c e e'
  | true, Some _ => False
  | false, Some (ConfigFailed _) => True
  | false, _ => e' = e
  end.
Proof. apply applyConfig_applied. Qed.

Variable Error : connector_err → string.

(** The client restarts on a message only when it is a [set_config] that changed the
    configuration and the acknowledgement of its task was sent without error. *)
Theorem restart_after_acknowledge envelope (c c' : conn) e e' r :
  handle (RE := RE) Error envelope c e = (c', e', r) → cancelled c = false → cancelled c' = true →
  Service envelope = ServiceConfig ∧ Operation envelope = OpSetConfig ∧ restart c' = true ∧ r = None ∧
  ∃ e1, applyConfig (RE := RE) envelope c e = (e1, (true, None)) ∧ acknowledge Error (TaskID envelope) None c e1 = (e', None).
Proof.
  intros Hh Hc Hc'. unfold handle in Hh.
  destruct (bool_decide (Service envelope = ServiceConfig)) eqn:Hs; [|injection Hh as <- <- <-; congruence].
  apply bool_decide_eq_true in Hs. destruct (bool_decide (Operation envelope = OpSetConfig)) eqn:Ho; cbn [andb] in Hh.
  2: { destruct (bool_decide (Operation envelope = OpGetConfig)); [|injection Hh as <- <- <-; congruence].
       destruct (sendConfig (TaskID envelope) c e) as [e1 er]. injection Hh as <- <- <-. congruence. }
  apply bool_decide_eq_true in Ho. unfold set_config in Hh.
  destruct (applyConfig (RE := RE) envelope c e) as [e1 [changed ae]] eqn:Ha.
  destruct (acknowledge Error (TaskID envelope) ae c e1) as [e2 [er|]] eqn:Hk; [injection Hh as <- <- <-; congruence|].
  destruct ae as [ae|]; [injection Hh as <- <- <-; congruence|]. destruct changed; injection Hh as <- <- <-; [|congruence].
  repeat split; try done. by exists e1.
Qed.
End Claims.

(** ** Sending leaves the files alone *)
Definition same_file {E} `{FS E} (path : string) (e e' : E) : Prop :=
  os_Stat path e' = os_Stat path e ∧ os_ReadFile path e' = os_ReadFile path e.
#[global] Instance same_file_preorder {E} `{FS E} path : PreOrder (same_file (E := E) path).
Proof. split; [by split|]. intros x y z [H1 H2] [H3 H4]. split; congruence. Qed.

(** The websocket, read or written, and the random source write no file. *)
Class KeepsFiles (E Conn PublicKey PrivateKey : Type)
    `{Websocket E Conn, FS E, Primitives E PublicKey PrivateKey} : Prop := {
  SetReadDeadline_keeps path sock t e : same_file path e (fst (SetReadDeadline sock t e));
  ReadMessage_keeps path sock e : same_file path e (fst (ReadMessage sock e));
  SetWriteDeadline_keeps path sock t e : same_file path e (fst (SetWriteDeadline sock t e));
  WriteMessage_keeps path sock x e : same_file path e (fst (WriteMessage sock x e));
  ReadFull_keeps path n e : same_file path e (fst (ReadFull n e));
  EncryptOAEP_keeps path k x e : same_file path e (fst (EncryptOAEP k x e)) }.

Section Files.
Context {E Conn PublicKey PrivateKey : Type}.
Context `{KeepsFiles E Conn PublicKey PrivateKey, Host E, Json, KeyText PublicKey}.
Abbreviation conn := (connector PublicKey PrivateKey Conn).
Variable path : string.

Lemma encryptWithAES_keeps key m (e : E) : same_file path e (fst (encryptWithAES key m e)).
Proof.
  unfold encryptWithAES. destruct (aes_key key); cbn [negb]; [|reflexivity].
  pose proof (ReadFull_keeps path NonceSize e) as Hr. by destruct (ReadFull NonceSize e) as [e1 [iv|]].
Qed.

Lemma EncryptMessage_keeps (key : PublicKey) m (e : E) : same_file path e (fst (EncryptMessage key m e)).
Proof.
  unfold EncryptMessage. pose proof (ReadFull_keeps path 32 e) as Hr. destruct (ReadFull 32 e) as [e1 [aes|]]; [|done]. cbn [fst] in Hr.
  pose proof (encryptWithAES_keeps aes m e1) as Ha. destruct (encryptWithAES aes m e1) as [e2 [[data iv]|]]; cbn [fst] in *; [|by etrans].
  pose proof (EncryptOAEP_keeps path key aes e2) as Ho. destruct (EncryptOAEP key aes e2) as [e3 [k|]]; cbn [fst] in *; etrans; eauto; by etrans.
Qed.

Lemma send_keeps message (c : conn) (e : E) : same_file path e (fst (send message c e)).
Proof.
  unfold send. destruct (ws c) as [sock|]; [|reflexivity]. destruct (json_Marshal_Envelope message) as [raw|]; [|reflexivity].
  destruct (serverKey c) as [key|]; [|reflexivity].
  pose proof (EncryptMessage_keeps key (bytes raw) e) as He. destruct (EncryptMessage key (bytes raw) e) as [e1 [enc|]]; cbn [fst] in *; [|done].
  pose proof (SetWriteDeadline_keeps path sock (time_Now e1 + writeWait) e1) as Hd.
  destruct (SetWriteDeadline sock _ e1) as [e2 []]; cbn [fst negb] in *; [|by etrans].
  pose proof (WriteMessage_keeps path sock enc e2) as Hw. destruct (WriteMessage sock enc e2) as [e3 []]; cbn [fst negb] in *;
    (etrans; [exact He|]); by etrans.
Qed.

Lemma readFrom_keeps sock key budget (e : E) : same_file path e (fst (readFrom sock key budget e)).
Proof.
  unfold readFrom. destruct sock as [sock|]; [|reflexivity].
  pose proof (SetReadDeadline_keeps path sock (time_Now e + budget) e) as Hd.
  destruct (SetReadDeadline sock _ e) as [e1 []]; cbn [fst negb] in *; [|done].
  pose proof (ReadMessage_keeps path sock e1) as Hm. destruct (ReadMessage sock e1) as [e2 raw]. cbn [fst] in *.
  assert (Hs : same_file path e e2) by by etrans. repeat (case_match; cbn [fst]; try exact Hs).
Qed.

Lemma acknowledge_keeps Error taskID err (c : conn) (e : E) : same_file path e (fst (acknowledge Error taskID err c e)).
Proof.
  unfold acknowledge, send_new. destruct (to_config _ _ _ _ c); [apply send_keeps|reflexivity].
Qed.
End Files.
