(* ===== verification/ConnectorExamples.v ===== *)
(** * The connector in a concrete world

    A machine with files, one websocket that delivers what is queued and keeps what is
    written, and a text format in which a configuration names its database only. *)

From S2P Require Import Prelude.
From S2P Require Import GoStrings.
From S2P Require Import Config.
From S2P Require Import ConfigValidate.
From S2P Require Import ConfigLoad.
From S2P Require Import ConfigExamples.
From S2P Require Import Protocol.
From S2P Require Import Cryptography.
From S2P Require Import Connector.
From S2P Require Import ConnectorClaims.

Record machine := Machine { m_files : files; m_inbox : list octets; m_sent : list octets }.

#[global] Instance machine_ws : Websocket machine unit := {
  Dial _ m := (m, Some tt);
  SetReadDeadline _ _ m := (m, true);
  ReadMessage _ m := match m_inbox m with
                     | x :: l => (Machine (m_files m) l (m_sent m), Some x)
                     | [] => (m, None)
                     end;
  SetWriteDeadline _ _ m := (m, true);
  WriteMessage _ x m := (Machine (m_files m) (m_inbox m) (m_sent m ++ [x]), true);
  ws_Close _ m := m }.
#[global] Instance machine_host : Host machine := {
  time_Now _ := 0;
  interfaceAddrs _ := host_addrs;
  canRead _ path := bool_decide (path = "/var/log/auth.log") }.
#[global] Instance machine_fs : FS machine := {
  os_Stat path m := os_Stat path (m_files m);
  os_MkdirAll _ m := (m, true);
  os_ReadFile path m := m_files m !! path;
  os_WriteFile path data m := (Machine (<[path := data]> (m_files m)) (m_inbox m) (m_sent m), true) }.
#[global] Instance machine_fs_laws : FSLaws machine.
Proof. intros path data m m'. simpl. intros [= <-]. simpl. by rewrite lookup_insert_eq. Qed.
#[global] Instance machine_primitives : Primitives machine toy_key toy_key := {
  ReadFull n m := (m, Some (replicate n zero));
  rsa_GenerateKey _ m := (m, Some ToyKey);
  public_key k := k;
  rsa_Size _ := 32%nat;
  EncryptOAEP _ x m := (m, Some x);
  DecryptOAEP _ x := Some x;
  gcm_Seal _ _ x := x;
  gcm_Open _ _ x := Some x }.
#[global] Instance machine_keys : KeyText toy_key := {
  base64_DecodeString s := Some (bytes s); ParsePKCS1PublicKey _ := Some ToyKey; encoded_key _ := "key" }.

Definition with_database (db : string) (c : Config) : Config :=
  MkConfig (IPWhiteList c) db (FirewallEngine c) (FirewallChains c) (Exporter c) (SSHMonitor c) (WebReconMonitor c)
    (WebBruteMonitor c) (DatabaseMonitor c) (ResourceMonitor c) (EbpfMonitors c).
#[local] Instance machine_json : Json := {
  json_Marshal _ := Some "payload"; json_Marshal_Config c := Some (BlockedIPsDatabase c);
  json_Marshal_Envelope e := Some (Operation e); json_Unmarshal_Envelope _ := None; json_Unmarshal_Hello _ := None;
  json_Unmarshal_Ack _ := None; json_Unmarshal_Config s := Some (MkConfigPayload s);
  json_Unmarshal_into s c := Some (with_database s c) }.

Definition an_error (_ : connector_err) : string := "error".
Definition a_connector : connector toy_key toy_key unit :=
  MkConnector first_config cfg_path false false (Some ToyKey) (Some ToyKey) (Some ToyKey) (Some tt).
Definition a_machine : machine := Machine ∅ [] [].
Definition an_update : Envelope := MkEnvelope Version 7 ServiceConfig OpSetConfig "cfg" "user" "/srv/bans.db".
Definition new_config : Config := with_database "/srv/bans.db" first_config.
Definition saved_machine : machine := Machine {[cfg_path := config_text new_config]} [] [].

Lemma new_config_valid : Validate (RE := toy_regexp) (canRead a_machine) new_config = [].
Proof. vm_compute. reflexivity. Qed.

Lemma new_config_differs : ¬ new_config = cn_cfg a_connector.
Proof. intros Heq. apply (f_equal BlockedIPsDatabase) in Heq. vm_compute in Heq. discriminate Heq. Qed.
Lemma save_machine path c (m : machine) :
  SaveConfig path c m = (Machine (<[path := config_text c]> (m_files m)) (m_inbox m) (m_sent m), Ok tt).
Proof. reflexivity. Qed.

Lemma an_update_applied : applyConfig (RE := toy_regexp) an_update a_connector a_machine = (saved_machine, (true, None)).
Proof.
  unfold applyConfig, DecodePayload. rewrite (bool_decide_false (Payload an_update = EmptyString)) by done. cbv zeta.
  cbn [json_Unmarshal_Config machine_json json_Unmarshal_into cp_Config].
  replace (with_ip_whitelist _ _) with new_config by (vm_compute; reflexivity).
  rewrite new_config_valid, (bool_decide_false _ new_config_differs), save_machine. reflexivity.
Qed.

Lemma applyConfig_outcome_witness :
  ∃ d, LoadConfigReadOnly cfg_path New saved_machine = (d, Ok tt) ∧ Exporter d = Exporter first_config.
Proof.
  destruct (applyConfig_outcome (RE := toy_regexp) an_update a_connector a_machine saved_machine true None an_update_applied)
    as (incoming & _ & _ & Hx & _ & _ & Hload).
  destruct (Hload New) as (d & Hd & Hsame). exists d. split; [exact Hd|].
  apply (f_equal Exporter) in Hsame. exact (eq_trans Hsame Hx).
Defined.

Lemma restart_after_acknowledge_witness :
  ∃ e1, applyConfig (RE := toy_regexp) an_update a_connector a_machine = (e1, (true, None)).
Proof.
  destruct (restart_after_acknowledge (RE := toy_regexp) an_error an_update a_connector (requestRestart a_connector) a_machine
    (fst (acknowledge an_error 7 None a_connector saved_machine)) None) as (_ & _ & _ & _ & e1 & He & _).
  - unfold handle, set_config. rewrite an_update_applied. reflexivity.
  - reflexivity.
  - reflexivity.
  - exists e1. exact He.
Defined.
