(* ===== verification/HubExporter.v ===== *)
(** * pkg/connector/connector.go: [Run] as a goroutine of the hub

    The loop of [Run], the [select] of [serve] and the goroutine of [readLoop], interleaved
    step by step.  The connector works on the hub's own configuration, context and restart
    channel, and takes from its export queue.  A call that blocks for a bounded time (the
    dial and the handshake have deadlines) is one step. *)

From S2P Require Import Prelude.
From S2P Require Import Config.
From S2P Require Import ConfigValidate.
From S2P Require Import ConfigLoad.
From S2P Require Import Protocol.
From S2P Require Import Cryptography.
From S2P Require Import Connector.
From S2P Require Import Goroutines.
From S2P Require Import HubState.

(** [err.Error()]. *)
Class ErrorText := error_text : connector_err → string.

(** [readLoop]: with the socket and the key it was started with, or returned. *)
Inductive reader (PrivateKey Conn : Type) : Type :=
| RlReading (sock : Conn) (key : PrivateKey)
| RlDone.
Arguments RlReading {PrivateKey Conn}. Arguments RlDone {PrivateKey Conn}.

(** [ExServing]: in the [select] of [serve], with what is in [readErrors]; [ExClosing]: in
    its deferred function, the socket closed, waiting for [readDone]. *)
Inductive exporter_phase (PrivateKey Conn : Type) : Type :=
| ExTop
| ExSleeping
| ExConnecting
| ExServing (r : reader PrivateKey Conn) (readErrors : option connector_err)
| ExClosing (r : reader PrivateKey Conn) (err : option connector_err)
| ExReturned.
Arguments ExTop {PrivateKey Conn}. Arguments ExSleeping {PrivateKey Conn}. Arguments ExConnecting {PrivateKey Conn}.
Arguments ExServing {PrivateKey Conn}. Arguments ExClosing {PrivateKey Conn}. Arguments ExReturned {PrivateKey Conn}.

Record exporter (PublicKey PrivateKey Conn : Type) := MkExporterRun {
  er_conn : connector PublicKey PrivateKey Conn; retrySleep : Z; er_phase : exporter_phase PrivateKey Conn }.
Arguments MkExporterRun {PublicKey PrivateKey Conn}. Arguments er_conn {PublicKey PrivateKey Conn}.
Arguments retrySleep {PublicKey PrivateKey Conn}. Arguments er_phase {PublicKey PrivateKey Conn}.

Inductive exporter_event : Type :=
| ExCheck                      (* the context at the top of the loop *)
| ExSlept                      (* the timer of [sleep] *)
| ExSleepCancelled
| ExConnect
| ExTake                       (* a message from [sendChanel] *)
| ExContextDone
| ExReadFailed                 (* an error from [readErrors] *)
| ExMessage                    (* [readLoop] gets a message or an error *)
| ExReadClosed                 (* [readLoop] finds its socket closed *)
| ExClosed.                    (* [<-c.readDone], [serve] returns *)

Section Exporter.
Context {E P Conn PublicKey PrivateKey RE : Type}.
Context `{Websocket E Conn, Host E, FS E, Yaml, Json, Regexp RE, Primitives E PublicKey PrivateKey, KeyText PublicKey, ErrorText}.
Abbreviation hub := (HubState.hub E P).
Abbreviation conn := (connector PublicKey PrivateKey Conn).
Abbreviation exporter := (HubExporter.exporter PublicKey PrivateKey Conn).

(** The connector's pointers are the hub's. *)
Definition attached_to (h : hub) (c : conn) : conn :=
  MkConnector (h_cfg h) (h_configPath h) (h_cancelled h) (h_restart h) (privateKey c) (publicKey c) (serverKey c) (ws c).

(** What an operation of the connector did to the hub. *)
Definition absorb (c : conn) (e : E) (h : hub) : hub := signal (cancelled c) (restart c) (set_world e h).

Definition set_exporter (c : conn) (ph : exporter_phase PrivateKey Conn) (x : exporter) : exporter :=
  MkExporterRun c (retrySleep x) ph.

(** [New]: the hub's pointers, no keys and no socket yet. *)
Definition connector_New (h : hub) : conn :=
  MkConnector (h_cfg h) (h_configPath h) (h_cancelled h) (h_restart h) None None None None.
Definition exporter_New (h : hub) : exporter := MkExporterRun (connector_New h) minRetrySleep ExTop.

(** [connect] and what [Run] makes of it. *)
Definition exporter_connect (x : exporter) (h : hub) : exporter * hub :=
  let '(c, e, err) := connect (RE := RE) error_text (attached_to h (er_conn x)) (h_world h) in
  let h := absorb c e h in
  match err with
  | Some _ => (MkExporterRun c (default (retrySleep x) (next_sleep (retrySleep x) ConnectFailed)) ExTop, h)
  | None =>
      let r := match ws c, privateKey c with Some sock, Some key => RlReading sock key | _, _ => RlDone end in
      (MkExporterRun c minRetrySleep (ExServing r None), h)
  end.

(** The [select] of [serve] meets [ev]. *)
Definition exporter_serve (ev : serve_event) (r : reader PrivateKey Conn) (x : exporter) (h : hub) : exporter * hub :=
  let '(c, e, res) := serve [ev] (attached_to h (er_conn x)) (h_world h) in
  let h := absorb c e h in
  match res with
  | None => (set_exporter c (er_phase x) x, h)
  | Some err => (set_exporter c (ExClosing r err) x, h)
  end.

(** A pass of [readLoop]; what follows it in the phase is [k]. *)
Definition exporter_read (sock : Conn) (key : PrivateKey) (x : exporter) (h : hub)
    (k : reader PrivateKey Conn → option connector_err → exporter_phase PrivateKey Conn) : exporter * hub :=
  let '(c, e, err) := readLoop_pass (RE := RE) error_text sock key (attached_to h (er_conn x)) (h_world h) in
  let h := absorb c e h in
  match err with
  | None => (set_exporter c (k (RlReading sock key) None) x, h)
  | Some err => (set_exporter c (k RlDone (Some err)) x, h)
  end.

(** [serve] has returned: the next round, or the end of [Run] when the channel is closed. *)
Definition exporter_closed (err : option connector_err) (x : exporter) (h : hub) : exporter * hub :=
  match next_sleep (retrySleep x) (Served err) with
  | Some s => (MkExporterRun (er_conn x) s ExTop, h)
  | None => (set_exporter (er_conn x) ExReturned x, signal true false h)
  end.

Definition exporter_next (e : exporter_event) (x : exporter) (h : hub) : option (exporter * hub) :=
  let to ph := Some (set_exporter (er_conn x) ph x, h) in
  match e, er_phase x with
  | ExCheck, ExTop => to (if h_cancelled h then ExReturned else ExSleeping)
  | ExSlept, ExSleeping => to ExConnecting
  | ExSleepCancelled, ExSleeping => if h_cancelled h then to ExReturned else None
  | ExConnect, ExConnecting => Some (exporter_connect x h)
  | ExTake, ExServing r _ =>
      match exportChan h with
      | message :: queue => Some (exporter_serve (Outgoing (Some message)) r x (set_queue queue h))
      | [] => None
      end
  | ExContextDone, ExServing r _ => if h_cancelled h then Some (exporter_serve ContextDone r x h) else None
  | ExReadFailed, ExServing r (Some err) => Some (exporter_serve (ReadFailed err) r x h)
  | ExMessage, ExServing (RlReading sock key) _ => Some (exporter_read sock key x h ExServing)
  | ExMessage, ExClosing (RlReading sock key) err => Some (exporter_read sock key x h (λ r _, ExClosing r err))
  | ExReadClosed, ExClosing (RlReading _ _) err => to (ExClosing RlDone err)
  | ExClosed, ExClosing RlDone err => Some (exporter_closed err x h)
  | _, _ => None
  end.

#[global] Instance exporter_goroutine : Goroutine exporter exporter_event hub := {
  g_next := exporter_next;
  g_internal e := match e with ExSlept | ExMessage => false | _ => true end;
  g_running x := match er_phase x with ExReturned => false | _ => true end }.

(** ** It stops *)
Definition reader_measure (r : reader PrivateKey Conn) : nat := match r with RlReading _ _ => 1 | RlDone => 0 end.
Definition exporter_measure (x : exporter) : nat :=
  match er_phase x with
  | ExTop => 2
  | ExSleeping => 1
  | ExConnecting => 6
  | ExServing r _ => 4 + reader_measure r
  | ExClosing r _ => 3 + reader_measure r
  | ExReturned => 0
  end.

Lemma absorb_later c e h : later h (absorb c e h).
Proof. etrans; [apply (later_world e)|apply later_signal]. Qed.
Lemma absorb_kept c e h : queue_kept h (absorb c e h).
Proof. by apply kept_same. Qed.

Lemma exporter_serve_later ev r err x h x' h' :
  er_phase x = ExServing r err → exporter_serve ev r x h = (x', h') →
  later h h' ∧ queue_kept h h' ∧ waiting h' = waiting h ∧
  match ev with
  | Outgoing _ => (exporter_measure x' <= exporter_measure x)%nat
  | _ => (exporter_measure x' + 1 <= exporter_measure x)%nat
  end.
Proof.
  intros Hph. unfold exporter_serve, exporter_measure. rewrite Hph.
  destruct (serve [ev] _ _) as [[c e] res] eqn:Hs. destruct res as [err'|]; intros [= <- <-];
    (split_and!; [apply absorb_later|apply absorb_kept|done|]).
  - cbn. destruct ev; lia.
  - cbn [set_exporter er_phase]. destruct ev as [|er|m]; [| |lia]; unfold serve in Hs; cbn [serve_loop] in Hs; by destruct (closeWS _ _).
Qed.

Lemma exporter_read_later sock key x h k x' h' :
  exporter_read sock key x h k = (x', h') →
  later h h' ∧ queue_kept h h' ∧ waiting h' = waiting h ∧
  (er_phase x' = k (RlReading sock key) None ∨ ∃ err, er_phase x' = k RlDone (Some err)).
Proof.
  unfold exporter_read. destruct (readLoop_pass _ _ _ _ _) as [[c e] [err|]]; intros [= <- <-];
    (split_and!; [apply absorb_later|apply absorb_kept|done|cbn; eauto]).
Qed.

Lemma exporter_connect_later x h x' h' :
  exporter_connect x h = (x', h') →
  later h h' ∧ queue_kept h h' ∧ waiting h' = waiting h ∧ (exporter_measure x' <= 5)%nat.
Proof.
  unfold exporter_connect, exporter_measure. destruct (connect _ _ _) as [[c e] [err|]]; intros [= <- <-];
    (split_and!; [apply absorb_later|apply absorb_kept|done|cbn; repeat case_match; cbn; lia]).
Qed.

Lemma exporter_closed_later err x h x' h' :
  exporter_closed err x h = (x', h') →
  later h h' ∧ queue_kept h h' ∧ waiting h' = waiting h ∧ (exporter_measure x' <= 2)%nat.
Proof.
  unfold exporter_closed, exporter_measure. destruct (next_sleep _ _); intros [= <- <-].
  - split_and!; [reflexivity|reflexivity|done|cbn; lia].
  - split_and!; [apply later_signal|by apply kept_same|done|cbn; lia].
Qed.

Lemma exporter_next_later e x h x' h' :
  exporter_next e x h = Some (x', h') → later h h' ∧ queue_kept h h' ∧
  (exporter_measure x' + waiting h' + (if g_internal e then 1 else 0) <=
   exporter_measure x + waiting h + (if g_internal e then 0 else 5))%nat.
Proof.
  assert (Hto : ∀ ph n, Some (set_exporter (er_conn x) ph x, h) = Some (x', h') →
    (exporter_measure (set_exporter (er_conn x) ph x) + n <= exporter_measure x + (if g_internal e then 0 else 5))%nat →
    n = (if g_internal e then 1 else 0)%nat →
    later h h' ∧ queue_kept h h' ∧ (exporter_measure x' + waiting h' + (if g_internal e then 1 else 0) <=
     exporter_measure x + waiting h + (if g_internal e then 0 else 5))%nat).
  { intros ph n [= <- <-] Hm ->. split_and!; [reflexivity|reflexivity|lia]. }
  unfold exporter_next. destruct e; cbn [g_internal exporter_goroutine] in *.
  - destruct (er_phase x) eqn:Hph; try done. intros Hn. eapply Hto; [exact Hn| |done].
    unfold exporter_measure. cbn. rewrite Hph. destruct (h_cancelled h); lia.
  - destruct (er_phase x) eqn:Hph; try done. intros Hn. eapply Hto; [exact Hn| |done].
    unfold exporter_measure. cbn. rewrite Hph. lia.
  - destruct (er_phase x) eqn:Hph; try done. destruct (h_cancelled h); [|done]. intros Hn. eapply Hto; [exact Hn| |done].
    unfold exporter_measure. cbn. rewrite Hph. lia.
  - destruct (er_phase x) eqn:Hph; try done. intros Hn. injection Hn as Hn. apply exporter_connect_later in Hn as (? & ? & -> & ?).
    split_and!; [done|done|]. assert (exporter_measure x = 6)%nat as -> by (unfold exporter_measure; by rewrite Hph). lia.
  - destruct (er_phase x) as [| | |r err| |] eqn:Hph; try done. destruct (exportChan h) as [|m q] eqn:Hq; [done|].
    intros Hn. injection Hn as Hn. apply (exporter_serve_later _ _ err) in Hn as (? & ? & Hw & ?); [|done].
    split_and!; [etrans; [apply (later_queue q)|done]|etrans; [by apply (kept_take m q)|done]|].
    rewrite Hw. cbn [waiting hub_stoppable set_queue exportChan]. rewrite Hq. cbn [length]. lia.
  - destruct (er_phase x) as [| | |r err| |] eqn:Hph; try done. destruct (h_cancelled h); [|done].
    intros Hn. injection Hn as Hn. apply (exporter_serve_later _ _ err) in Hn as (? & ? & -> & ?); [|done]. split_and!; [done|done|lia].
  - destruct (er_phase x) as [| | |r [err|]| |] eqn:Hph; try done.
    intros Hn. injection Hn as Hn. apply (exporter_serve_later _ _ (Some err)) in Hn as (? & ? & -> & ?); [|done]. split_and!; [done|done|lia].
  - destruct (er_phase x) as [| | |[sock key|] err|[sock key|] err|] eqn:Hph; try done; intros Hn; injection Hn as Hn;
      apply exporter_read_later in Hn as (? & ? & -> & Hx); (split_and!; [done|done|]); unfold exporter_measure; rewrite Hph;
      destruct Hx as [-> | [er ->]]; cbn; lia.
  - destruct (er_phase x) as [| | | |[sock key|] err|] eqn:Hph; try done. intros Hn. eapply Hto; [exact Hn| |done].
    unfold exporter_measure. cbn. rewrite Hph. cbn. lia.
  - destruct (er_phase x) as [| | | |[sock key|] err|] eqn:Hph; try done. intros Hn. injection Hn as Hn.
    apply exporter_closed_later in Hn as (? & ? & -> & ?).
    assert (exporter_measure x = 3)%nat as -> by (unfold exporter_measure; by rewrite Hph). split_and!; [done|done|lia].
Qed.

#[global] Instance exporter_later : Respects exporter exporter_event hub later.
Proof. by intros e x h x' h' (? & _ & _)%exporter_next_later. Qed.
#[global] Instance exporter_kept : Respects exporter exporter_event hub queue_kept.
Proof. by intros e x h x' h' (_ & ? & _)%exporter_next_later. Qed.

#[global] Program Instance exporter_stops : Stops exporter exporter_event hub := {
  g_measure := exporter_measure; g_burst := 5 }.
Next Obligation. intros e x h x' h' ([Hc _ _ _] & _ & _)%exporter_next_later. exact Hc. Qed.
Next Obligation.
  intros x h Hs Hr. cbn in Hs, Hr. cbn [g_next exporter_goroutine]. unfold exporter_next.
  destruct (er_phase x) as [| | |r err|[sock key|] err|] eqn:Hph;
    [exists ExCheck|exists ExSleepCancelled|exists ExConnect|exists ExContextDone|exists ExReadClosed|exists ExClosed|done];
    (split; [done|]); rewrite ?Hs; by eexists.
Qed.
Next Obligation. by intros e x h x' h' _ (_ & _ & ?)%exporter_next_later. Qed.
End Exporter.
