(* ===== verification/Hub.v ===== *)
(** * pkg/monitor/monitor.go: [RunMonitoring]

    The hub as a whole: [runCycle] restores the bans, starts the monitors and the exporter
    and waits for them; [RunMonitoring] starts over when a restart was asked for.  Here are
    what holds of whole runs of it: the export queue, the end of a cancelled cycle, and what
    becomes of the configurations that the server pushes. *)

From S2P Require Import Prelude.
From S2P Require Import Config.
From S2P Require Import ConfigValidate.
From S2P Require Import ConfigLoad.
From S2P Require Import BanPool.
From S2P Require Import Protocol.
From S2P Require Import Cryptography.
From S2P Require Import Monitor.
From S2P Require Import Snapshot.
From S2P Require Import CommandController.
From S2P Require Import Connector.
From S2P Require Import ConnectorClaims.
From S2P Require Import HubEvents.
From S2P Require Import Goroutines.
From S2P Require Import HubState.
From S2P Require Import HubMonitors.
From S2P Require Import HubEbpf.
From S2P Require Import HubCommand.
From S2P Require Import HubExporter.

Section Hub.
Context {E P Conn PublicKey PrivateKey RE N M : Type}.
Context `{Websocket E Conn, Host E, FS E, Yaml, Json, Regexp RE, Primitives E PublicKey PrivateKey, KeyText PublicKey, ErrorText}.
Context `{BanPool P, SnapshotHost E, SortSlice, KernelMaps N, KernelMaps M, GoQuote}.
Abbreviation hub := (HubState.hub E P).
Abbreviation exporter := (HubExporter.exporter PublicKey PrivateKey Conn).

(** ** The goroutines of a cycle: the four log monitors in the order they are started, the
    resource monitor, the network monitor, the command controller and the exporter *)
Definition monitors : Type :=
  log_monitor RE * (log_monitor RE * (log_monitor RE * (log_monitor RE *
    (resource_monitor * (network_monitor * (controller N M * option exporter)))))).
Definition monitors_event : Type :=
  log_event + (log_event + (log_event + (log_event +
    (resource_event + (network_event + (controller_event N M + exporter_event)))))).

#[global] Instance monitors_goroutine : Goroutine monitors monitors_event hub.
Proof. unfold monitors, monitors_event. apply _. Defined.
#[global] Instance monitors_stops : Stops monitors monitors_event hub.
Proof. unfold monitors, monitors_event, monitors_goroutine. apply _. Defined.
#[global] Instance monitors_later : Respects monitors monitors_event hub later.
Proof. unfold monitors, monitors_event, monitors_goroutine. apply _. Qed.
#[global] Instance monitors_kept : Respects monitors monitors_event hub queue_kept.
Proof. unfold monitors, monitors_event, monitors_goroutine. apply _. Qed.

Definition new_log (name : string) (bm : BaseFields) : log_monitor RE := MkLog name bm LogStarting ∅ false.

Definition start_monitors (h : hub) : monitors :=
  let cfg := h_cfg h in
  (new_log SourceSSHMonitor (SSHMonitor cfg), (new_log SourceWebBruteMonitor (WebBruteMonitor cfg),
   (new_log SourceWebReconMonitor (WebReconMonitor cfg), (new_log SourceDatabaseMonitor (DatabaseMonitor cfg),
    (MkResource (ResourceMonitor cfg) RmStarting,
     (MkNetwork (NetworkAntirecon (EbpfMonitors cfg)) NwStarting false,
      (MkCtl (UserCommandController (EbpfMonitors cfg)) UcStarting,
       if ex_Enabled (Exporter cfg) then Some (exporter_New h) else None))))))).

(** [runCycle] up to [wg.Wait]: an error of [RestoreBans] is only logged. *)
Definition runCycle_start (t1 t2 : Z) (h : hub) : monitors * hub :=
  let '(p, _) := bp_RestoreBans (h_ctx h) t1 t2 (h_pool h) in
  let h := set_pool p h in (start_monitors h, h).

(** After [wg.Wait]: the deferred [cancel], the restart channel, the configuration read
    again into the same [Config], a new context.  [None] when [RunMonitoring] returns. *)
Definition after_cycle (h : hub) : option hub :=
  if h_restart h then
    let '(cfg, res) := LoadConfigReadOnly (h_configPath h) (h_cfg h) (h_world h) in
    match res with
    | Err _ => None
    | Ok _ =>
        Some (MkHub cfg (h_configPath h) (S (h_ctx h)) false false (exportChan h) (h_pool h) (h_world h) (journal h))
    end
  else None.

(** [RunMonitoring]: in a cycle, or returned. *)
Inductive hub_phase : Type := Cycling (ms : monitors) | HubReturned.

Inductive hub_event : Type :=
| Step (e : monitors_event)
| CycleEnds (t1 t2 : Z).

Definition hub_next (e : hub_event) (s : hub_phase) (h : hub) : option (hub_phase * hub) :=
  match e, s with
  | Step e, Cycling ms => '(ms, h) ← g_next e ms h; Some (Cycling ms, h)
  | CycleEnds t1 t2, Cycling ms =>
      if g_running ms then None
      else
        match after_cycle h with
        | None => Some (HubReturned, signal true false h)
        | Some h => let '(ms, h) := runCycle_start t1 t2 h in Some (Cycling ms, h)
        end
  | _, HubReturned => None
  end.

Fixpoint hub_run (es : list hub_event) (s : hub_phase) (h : hub) : option (hub_phase * hub) :=
  match es with
  | [] => Some (s, h)
  | e :: es' => '(s, h) ← hub_next e s h; hub_run es' s h
  end.

(** [New] and the start of [RunMonitoring]. *)
Definition hub_New (cfg : Config) (bp : P) (configPath : string) (e : E) : hub :=
  MkHub cfg configPath 0%nat false false [] bp e [].
Definition RunMonitoring_start (t1 t2 : Z) (h : hub) : hub_phase * hub :=
  let '(ms, h) := runCycle_start t1 t2 h in (Cycling ms, h).

(** ** A cancelled cycle ends *)

(** What the cycle may still do once its context is cancelled: its own steps are bounded,
    it never waits for its environment, and when nothing is left to do it has returned and
    [RunMonitoring] goes on. *)
Lemma cancelled_cycle_ends es (ms ms' : monitors) (h h' : hub) :
  h_cancelled h = true → g_run es ms h = Some (ms', h') →
  (internals es + g_measure ms' + length (exportChan h') <= g_measure ms + length (exportChan h) + 35 * externals es)%nat ∧
  (stuck ms' h' → g_running ms' = false) ∧
  ∃ es2 ms2 h2, Forall (λ e, g_internal e = true) es2 ∧ g_run es2 ms' h' = Some (ms2, h2) ∧
    (length es2 <= g_measure ms' + length (exportChan h'))%nat ∧
    ∀ t1 t2, is_Some (hub_next (CycleEnds t1 t2) (Cycling ms2) h2).
Proof.
  intros Hc Hr. pose proof (g_run_stopped es ms h ms' h' Hr Hc) as Hc'. split; [|split].
  - exact (g_run_bound es ms h ms' h' Hc Hr).
  - by apply stuck_returned.
  - destruct (g_returns ms' h' Hc') as (es2 & ms2 & h2 & Hi & Hr2 & Hret & Hl).
    exists es2, ms2, h2. split; [done|]. split; [done|]. split; [done|]. intros t1 t2. cbn [hub_next]. rewrite Hret.
    destruct (after_cycle h2) as [h3|]; [|by eexists]. destruct (runCycle_start t1 t2 h3). by eexists.
Qed.

Lemma start_measure (h : hub) : (g_measure (start_monitors h) <= 32)%nat.
Proof. unfold start_monitors. cbn. destruct (ex_Enabled _); cbn; lia. Qed.
End Hub.
#[global] Typeclasses Opaque monitors monitors_event.

(** ** The queue along [RunMonitoring] *)
Section Queue.
Context {E P Conn PublicKey PrivateKey RE N M : Type}.
Context `{Websocket E Conn, Host E, FS E, Yaml, Json, Regexp RE, Primitives E PublicKey PrivateKey, KeyText PublicKey, ErrorText}.
Context `{BanPool P, SnapshotHost E, SortSlice, KernelMaps N, KernelMaps M, GoQuote}.
Abbreviation hub := (HubState.hub E P).
Abbreviation phase := (hub_phase (Conn := Conn) (PublicKey := PublicKey) (PrivateKey := PrivateKey) (RE := RE) (N := N) (M := M)).

(** The exporter settings that were in force at some moment of the run. *)
Definition in_force (es : list (hub_event (N := N) (M := M))) (s : phase) (h : hub) (x : ExporterConfig) : Prop :=
  ∃ es1 es2 s1 h1, es = es1 ++ es2 ∧ hub_run es1 s h = Some (s1, h1) ∧ Exporter (h_cfg h1) = x.

Lemma hub_next_queue (X : ExporterConfig → Prop) e (s : phase) (h : hub) s' h' :
  X (Exporter (h_cfg h)) → queue_ok X (exportChan h) → hub_next e s h = Some (s', h') → queue_ok X (exportChan h').
Proof.
  intros HX Hq. destruct e as [e|t1 t2], s as [ms|]; try done; cbn [hub_next].
  - destruct (g_next e ms h) as [[ms1 h1]|] eqn:Hn; [|done]. intros [= <- <-].
    apply monitors_kept in Hn as [_ Hk]. by apply Hk.
  - destruct (g_running ms); [done|]. unfold after_cycle. destruct (h_restart h); [|by intros [= <- <-]].
    destruct (LoadConfigReadOnly _ _ _) as [cfg [[]|]]; [|by intros [= <- <-]].
    unfold runCycle_start. cbn [h_pool]. destruct (bp_RestoreBans _ _ _ _) as [p err]. by intros [= <- <-].
Qed.

Lemma hub_run_queue (X : ExporterConfig → Prop) es (s : phase) (h : hub) s' h' :
  (∀ x, in_force es s h x → X x) → queue_ok X (exportChan h) → hub_run es s h = Some (s', h') → queue_ok X (exportChan h').
Proof.
  revert s h. induction es as [|e es IH]; intros s h HX Hq; cbn [hub_run]; [by intros [= <- <-]|].
  destruct (hub_next e s h) as [[s1 h1]|] eqn:Hn; [|done]. cbn [mbind option_bind]. apply IH.
  - intros x (es1 & es2 & s2 & h2 & -> & Hr & <-). apply HX. exists (e :: es1), es2, s2, h2.
    split; [done|]. split; [|done]. cbn [hub_run]. by rewrite Hn.
  - apply (hub_next_queue X e s h s1 h1); [|done|done]. apply HX. by exists [], (e :: es), s, h.
Qed.
End Queue.

(** ** A configuration from the server *)
Section Pushed.
Context {E P Conn PublicKey PrivateKey RE N M : Type}.
Context `{KeepsFiles E Conn PublicKey PrivateKey, Host E, !FSLaws E, YamlLaws, Json, Regexp RE, KeyText PublicKey, ErrorText}.
Abbreviation hub := (HubState.hub E P).
Abbreviation conn := (connector PublicKey PrivateKey Conn).

(** The message of the server that a connector has just read: in [readLoop], or as the
    answer to the hello of [handshake]; [c] is the connector that handles it and [e] the
    world the reading left. *)
Definition reading (ph : exporter_phase PrivateKey Conn) : option (Conn * PrivateKey) :=
  match ph with ExServing (RlReading sock key) _ | ExClosing (RlReading sock key) _ => Some (sock, key) | _ => None end.

Definition dialled (priv : PrivateKey) (pub key : PublicKey) (sock : Conn) (c : conn) : conn :=
  set_ws (Some sock) (set_serverKey (Some key) (set_keys (Some priv) (Some pub) c)).

Inductive received (x : HubExporter.exporter PublicKey PrivateKey Conn) (h : hub) (envelope : Envelope) : conn → E → Prop :=
| received_loop sock key e :
    reading (er_phase x) = Some (sock, key) →
    readFrom (Some sock) (Some key) readWait (h_world h) = (e, Ok envelope) →
    received x h envelope (attached_to h (er_conn x)) e
| received_handshake priv pub key sock e1 e2 e3 e :
    GenerateKeys keyBits (h_world h) = (e1, Some (priv, pub)) →
    parseServerKey (attached_to h (er_conn x)) = Ok key →
    Dial (EndpointAddress (Exporter (h_cfg h))) e1 = (e2, Some sock) →
    let c := dialled priv pub key sock (attached_to h (er_conn x)) in
    send_new ServiceSystem OpHello 0 (PHello (MkHello (encoded_key pub) agentVersion)) c e2 = (e3, None) →
    read handshakeTimeout c e3 = (e, Ok envelope) →
    received x h envelope c e.

(** The configuration of the envelope was accepted: valid, other than the running one,
    saved and acknowledged, the file being written before the acknowledgement leaves. *)
Definition accepted (envelope : Envelope) (c : conn) (e e' : E) (incoming : Config) : Prop :=
  Service envelope = ServiceConfig ∧ Operation envelope = OpSetConfig ∧
  incoming_config envelope (cn_cfg c) e = Some incoming ∧ Validate (RE := RE) (canRead e) incoming = [] ∧
  incoming ≠ cn_cfg c ∧
  ∃ e1, SaveConfig (configPath c) incoming e = (e1, Ok tt) ∧
        acknowledge error_text (TaskID envelope) None c e1 = (e', None).

(** The file holds what a restart has to read. *)
Definition pushed (path : string) (incoming : Config) (e1 : E) : Prop :=
  ∀ c0, ∃ d, LoadConfigReadOnly path c0 e1 = (d, Ok tt) ∧ same_config d incoming.

Lemma same_file_load path c (e e' : E) :
  same_file path e e' → LoadConfigReadOnly path c e' = LoadConfigReadOnly path c e.
Proof. intros [Hs Hf]. unfold LoadConfigReadOnly. by rewrite Hs, Hf. Qed.

Lemma pushed_keeps path incoming e e' : pushed path incoming e → same_file path e e' → pushed path incoming e'.
Proof. intros Hload Hf c0. by rewrite (same_file_load path c0 e e' Hf). Qed.

Lemma accepted_pushed envelope (c : conn) e e' incoming :
  accepted envelope c e e' incoming → pushed (configPath c) incoming e'.
Proof.
  intros (_ & _ & Hi & _ & _ & e1 & Hs & Ha). apply (pushed_keeps _ _ e1).
  - intros c0. by eapply incoming_reload.
  - pose proof (acknowledge_keeps (configPath c) error_text (TaskID envelope) None c e1) as Hk. by rewrite Ha in Hk.
Qed.

Lemma set_config_accepted envelope (c c' : conn) e e' r :
  set_config (RE := RE) error_text envelope c e = (c', e', r) → restart c = false → restart c' = true →
  Service envelope = ServiceConfig → Operation envelope = OpSetConfig →
  r = None ∧ cancelled c' = true ∧ ∃ incoming, accepted envelope c e e' incoming.
Proof.
  unfold set_config, accepted. intros Hs Hr Hr' Hse Ho. destruct (incoming_config envelope (cn_cfg c) e) as [inc|] eqn:Hi.
  2:{ destruct (applyConfig_no_incoming (RE := RE) _ _ _ Hi) as (er & Ha). rewrite Ha in Hs.
      destruct (acknowledge _ _ _ _ _) as [e2 [?|]]; injection Hs as <- <- <-; congruence. }
  rewrite (applyConfig_incoming (RE := RE) _ _ _ _ Hi) in Hs. destruct (Validate (canRead e) inc) as [|pr prs] eqn:Hv.
  2:{ destruct (acknowledge _ _ _ _ _) as [e2 [?|]]; injection Hs as <- <- <-; congruence. }
  case_bool_decide as Hne; [destruct (acknowledge _ _ _ _ _) as [e2 [?|]]; injection Hs as <- <- <-; congruence|].
  destruct (SaveConfig (configPath c) inc e) as [e1 [[]|er]] eqn:Hsave;
    destruct (acknowledge _ _ _ _ _) as [e2 [?|]] eqn:Hack; injection Hs as <- <- <-; try congruence.
  split; [done|]. split; [done|]. exists inc. split_and!; try done. by exists e1.
Qed.

Lemma handle_accepted envelope (c c' : conn) e e' r :
  handle (RE := RE) error_text envelope c e = (c', e', r) → restart c = false → restart c' = true →
  cancelled c' = true ∧ ∃ incoming, accepted envelope c e e' incoming.
Proof.
  unfold handle. destruct (bool_decide (Service envelope = ServiceConfig)) eqn:Hs; [|intros [= <- <- <-]; congruence].
  destruct (bool_decide (Operation envelope = OpSetConfig)) eqn:Ho; cbn [andb].
  - bool_hyps. intros Hc ? ?. by apply (set_config_accepted _ _ _ _ _ _ Hc).
  - destruct (bool_decide (Operation envelope = OpGetConfig)); [|intros [= <- <- <-]; congruence].
    destruct (sendConfig _ _ _) as [e1 er]. intros [= <- <- <-]. congruence.
Qed.

Lemma closeWS_restart (c c' : conn) e e' : closeWS c e = (c', e') → restart c' = restart c ∧ cancelled c' = cancelled c.
Proof. unfold closeWS. by destruct (ws c); intros [= <- <-]. Qed.

Lemma connect_accepted x (h : hub) (c' : conn) e' r :
  connect (RE := RE) error_text (attached_to h (er_conn x)) (h_world h) = (c', e', r) → h_restart h = false → restart c' = true →
  cancelled c' = true ∧ ∃ envelope c e incoming, received x h envelope c e ∧ accepted envelope c e e' incoming ∧
    cn_cfg c = h_cfg h ∧ configPath c = h_configPath h.
Proof.
  unfold connect. destruct (GenerateKeys _ _) as [e1 [[priv pub]|]] eqn:Hg; [|intros [= <- <- <-]; cbn; congruence].
  destruct (parseServerKey _) as [key|] eqn:Hkey; [|intros [= <- <- <-]; cbn; congruence].
  destruct (Dial _ _) as [e2 [sock|]] eqn:Hd; [|intros [= <- <- <-]; cbn; congruence].
  change (set_ws (Some sock) _) with (dialled priv pub key sock (attached_to h (er_conn x))). set (c1 := dialled _ _ _ _ _).
  intros Hh Hr Hr'.
  assert (Hhand : ∀ c2 e3 er, handshake (RE := RE) error_text c1 e2 = (c2, e3, er) → restart c2 = true →
    er = None ∧ cancelled c2 = true ∧ ∃ envelope e incoming, received x h envelope c1 e ∧ accepted envelope c1 e e3 incoming).
  { intros c2 e3 er. unfold handshake. cbn [publicKey c1 dialled set_ws set_serverKey set_keys].
    destruct (send_new _ _ _ _ _ _) as [e4 [er4|]] eqn:Hsend; [intros [= <- <- <-]; cbn; congruence|].
    destruct (read _ _ _) as [e5 [envelope|]] eqn:Hread; [|intros [= <- <- <-]; cbn; congruence].
    destruct (bool_decide (Service envelope = ServiceConfig)) eqn:Hs; [|intros [= <- <- <-]; cbn; congruence].
    destruct (bool_decide (Operation envelope = OpSetConfig)) eqn:Ho; cbn [negb orb]; [|intros [= <- <- <-]; cbn; congruence].
    bool_hyps. intros Hset Hr2. destruct (set_config_accepted _ c1 _ _ _ _ Hset Hr Hr2) as (? & ? & incoming & Ha); [done|done|].
    split; [done|]. split; [done|]. exists envelope, e5, incoming. split; [|exact Ha].
    by apply (received_handshake x h envelope priv pub key sock e1 e2 e4 e5). }
  destruct (handshake _ c1 e2) as [[c2 e3] er] eqn:Hc. specialize (Hhand _ _ _ eq_refl).
  destruct er as [er|].
  - destruct (closeWS c2 e3) as [c3 e4] eqn:Hcl. injection Hh as <- <- <-. apply closeWS_restart in Hcl as [Hre _].
    destruct Hhand as [? _]; [by rewrite <- Hre|done].
  - injection Hh as <- <- <-. destruct (Hhand Hr') as (_ & ? & envelope & e & incoming & ? & ?). split; [done|].
    by exists envelope, c1, e, incoming.
Qed.

(** The hub after an operation of the connector, when [Q] holds once it asks for a restart. *)
Lemma absorb_pushed (c : conn) e (h : hub) (Q : Prop) :
  h_restart h = false → h_restart (absorb c e h) = true → (restart c = true → cancelled c = true ∧ Q) →
  h_cancelled (absorb c e h) = true ∧ Q.
Proof.
  cbn. intros -> Hr HQ. cbn in Hr. destruct (HQ Hr) as [-> ?]. split; [apply orb_true_r|done].
Qed.

Lemma serve_restart evs (c c' : conn) e e' res : serve evs c e = (c', e', res) → restart c' = restart c.
Proof.
  unfold serve. destruct (serve_loop _ _ _) as [e2 [res2|]]; [|by intros [= <- <- <-]].
  destruct (closeWS _ _) as [c2 e3] eqn:Hcl. intros [= <- <- <-]. by apply closeWS_restart in Hcl as [-> _].
Qed.

Lemma exporter_serve_restart ev r (x x' : HubExporter.exporter PublicKey PrivateKey Conn) (h h' : hub) :
  exporter_serve ev r x h = (x', h') → h_restart h' = h_restart h.
Proof.
  unfold exporter_serve. destruct (serve [ev] _ _) as [[c1 e1] res] eqn:Hs. apply serve_restart in Hs.
  assert (Ha : h_restart (absorb c1 e1 h) = h_restart h) by (cbn; rewrite Hs; cbn; by rewrite orb_diag).
  by destruct res; intros [= _ <-].
Qed.

(** The step of the exporter in which a restart is asked for. *)
Definition push_step (x : HubExporter.exporter PublicKey PrivateKey Conn) (h h' : hub) (incoming : Config) : Prop :=
  ∃ envelope c e, received x h envelope c e ∧ accepted envelope c e (h_world h') incoming ∧
    cn_cfg c = h_cfg h ∧ configPath c = h_configPath h.

Lemma exporter_read_pushed sock key (x x' : HubExporter.exporter PublicKey PrivateKey Conn) (h h' : hub) k :
  reading (er_phase x) = Some (sock, key) → exporter_read (RE := RE) sock key x h k = (x', h') →
  h_restart h = false → h_restart h' = true → h_cancelled h' = true ∧ ∃ incoming, push_step x h h' incoming.
Proof.
  intros Hph. unfold exporter_read. destruct (readLoop_pass _ _ _ _ _) as [[c1 e1] er] eqn:Hc. intros Hx Hr Hr'.
  assert (h' = absorb c1 e1 h) as -> by by destruct er; injection Hx.
  apply absorb_pushed; [done|done|]. intros Hre. revert Hc. unfold readLoop_pass.
  destruct (readFrom _ _ _ _) as [e0 [envelope|err]] eqn:Hread; [|by intros [= <- <- <-]; cbn in Hre; congruence].
  destruct (handle _ _ _ _) as [[c2 e2] er2] eqn:Hh. intros [= <- <- <-].
  destruct (handle_accepted _ _ _ _ _ _ Hh Hr Hre) as (? & incoming & Ha). split; [done|].
  exists incoming, envelope, (attached_to h (er_conn x)), e0. split; [|by split].
  by eapply received_loop.
Qed.

Lemma exporter_connect_pushed (x x' : HubExporter.exporter PublicKey PrivateKey Conn) (h h' : hub) :
  exporter_connect (RE := RE) x h = (x', h') → h_restart h = false → h_restart h' = true →
  h_cancelled h' = true ∧ ∃ incoming, push_step x h h' incoming.
Proof.
  unfold exporter_connect. destruct (connect _ _ _) as [[c1 e1] er] eqn:Hc. intros Hx Hr Hr'.
  assert (h' = absorb c1 e1 h) as -> by by destruct er; injection Hx.
  apply absorb_pushed; [done|done|]. intros Hre.
  destruct (connect_accepted x h _ _ _ Hc Hr Hre) as (? & envelope & c & e & incoming & Hs). split; [done|].
  by exists incoming, envelope, c, e.
Qed.

Lemma exporter_next_pushed ev (x x' : HubExporter.exporter PublicKey PrivateKey Conn) (h h' : hub) :
  exporter_next (RE := RE) ev x h = Some (x', h') → h_restart h = false → h_restart h' = true →
  h_cancelled h' = true ∧ ∃ incoming, push_step x h h' incoming.
Proof.
  intros Hn Hr Hr'. unfold exporter_next in Hn.
  destruct ev, (er_phase x) as [| | |r err|r err|] eqn:Hph; try done; try (injection Hn as <- <-; congruence).
  - destruct (h_cancelled h); [|done]. injection Hn as <- <-. congruence.
  - injection Hn as Hn. by eapply exporter_connect_pushed.
  - destruct (exportChan h) as [|m q]; [done|]. injection Hn as Hn. apply exporter_serve_restart in Hn. cbn in Hn. congruence.
  - destruct (h_cancelled h); [|done]. injection Hn as Hn. apply exporter_serve_restart in Hn. congruence.
  - destruct err; [|done]. injection Hn as Hn. apply exporter_serve_restart in Hn. congruence.
  - destruct r as [sock key|]; [|done]. injection Hn as Hn. apply (exporter_read_pushed sock key x x' h h' ExServing); [by rewrite Hph|done..].
  - destruct r as [sock key|]; [|done]. injection Hn as Hn. eapply (exporter_read_pushed sock key x x' h h'); [by rewrite Hph|done..].
  - destruct r; [|done]. injection Hn as <- <-. congruence.
  - destruct r; [done|]. injection Hn as Hn. unfold exporter_closed in Hn.
    destruct (next_sleep _ _); injection Hn as _ <-; [congruence|]. cbn in Hr'. by rewrite Hr in Hr'.
Qed.

Lemma push_step_pushed x (h h' : hub) incoming : push_step x h h' incoming → pushed (h_configPath h) incoming (h_world h').
Proof. intros (envelope & c & e & _ & Ha & _ & <-). by apply accepted_pushed in Ha. Qed.

Context `{BanPool P, SnapshotHost E, SortSlice, KernelMaps N, KernelMaps M, GoQuote}.

(** The cycle that follows runs what the file holds. *)
Lemma next_cycle_pushed incoming (ms : monitors (Conn := Conn) (PublicKey := PublicKey) (PrivateKey := PrivateKey) (RE := RE) (N := N) (M := M)) (h : hub) t1 t2 :
  pushed (h_configPath h) incoming (h_world h) → h_restart h = true →
  g_running (Ev := monitors_event (N := N) (M := M)) (X := hub) ms = false →
  ∃ h', hub_next (CycleEnds t1 t2) (Cycling ms) h = Some (Cycling (start_monitors h'), h') ∧
    same_config (h_cfg h') incoming ∧ h_ctx h' = S (h_ctx h) ∧ h_cancelled h' = false ∧ h_restart h' = false ∧
    exportChan h' = exportChan h ∧ h_pool h' = fst (bp_RestoreBans (h_ctx h') t1 t2 (h_pool h)).
Proof.
  intros Hload Hr Hret. cbn [hub_next]. rewrite Hret. unfold after_cycle. rewrite Hr.
  destruct (Hload (h_cfg h)) as (d & -> & Hsame). unfold runCycle_start. cbn [h_pool h_ctx].
  destruct (bp_RestoreBans (S (h_ctx h)) t1 t2 (h_pool h)) as [p err] eqn:Hb. eexists. split; [reflexivity|].
  cbn. by rewrite Hb.
Qed.
End Pushed.

(** ** The claims *)
Section Claims.
Context {E P Conn PublicKey PrivateKey RE N M : Type}.
Context `{Websocket E Conn, Host E, FS E, Yaml, Json, Regexp RE, Primitives E PublicKey PrivateKey, KeyText PublicKey, ErrorText}.
Context `{BanPool P, SnapshotHost E, SortSlice, KernelMaps N, KernelMaps M, GoQuote}.
Abbreviation monitors := (Hub.monitors (Conn := Conn) (PublicKey := PublicKey) (PrivateKey := PrivateKey) (RE := RE) (N := N) (M := M)).
Abbreviation monitors_event := (Hub.monitors_event (N := N) (M := M)).
Abbreviation hub := (HubState.hub E P).
Abbreviation running ms := (g_running (S := monitors) (Ev := monitors_event) (X := hub) ms).
Abbreviation steps_left ms := (g_measure (S := monitors) (Ev := monitors_event) (X := hub) ms).
Abbreviation own_steps es := (internals (S := monitors) (Ev := monitors_event) (X := hub) es).
Abbreviation inputs es := (externals (S := monitors) (Ev := monitors_event) (X := hub) es).
Abbreviation own e := (g_internal (S := monitors) (Ev := monitors_event) (X := hub) e).

(** C4: A cancelled cycle ends: no deadlock and no endless work.  Once the context is
    cancelled the goroutines of the hub together take at most as many steps of their own as
    their measure and the queue, and 35 more for each event of the environment that still
    comes in (a line, a tick, a record, a message); in a state in which no step of its own
    is possible every goroutine [wg.Wait] waits for has returned; and from every state they
    return by steps of their own alone, within their measure, so that [RunMonitoring] goes
    on to its restart or its end. *)
Theorem hub_stops (es : list monitors_event) (ms ms' : monitors) (h h' : hub) :
  h_cancelled h = true → g_run es ms h = Some (ms', h') →
  (own_steps es + steps_left ms' + length (exportChan h') <= steps_left ms + length (exportChan h) + 35 * inputs es)%nat ∧
  ((∀ e : monitors_event, own e = true → g_next e ms' h' = None) → running ms' = false) ∧
  ∃ (es2 : list monitors_event) (ms2 : monitors) (h2 : hub),
    Forall (λ e, own e = true) es2 ∧ g_run es2 ms' h' = Some (ms2, h2) ∧
    (length es2 <= steps_left ms' + length (exportChan h'))%nat ∧
    ∀ t1 t2, is_Some (hub_next (CycleEnds t1 t2) (Cycling ms2) h2).
Proof. apply cancelled_cycle_ends. Qed.

(** C33: The export queue is well formed at every moment of every run of [RunMonitoring] that
    starts with an empty one, whichever monitor exports, the exporter takes, and over
    restarts: it never holds more than 1024 envelopes, and each is an alert of version 2
    whose payload is the JSON of one event that tells when it happened, under the ids of an
    exporter that was enabled and in force at some moment of the run. *)
Theorem queue_well_formed es (s : hub_phase (Conn := Conn) (PublicKey := PublicKey) (PrivateKey := PrivateKey) (RE := RE) (N := N) (M := M))
    (h : hub) s' h' :
  exportChan h = [] → hub_run es s h = Some (s', h') → queue_ok (in_force es s h) (exportChan h').
Proof. intros Hq. apply hub_run_queue; [done|]. rewrite Hq. split; [done|constructor]. Qed.
End Claims.

(** C3: A pushed configuration runs.  In the step of the exporter that asks for a restart a
    [set_config] was received from the server, in [readLoop] or in the handshake; the
    configuration it asks for is valid, keeps the exporter and differs from the running
    one; it was saved, the acknowledgement of its task was sent without error, and the
    context is cancelled.  However the goroutines end their cycle, if nobody else has
    changed the file meanwhile, [RunMonitoring] starts a new cycle under that
    configuration, with a fresh context, new monitors and the queue kept, and restores the
    bans of the pool under the new context. *)
Theorem pushed_config_runs {E P Conn PublicKey PrivateKey RE N M : Type}
  `{KeepsFiles E Conn PublicKey PrivateKey, Host E, !FSLaws E, YamlLaws, Json, Regexp RE, KeyText PublicKey, ErrorText}
  `{BanPool P, SnapshotHost E, SortSlice, KernelMaps N, KernelMaps M, GoQuote}
  ev (x x' : HubExporter.exporter PublicKey PrivateKey Conn) (h h1 : hub E P) :
  exporter_next (RE := RE) ev x h = Some (x', h1) → h_restart h = false → h_restart h1 = true →
  h_cancelled h1 = true ∧
  ∃ envelope c e incoming, received x h envelope c e ∧ cn_cfg c = h_cfg h ∧ configPath c = h_configPath h ∧
    Service envelope = ServiceConfig ∧ Operation envelope = OpSetConfig ∧
    incoming_config envelope (h_cfg h) e = Some incoming ∧
    Validate (RE := RE) (canRead e) incoming = [] ∧ Exporter incoming = Exporter (h_cfg h) ∧ incoming ≠ h_cfg h ∧
    (∃ e1, SaveConfig (h_configPath h) incoming e = (e1, Ok tt) ∧
           acknowledge error_text (TaskID envelope) None c e1 = (h_world h1, None)) ∧
    ∀ (es : list (monitors_event (N := N) (M := M)))
      (ms1 ms2 : monitors (Conn := Conn) (PublicKey := PublicKey) (PrivateKey := PrivateKey) (RE := RE) (N := N) (M := M))
      (h2 : hub E P) t1 t2,
      g_run es ms1 h1 = Some (ms2, h2) → g_running (Ev := monitors_event) (X := hub E P) ms2 = false → same_file (h_configPath h) (h_world h1) (h_world h2) →
      ∃ h3, hub_next (CycleEnds t1 t2) (Cycling ms2) h2 = Some (Cycling (start_monitors h3), h3) ∧
        same_config (h_cfg h3) incoming ∧ h_ctx h3 = S (h_ctx h2) ∧ h_cancelled h3 = false ∧ h_restart h3 = false ∧
        exportChan h3 = exportChan h2 ∧ h_pool h3 = fst (bp_RestoreBans (h_ctx h3) t1 t2 (h_pool h2)).
Proof.
  intros Hn Hr Hr1. destruct (exporter_next_pushed _ _ _ _ _ Hn Hr Hr1) as (Hc & incoming & Hp).
  pose proof (push_step_pushed _ _ _ _ Hp) as Hload. destruct Hp as (envelope & c & e & Hrec & Ha & Hcfg & Hpath).
  destruct Ha as (Hs & Ho & Hi & Hv & Hne & Hack). rewrite Hcfg in Hi, Hne. rewrite Hpath in Hack.
  split; [done|]. exists envelope, c, e, incoming. repeat (split; [done|]). split; [by eapply incoming_exporter|].
  split; [done|]. split; [done|]. intros es ms1 ms2 h2 t1 t2 Hrun Hret Hfile.
  pose proof (exporter_later _ _ _ _ _ Hn) as [_ _ _ Hpath1 _].
  apply (g_run_respects later) in Hrun as [_ Hrs _ Hpath2 _].
  apply next_cycle_pushed; [|by apply Hrs|done]. rewrite Hpath2, Hpath1. by eapply pushed_keeps.
Qed.

(** C20: A push that is taken back before the restart is acknowledged and lost.  Between the
    step that wrote a pushed configuration and the end of the cycle, let the exporter read
    a [set_config] that asks for the running configuration again.  It is compared with the
    running configuration and not with the file: the whole effect of the step is to send
    the acknowledgement that it succeeded, and the file keeps the earlier push.  When
    nobody else writes the file the next cycle runs that earlier configuration, the one the
    server has taken back. *)
Theorem revert_lost {E P Conn PublicKey PrivateKey RE N M : Type}
  `{KeepsFiles E Conn PublicKey PrivateKey, Host E, !FSLaws E, YamlLaws, Json, Regexp RE, KeyText PublicKey, ErrorText}
  `{BanPool P, SnapshotHost E, SortSlice, KernelMaps N, KernelMaps M, GoQuote}
  ev (x x1 x2 x3 : HubExporter.exporter PublicKey PrivateKey Conn) (h h1 h2 h3 h4 : hub E P)
  (es1 es2 : list (monitors_event (N := N) (M := M)))
  (ms1 ms2 ms3 ms4 : monitors (Conn := Conn) (PublicKey := PublicKey) (PrivateKey := PrivateKey) (RE := RE) (N := N) (M := M))
  sock key envelope e :
  (* the push *)
  exporter_next (RE := RE) ev x h = Some (x1, h1) → h_restart h = false → h_restart h1 = true →
  g_run es1 ms1 h1 = Some (ms2, h2) → same_file (h_configPath h) (h_world h1) (h_world h2) →
  (* the message that takes it back *)
  reading (er_phase x2) = Some (sock, key) →
  readFrom (Some sock) (Some key) readWait (h_world h2) = (e, Ok envelope) →
  Service envelope = ServiceConfig → Operation envelope = OpSetConfig →
  incoming_config envelope (h_cfg h) e = Some (h_cfg h) → Validate (RE := RE) (canRead e) (h_cfg h) = [] →
  exporter_next (RE := RE) ExMessage x2 h2 = Some (x3, h3) →
  (* the end of the cycle *)
  g_run es2 ms3 h3 = Some (ms4, h4) → same_file (h_configPath h) (h_world h3) (h_world h4) →
  g_running (Ev := monitors_event) (X := hub E P) ms4 = false →
  h_world h3 = fst (acknowledge error_text (TaskID envelope) None (attached_to h2 (er_conn x2)) e) ∧
  same_file (h_configPath h) (h_world h2) (h_world h3) ∧
  ∃ incoming, push_step (RE := RE) x h h1 incoming ∧ incoming ≠ h_cfg h ∧
    ∀ t1 t2, ∃ h5, hub_next (CycleEnds t1 t2) (Cycling ms4) h4 = Some (Cycling (start_monitors h5), h5) ∧
      same_config (h_cfg h5) incoming.
Proof.
  intros Hn Hr Hr1 Hrun1 Hf1 Hph Hread Hs Ho Hi Hv Hn2 Hrun2 Hf2 Hret.
  destruct (exporter_next_pushed _ _ _ _ _ Hn Hr Hr1) as (_ & incoming & Hp).
  pose proof (push_step_pushed _ _ _ _ Hp) as Hload.
  pose proof (exporter_later _ _ _ _ _ Hn) as [_ _ Hcfg1 Hpath1 _].
  apply (g_run_respects later) in Hrun1 as [_ Hrs2 Hcfg2 Hpath2 _].
  pose proof (exporter_later _ _ _ _ _ Hn2) as [_ Hrs3 _ Hpath3 _].
  apply (g_run_respects later) in Hrun2 as [_ Hrs4 _ Hpath4 _].
  assert (Hworld : h_world h3 = fst (acknowledge error_text (TaskID envelope) None (attached_to h2 (er_conn x2)) e)).
  { assert (Hpass : (readLoop_pass (RE := RE) error_text sock key (attached_to h2 (er_conn x2)) (h_world h2)).1.2 =
      fst (acknowledge error_text (TaskID envelope) None (attached_to h2 (er_conn x2)) e)).
    { unfold readLoop_pass. rewrite Hread. unfold handle. rewrite Hs, Ho, !bool_decide_true by done. cbn [andb]. unfold set_config.
      assert (Hi2 : incoming_config envelope (cn_cfg (attached_to h2 (er_conn x2))) e = Some (h_cfg h)) by (cbn; by rewrite Hcfg2, Hcfg1).
      rewrite (applyConfig_incoming (RE := RE) _ _ _ _ Hi2), Hv, bool_decide_true by (cbn; by rewrite Hcfg2, Hcfg1).
      by destruct (acknowledge _ _ _ _ _) as [e1 [er|]]. }
    assert (∃ k, exporter_read (RE := RE) sock key x2 h2 k = (x3, h3)) as [k Hk].
    { unfold exporter_next in Hn2. unfold reading in Hph. destruct (er_phase x2) as [| | |[s1 k1|]|[s1 k1|]|]; try done;
        injection Hph as <- <-; injection Hn2 as Hn2; by eexists. }
    unfold exporter_read in Hk. destruct (readLoop_pass _ _ _ _ _) as [[c1 e1] [err|]]; cbn in Hpass; injection Hk as _ <-; exact Hpass. }
  assert (Hf : same_file (h_configPath h) (h_world h2) (h_world h3)).
  { pose proof (readFrom_keeps (h_configPath h) (Some sock) (Some key) readWait (h_world h2)) as Hk. rewrite Hread in Hk. cbn [fst] in Hk.
    etrans; [exact Hk|]. rewrite Hworld. apply acknowledge_keeps. }
  split; [done|]. split; [done|]. exists incoming. split; [done|]. split.
  { destruct Hp as (? & c & ? & _ & (_ & _ & _ & _ & Hne & _) & Hcfg & _). by rewrite <- Hcfg. }
  intros t1 t2. destruct (next_cycle_pushed (RE := RE) incoming ms4 h4 t1 t2) as (h5 & Hend & Hsame & _); [|by auto|done|by exists h5].
  rewrite Hpath4, Hpath3, Hpath2, Hpath1. eapply pushed_keeps; [exact Hload|]. by etrans; [|etrans].
Qed.
