(* ===== verification/HubPool.v ===== *)
(** * What the goroutines of the hub ask of the ban pool

    Each step of a goroutine leaves the pool alone or is one call of [BanIP]: the hub's
    side of the composition with the pool in Daemon.v. *)

From S2P Require Import Prelude.
From S2P Require Import GoFloat.
From S2P Require Import Config.
From S2P Require Import ConfigValidate.
From S2P Require Import ConfigLoad.
From S2P Require Import BanPool.
From S2P Require Import NetworkMonitor.
From S2P Require Import Protocol.
From S2P Require Import Monitor.
From S2P Require Import Snapshot.
From S2P Require Import Cryptography.
From S2P Require Import CommandController.
From S2P Require Import Connector.
From S2P Require Import Goroutines.
From S2P Require Import HubEvents.
From S2P Require Import HubState.
From S2P Require Import HubMonitors.
From S2P Require Import HubEbpf.
From S2P Require Import HubCommand.
From S2P Require Import HubExporter.
From S2P Require Import Hub.

Definition pool_asked {P} `{BanPool P} (ctx : context) (p p' : P) : Prop :=
  p' = p ∨ ∃ t ip secs, p' = fst (bp_BanIP ctx t ip secs p).
Definition asked {E P} `{BanPool P} (h h' : hub E P) : Prop := pool_asked (h_ctx h) (h_pool h) (h_pool h').

Lemma pool_unasked {P} `{BanPool P} ctx (p : P) : pool_asked ctx p p. Proof. by left. Qed.
Lemma pool_asked_ban {P} `{BanPool P} ctx t ip secs (p p' : P) res :
  bp_BanIP ctx t ip secs p = (p', res) → pool_asked ctx p p'.
Proof. intros Hb. right. exists t, ip, secs. by rewrite Hb. Qed.
#[export] Hint Resolve pool_unasked : hub.

(** ** Log monitors *)
Section LogMonitor.
Context {E P RE : Type} `{Json, BanPool P, Regexp RE}.
Abbreviation hub := (HubState.hub E P).

Lemma apply_outs_pool now out (h : hub) : h_pool (apply_outs now out h) = h_pool h.
Proof. revert h. induction out as [|o out IH]; intros h; [done|]. etrans; [apply IH|]. by destruct o. Qed.

Lemma bm_next_asked ctx name wl bm re e (st st' : bm_state P) out :
  bm_next ctx name wl bm re e st = Some (st', out) → pool_asked ctx (bm_pool st) (bm_pool st').
Proof.
  destruct e as [m|now|]; cbn; destruct (bm_at st) as [|ip c]; try done; intros Hn; injection Hn as Hn.
  1: intros; subst; unfold bm_read; destruct (getIp re m); [destruct (contains_elem _ _); [|destruct (ipAttemptsMap st !! _)]|]; by left.
  2, 3: by subst; left.
  revert Hn. unfold bm_count. destruct (Tries bm <=? _); [|intros [= <- <-]; by left].
  unfold bm_hit. case_bool_decide; cbn [negb orb].
  - destruct (bp_BanIP ctx now ip (BanSeconds bm) (bm_pool st)) as [p1 [al [er|]]] eqn:Hb; apply pool_asked_ban in Hb;
      [|destruct al]; intros [= <- <-]; exact Hb.
  - intros [= <- <-]. by left.
Qed.

#[global] Instance log_asked : Respects (log_monitor RE) log_event hub asked.
Proof.
  intros e lm h lm' h'. cbn [g_next log_goroutine]. unfold asked.
  assert (Hit : ∀ now e' chan, iterate now e' chan lm h = Some (lm', h') → pool_asked (h_ctx h) (h_pool h) (h_pool h')).
  { intros now e' chan. unfold iterate, loop_step. destruct (lm_phase lm) as [|re at_ src chan0|]; try done.
    destruct (bm_next _ _ _ _ _ _ _) as [[st out]|] eqn:Hn; [|done]. cbn. intros [= <- <-].
    rewrite apply_outs_pool. by apply bm_next_asked in Hn. }
  destruct e; cbn [log_next];
    try (intros Hn; repeat case_match; simplify_option_eq; repeat case_match; simplify_option_eq; by left).
  - case_match; try done. unfold log_start. intros [= Hs].
    destruct (RunBaseMonitor_start _) as [c [[re|]|err]]; injection Hs as <- <-; by left.
  - repeat (case_match; try done). apply Hit.
  - repeat (case_match; try done). apply Hit.
Qed.
End LogMonitor.

(** ** The resource monitor *)
Section ResourceMonitor.
Context {E P : Type} `{Json, BanPool P, SnapshotHost E, FS E, SortSlice}.
Abbreviation hub := (HubState.hub E P).

Lemma check_all_pool now dir ms (h h' : hub) b : check_all now dir ms h = (h', b) → h_pool h' = h_pool h.
Proof.
  revert h h' b. induction ms as [|m ms IH]; intros h h' b; cbn [check_all]; [by intros [= <- <-]|].
  destruct (check_limits_of now dir m h) as [h1 b1] eqn:Hc1.
  destruct (check_all now dir ms h1) as [h2 b2] eqn:Hc2. apply IH in Hc2. intros [= <- <-]. rewrite Hc2.
  revert Hc1. unfold check_limits_of. destruct (check_event m) as [[level event]|]; [|by intros [= <- <-]].
  destruct (alerted _); by intros [= <- <-].
Qed.

#[global] Instance resource_asked : Respects resource_monitor resource_event hub asked.
Proof.
  intros e rm h rm' h'. cbn [g_next resource_goroutine]. unfold resource_next, asked. intros Hn.
  destruct (rm_phase rm), e as [| |now m| | |]; try done.
  4: { unfold checkResourceMetrics in Hn. destruct (resource_metrics _ m) as [ms|err]; [|simplify_eq; by left].
       destruct (check_all now _ ms h) as [h1 b] eqn:Hc. injection Hn as <- <-. left. by eapply check_all_pool. }
  all: try (destruct (h_cancelled h); [|done]); injection Hn as <- <-; by left.
Qed.
End ResourceMonitor.

(** ** The network monitor *)
Section NetworkMonitor.
Context {E P : Type} `{Json, BanPool P}.
Abbreviation hub := (HubState.hub E P).

Lemma report_asked now cfg m (h : hub) : pool_asked (h_ctx h) (h_pool h) (h_pool (report now cfg m h)).
Proof.
  unfold report, nm_report, logFunction, network_events. case_bool_decide; [|by left].
  destruct (bp_BanIP (h_ctx h) now (nm_address m) _ (h_pool h)) as [p [already [err|]]] eqn:Hb; apply pool_asked_ban in Hb;
    destruct already; exact Hb.
Qed.

Lemma nw_loop_asked now e nw (h : hub) nw' h' :
  nw_loop now e nw h = Some (nw', h') → pool_asked (h_ctx h) (h_pool h) (h_pool h').
Proof.
  unfold nw_loop, nm_loop. destruct (nw_phase nw) as [|st links closed|]; try done.
  destruct (nm_next (nw_cfg nw) e st) as [[st1 out]|] eqn:Hn; [|done]. cbn [mbind option_bind]. intros [= <- <-].
  pose proof (nm_next_out _ _ _ _ _ Hn) as Hm. assert (Hl : (length out <= 1)%nat).
  { unfold nm_measure in Hm. unfold nm_next in Hn. destruct e, (nm_at st), (nm_at st1); try done; cbn in Hm; lia. }
  destruct out as [|m [|]]; cbn in *; [by left|apply report_asked|lia].
Qed.

#[global] Instance network_asked : Respects network_monitor network_event hub asked.
Proof.
  intros e nw h nw' h'. cbn [g_next network_goroutine]. unfold network_next, asked.
  destruct e as [b|now sample| |now| | | |]; destruct (nw_phase nw) as [|st links closed|] eqn:Hph; try done;
    try (intros Hn; repeat case_match; simplify_eq; by left).
  - destruct closed; [done|]. apply nw_loop_asked.
  - apply nw_loop_asked.
  - destruct (nw_clearing nw); [apply nw_loop_asked|done].
Qed.
End NetworkMonitor.

(** ** The command controller and the exporter do not know the pool *)
Section Controller.
Context {E P N M : Type} `{Json, BanPool P, KernelMaps N, KernelMaps M, GoQuote}.
Abbreviation hub := (HubState.hub E P).

#[global] Instance controller_asked : Respects (controller N M) (controller_event N M) hub asked.
Proof.
  intros e c h c' h'. cbn [g_next controller_goroutine]. unfold controller_next, asked.
  destruct e as [b|now sample| |ev| | |], (uc_phase c) as [|o []|o [] err|]; try done; intros Hn;
    try (repeat case_match; simplify_option_eq; repeat case_match; simplify_eq; by left).
  injection Hn as <- <-. unfold command_record. destruct (decodeCommandEvent _ _) as [[a|]|]; by left.
Qed.
End Controller.

Section Exporter.
Context {E P Conn PublicKey PrivateKey RE : Type}.
Context `{Websocket E Conn, Host E, FS E, Yaml, Json, Regexp RE, Primitives E PublicKey PrivateKey, KeyText PublicKey, ErrorText}.
Context `{BanPool P}.
Abbreviation hub := (HubState.hub E P).
Abbreviation exporter := (HubExporter.exporter PublicKey PrivateKey Conn).

#[global] Instance exporter_asked : Respects exporter exporter_event hub asked.
Proof.
  intros e x h x' h'. cbn [g_next exporter_goroutine]. unfold exporter_next, exporter_connect, exporter_serve, exporter_read,
    exporter_closed, asked.
  intros Hn. left. repeat (case_match; try done); simplify_eq; done.
Qed.
End Exporter.

Section Hub.
Context {E P Conn PublicKey PrivateKey RE N M : Type}.
Context `{Websocket E Conn, Host E, FS E, Yaml, Json, Regexp RE, Primitives E PublicKey PrivateKey, KeyText PublicKey, ErrorText}.
Context `{BanPool P, SnapshotHost E, SortSlice, KernelMaps N, KernelMaps M, GoQuote}.

#[global] Instance monitors_asked :
  Respects (Hub.monitors (Conn := Conn) (PublicKey := PublicKey) (PrivateKey := PrivateKey) (RE := RE) (N := N) (M := M))
    (Hub.monitors_event (N := N) (M := M)) (hub E P) asked.
Proof. unfold monitors, monitors_event, monitors_goroutine. apply _. Qed.
End Hub.
