(* ===== verification/Daemon.v ===== *)
(** * The daemon: the hub on the ban pool with its goroutines

    The pool of the hub is the ban pool with its clock and its [waitUnban] goroutines, each
    holding the context that [BanIP] or [RestoreBans] was called with.  A step of the daemon
    is a step of the hub, or a step of one of these goroutines, or time that passes; whether
    a goroutine finds its context done is read off the hub, which cancels the context of a
    cycle and makes a new one for the next.  [pool_view] is what BanPoolSystem.v makes of
    such a state: every step of the daemon is seen there as steps of the pool system
    ([daemon_step_pool]), which says that a cancelled cycle reaches the goroutines of its
    context and of no later one, so that what BanPoolSystem.v and BanPoolLiveness.v prove
    holds of the daemon. *)

From S2P Require Import Prelude.
From S2P Require Import Config.
From S2P Require Import ConfigValidate.
From S2P Require Import ConfigLoad.
From S2P Require Import Repository.
From S2P Require Import Firewall.
From S2P Require Import BanPool.
From S2P Require Import Protocol.
From S2P Require Import Monitor.
From S2P Require Import Snapshot.
From S2P Require Import Cryptography.
From S2P Require Import CommandController.
From S2P Require Import Connector.
From S2P Require Import Goroutines.
From S2P Require Import HubEvents.
From S2P Require Import HubState.
From S2P Require Import HubMonitors.
From S2P Require Import HubExporter.
From S2P Require Import Hub.
From S2P Require Import HubPool.
From S2P Require Import BanPoolOps.
From S2P Require Import BanPoolSystem.
From S2P Require Import BanPoolLiveness.

(** ** The pool as the hub uses it *)

(** [go bp.waitUnban(ctx, ban)]. *)
Record waiter := MkWaiter { w_ctx : context; w_ban : Ban; w_retries : Z; w_phase : BanPoolSystem.phase }.
Definition go_waitUnban (ctx : context) (ban : Ban) : waiter := MkWaiter ctx ban 0 PStart.

Record daemon_pool (R F : Type) := MkDaemonPool { dp_now : Z; dp_pool : banPool R F; dp_waiters : list waiter }.
Arguments MkDaemonPool {R F}. Arguments dp_now {R F}. Arguments dp_pool {R F}. Arguments dp_waiters {R F}.

#[global] Instance daemon_pool_ops {R F} `{Repository R, Firewall F} : BanPool (daemon_pool R F) := {
  bp_BanIP ctx t ip secs s :=
    let '(p, res, started) := BanIP t ip secs (dp_pool s) in
    (MkDaemonPool t p (dp_waiters s ++ match started with Some b => [go_waitUnban ctx b] | None => [] end), res);
  bp_UnbanIP ip s :=
    let '(p, err) := UnbanIP ip (dp_pool s) in (MkDaemonPool (dp_now s) p (dp_waiters s), err);
  bp_RestoreBans ctx t1 t2 s :=
    let '(p, err, started) := RestoreBans t1 t2 (dp_pool s) in
    (MkDaemonPool t2 p (dp_waiters s ++ map (go_waitUnban ctx) started), err) }.

(** The goroutine after a round: gone, or waiting again. *)
Definition after_waiter_round (t : Z) (w : waiter) (out : wait_outcome) : list waiter :=
  match out with
  | Return => []
  | Break ban => [MkWaiter (w_ctx w) ban (w_retries w) PStart]
  | Retry n => [MkWaiter (w_ctx w) (w_ban w) n (PWaiting t unbanRetryInterval)]
  end.

(** No step of the daemon is an [UnbanIP]. *)
Definition not_unban (e : event) : Prop := match e with EvUnban _ _ => False | _ => True end.

(** ** The context as a goroutine sees it, and the state of the pool system *)
Section View.
Context {R F E : Type} `{Repository R, Firewall F}.
Abbreviation hub := (HubState.hub E (daemon_pool R F)).
Implicit Types (h : hub) (w : waiter).

(** [ctx.Done]: the contexts of the earlier cycles were cancelled when these ended. *)
Definition ctx_done h (c : context) : bool := (c <? h_ctx h)%nat || ((c =? h_ctx h)%nat && h_cancelled h).

Definition goroutine_of h w : goroutine := Goroutine (w_ban w) (w_retries w) (w_phase w) (ctx_done h (w_ctx w)).
Definition pool_view h : sys R F :=
  Sys (dp_now (h_pool h)) (h_cancelled h) (dp_pool (h_pool h)) (map (goroutine_of h) (dp_waiters (h_pool h))).

(** No goroutine was given a context that has not been made yet. *)
Definition contexts_ok h : Prop := Forall (λ w, (w_ctx w <= h_ctx h)%nat) (dp_waiters (h_pool h)).

(** *** Time passes, a goroutine moves *)
Inductive waiter_step h : event → daemon_pool R F → Prop :=
| waiter_tick t :
    dp_now (h_pool h) <= t →
    waiter_step h EvTick (MkDaemonPool t (dp_pool (h_pool h)) (dp_waiters (h_pool h)))
| waiter_start ws1 ws2 w :
    dp_waiters (h_pool h) = ws1 ++ w :: ws2 → w_phase w = PStart →
    waiter_step h (EvStart (w_ban w))
      (MkDaemonPool (dp_now (h_pool h)) (dp_pool (h_pool h))
         (ws1 ++ MkWaiter (w_ctx w) (w_ban w) (w_retries w)
                   (PWaiting (dp_now (h_pool h)) (BannedUntil (w_ban w) - dp_now (h_pool h))) :: ws2))
| waiter_wait ws1 ws2 w since delay b :
    dp_waiters (h_pool h) = ws1 ++ w :: ws2 → w_phase w = PWaiting since delay →
    waitForContext delay (dp_now (h_pool h) - since) (ctx_done h (w_ctx w)) b →
    waiter_step h (EvWait (w_ban w) b)
      (MkDaemonPool (dp_now (h_pool h)) (dp_pool (h_pool h))
         (ws1 ++ (if b then [MkWaiter (w_ctx w) (w_ban w) (w_retries w) PReady] else []) ++ ws2))
| waiter_round ws1 ws2 w p' out :
    dp_waiters (h_pool h) = ws1 ++ w :: ws2 → w_phase w = PReady →
    waitUnban_round (dp_now (h_pool h)) (w_ban w) (w_retries w) (dp_pool (h_pool h)) = (p', out) →
    waiter_step h (EvRound (w_ban w) out)
      (MkDaemonPool (dp_now (h_pool h)) p' (ws1 ++ after_waiter_round (dp_now (h_pool h)) w out ++ ws2)).

(** *** The two systems agree on these steps *)
Lemma after_round_view h t w out :
  map (goroutine_of h) (after_waiter_round t w out) = after_round t (goroutine_of h w) out.
Proof. by destruct out. Qed.

Lemma goroutine_of_pool h p w : goroutine_of (set_pool p h) w = goroutine_of h w. Proof. done. Qed.

Lemma waiter_step_view h e p' :
  waiter_step h e p' → step (pool_view h) e (pool_view (set_pool p' h)).
Proof.
  intros Hst. destruct Hst as [t Ht|ws1 ws2 w Hws Hph|ws1 ws2 w since delay b Hws Hph Hw|ws1 ws2 w p' out Hws Hph Hr].
  - exact (step_tick (pool_view h) t Ht).
  - unfold pool_view at 2. cbn [h_pool set_pool dp_now dp_pool dp_waiters h_cancelled]. rewrite map_app. cbn [map].
    apply (step_start (pool_view h) (map (goroutine_of h) ws1) (map (goroutine_of h) ws2) (goroutine_of h w)); [|done].
    cbn. by rewrite Hws, map_app.
  - unfold pool_view at 2. cbn [h_pool set_pool dp_now dp_pool dp_waiters h_cancelled]. rewrite !map_app.
    replace (map (goroutine_of (set_pool _ h)) (if b then _ else []))
      with (if b then [Goroutine (w_ban w) (w_retries w) PReady (ctx_done h (w_ctx w))] else []) by by destruct b.
    apply (step_wait (pool_view h) (map (goroutine_of h) ws1) (map (goroutine_of h) ws2) (goroutine_of h w) since delay b); [|done|done].
    cbn. by rewrite Hws, map_app.
  - unfold pool_view at 2. cbn [h_pool set_pool dp_now dp_pool dp_waiters h_cancelled]. rewrite !map_app, after_round_view.
    apply (step_round (pool_view h) (map (goroutine_of h) ws1) (map (goroutine_of h) ws2) (goroutine_of h w) p' out); [|done|done].
    cbn. by rewrite Hws, map_app.
Qed.

Lemma waiter_step_contexts h e p' : waiter_step h e p' → contexts_ok h → contexts_ok (set_pool p' h).
Proof.
  unfold contexts_ok. intros Hst. destruct Hst as [t Ht|ws1 ws2 w Hws _|ws1 ws2 w since delay b Hws _ _|ws1 ws2 w p' out Hws _ _];
    cbn [h_pool set_pool dp_waiters h_ctx]; [done|rewrite Hws, !Forall_app, ?Forall_cons; cbn [w_ctx]..].
  - done.
  - intros (? & Hw & ?). split_and!; [done| |done]. destruct b; [by repeat constructor|constructor].
  - intros (? & Hw & ?). split_and!; [done| |done]. destruct out; [constructor|by repeat constructor..].
Qed.

Lemma view_split h gs1 g gs2 :
  map (goroutine_of h) (dp_waiters (h_pool h)) = gs1 ++ g :: gs2 →
  ∃ ws1 w ws2, dp_waiters (h_pool h) = ws1 ++ w :: ws2 ∧ gs1 = map (goroutine_of h) ws1 ∧ g = goroutine_of h w ∧
    gs2 = map (goroutine_of h) ws2.
Proof.
  intros Hm. apply map_eq_app in Hm as (ws1 & rest & -> & <- & Hm). destruct rest as [|w ws2]; [done|]. cbn [map] in Hm.
  injection Hm as <- <-. by exists ws1, w, ws2.
Qed.

(** The moves of goroutines in the pool system are moves of the daemon's. *)
Lemma view_step_waiter h e s' :
  wakes e → step (pool_view h) e s' → ∃ p', waiter_step h e p' ∧ pool_view (set_pool p' h) = s'.
Proof.
  intros Hw Hst.
  inversion Hst as [| | | |? gs1 gs2 g Hgs Hph|? gs1 gs2 g since delay b Hgs Hph Hwt|? gs1 gs2 g p' out Hgs Hph Hr| |]; subst; try done;
    destruct (view_split _ _ _ _ Hgs) as (ws1 & w & ws2 & Hws & -> & -> & ->).
  - eexists. split; [exact (waiter_start h ws1 ws2 w Hws Hph)|]. unfold pool_view at 1. cbn. by rewrite map_app.
  - eexists. split; [exact (waiter_wait h ws1 ws2 w since delay b Hws Hph Hwt)|]. unfold pool_view at 1. cbn. rewrite !map_app. by destruct b.
  - eexists. split; [exact (waiter_round h ws1 ws2 w p' out Hws Hph Hr)|]. unfold pool_view at 1. cbn. by rewrite !map_app, after_round_view.
Qed.

(** *** The context is cancelled, and replaced *)
Lemma ctx_done_current h : ctx_done h (h_ctx h) = h_cancelled h.
Proof. unfold ctx_done. by rewrite Nat.ltb_irrefl, Nat.eqb_refl. Qed.

(** The hub cancels its context, its pool being the same. *)
Lemma view_cancelled h h' :
  contexts_ok h → h_ctx h' = h_ctx h → h_pool h' = h_pool h → h_cancelled h' = true →
  pool_view h' = Sys (now (pool_view h)) true (spool (pool_view h)) (map cancel (gos (pool_view h))).
Proof.
  unfold contexts_ok, pool_view. cbn. intros Hok Hx -> Hc. rewrite Hc. f_equal. rewrite map_map. apply map_ext_in.
  intros w Hin. rewrite Forall_forall in Hok. specialize (Hok w). rewrite list_elem_of_In in Hok. specialize (Hok Hin).
  unfold goroutine_of, cancel, ctx_done. cbn -[Nat.ltb Nat.eqb]. f_equal. rewrite Hx, Hc.
  destruct (Nat.ltb_spec (w_ctx w) (h_ctx h)); [done|]. by rewrite (proj2 (Nat.eqb_eq _ _)) by lia.
Qed.

(** A new context: every goroutine has the context of an earlier cycle. *)
Lemma view_renewed h h' :
  contexts_ok h → h_ctx h' = S (h_ctx h) → h_pool h' = h_pool h → h_cancelled h' = false →
  pool_view h' = Sys (now (pool_view h)) false (spool (pool_view h)) (map cancel (gos (pool_view h))).
Proof.
  unfold contexts_ok, pool_view. cbn. intros Hok Hx -> Hc. rewrite Hc. f_equal. rewrite map_map. apply map_ext_in.
  intros w Hin. rewrite Forall_forall in Hok. specialize (Hok w). rewrite list_elem_of_In in Hok. specialize (Hok Hin).
  unfold goroutine_of, cancel, ctx_done. cbn -[Nat.ltb Nat.eqb]. f_equal. rewrite Hx. by rewrite (proj2 (Nat.ltb_lt _ _)) by lia.
Qed.

Lemma view_same h h' :
  h_ctx h' = h_ctx h → h_pool h' = h_pool h → h_cancelled h' = h_cancelled h → pool_view h' = pool_view h.
Proof.
  unfold pool_view. intros Hx -> Hc. rewrite Hc. f_equal. apply map_ext. intros w.
  unfold goroutine_of, ctx_done. by rewrite Hx, Hc.
Qed.

(** [BanIP] under the hub's context. *)
Lemma view_asked h p' :
  contexts_ok h → pool_asked (h_ctx h) (h_pool h) p' → dp_now (h_pool h) <= dp_now p' →
  contexts_ok (set_pool p' h) ∧
  ∃ es, steps (pool_view h) es (pool_view (set_pool p' h)) ∧ Forall undisturbed es ∧ Forall not_unban es.
Proof.
  intros Hok [->|(t & ip & secs & ->)] Ht.
  { replace (set_pool (h_pool h) h) with h by by destruct h. split; [done|]. exists []. repeat constructor. }
  cbn [bp_BanIP daemon_pool_ops] in *. destruct (BanIP t ip secs (dp_pool (h_pool h))) as [[p1 [already err]] started] eqn:Hb.
  cbn [fst dp_now] in *. split.
  { unfold contexts_ok in *. cbn. apply Forall_app. split; [done|]. destruct started; [by repeat constructor|constructor]. }
  exists [EvTick; EvBan ip secs already err]. split_and!; [|by repeat constructor|by repeat constructor].
  econstructor; [by apply (step_tick (pool_view h) t)|]. apply steps_one.
  pose proof (step_ban (Sys t (h_cancelled h) (dp_pool (h_pool h)) (gos (pool_view h))) ip secs p1 already err started Hb) as Hst.
  replace (pool_view (set_pool _ h)) with (Sys t (h_cancelled h) p1
    (gos (pool_view h) ++ match started with Some b => [spawn (h_cancelled h) b] | None => [] end)); [exact Hst|].
  unfold pool_view. cbn [gos h_pool set_pool dp_now dp_pool dp_waiters h_cancelled]. rewrite map_app. do 2 f_equal.
  destruct started as [b|]; [|done]. cbn [map]. f_equal. unfold spawn, goroutine_of. f_equal. symmetry. exact (ctx_done_current h).
Qed.
End View.

Section Daemon.
Context {R F E Conn PublicKey PrivateKey RE N M : Type}.
Context `{Websocket E Conn, Host E, FS E, Yaml, Json, Regexp RE, Primitives E PublicKey PrivateKey, KeyText PublicKey, ErrorText}.
Context `{Repository R, Firewall F, SnapshotHost E, SortSlice, KernelMaps N, KernelMaps M, GoQuote}.
Abbreviation hub := (HubState.hub E (daemon_pool R F)).
Abbreviation phase := (hub_phase (Conn := Conn) (PublicKey := PublicKey) (PrivateKey := PrivateKey) (RE := RE) (N := N) (M := M)).
Abbreviation devent := (hub_event (N := N) (M := M) + event)%type.
Implicit Types h : hub.

(** The clock does not go back: a step reads instants from the pool's clock on. *)
Definition clock_forward (e : hub_event (N := N) (M := M)) h h' : Prop :=
  match e with
  | Step _ => dp_now (h_pool h) <= dp_now (h_pool h')
  | CycleEnds t1 t2 => dp_now (h_pool h) <= t1 ∧ t1 <= t2
  end.

Inductive daemon_step : phase * hub → devent → phase * hub → Prop :=
| daemon_hub e s h s' h' :
    hub_next e s h = Some (s', h') → clock_forward e h h' → daemon_step (s, h) (inl e) (s', h')
| daemon_waiter e s h p' :
    waiter_step h e p' → daemon_step (s, h) (inr e) (s, set_pool p' h).

Inductive daemon_steps : phase * hub → list devent → phase * hub → Prop :=
| daemon_nil d : daemon_steps d [] d
| daemon_cons d1 e d2 es d3 : daemon_step d1 e d2 → daemon_steps d2 es d3 → daemon_steps d1 (e :: es) d3.

(** ** What the pool system sees of a step *)

(** A step of the goroutines: at most one [BanIP], under the context of the cycle, and
    perhaps the end of that context. *)
Lemma hub_step_view (e : monitors_event (N := N) (M := M)) (s : phase) h (s' : phase) h' :
  hub_next (Step e) s h = Some (s', h') → dp_now (h_pool h) <= dp_now (h_pool h') → contexts_ok h →
  contexts_ok h' ∧ (h_cancelled h = true → h_cancelled h' = true) ∧
  ∃ es, steps (pool_view h) es (pool_view h') ∧ Forall not_unban es ∧ (h_cancelled h' = false → Forall undisturbed es).
Proof.
  destruct s as [ms|]; [|done]. cbn [hub_next]. intros Hn Ht Hok.
  destruct (g_next e ms h) as [[ms1 h1]|] eqn:He; [|done]. injection Hn as <- <-.
  pose proof (monitors_later _ _ _ _ _ He) as [Hlater _ _ _ Hx]. apply monitors_asked in He. unfold asked in He.
  destruct (view_asked h (h_pool h1) Hok He Ht) as (Hok1 & es & Hst & Hund & Hnot).
  assert (Hok2 : contexts_ok h1) by (unfold contexts_ok in *; by rewrite Hx). split_and!; [done|done|].
  destruct (h_cancelled h1) eqn:Hc1; [destruct (h_cancelled h) eqn:Hc|].
  - exists es. split_and!; [|done|done]. by rewrite (view_same (set_pool (h_pool h1) h) h1) by (cbn; congruence).
  - exists (es ++ [EvCancel]). split_and!; [|apply Forall_app; split; [done|by repeat constructor]|done].
    eapply steps_app; [exact Hst|]. apply steps_one. rewrite (view_cancelled (set_pool (h_pool h1) h) h1) by done. apply step_cancel.
  - exists es. split_and!; [|done|done]. rewrite (view_same (set_pool (h_pool h1) h) h1); [done|done|done|].
    cbn. destruct (h_cancelled h); [by rewrite Hlater in Hc1|done].
Qed.

(** The end of a cycle: its context is cancelled, and the next cycle restores the bans
    under a new one, between the instants it reads. *)
Lemma cycle_view t1 t2 (s : phase) h (s' : phase) h' :
  hub_next (CycleEnds t1 t2) s h = Some (s', h') → dp_now (h_pool h) <= t1 → t1 <= t2 → contexts_ok h →
  contexts_ok h' ∧
  ((s' = HubReturned ∧ h_cancelled h' = true ∧ steps (pool_view h) [EvCancel] (pool_view h')) ∨
   (s' = Cycling (start_monitors h') ∧ h_cancelled h' = false ∧ ∃ err,
      let s0 := Sys t1 false (spool (pool_view h)) (map cancel (gos (pool_view h))) in
      steps (pool_view h) [EvCancel; EvNewContext; EvTick] s0 ∧ step s0 (EvRestore t2 err) (pool_view h'))).
Proof.
  destruct s as [ms|]; [|done]. cbn [hub_next]. destruct (g_running ms); [done|]. intros Hn Ht1 Ht2 Hok.
  destruct (after_cycle h) as [h1|] eqn:Ha.
  2:{ injection Hn as <- <-. split; [done|]. left. assert (Hc : h_cancelled (signal true false h) = true) by (cbn; by rewrite orb_true_r).
      split_and!; [done|done|]. rewrite (view_cancelled h (signal true false h)) by done. apply steps_one, step_cancel. }
  assert (h_ctx h1 = S (h_ctx h) ∧ h_pool h1 = h_pool h ∧ h_cancelled h1 = false) as (Hx & Hp & Hc).
  { unfold after_cycle in Ha. destruct (h_restart h); [|done]. destruct (LoadConfigReadOnly _ _ _) as [cfg [[]|]]; [|done].
    by injection Ha as <-. }
  unfold runCycle_start in Hn. rewrite Hp in Hn. cbn [bp_RestoreBans daemon_pool_ops] in Hn.
  destruct (RestoreBans t1 t2 (dp_pool (h_pool h))) as [[p err] started] eqn:Hr. injection Hn as <- <-.
  pose proof (view_renewed h h1 Hok Hx Hp Hc) as Hv. split; [|right; split_and!; [done|done|]].
  - unfold contexts_ok in *. cbn. rewrite Hx. apply Forall_app. split.
    + eapply Forall_impl; [exact Hok|]. cbn. lia.
    + apply Forall_map, Forall_true. cbn. lia.
  - exists err. cbn zeta. split.
    + econstructor; [apply step_cancel|]. econstructor; [by apply step_newctx|]. apply steps_one.
      by apply (step_tick (Sys (now (pool_view h)) false (spool (pool_view h)) (map cancel (gos (pool_view h)))) t1).
    + pose proof (step_restore (Sys t1 false (spool (pool_view h)) (map cancel (gos (pool_view h)))) t2 p err started Ht2 Hr) as Hst.
      replace (pool_view (set_pool _ h1)) with (Sys t2 false p (gos (pool_view h1) ++ map (spawn false) started)).
      { rewrite Hv. exact Hst. }
      unfold pool_view. cbn [gos h_pool set_pool dp_now dp_pool dp_waiters h_cancelled]. rewrite map_app, Hp, Hc. do 2 f_equal.
      rewrite map_map. apply map_ext. intros b. unfold spawn, goroutine_of. cbn [w_ctx w_ban w_retries w_phase go_waitUnban]. f_equal.
      rewrite <- Hc. symmetry. exact (ctx_done_current h1).
Qed.

Lemma daemon_step_pool d e d' :
  daemon_step d e d' → contexts_ok (snd d) →
  contexts_ok (snd d') ∧ ∃ es, steps (pool_view (snd d)) es (pool_view (snd d')) ∧ Forall not_unban es.
Proof.
  intros Hd Hok. destruct Hd as [[e|t1 t2] s h s' h' Hn Ht|e s h p' Hst]; cbn [snd clock_forward] in *.
  - destruct (hub_step_view _ _ _ _ _ Hn Ht Hok) as (Hok' & _ & es & ? & ? & _). split; [done|]. by exists es.
  - destruct Ht as [Ht1 Ht2]. destruct (cycle_view _ _ _ _ _ _ Hn Ht1 Ht2 Hok) as [Hok' Hor]. split; [done|].
    destruct Hor as [(_ & _ & Hst)|(_ & _ & err & Hst & Hrest)]; [exists [EvCancel]; split; [done|by repeat constructor]|].
    exists ([EvCancel; EvNewContext; EvTick] ++ [EvRestore t2 err]). split; [|by repeat constructor].
    eapply steps_app; [exact Hst|by apply steps_one].
  - split; [by eapply waiter_step_contexts|]. exists [e]. split; [apply steps_one; by apply waiter_step_view|].
    constructor; [by destruct Hst|constructor].
Qed.

Lemma daemon_steps_pool d es d' :
  daemon_steps d es d' → contexts_ok (snd d) →
  contexts_ok (snd d') ∧ ∃ pes, steps (pool_view (snd d)) pes (pool_view (snd d')) ∧ Forall not_unban pes.
Proof.
  induction 1 as [d|d1 e d2 es d3 Hd _ IH]; intros Hok; [split; [done|]; exists []; by repeat constructor|].
  destruct (daemon_step_pool _ _ _ Hd Hok) as (Hok2 & es1 & Hst1 & Hn1). destruct (IH Hok2) as (Hok3 & es2 & Hst2 & Hn2).
  split; [done|]. exists (es1 ++ es2). split; [by eapply steps_app|by apply Forall_app].
Qed.

(** The goroutines of the pool are goroutines of the daemon. *)
Lemma lift_steps (s : phase) h pes sp' :
  Forall wakes pes → steps (pool_view h) pes sp' →
  ∃ h', daemon_steps (s, h) (map inr pes) (s, h') ∧ pool_view h' = sp'.
Proof.
  intros Hw Hst. remember (pool_view h) as sp eqn:Hsp. revert h Hsp. induction Hst as [sp|sp1 e sp2 pes sp3 He _ IH]; intros h ->.
  - exists h. by repeat constructor.
  - rewrite Forall_cons in Hw. destruct Hw as [Hwe Hw]. destruct (view_step_waiter h e sp2 Hwe He) as (p' & Hp & Hv).
    destruct (IH Hw (set_pool p' h) (eq_sym Hv)) as (h' & Hd & Hv'). exists h'. split; [|done].
    cbn [map]. econstructor; [by apply daemon_waiter|exact Hd].
Qed.
End Daemon.

(** ** Cycles *)
Section Cycles.
Context {R F E Conn PublicKey PrivateKey RE N M : Type}.
Context `{Websocket E Conn, Host E, FS E, Yaml, Json, Regexp RE, Primitives E PublicKey PrivateKey, KeyText PublicKey, ErrorText}.
Context `{Repository R, Firewall F, SnapshotHost E, SortSlice, KernelMaps N, KernelMaps M, GoQuote}.
Abbreviation hub := (HubState.hub E (daemon_pool R F)).
Abbreviation phase := (hub_phase (Conn := Conn) (PublicKey := PublicKey) (PrivateKey := PrivateKey) (RE := RE) (N := N) (M := M)).
Abbreviation devent := (hub_event (N := N) (M := M) + event)%type.

Definition in_cycle (e : devent) : Prop := match e with inl (CycleEnds _ _) => False | _ => True end.
Definition goroutine_moves (e : devent) : Prop := match e with inr w => wakes w | inl _ => False end.

(** A cycle that has just restored the bans, its [RestoreBans] having read the clock at
    [t1] and at [t2]: the first one, or the one that follows the cycle of [d]. *)
Inductive cycle_starts (t1 t2 : Z) : phase * hub → phase * hub → Prop :=
| starts_first s (h : hub) :
    h_cancelled h = false → cycle_starts t1 t2 (s, h) (RunMonitoring_start t1 t2 h)
| starts_next s (h : hub) ms h' :
    hub_next (CycleEnds t1 t2) s h = Some (Cycling ms, h') → cycle_starts t1 t2 (s, h) (Cycling ms, h').

(** Within a cycle that is not cancelled the pool is undisturbed. *)
Lemma cycle_steps (d d' : phase * hub) (es : list devent) :
  daemon_steps d es d' → Forall in_cycle es → contexts_ok (snd d) → h_cancelled (snd d') = false →
  h_cancelled (snd d) = false ∧ ∃ pes, steps (pool_view (snd d)) pes (pool_view (snd d')) ∧ Forall undisturbed pes.
Proof.
  induction 1 as [d|d1 e d2 es d3 Hd _ IH]; [intros; split; [done|exists []; by repeat constructor]|].
  rewrite Forall_cons. intros [He Hes] Hok Hf. pose proof (daemon_step_pool _ _ _ Hd Hok) as [Hok2 _].
  destruct (IH Hes Hok2 Hf) as (Hf2 & pes2 & Hst2 & Hund2).
  destruct Hd as [[e|t1 t2] s h s' h' Hn Ht|e s h p' Hst]; cbn [snd in_cycle clock_forward] in *; [|done|].
  - destruct (hub_step_view _ _ _ _ _ Hn Ht Hok) as (_ & Hl & pes1 & Hst1 & _ & Hund1). split.
    + destruct (h_cancelled h); [by rewrite Hl in Hf2|done].
    + exists (pes1 ++ pes2). split; [by eapply steps_app|]. apply Forall_app. split; [by apply Hund1|done].
  - split; [done|]. exists (e :: pes2). split; [econstructor; [by apply waiter_step_view|done]|].
    constructor; [by destruct Hst|done].
Qed.

Lemma cycle_starts_pool t1 t2 (d d' : phase * hub) :
  contexts_ok (snd d) → dp_now (h_pool (snd d)) <= t1 → t1 <= t2 → cycle_starts t1 t2 d d' →
  contexts_ok (snd d') ∧ ∃ s0 pes err, steps (pool_view (snd d)) pes s0 ∧ now s0 = t1 ∧ cancelled s0 = false ∧
    spool s0 = dp_pool (h_pool (snd d)) ∧ step s0 (EvRestore t2 err) (pool_view (snd d')).
Proof.
  intros Hok Ht1 Ht2 Hd. destruct Hd as [s h Hc|s h ms h' Hn]; cbn [snd] in *.
  - unfold RunMonitoring_start, runCycle_start. cbn [bp_RestoreBans daemon_pool_ops].
    destruct (RestoreBans t1 t2 (dp_pool (h_pool h))) as [[p err] started] eqn:Hr. cbn [snd]. split.
    + unfold contexts_ok in *. cbn. apply Forall_app. split; [done|]. apply Forall_map, Forall_true. cbn. lia.
    + exists (Sys t1 (h_cancelled h) (spool (pool_view h)) (gos (pool_view h))), [EvTick], err.
      split_and!; [by apply steps_one, (step_tick (pool_view h) t1)|done|done|done|].
      pose proof (step_restore (Sys t1 (h_cancelled h) (spool (pool_view h)) (gos (pool_view h))) t2 p err started Ht2 Hr) as Hst.
      replace (pool_view (set_pool _ h)) with (Sys t2 (h_cancelled h) p (gos (pool_view h) ++ map (spawn (h_cancelled h)) started)); [exact Hst|].
      unfold pool_view. cbn [gos h_pool set_pool dp_now dp_pool dp_waiters h_cancelled]. rewrite map_app. do 2 f_equal.
      rewrite map_map. apply map_ext. intros b. unfold spawn, goroutine_of. cbn [w_ctx w_ban w_retries w_phase go_waitUnban]. f_equal.
      symmetry. exact (ctx_done_current h).
  - destruct (cycle_view _ _ _ _ _ _ Hn Ht1 Ht2 Hok) as [Hok' [(? & _)|(_ & Hc & err & Hst & Hrest)]]; [done|].
    split; [done|]. eexists _, _, err. split_and!; [exact Hst|done|done|done|exact Hrest].
Qed.
End Cycles.

(** C6: No rule without a row, in the whole daemon: over all cycles, restarts and steps of the
    goroutines, whatever statement of the database and whatever change of the firewall
    fails, as long as the queries of the firewall answer ([RuleAnswers], from which the
    engines get [FirewallSpec]) and the host stays in one zone ([OneZone], from which the
    database gets [RepositorySpec]), an address that some chain drops is one the pool may
    ban and has a row in the table. *)
Theorem daemon_rules_have_rows {R F E Conn PublicKey PrivateKey RE N M : Type}
  `{Websocket E Conn, Host E, FS E, Yaml, Json, Regexp RE, Primitives E PublicKey PrivateKey, KeyText PublicKey, ErrorText}
  `{RepositorySpec R, FirewallSpec F, SnapshotHost E, SortSlice, KernelMaps N, KernelMaps M, GoQuote}
  (d d' : hub_phase (Conn := Conn) (PublicKey := PublicKey) (PrivateKey := PrivateKey) (RE := RE) (N := N) (M := M) *
          HubState.hub E (daemon_pool R F)) es ip :
  contexts_ok (snd d) → sys_inv (pool_view (snd d)) → daemon_steps d es d' →
  block (dp_pool (h_pool (snd d'))) ip = true →
  validateBanIP ip = None ∧ ∃ b, b ∈ rows (dp_pool (h_pool (snd d'))) ∧ IP b = ip.
Proof.
  intros Hok Hinv Hd. destruct (daemon_steps_pool _ _ _ Hd Hok) as (_ & pes & Hst & _).
  exact (pi_rule _ (si_pool _ (steps_inv _ _ _ Hinv Hst)) ip).
Qed.

(** C1: Every ban of the daemon ends, when the database and the firewall do not fail
    ([ReliablePool]).  Take any cycle, the first one or one that follows a restart, whose
    [RestoreBans] found no ban that ended between its two reads of the clock ([t1] and
    [t2]), as long as it is not cancelled: whatever its monitors and goroutines do, a ban
    whose time is over can be lifted at once by its own goroutine, whether it was made in
    this cycle or restored from an earlier one; no time passes and no monitor is needed. *)
Theorem daemon_bans_end {R F E Conn PublicKey PrivateKey RE N M : Type}
  `{Websocket E Conn, Host E, FS E, Yaml, Json, Regexp RE, Primitives E PublicKey PrivateKey, KeyText PublicKey, ErrorText}
  `{ReliablePool R F, SnapshotHost E, SortSlice, KernelMaps N, KernelMaps M, GoQuote}
  (s2 : hub_phase (Conn := Conn) (PublicKey := PublicKey) (PrivateKey := PrivateKey) (RE := RE) (N := N) (M := M))
  d0 d1 (h2 : HubState.hub E (daemon_pool R F)) t1 t2 es b :
  contexts_ok (snd d0) → sys_inv (pool_view (snd d0)) → rows_valid (dp_pool (h_pool (snd d0))) →
  dp_now (h_pool (snd d0)) <= t1 → t1 <= t2 → window_clear t1 t2 (dp_pool (h_pool (snd d0))) →
  cycle_starts t1 t2 d0 d1 → daemon_steps d1 es (s2, h2) → Forall in_cycle es → h_cancelled h2 = false →
  b ∈ rows (dp_pool (h_pool h2)) → BannedUntil b <= dp_now (h_pool h2) →
  ∃ es' h3, daemon_steps (s2, h2) es' (s2, h3) ∧ Forall goroutine_moves es' ∧ dp_now (h_pool h3) = dp_now (h_pool h2) ∧
    (∀ x, x ∈ rows (dp_pool (h_pool h3)) → IP x ≠ IP b) ∧ block (dp_pool (h_pool h3)) (IP b) = false.
Proof.
  intros Hok Hinv Hv Ht1 Ht2 Hclear Hstart Hd Hcyc Hf Hb Hdue.
  destruct (cycle_starts_pool _ _ _ _ Hok Ht1 Ht2 Hstart) as (Hok1 & s0 & pes0 & err & Hst0 & Hnow & Hc0 & Hsp & Hrest).
  destruct (cycle_steps _ _ _ Hd Hcyc Hok1 Hf) as (_ & pes & Hst & Hund). cbn [snd] in Hst.
  pose proof (steps_inv _ _ _ Hinv Hst0) as Hinv0. rewrite <- Hsp in Hv, Hclear. rewrite <- Hnow in Hclear.
  pose proof (restore_covered _ _ _ _ Hinv0 Hc0 Hv Hclear Hrest) as Hcov. pose proof (step_inv _ _ _ Hinv0 Hrest) as Hinv1.
  destruct (steps_covered _ _ _ Hinv1 Hcov Hund Hst) as [Hinv2 Hcov2].
  destruct (lift_now _ _ Hinv2 Hcov2 Hb Hdue) as (wes & p3 & Hw & Hst3 & Hn3 & Hgone & Hbl).
  destruct (lift_steps s2 h2 wes p3 Hw Hst3) as (h3 & Hd3 & <-).
  exists (map inr wes), h3. split_and!; [done| |done|done|done].
  apply Forall_map. by eapply Forall_impl; [exact Hw|].
Qed.
