(* ===== verification/HubExamples.v ===== *)
(** * The hub in a concrete world

    The machine of ConnectorExamples with a process table, a ban pool without bans and
    kernel maps in memory.  The goroutines run until they stop; a configuration is pushed
    and runs; one that takes the push back comes too late. *)

From S2P Require Import Prelude.
From S2P Require Import GoStrings.
From S2P Require Import GoFloat.
From S2P Require Import Config.
From S2P Require Import ConfigValidate.
From S2P Require Import ConfigLoad.
From S2P Require Import ConfigExamples.
From S2P Require Import BanPool.
From S2P Require Import Repository.
From S2P Require Import Firewall.
From S2P Require Import BanPoolExamples.
From S2P Require Import Protocol.
From S2P Require Import Cryptography.
From S2P Require Import Monitor.
From S2P Require Import Snapshot.
From S2P Require Import Policy.
From S2P Require Import CommandController.
From S2P Require Import Words.
From S2P Require Import CommandHandles.
From S2P Require Import CommandGate.
From S2P Require Import CommandPolicy.
From S2P Require Import CommandRun.
From S2P Require Import CommandExamples.
From S2P Require Import Connector.
From S2P Require Import ConnectorClaims.
From S2P Require Import ConnectorExamples.
From S2P Require Import HubEvents.
From S2P Require Import Goroutines.
From S2P Require Import HubState.
From S2P Require Import HubMonitors.
From S2P Require Import HubEbpf.
From S2P Require Import HubCommand.
From S2P Require Import HubCommandPolicy.
From S2P Require Import HubExporter.
From S2P Require Import Hub.

#[global] Instance machine_snapshots : SnapshotHost machine := {
  ProcessesWithContext _ := Some [idle_proc];
  snapshot_Now _ := 0;
  time_Format _ _ := "now";
  os_Create path m := os_WriteFile path EmptyString m;
  tabwriter_Flush path text m := os_WriteFile path text m }.
#[global] Instance plain_quote : GoQuote := λ s, s.
#[global] Instance error_names : ErrorText := an_error.
#[global] Instance machine_keeps : KeepsFiles machine unit toy_key toy_key.
Proof. split; intros; try by split. cbn. destruct (m_inbox e); by split. Qed.

(** A message is the text of a database, which an envelope carries as a configuration. *)
#[local] Instance push_json : Json := {
  json_Marshal p := Some (match p with PAck a => ack_Status a | _ => "payload" end);
  json_Marshal_Config c := Some (BlockedIPsDatabase c);
  json_Marshal_Envelope e := Some (Operation e +:+ " " +:+ Payload e);
  json_Unmarshal_Envelope s := Some (MkEnvelope Version 7 ServiceConfig OpSetConfig "cfg" "user" s);
  json_Unmarshal_Hello _ := None; json_Unmarshal_Ack _ := None;
  json_Unmarshal_Config s := Some (MkConfigPayload s);
  json_Unmarshal_into s c := Some (with_database s c) }.

Abbreviation a_hub := (HubState.hub machine db_world).
Abbreviation an_exporter := (HubExporter.exporter toy_key toy_key unit).
Abbreviation the_monitors := (monitors (Conn := unit) (PublicKey := toy_key) (PrivateKey := toy_key) (RE := toy_regexp) (N := mem) (M := mem)).
Abbreviation the_events := (monitors_event (N := mem) (M := mem)).

(** ** A pushed configuration, and the old one again right behind it *)
Definition sealed (s : string) : octets := replicate 32 zero ++ replicate 12 zero ++ bytes s.
Definition push (s : string) : Envelope := MkEnvelope Version 7 ServiceConfig OpSetConfig "cfg" "user" s.
Definition new_db : string := "/srv/bans.db".
Definition old_db : string := BlockedIPsDatabase first_config.

Definition pushing : machine := Machine ∅ [sealed new_db; sealed old_db] [].
Definition pushed_machine : machine := Machine {[cfg_path := config_text new_config]} [sealed old_db] [sealed "ack ok"].
Definition reverted_machine : machine := Machine {[cfg_path := config_text new_config]} [] [sealed "ack ok"; sealed "ack ok"].

Definition serving (restarting : bool) : an_exporter :=
  MkExporterRun
    (MkConnector first_config cfg_path restarting restarting (Some ToyKey) (Some ToyKey) (Some ToyKey) (Some tt))
    minRetrySleep (ExServing (RlReading tt ToyKey) None).
Definition hub_at (restarting : bool) (m : machine) : a_hub :=
  MkHub first_config cfg_path 0%nat restarting restarting [] pool_empty m [].

Lemma read_push s m l :
  m_inbox m = sealed s :: l → s = new_db ∨ s = old_db →
  readFrom (Some tt) (Some ToyKey) readWait m = (Machine (m_files m) l (m_sent m), Ok (push s)).
Proof.
  intros Hm Hs. unfold readFrom. cbn [SetReadDeadline machine_ws negb ReadMessage]. rewrite Hm.
  assert (Hd : DecryptMessage (R := machine) ToyKey (sealed s) = Ok (bytes s)) by (destruct Hs as [-> | ->]; vm_compute; reflexivity).
  rewrite Hd. cbn [json_Unmarshal_Envelope push_json env_Version negb]. by rewrite of_bytes_bytes, Z.eqb_refl.
Qed.

Lemma apply_new (c : connector toy_key toy_key unit) m :
  cn_cfg c = first_config → configPath c = cfg_path →
  applyConfig (RE := toy_regexp) (push new_db) c m =
  (Machine (<[cfg_path := config_text new_config]> (m_files m)) (m_inbox m) (m_sent m), (true, None)).
Proof.
  intros Hc Hp. unfold applyConfig, DecodePayload. rewrite (bool_decide_false (Payload (push new_db) = EmptyString)) by done. cbv zeta.
  cbn [json_Unmarshal_Config push_json json_Unmarshal_into cp_Config]. rewrite Hc, Hp.
  replace (with_ip_whitelist _ _) with new_config by (vm_compute; reflexivity).
  assert (Hv : Validate (RE := toy_regexp) (canRead m) new_config = []) by (vm_compute; reflexivity).
  rewrite Hv, (bool_decide_false (new_config = first_config)) by exact new_config_differs. by rewrite save_machine.
Qed.

Lemma apply_old (c : connector toy_key toy_key unit) (m : machine) :
  cn_cfg c = first_config → applyConfig (RE := toy_regexp) (push old_db) c m = (m, (false, None)).
Proof.
  intros Hc. unfold applyConfig, DecodePayload. rewrite (bool_decide_false (Payload (push old_db) = EmptyString)) by done. cbv zeta.
  cbn [json_Unmarshal_Config push_json json_Unmarshal_into cp_Config]. rewrite Hc.
  replace (with_ip_whitelist _ _) with first_config by (vm_compute; reflexivity).
  assert (Hv : Validate (RE := toy_regexp) (canRead m) first_config = []) by (vm_compute; reflexivity).
  by rewrite Hv, (bool_decide_true (first_config = first_config)).
Qed.

Lemma asks_old (e : machine) : incoming_config (push old_db) first_config e = Some first_config.
Proof.
  unfold incoming_config, DecodePayload. rewrite (bool_decide_false (Payload (push old_db) = EmptyString)) by done. cbv zeta.
  cbn [json_Unmarshal_Config push_json json_Unmarshal_into cp_Config mbind option_bind]. vm_compute. reflexivity.
Qed.

Lemma push_step_runs :
  exporter_next (RE := toy_regexp) ExMessage (serving false) (hub_at false pushing) =
  Some (serving true, hub_at true pushed_machine).
Proof.
  unfold exporter_next, exporter_read, readLoop_pass. cbn [er_phase serving hub_at h_world].
  rewrite (read_push new_db pushing [sealed old_db]) by (done || by left).
  unfold handle, set_config. rewrite apply_new by done. reflexivity.
Qed.

Lemma revert_step :
  exporter_next (RE := toy_regexp) ExMessage (serving true) (hub_at true pushed_machine) =
  Some (serving true, hub_at true reverted_machine).
Proof.
  unfold exporter_next, exporter_read, readLoop_pass. cbn [er_phase serving hub_at h_world].
  rewrite (read_push old_db pushed_machine []) by (done || by right).
  unfold handle, set_config. rewrite apply_old by done. reflexivity.
Qed.

Lemma pushed_config_runs_witness :
  h_cancelled (hub_at true pushed_machine) = true ∧
  ∃ envelope c e incoming, received (serving false) (hub_at false pushing) envelope c e ∧
    incoming_config envelope first_config e = Some incoming ∧ incoming ≠ first_config.
Proof.
  destruct (pushed_config_runs (RE := toy_regexp) (N := mem) (M := mem) ExMessage (serving false) (serving true)
              (hub_at false pushing) (hub_at true pushed_machine) push_step_runs eq_refl eq_refl)
    as (Hc & envelope & c & e & incoming & Hrec & _ & _ & _ & _ & Hi & _ & _ & Hne & _).
  split; [exact Hc|]. exists envelope, c, e, incoming. split; [exact Hrec|]. split; [exact Hi|exact Hne].
Defined.

(** Nothing is left running: the cycle can end. *)
Definition returned_log : log_monitor toy_regexp := MkLog "ssh_monitor" (SSHMonitor New) (LogReturned None) ∅ false.
Definition all_returned : the_monitors :=
  (returned_log, (returned_log, (returned_log, (returned_log,
    (MkResource (ResourceMonitor New) RmReturned,
     (MkNetwork NetworkMonitor.two_ports (NwReturned None) false,
      (MkCtl ex_config (UcReturned None None), None))))))).

(** The server takes its push back, and the client restarts under the push. *)
Lemma revert_lost_witness :
  h_world (hub_at true reverted_machine) =
    fst (acknowledge error_text 7 None (attached_to (hub_at true pushed_machine) (er_conn (serving true)))
           (Machine (m_files pushed_machine) [] (m_sent pushed_machine))) ∧
  ∃ incoming, incoming ≠ first_config ∧ ∀ t1 t2, ∃ h5 : a_hub,
    hub_next (CycleEnds t1 t2) (Cycling all_returned) (hub_at true reverted_machine) = Some (Cycling (start_monitors h5), h5) ∧
    same_config (h_cfg h5) incoming.
Proof.
  destruct (revert_lost (RE := toy_regexp) (N := mem) (M := mem) ExMessage (serving false) (serving true) (serving true) (serving true)
    (hub_at false pushing) (hub_at true pushed_machine) (hub_at true pushed_machine) (hub_at true reverted_machine)
    (hub_at true reverted_machine) [] [] all_returned all_returned all_returned all_returned tt ToyKey (push old_db)
    (Machine (m_files pushed_machine) [] (m_sent pushed_machine))) as (Hw & _ & incoming & _ & Hne & Hend).
  - exact push_step_runs.
  - reflexivity.
  - reflexivity.
  - reflexivity.
  - reflexivity.
  - reflexivity.
  - apply read_push; [reflexivity|by right].
  - reflexivity.
  - reflexivity.
  - change (h_cfg (hub_at false pushing)) with first_config. apply asks_old.
  - vm_compute. reflexivity.
  - exact revert_step.
  - reflexivity.
  - reflexivity.
  - reflexivity.
  - split; [exact Hw|]. exists incoming. split; [exact Hne|exact Hend].
Defined.

(** ** Goroutines *)
(** Everything has returned but the network monitor, which waits for a record. *)
Definition only_network : the_monitors :=
  (returned_log, (returned_log, (returned_log, (returned_log,
    (MkResource (ResourceMonitor New) RmReturned,
     (MkNetwork NetworkMonitor.two_ports (NwLoop NetworkMonitor.nm_init [1] false) true,
      (MkCtl ex_config (UcReturned None None), None))))))).
Definition exporting : Config := with_exporter (MkExporter true "wss://host" "user" "cfg" "key") New.
Definition export_hub (cancelled : bool) : a_hub :=
  MkHub exporting cfg_path 0%nat cancelled false [] pool_empty pushing [].

Definition network_does (e : network_event) : the_events := inr (inr (inr (inr (inr (inl e))))).

(** A packet to a blacklisted port: a ban, two events. *)
Definition a_hit : list hub_event := [Step (network_does (NwRecord 5 (NetworkMonitor.sample 23)))].

Lemma queue_well_formed_witness :
  ∃ q, q ≠ [] ∧ queue_ok (in_force (Conn := unit) (PublicKey := toy_key) (PrivateKey := toy_key) (RE := toy_regexp)
                            a_hit (Cycling only_network) (export_hub false)) q.
Proof.
  assert (Hr : ∃ s' h', hub_run (PublicKey := toy_key) (PrivateKey := toy_key) (Conn := unit) (RE := toy_regexp) (N := mem) (M := mem)
    a_hit (Cycling only_network) (export_hub false) = Some (s', h') ∧ exportChan h' ≠ []).
  { eexists _, _. split; [vm_compute; reflexivity|]. vm_compute. discriminate. }
  destruct Hr as (s' & h' & Hr & Hne). exists (exportChan h'). split; [exact Hne|].
  exact (queue_well_formed a_hit (Cycling only_network) (export_hub false) s' h' eq_refl Hr).
Defined.

(** The context is cancelled while a last record comes in. *)
Definition last_events : list the_events :=
  map network_does [NwRecord 5 (NetworkMonitor.sample 80); NwCounted 5; NwCloses; NwReturns; NwClearStops].

Lemma hub_stops_witness :
  ∃ ms' h', g_run last_events only_network (export_hub true) = Some (ms', h') ∧
    g_running (Ev := the_events) (X := a_hub) ms' = false.
Proof.
  assert (Hr : ∃ ms' h', g_run last_events only_network (export_hub true) = Some (ms', h')).
  { eexists _, _. vm_compute. reflexivity. }
  destruct Hr as (ms' & h' & Hr). exists ms', h'. split; [exact Hr|].
  destruct (hub_stops last_events only_network ms' (export_hub true) h' eq_refl Hr) as (_ & Hstuck & _).
  apply Hstuck. assert (Hms : Some (ms', h') = g_run last_events only_network (export_hub true)) by (symmetry; exact Hr).
  vm_compute in Hms. injection Hms as -> ->.
  intros e. destruct e as [e|[e|[e|[e|[e|[e|[e|e]]]]]]]; destruct e; intros He; try discriminate He; reflexivity.
Defined.

(** ** The command controller from its start to its end *)
Definition boot : command_boot mem mem :=
  MkCommandBoot 0 (Some "0 0 4294967295") true (Some ex_fresh) true (ex_sync 7) (ex_sync 9) true true true.
Definition controller_active : list (controller_event mem mem) :=
  [UcStart boot; UcScan (ActivationTick [7] (150 * second) [9] (150 * second))].
Definition active_objects : command_objects mem mem :=
  MkObjects [1000] (list_to_set (map command_key ["nmap"])) (kernel_config ex_config [1000] ["nmap"]) ex_final true None [107; 109].

Lemma controller_active_run :
  g_run controller_active (MkCtl ex_config UcStarting) (export_hub false) =
  Some (MkCtl ex_config (UcLoop active_objects true), export_hub false).
Proof. vm_compute. reflexivity. Qed.

Lemma controller_denies_only_policy_witness :
  ∃ uids commands, ParseUIDs (items (TargetUsersIDs ex_config)) = Ok uids ∧
    denied_by_policy (uid_map_read controller_active) ex_config uids commands ex_task ex_name.
Proof.
  destruct (controller_denies_only_policy ex_config controller_active (export_hub false) (export_hub false)
    (MkCtl ex_config (UcLoop active_objects true)) active_objects true ex_task ex_name ex_maps true (- EPERM)
    (Some (MkExec 4242 4242 101000 7 101000 1 1 0 (name_key ex_name)))) as (uids & commands & Hu & _ & Hd & _).
  - intros b m Hin Hm. unfold controller_active in Hin.
    apply elem_of_cons in Hin as [Hb|Hin]; [|apply list_elem_of_singleton in Hin; discriminate Hin].
    injection Hb as ->. injection Hm as <-. exact ex_is_fresh.
  - exact controller_active_run.
  - reflexivity.
  - vm_compute. intros Hin. by apply elem_of_nil in Hin.
  - exact ex_reads.
  - reflexivity.
  - exact ex_plain.
  - exact ex_verdict_eq.
  - by right.
  - exists uids, commands. split; [exact Hu|exact Hd].
Defined.

(** The context is cancelled afterwards. *)
Lemma controller_closes_handles_witness :
  ∃ o : command_objects mem mem, mo_closed (co_monitor o) ≡ₚ co_opened o ∧ co_opened o = [107; 109] ∧ co_attached o = false.
Proof.
  set (o := shut_down (N := mem) (M := mem) (detach active_objects)).
  set (es := [UcStart boot; UcScan (ActivationTick [7] (150 * second) [9] (150 * second)); UcReadFails; UcScannerStops; UcWaited]).
  assert (Hr : g_run es (MkCtl ex_config UcStarting) (export_hub false) =
    Some (MkCtl ex_config (UcReturned (Some o) (Some ReadFailed)), export_hub false)) by (vm_compute; reflexivity).
  assert (Hb : boots_fresh es).
  { intros b m Hin Hm. apply elem_of_cons in Hin as [Hin|Hin]; [injection Hin as ->; injection Hm as <-; by split|].
    exfalso. revert Hin. rewrite !elem_of_cons, elem_of_nil. intros Hin. by destruct_or! Hin. }
  exists o. destruct (controller_closes_handles ex_config es (export_hub false) (export_hub false) _ Hb Hr)
    as (Hp & _ & Ha).
  split; [exact Hp|]. split; [reflexivity|exact Ha].
Defined.

(** ** A pass of the resource monitor: the processor above its alert limit, the memory
    between its two limits, an idle network and no disk *)
Definition busy_config : ResourceMonitorConfig :=
  MkResourceMonitor true (Config.MkResource 80 90) (Config.MkResource 80 95) (Config.MkResource 10 20) (Config.MkResource 0 0) "/var/lib/snapshots".
Definition busy_machine : measurements :=
  MkMeasurements (Some [MkNet 100 100]) (Some ∅) (Some [of_uint64 99]) (Some [MkNet 100 100]) (Some ∅) (Some (of_uint64 85)).

Lemma resource_pass_witness : ∃ ms,
  resource_metrics busy_config busy_machine = Ok ms ∧
  (∃ h', passed 0 "/var/lib/snapshots" ms (hub_at false pushing) h' true ∧ map fst (journal h') = [journalAlert; journalWarning]).
Proof.
  destruct (resource_metrics busy_config busy_machine) as [ms|] eqn:Hm; [|vm_compute in Hm; discriminate Hm].
  exists ms. split; [reflexivity|].
  destruct (checkResourceMetrics 0 busy_config busy_machine (hub_at false pushing)) as [h' b] eqn:Hc.
  pose proof (resource_pass 0 busy_config busy_machine (hub_at false pushing) h' b Hc) as Hp.
  rewrite Hm in Hp. destruct Hp as [_ Hp]. exists h'. vm_compute in Hc. injection Hc as <- <-.
  split; [exact Hp|reflexivity].
Defined.
