(* ===== verification/DaemonExamples.v ===== *)
(** * The daemon in a concrete world: the machine of HubExamples on the pools of
    BanPoolExamples *)

From S2P Require Import Prelude.
From S2P Require Import GoStrings.
From S2P Require Import Config.
From S2P Require Import ConfigValidate.
From S2P Require Import ConfigLoad.
From S2P Require Import ConfigExamples.
From S2P Require Import Repository.
From S2P Require Import Firewall.
From S2P Require Import FirewallEngines.
From S2P Require Import BanPool.
From S2P Require Import BanPoolExamples.
From S2P Require Import Protocol.
From S2P Require Import Monitor.
From S2P Require Import Snapshot.
From S2P Require Import Cryptography.
From S2P Require Import CommandController.
From S2P Require Import CommandExamples.
From S2P Require Import Connector.
From S2P Require Import ConnectorExamples.
From S2P Require Import Goroutines.
From S2P Require Import HubEvents.
From S2P Require Import HubState.
From S2P Require Import HubMonitors.
From S2P Require Import HubEbpf.
From S2P Require Import HubCommand.
From S2P Require Import HubExporter.
From S2P Require Import Hub.
From S2P Require Import HubExamples.
From S2P Require Import BanPoolOps.
From S2P Require Import BanPoolSystem.
From S2P Require Import BanPoolLiveness.
From S2P Require Import Daemon.

#[local] Instance no_json : Json := {
  json_Marshal p := Some "payload";
  json_Marshal_Config c := None;
  json_Marshal_Envelope e := None;
  json_Unmarshal_Envelope s := None;
  json_Unmarshal_Hello _ := None; json_Unmarshal_Ack _ := None;
  json_Unmarshal_Config s := None;
  json_Unmarshal_into s c := None }.

Abbreviation the_phase := (hub_phase (Conn := unit) (PublicKey := toy_key) (PrivateKey := toy_key) (RE := toy_regexp) (N := mem) (M := mem)).
Definition table_pool : Type := daemon_pool table_db (fw_world default_firewall ipt_world).
Definition clean_pool : Type := daemon_pool clean_db (fw_world default_firewall clean_ipt).

(** ** A scan is banned *)
Definition scanned_hub : HubState.hub machine table_pool :=
  MkHub exporting cfg_path 0%nat false false [] (MkDaemonPool 0 pool_empty []) (Machine ∅ [] []) [].
Definition a_scan : list (hub_event (N := mem) (M := mem) + event) :=
  [inl (Step (network_does (NwRecord 5 (NetworkMonitor.sample 23))))].

Lemma scan_runs :
  ∃ s' h', daemon_steps (Cycling only_network : the_phase, scanned_hub) a_scan (s', h') ∧
    block (dp_pool (h_pool h')) ip7 = true.
Proof.
  eexists _, _. split.
  - econstructor; [|constructor]. apply daemon_hub; [vm_compute; reflexivity|vm_compute; discriminate].
  - vm_compute. reflexivity.
Qed.

Lemma pool_empty_sys : sys_inv (pool_view scanned_hub).
Proof. split; [exact pool_empty_inv|by intros g ?%elem_of_nil]. Qed.

Lemma daemon_rules_have_rows_witness :
  ∃ h' : HubState.hub machine table_pool, ∃ b, b ∈ rows (dp_pool (h_pool h')) ∧ IP b = ip7.
Proof.
  destruct scan_runs as (s' & h' & Hd & Hb). exists h'.
  destruct (daemon_rules_have_rows (Cycling only_network, scanned_hub) (s', h') a_scan ip7 ltac:(constructor) pool_empty_sys Hd Hb) as [_ Hrow].
  exact Hrow.
Defined.

(** ** A restored ban ends *)
Definition banned_hub : HubState.hub machine clean_pool :=
  MkHub New cfg_path 0%nat false false [] (MkDaemonPool 0 clean_banned []) (Machine ∅ [] []) [].
Definition watched (t : Z) : clean_pool := MkDaemonPool t clean_banned [go_waitUnban 0%nat row7].
Definition started : the_phase * HubState.hub machine clean_pool := RunMonitoring_start 0 5 banned_hub.

Lemma started_hub : snd started = set_pool (watched 5) banned_hub.
Proof. unfold started, RunMonitoring_start, runCycle_start. vm_compute. reflexivity. Qed.

Lemma daemon_bans_end_witness :
  ∃ es' (h3 : HubState.hub machine clean_pool),
    daemon_steps (fst started, set_pool (watched (200 * second)) banned_hub) es' (fst started, h3) ∧ Forall goroutine_moves es' ∧
    dp_now (h_pool h3) = 200 * second ∧
    (∀ x, x ∈ rows (dp_pool (h_pool h3)) → IP x ≠ ip7) ∧ block (dp_pool (h_pool h3)) ip7 = false.
Proof.
  apply (daemon_bans_end (fst started) (HubReturned, banned_hub) started (set_pool (watched (200 * second)) banned_hub) 0 5 [inr EvTick] row7).
  - constructor.
  - split; [exact clean_banned_inv|by intros g ?%elem_of_nil].
  - exact clean_rows_valid.
  - cbn. lia.
  - lia.
  - intros b ->%list_elem_of_singleton. right. cbn. unfold second. lia.
  - by apply starts_first.
  - rewrite (surjective_pairing started), started_hub. econstructor; [|constructor].
    apply (daemon_waiter EvTick (fst started) (set_pool (watched 5) banned_hub) (watched (200 * second))).
    apply (waiter_tick (set_pool (watched 5) banned_hub)). cbn. unfold second. lia.
  - by repeat constructor.
  - reflexivity.
  - by apply list_elem_of_singleton.
  - cbn. unfold second. lia.
Defined.
