(* ===== verification/Updater.v ===== *)
(** * pkg/updater: replacing the running binary

    updater.go over one world [U]: the file system, the service manager, HTTP and the
    terminal, as the class [UpdateHost].  The contents of files and bodies are strings. *)

From S2P Require Import Prelude.
From S2P Require Import GoStrings.
From S2P Require Import ConfigLoad.

Definition versionURL : string := "https://raw.githubusercontent.com/fridalif/open-defender/main/version.txt".
Definition releaseURL (version arch : string) : string :=
  "https://github.com/fridalif/open-defender/releases/download/" +:+ version +:+ "/open-defender_" +:+ arch.
Definition releasedArches : list string := ["amd64"; "386"; "arm64"; "arm32"].

Inductive update_err : Type :=
| ErrFetchVersion
| ErrInvalidVersion
| ErrEmptyVersion
| ErrUnknownArch
| ErrReadInput
| ErrDownloadRelease
| ErrReleaseNotFound
| ErrWriteBinary
| ErrReplaceBinary
| ErrStopService      (* of pkg/installer *)
| ErrStartService.    (* of pkg/installer *)

Inductive rename_err : Type := NotExist | RenameFailed.
(** The error [ReadString] returns with its text. *)
Inductive read_err : Type := EOF | ReadBroken.

Class UpdateHost (U : Type) := {
  renameFile : string → string → U → U * option rename_err;
  removeFile : string → U → U;
  mkdirAll : string → U → U * bool;
  createTemp : string → string → U → U * option string;    (* directory, pattern *)
  copyFile : string → option string → U → U * bool;        (* file, body *)
  chmodFile : string → U → U * bool;
  svc_Stop : U → U * bool;
  svc_Start : U → U * bool;
  http_Get : string → U → U * option (Z * option string);  (* status and, where it can be read, body *)
  in_ReadString : U → U * (string * option read_err) }.

(** The service and its binary: installer.go. *)
Definition BinaryPath : string := "/usr/bin/open-defender".
Definition backup_path : string := BinaryPath +:+ ".bak".

(** [^[A-Za-z0-9._-]+$]. *)
Definition version_char (c : ascii) : bool :=
  let v := byte_val c in
  ((65 <=? v) && (v <=? 90)) || ((97 <=? v) && (v <=? 122)) || ((48 <=? v) && (v <=? 57)) ||
  (v =? 46) || (v =? 95) || (v =? 45).
Definition versionPattern (s : string) : bool := negb (bool_decide (s = EmptyString)) && forallb version_char (bytes s).

Section Updater.
Context {U : Type} `{UpdateHost U}.
Variable goArch : string.

(** ** Questions *)
Definition ask (suggestion : string) (u : U) : U * result update_err string :=
  let '(u, (line, err)) := in_ReadString u in
  let failed := match err with
                | None => false
                | Some EOF => bool_decide (line = EmptyString)
                | Some ReadBroken => true
                end in
  if failed then (u, Err ErrReadInput)
  else
    let answer := trim_space line in
    if bool_decide (answer = EmptyString) then (u, Ok suggestion) else (u, Ok answer).

Definition fetchVersion (u : U) : U * result update_err string :=
  let '(u, response) := http_Get versionURL u in
  match response with
  | None => (u, Err ErrFetchVersion)
  | Some (status, body) =>
      if negb (status =? 200) then (u, Err ErrFetchVersion)
      else
        match body with
        | None => (u, Err ErrFetchVersion)
        | Some body =>
            let version := trim_space (of_bytes (take 256 (bytes body))) in
            if bool_decide (version = EmptyString) then (u, Err ErrFetchVersion)
            else if negb (versionPattern version) then (u, Err ErrInvalidVersion)
            else (u, Ok version)
        end
  end.

Definition suggested (r : result update_err string) : string := match r with Ok s => s | Err _ => EmptyString end.

Definition resolveVersion (u : U) : U * result update_err string :=
  let '(u, suggestion) := fetchVersion u in
  let '(u, answer) := ask (suggested suggestion) u in
  match answer with
  | Err e => (u, Err e)
  | Ok answer =>
      if bool_decide (answer = EmptyString) then (u, Err ErrEmptyVersion)
      else if negb (versionPattern answer) then (u, Err ErrInvalidVersion)
      else (u, Ok answer)
  end.

Definition detectArch : result update_err string :=
  if bool_decide (goArch = "amd64") then Ok "amd64"
  else if bool_decide (goArch = "386") then Ok "386"
  else if bool_decide (goArch = "arm64") then Ok "arm64"
  else if bool_decide (goArch = "arm") then Ok "arm32"
  else Err ErrUnknownArch.

Definition resolveArch (u : U) : U * result update_err string :=
  let '(u, answer) := ask (suggested detectArch) u in
  match answer with
  | Err e => (u, Err e)
  | Ok answer => if negb (contains_elem releasedArches answer) then (u, Err ErrUnknownArch) else (u, Ok answer)
  end.

(** ** The new binary *)
Definition download (url : string) (u : U) : U * result update_err string :=
  let '(u, response) := http_Get url u in
  match response with
  | None => (u, Err ErrDownloadRelease)
  | Some (status, body) =>
      if status =? 404 then (u, Err ErrReleaseNotFound)
      else if negb (status =? 200) then (u, Err ErrDownloadRelease)
      else
        let dir := filepath_dir BinaryPath in
        let '(u, ok) := mkdirAll dir u in
        if negb ok then (u, Err ErrWriteBinary)
        else
          let '(u, file) := createTemp dir "open-defender.new-*" u in
          match file with
          | None => (u, Err ErrWriteBinary)
          | Some file =>
              let '(u, ok) := copyFile file body u in
              if negb ok then (removeFile file u, Err ErrWriteBinary)
              else
                let '(u, ok) := chmodFile file u in
                if negb ok then (removeFile file u, Err ErrWriteBinary) else (u, Ok file)
          end
  end.

Definition swapBinary (downloaded : string) (u : U) : U * option update_err :=
  let target := BinaryPath in
  let backup := backup_path in
  let '(u, ok) := svc_Stop u in
  if negb ok then (u, Some ErrStopService)
  else
    let '(u, err) := renameFile target backup u in
    match err with
    | Some RenameFailed => (u, Some ErrReplaceBinary)
    | _ =>
        let restore := match err with None => true | Some _ => false end in
        let '(u, err) := renameFile downloaded target u in
        match err with
        | Some _ =>
            if restore then
              let '(u, restoreErr) := renameFile backup target u in
              match restoreErr with
              | Some _ => (u, Some ErrReplaceBinary)
              | None => let '(u, _) := svc_Start u in (u, Some ErrReplaceBinary)
              end
            else (u, Some ErrReplaceBinary)
        | None =>
            let '(u, ok) := svc_Start u in
            if negb ok then
              if negb restore then (u, Some ErrStartService)
              else
                let '(u, restoreErr) := renameFile backup target u in
                match restoreErr with
                | Some _ => (u, Some ErrReplaceBinary)
                | None => let '(u, _) := svc_Start u in (u, Some ErrStartService)
                end
            else if restore then (removeFile backup u, None) else (u, None)
        end
    end.

Definition Update (u : U) : U * option update_err :=
  let '(u, version) := resolveVersion u in
  match version with
  | Err e => (u, Some e)
  | Ok version =>
      let '(u, arch) := resolveArch u in
      match arch with
      | Err e => (u, Some e)
      | Ok arch =>
          let '(u, downloaded) := download (releaseURL version arch) u in
          match downloaded with
          | Err e => (u, Some e)
          | Ok downloaded => let '(u, err) := swapBinary downloaded u in (removeFile downloaded u, err)
          end
      end
  end.
End Updater.

(** ** What the world promises *)
Abbreviation contents := (gmap string string).

Class UpdateLaws (U : Type) `{UpdateHost U} := {
  files_of : U → contents;
  (** a rename within one directory *)
  renameFile_ok a b u u' : renameFile a b u = (u', None) →
    ∃ x, files_of u !! a = Some x ∧ files_of u' = <[b := x]> (delete a (files_of u));
  renameFile_err a b u u' err : renameFile a b u = (u', Some err) →
    files_of u' = files_of u ∧ (err = NotExist → files_of u !! a = None);
  removeFile_ok a u : files_of (removeFile a u) = delete a (files_of u) ∨ files_of (removeFile a u) = files_of u;
  mkdirAll_files a u u' ok : mkdirAll a u = (u', ok) → files_of u' = files_of u;
  createTemp_name dir pattern u u' file : createTemp dir pattern u = (u', Some file) →
    ∃ random, file = dir +:+ "/" +:+ of_bytes (rev (tail (rev (bytes pattern)))) +:+ random ∧
              files_of u' = <[file := EmptyString]> (files_of u);
  createTemp_err dir pattern u u' : createTemp dir pattern u = (u', None) → files_of u' = files_of u;
  copyFile_ok file body u u' ok : copyFile file body u = (u', ok) →
    ∃ written, files_of u' = <[file := written]> (files_of u) ∧ (ok = true → body = Some written);
  chmodFile_files file u u' ok : chmodFile file u = (u', ok) → files_of u' = files_of u;
  svc_Stop_files u u' ok : svc_Stop u = (u', ok) → files_of u' = files_of u;
  svc_Start_files u u' ok : svc_Start u = (u', ok) → files_of u' = files_of u;
  http_Get_files url u u' r : http_Get url u = (u', r) → files_of u' = files_of u;
  in_ReadString_files u u' r : in_ReadString u = (u', r) → files_of u' = files_of u }.

Section Properties.
Context {U : Type} `{UpdateLaws U}.

(** An old binary is where it was or in the backup. *)
Definition binary_kept (f f' : contents) : Prop :=
  f' !! BinaryPath = f !! BinaryPath ∨
  (is_Some (f !! BinaryPath) ∧ f' !! backup_path = f !! BinaryPath) ∨
  (* there was none: the new one stays *)
  (f !! BinaryPath = None ∧ is_Some (f' !! BinaryPath)).

Lemma backup_differs : backup_path ≠ BinaryPath.
Proof. vm_compute. discriminate. Qed.

(** The end of an attempt whose old binary [old] is in the backup: it is put back, or
    left there. *)
Lemma put_back u u' old err (f0 : contents) :
  f0 !! BinaryPath = Some old → files_of u !! backup_path = Some old →
  renameFile backup_path BinaryPath u = (u', err) →
  binary_kept f0 (files_of u').
Proof.
  intros Hf0 Hb Hr. destruct err as [err|].
  - apply renameFile_err in Hr as [-> _]. right. left. split; [by exists old|congruence].
  - apply renameFile_ok in Hr as (x & Hx & ->). left. rewrite lookup_insert_eq. congruence.
Qed.

Lemma kept_start f u u' ok : binary_kept f (files_of u) → svc_Start u = (u', ok) → binary_kept f (files_of u').
Proof. intros Hk Hs. by rewrite (svc_Start_files _ _ _ Hs). Qed.

Lemma swapBinary_spec downloaded new u u' err :
  downloaded ≠ BinaryPath → downloaded ≠ backup_path → files_of u !! downloaded = Some new →
  swapBinary downloaded u = (u', err) →
  match err with
  | None => files_of u' !! BinaryPath = Some new
  | Some _ => binary_kept (files_of u) (files_of u')
  end.
Proof.
  intros Hd1 Hd2 Hnew Hs. pose proof backup_differs as Htb. unfold swapBinary in Hs.
  destruct (svc_Stop u) as [u1 ok] eqn:Hst. apply svc_Stop_files in Hst.
  destruct ok; cbn [negb] in Hs; [|injection Hs as <- <-; left; by rewrite Hst].
  destruct (renameFile BinaryPath backup_path u1) as [u2 [err2|]] eqn:Hr1.
  - apply renameFile_err in Hr1 as [Hf2 Hne]. rewrite Hst in Hf2, Hne.
    destruct err2; [specialize (Hne eq_refl)|injection Hs as <- <-; left; by rewrite Hf2].
    destruct (renameFile downloaded BinaryPath u2) as [u3 [err3|]] eqn:Hr2.
    + apply renameFile_err in Hr2 as [Hf3 _]. injection Hs as <- <-. left. by rewrite Hf3, Hf2.
    + apply renameFile_ok in Hr2 as (x & Hx & Hf3). rewrite Hf2, Hnew in Hx. injection Hx as <-.
      destruct (svc_Start u3) as [u4 ok] eqn:Hst4. apply svc_Start_files in Hst4.
      assert (Ht : files_of u4 !! BinaryPath = Some new) by (rewrite Hst4, Hf3; apply lookup_insert_eq).
      destruct ok; cbn [negb] in Hs; injection Hs as <- <-; [done|]. right. right. split; [done|by exists new].
  - apply renameFile_ok in Hr1 as (old & Hold & Hf2). rewrite Hst in Hold, Hf2.
    destruct (renameFile downloaded BinaryPath u2) as [u3 [err3|]] eqn:Hr2.
    + apply renameFile_err in Hr2 as [Hf3 _].
      assert (Hb : files_of u3 !! backup_path = Some old) by (rewrite Hf3, Hf2; apply lookup_insert_eq).
      destruct (renameFile backup_path BinaryPath u3) as [u4 err4] eqn:Hr3. pose proof (put_back _ _ _ _ _ Hold Hb Hr3) as Hk.
      destruct err4; [injection Hs as <- <-; done|]. destruct (svc_Start u4) as [u5 ok] eqn:Hst5.
      injection Hs as <- <-. by eapply kept_start.
    + apply renameFile_ok in Hr2 as (x & Hx & Hf3).
      rewrite Hf2, lookup_insert_ne, lookup_delete_ne, Hnew in Hx by done. injection Hx as <-.
      destruct (svc_Start u3) as [u4 ok] eqn:Hst4. apply svc_Start_files in Hst4.
      assert (Ht : files_of u4 !! BinaryPath = Some new) by (rewrite Hst4, Hf3; apply lookup_insert_eq).
      assert (Hb : files_of u4 !! backup_path = Some old).
      { rewrite Hst4, Hf3, lookup_insert_ne, lookup_delete_ne, Hf2 by done. apply lookup_insert_eq. }
      destruct ok; cbn [negb] in Hs.
      * injection Hs as <- <-. destruct (removeFile_ok backup_path u4) as [-> | ->]; [|done]. by rewrite lookup_delete_ne.
      * destruct (renameFile backup_path BinaryPath u4) as [u5 err5] eqn:Hr3. pose proof (put_back _ _ _ _ _ Hold Hb Hr3) as Hk.
        destruct err5; [injection Hs as <- <-; done|]. destruct (svc_Start u5) as [u6 ok] eqn:Hst6.
        injection Hs as <- <-. by eapply kept_start.
Qed.
(** *** The questions leave the files alone *)
Lemma ask_files suggestion u u' r : ask suggestion u = (u', r) → files_of u' = files_of u.
Proof.
  unfold ask. destruct (in_ReadString u) as [u1 [line err]] eqn:Hr. apply in_ReadString_files in Hr.
  destruct (match err with None => false | Some EOF => _ | Some ReadBroken => true end); [by intros [= <- <-]|].
  destruct (bool_decide _); by intros [= <- <-].
Qed.

Lemma resolveVersion_spec u u' r :
  resolveVersion u = (u', r) → files_of u' = files_of u ∧ ∀ version, r = Ok version → versionPattern version = true.
Proof.
  unfold resolveVersion, fetchVersion. destruct (http_Get versionURL u) as [u1 response] eqn:Hg. apply http_Get_files in Hg.
  set (fetched := match response with None => _ | Some _ => _ end).
  assert (Hf : fst fetched = u1).
  { unfold fetched. destruct response as [[status [body|]]|]; [|by destruct (negb _)|done].
    destruct (negb _); [done|]. cbv zeta. destruct (bool_decide _); [done|]. by destruct (negb _). }
  destruct fetched as [u2 s]. simpl in Hf. subst u2. destruct (ask (suggested s) u1) as [u3 [answer|]] eqn:Ha; apply ask_files in Ha.
  - destruct (bool_decide _); [by intros [= <- <-]; rewrite Ha|]. destruct (versionPattern answer) eqn:Hv; cbn [negb]; intros [= <- <-].
    + rewrite Ha. split; [done|]. by intros version [= <-].
    + by rewrite Ha.
  - intros [= <- <-]. by rewrite Ha.
Qed.

Lemma resolveArch_spec goArch u u' r :
  resolveArch goArch u = (u', r) → files_of u' = files_of u ∧ ∀ arch, r = Ok arch → arch ∈ releasedArches.
Proof.
  unfold resolveArch. destruct (ask _ u) as [u1 [answer|]] eqn:Ha; apply ask_files in Ha; [|by intros [= <- <-]].
  destruct (contains_elem releasedArches answer) eqn:Hc; cbn [negb]; intros [= <- <-]; [|done].
  split; [done|]. intros arch [= <-]. by apply contains_elem_spec.
Qed.

(** *** The download *)
Lemma temp_differs random : let file := filepath_dir BinaryPath +:+ "/" +:+ of_bytes (rev (tail (rev (bytes "open-defender.new-*")))) +:+ random in
  file ≠ BinaryPath ∧ file ≠ backup_path.
Proof. split; vm_compute; discriminate. Qed.

Lemma download_spec url u u' r :
  download url u = (u', r) →
  (∀ name, name = BinaryPath ∨ name = backup_path → files_of u' !! name = files_of u !! name) ∧
  ∀ file, r = Ok file → file ≠ BinaryPath ∧ file ≠ backup_path ∧
    ∃ u0 body, http_Get url u = (u0, Some (200, Some body)) ∧ files_of u' !! file = Some body.
Proof.
  unfold download. destruct (http_Get url u) as [u1 response] eqn:Hg. apply http_Get_files in Hg as Hf1.
  destruct response as [[status body]|]; [|intros [= <- <-]; by rewrite Hf1].
  destruct (status =? 404); [intros [= <- <-]; by rewrite Hf1|].
  destruct (Z.eqb_spec status 200) as [->|]; cbn [negb]; [|intros [= <- <-]; by rewrite Hf1].
  cbv zeta. destruct (mkdirAll _ u1) as [u2 ok] eqn:Hm. apply mkdirAll_files in Hm.
  destruct ok; cbn [negb]; [|intros [= <- <-]; by rewrite Hm, Hf1].
  destruct (createTemp _ _ u2) as [u3 [file|]] eqn:Hc.
  2: { apply createTemp_err in Hc. intros [= <- <-]. by rewrite Hc, Hm, Hf1. }
  apply createTemp_name in Hc as (random & Hfile & Hf3). pose proof (temp_differs random) as Hd. cbv zeta in Hd.
  rewrite <- Hfile in Hd. clear Hfile. destruct Hd as [Hd1 Hd2].
  destruct (copyFile file body u3) as [u4 ok] eqn:Hcp. apply copyFile_ok in Hcp as (written & Hf4 & Hw).
  assert (Hkeep : ∀ name, name = BinaryPath ∨ name = backup_path → files_of u4 !! name = files_of u !! name).
  { intros name Hn. rewrite Hf4, Hf3, Hm, Hf1, !lookup_insert_ne by (by destruct Hn as [-> | ->]). done. }
  assert (Hdrop : ∀ v, files_of v = files_of u4 → ∀ name, name = BinaryPath ∨ name = backup_path →
                  files_of (removeFile file v) !! name = files_of u !! name).
  { intros v Hv name Hn. rewrite <- (Hkeep name Hn). destruct (removeFile_ok file v) as [-> | ->]; rewrite Hv; [|done].
    rewrite lookup_delete_ne; [done|]. by destruct Hn as [-> | ->]. }
  destruct ok; cbn [negb]; [specialize (Hw eq_refl)|intros [= <- <-]; split; [by apply Hdrop|done]].
  destruct (chmodFile file u4) as [u5 ok] eqn:Hch. apply chmodFile_files in Hch.
  destruct ok; cbn [negb]; intros [= <- <-]; [|split; [by apply Hdrop|done]].
  rewrite Hch. split; [done|]. intros file' [= <-]. split; [done|]. split; [done|].
  exists u1, written. rewrite Hw. split; [done|]. rewrite Hf4. apply lookup_insert_eq.
Qed.

(** C21: After an update that succeeds the installed binary is the body of a release of a
    well-formed version and a released architecture; after one that fails, wherever it
    failed, the previous binary, if there was one, is installed or, when it could not be
    put back, in the backup. *)
Theorem Update_outcome goArch u u' err :
  Update goArch u = (u', err) →
  match err with
  | None => ∃ version arch u1 u2 body, versionPattern version = true ∧ arch ∈ releasedArches ∧
      http_Get (releaseURL version arch) u1 = (u2, Some (200, Some body)) ∧ files_of u' !! BinaryPath = Some body
  | Some _ => binary_kept (files_of u) (files_of u')
  end.
Proof.
  unfold Update. destruct (resolveVersion u) as [u1 version] eqn:Hv. apply resolveVersion_spec in Hv as [Hf1 Hver].
  destruct version as [version|e]; [specialize (Hver version eq_refl)|intros [= <- <-]; left; by rewrite Hf1].
  destruct (resolveArch goArch u1) as [u2 arch] eqn:Ha. apply resolveArch_spec in Ha as [Hf2 Harch].
  destruct arch as [arch|e]; [specialize (Harch arch eq_refl)|intros [= <- <-]; left; by rewrite Hf2, Hf1].
  destruct (download (releaseURL version arch) u2) as [u3 r] eqn:Hd. apply download_spec in Hd as [Hkeep Hfile].
  rewrite Hf2, Hf1 in Hkeep. destruct r as [file|e]; [|intros [= <- <-]; left; apply Hkeep; by left].
  destruct (Hfile file eq_refl) as (Hd1 & Hd2 & u0 & body & Hg & Hb). destruct (swapBinary file u3) as [u4 err4] eqn:Hs.
  apply (swapBinary_spec file body u3) in Hs; [|done..]. intros [= <- <-].
  assert (Hrm : ∀ name, name = BinaryPath ∨ name = backup_path → files_of (removeFile file u4) !! name = files_of u4 !! name).
  { intros name Hn. destruct (removeFile_ok file u4) as [-> | ->]; [|done]. rewrite lookup_delete_ne; [done|]. by destruct Hn as [-> | ->]. }
  unfold binary_kept in *. rewrite !Hrm by auto. rewrite !Hkeep in Hs by auto. destruct err4; [exact Hs|].
  by exists version, arch, u2, u0, body.
Qed.

(** The service is stopped and not started again when the old binary cannot be moved for
    another reason than its absence. *)
Lemma failed_backup_leaves_stopped downloaded u u1 u2 :
  svc_Stop u = (u1, true) → renameFile BinaryPath backup_path u1 = (u2, Some RenameFailed) →
  swapBinary downloaded u = (u2, Some ErrReplaceBinary).
Proof. intros Hs Hr. unfold swapBinary. by rewrite Hs, Hr. Qed.
End Properties.

(** ** An update of a machine that never fails *)
Record disk := Disk { d_files : contents; d_lines : list string }.
Definition disk_put (f : contents) (d : disk) : disk := Disk f (d_lines d).
#[global] Instance disk_host : UpdateHost disk := {
  renameFile a b d := match d_files d !! a with
                      | Some x => (disk_put (<[b := x]> (delete a (d_files d))) d, None)
                      | None => (d, Some NotExist)
                      end;
  removeFile a d := disk_put (delete a (d_files d)) d;
  mkdirAll _ d := (d, true);
  createTemp dir pattern d :=
    let file := dir +:+ "/" +:+ of_bytes (rev (tail (rev (bytes pattern)))) +:+ "1" in
    (disk_put (<[file := EmptyString]> (d_files d)) d, Some file);
  copyFile file body d := match body with
                          | Some b => (disk_put (<[file := b]> (d_files d)) d, true)
                          | None => (disk_put (<[file := EmptyString]> (d_files d)) d, false)
                          end;
  chmodFile _ d := (d, true); svc_Stop d := (d, true); svc_Start d := (d, true);
  http_Get url d := (d, Some (200, Some "v2.0.0"));
  in_ReadString d := match d_lines d with
                     | line :: l => (Disk (d_files d) l, (line, None))
                     | [] => (d, (EmptyString, Some EOF))
                     end }.
#[global] Instance disk_laws : UpdateLaws disk.
Proof.
  refine {| files_of := d_files |}.
  - intros a b d d'. simpl. destruct (d_files d !! a) as [x|] eqn:Hx; [|done]. intros [= <-]. by exists x.
  - intros a b d d' err. simpl. destruct (d_files d !! a) as [x|] eqn:Hx; [done|]. by intros [= <- <-].
  - intros a d. by left.
  - by intros a d d' ok [= <- _].
  - intros dir pattern d d' file [= <- <-]. by exists "1".
  - by intros dir pattern d d' [= _ ?].
  - intros file [b|] d d' ok; simpl; intros [= <- <-]; [by exists b|by exists EmptyString].
  - by intros file d d' ok [= <- _].
  - by intros d d' ok [= <- _].
  - by intros d d' ok [= <- _].
  - by intros url d d' r [= <- _].
  - intros d d' r. simpl. by destruct (d_lines d); intros [= <- _].
Defined.

Definition old_disk : disk := Disk {[BinaryPath := "v1"]} ["v2.0.0"; "arm64"].
Lemma Update_outcome_witness :
  ∃ version arch, arch ∈ releasedArches ∧ versionPattern version = true ∧
    d_files (fst (Update "amd64" old_disk)) !! BinaryPath = Some "v2.0.0".
Proof.
  destruct (Update_outcome "amd64" old_disk (fst (Update "amd64" old_disk)) None) as (version & arch & u1 & u2 & body & Hv & Ha & Hg & Hb).
  - vm_compute. reflexivity.
  - exists version, arch. split; [exact Ha|]. split; [exact Hv|]. injection Hg as _ <-. exact Hb.
Defined.
