(* ===== verification/Installer.v ===== *)
(** * pkg/installer: the service

    installer.go over one world [U]: files, links and [systemctl], as [InstallHost]. *)

From S2P Require Import Prelude.
From S2P Require Import GoStrings.
From S2P Require Import ConfigLoad.
From S2P Require Import Updater.

Definition serviceName : string := "open-defender".
Definition unitPath : string := "/etc/systemd/system/open-defender.service".

Definition unit_lines (binaryPath : string) : list string :=
  ["[Unit]"; "Description=Open Defender"; "After=network.target"; EmptyString;
   "[Service]"; "Type=simple"; "ExecStart=" +:+ binaryPath; "Restart=always"; "RestartSec=5"; EmptyString;
   "[Install]"; "WantedBy=multi-user.target"].
Definition unitTemplate (binaryPath : string) : string := str_join nl (unit_lines binaryPath) +:+ nl.

Inductive install_err : Type :=
| ErrGettingExecutable | ErrOpenExecutable | ErrCreateBinaryDir | ErrReplaceInstalled | ErrWriteInstalled
| ErrCreateUnitDir | ErrWriteUnit | ErrDaemonReload | ErrEnableService | ErrStart | ErrStop | ErrRestartService.

Class InstallHost (U : Type) := {
  osExecutable : U → option string;
  evalSymlinks : string → U → option string;
  openExecutable : string → U → option string;            (* the content of the open file *)
  inst_MkdirAll : string → U → U * bool;
  os_Remove : string → U → U * option rename_err;
  openBinary : string → U → U * bool;                      (* O_CREATE and O_TRUNC *)
  copyBinary : string → string → U → U * bool;             (* file, content *)
  inst_WriteFile : string → string → U → U * bool;
  systemctl : list string → U → U * bool }.

Section Installer.
Context {U : Type} `{InstallHost U}.

Definition command (args : list string) (err : install_err) (u : U) : U * option install_err :=
  let '(u, ok) := systemctl args u in if ok then (u, None) else (u, Some err).
Definition Start (u : U) : U * option install_err := command ["start"; serviceName] ErrStart u.
Definition Stop (u : U) : U * option install_err := command ["stop"; serviceName] ErrStop u.
Definition inst_Restart (u : U) : U * option install_err := command ["restart"; serviceName] ErrRestartService u.

Definition installBinary (u : U) : U * option install_err :=
  match osExecutable u with
  | None => (u, Some ErrGettingExecutable)
  | Some executable =>
      match evalSymlinks executable u with
      | None => (u, Some ErrGettingExecutable)
      | Some executable =>
          if bool_decide (executable = BinaryPath) then (u, None)
          else
            match openExecutable executable u with
            | None => (u, Some ErrOpenExecutable)
            | Some source =>
                let '(u, ok) := inst_MkdirAll (filepath_dir BinaryPath) u in
                if negb ok then (u, Some ErrCreateBinaryDir)
                else
                  let '(u, err) := os_Remove BinaryPath u in
                  match err with
                  | Some RenameFailed => (u, Some ErrReplaceInstalled)
                  | _ =>
                      let '(u, ok) := openBinary BinaryPath u in
                      if negb ok then (u, Some ErrWriteInstalled)
                      else
                        let '(u, ok) := copyBinary BinaryPath source u in
                        if negb ok then (u, Some ErrWriteInstalled) else (u, None)
                  end
            end
      end
  end.

Definition installUnit (u : U) : U * option install_err :=
  let '(u, ok) := inst_MkdirAll (filepath_dir unitPath) u in
  if negb ok then (u, Some ErrCreateUnitDir)
  else
    let '(u, ok) := inst_WriteFile unitPath (unitTemplate BinaryPath) u in
    if negb ok then (u, Some ErrWriteUnit) else (u, None).

Definition enableService (u : U) : U * option install_err :=
  let '(u, err) := command ["daemon-reload"] ErrDaemonReload u in
  match err with
  | Some err => (u, Some err)
  | None =>
      let '(u, err) := command ["enable"; serviceName] ErrEnableService u in
      match err with Some err => (u, Some err) | None => inst_Restart u end
  end.

Definition inst_Install (u : U) : U * option install_err :=
  let '(u, err) := installBinary u in
  match err with
  | Some err => (u, Some err)
  | None =>
      let '(u, err) := installUnit u in
      match err with Some err => (u, Some err) | None => enableService u end
  end.
End Installer.

(** ** What the world promises *)
Class InstallLaws (U : Type) `{InstallHost U} := {
  inst_files : U → contents;
  units : U → list (list string);          (* the systemctl commands that went well, in order *)
  inst_MkdirAll_same d u u' ok : inst_MkdirAll d u = (u', ok) → inst_files u' = inst_files u ∧ units u' = units u;
  os_Remove_files p u u' err : os_Remove p u = (u', err) →
    units u' = units u ∧ (inst_files u' = delete p (inst_files u) ∨ inst_files u' = inst_files u);
  openBinary_files p u u' ok : openBinary p u = (u', ok) →
    units u' = units u ∧ (inst_files u' = <[p := EmptyString]> (inst_files u) ∨ ok = false ∧ inst_files u' = inst_files u);
  copyBinary_files p c u u' ok : copyBinary p c u = (u', ok) →
    units u' = units u ∧ ∃ written, inst_files u' = <[p := written]> (inst_files u) ∧ (ok = true → written = c);
  inst_WriteFile_files p c u u' ok : inst_WriteFile p c u = (u', ok) →
    units u' = units u ∧ ∃ written, (inst_files u' = <[p := written]> (inst_files u) ∨ ok = false ∧ inst_files u' = inst_files u) ∧
    (ok = true → written = c);
  openExecutable_files p u c : openExecutable p u = Some c → inst_files u !! p = Some c;
  systemctl_units args u u' ok : systemctl args u = (u', ok) →
    inst_files u' = inst_files u ∧ units u' = if ok then units u ++ [args] else units u }.

Section Properties.
Context {U : Type} `{InstallLaws U}.

Lemma command_spec args err u u' r :
  command args err u = (u', r) →
  inst_files u' = inst_files u ∧ (r = None → units u' = units u ++ [args]).
Proof.
  unfold command. destruct (systemctl args u) as [u1 [|]] eqn:Hs; apply systemctl_units in Hs as [Hf Hu]; intros [= <- <-];
    (split; [done|]); [by intros _|done].
Qed.

Lemma installBinary_spec u u' :
  installBinary u = (u', None) →
  units u' = units u ∧ (∀ name, name ≠ BinaryPath → inst_files u' !! name = inst_files u !! name) ∧
  ∃ executable path, osExecutable u = Some executable ∧ evalSymlinks executable u = Some path ∧
    (path = BinaryPath ∧ u' = u ∨ inst_files u !! path = inst_files u' !! BinaryPath ∧ is_Some (inst_files u !! path)).
Proof.
  unfold installBinary. destruct (osExecutable u) as [executable|]; [|done].
  destruct (evalSymlinks executable u) as [path|] eqn:He; [|done].
  destruct (bool_decide (path = BinaryPath)) eqn:Hp.
  { intros [= <-]. apply bool_decide_eq_true in Hp. split; [done|]. split; [done|]. exists executable, path. eauto. }
  destruct (openExecutable path u) as [source|] eqn:Ho; [|done]. apply openExecutable_files in Ho.
  destruct (inst_MkdirAll _ u) as [u1 [|]] eqn:Hm; [|done]. apply inst_MkdirAll_same in Hm as [Hf1 Hu1]. cbn [negb].
  destruct (os_Remove BinaryPath u1) as [u2 err] eqn:Hr. apply os_Remove_files in Hr as [Hu2 Hf2].
  intros Hi. assert (Hi' : (let '(u, ok) := openBinary BinaryPath u2 in
      if negb ok then (u, Some ErrWriteInstalled)
      else let '(u, ok) := copyBinary BinaryPath source u in if negb ok then (u, Some ErrWriteInstalled) else (u, None)) = (u', None)).
  { by destruct err as [[]|]. }
  clear Hi. destruct (openBinary BinaryPath u2) as [u3 [|]] eqn:Hb; [|done]. apply openBinary_files in Hb as [Hu3 [Hf3|[]]]; [|done].
  cbn [negb] in Hi'. destruct (copyBinary BinaryPath source u3) as [u4 [|]] eqn:Hc; [|done].
  apply copyBinary_files in Hc as (Hu4 & written & Hf4 & Hw). specialize (Hw eq_refl) as ->. injection Hi' as <-.
  split; [congruence|]. split.
  - intros name Hn. rewrite Hf4, Hf3, !lookup_insert_ne by done.
    destruct Hf2 as [-> | ->]; rewrite ?lookup_delete_ne, Hf1 by done; done.
  - exists executable, path. split; [done|]. split; [done|]. right. rewrite Hf4, lookup_insert_eq, Ho. eauto.
Qed.

(** C39: When an installation succeeds, the installed binary is the running executable, the
    unit that starts it is written, and the service manager was told to reload, to enable
    and to restart the service, in this order. *)
Theorem Install_outcome u u' :
  inst_Install u = (u', None) →
  inst_files u' !! unitPath = Some (unitTemplate BinaryPath) ∧
  units u' = units u ++ [["daemon-reload"]; ["enable"; serviceName]; ["restart"; serviceName]] ∧
  ∃ executable path, osExecutable u = Some executable ∧ evalSymlinks executable u = Some path ∧
    inst_files u' !! BinaryPath = inst_files u !! path.
Proof.
  assert (Hne : unitPath ≠ BinaryPath) by (vm_compute; discriminate).
  unfold inst_Install. destruct (installBinary u) as [u1 [|]] eqn:Hb; [done|].
  apply installBinary_spec in Hb as (Hu1 & Hother & executable & path & Hx & Hp & Hbin).
  unfold installUnit. destruct (inst_MkdirAll _ u1) as [u2 [|]] eqn:Hm; [|done]. apply inst_MkdirAll_same in Hm as [Hf2 Hu2].
  cbn [negb]. destruct (inst_WriteFile _ _ u2) as [u3 [|]] eqn:Hw; [|done]. apply inst_WriteFile_files in Hw as (Hu3 & written & [Hf3|[]] & Hwr); [|done].
  specialize (Hwr eq_refl) as ->. cbn [negb]. unfold enableService.
  destruct (command ["daemon-reload"] ErrDaemonReload u3) as [u4 [|]] eqn:H4; [done|]. apply command_spec in H4 as [Hf4 Hu4].
  destruct (command ["enable"; serviceName] ErrEnableService u4) as [u5 [|]] eqn:H5; [done|]. apply command_spec in H5 as [Hf5 Hu5].
  unfold inst_Restart. intros H6. apply command_spec in H6 as [Hf6 Hu6].
  assert (Hf : inst_files u' = <[unitPath := unitTemplate BinaryPath]> (inst_files u1)) by congruence.
  split; [by rewrite Hf, lookup_insert_eq|]. split.
  - rewrite Hu6, Hu5, Hu4, Hu3, Hu2, Hu1 by done. by rewrite <- !app_assoc.
  - exists executable, path. split; [done|]. split; [done|]. rewrite Hf, lookup_insert_ne by done.
    destruct Hbin as [[-> ->]|[-> _]]; done.
Qed.
End Properties.

(** ** A first installation *)
Record site := Site { site_files : contents; site_units : list (list string) }.
#[global] Instance site_host : InstallHost site := {
  osExecutable _ := Some "/proc/self/exe";
  evalSymlinks _ _ := Some "/root/open-defender_amd64";
  openExecutable p s := site_files s !! p;
  inst_MkdirAll _ s := (s, true);
  os_Remove p s := match site_files s !! p with
                   | Some _ => (Site (delete p (site_files s)) (site_units s), None)
                   | None => (s, Some NotExist)
                   end;
  openBinary p s := (Site (<[p := EmptyString]> (site_files s)) (site_units s), true);
  copyBinary p c s := (Site (<[p := c]> (site_files s)) (site_units s), true);
  inst_WriteFile p c s := (Site (<[p := c]> (site_files s)) (site_units s), true);
  systemctl args s := (Site (site_files s) (site_units s ++ [args]), true) }.
#[global] Instance site_laws : InstallLaws site.
Proof.
  refine {| inst_files := site_files; units := site_units |}.
  - by intros d s s' ok [= <- _].
  - intros p s s' err. simpl. destruct (site_files s !! p); intros [= <- _]; auto.
  - intros p s s' ok [= <- <-]. auto.
  - intros p c s s' ok [= <- <-]. split; [done|]. by exists c.
  - intros p c s s' ok [= <- <-]. split; [done|]. exists c. auto.
  - done.
  - by intros args s s' ok [= <- <-].
Defined.

Definition fresh_site : site := Site {["/root/open-defender_amd64" := "binary"]} [].
Lemma Install_outcome_witness : site_files (fst (inst_Install fresh_site)) !! BinaryPath = Some "binary".
Proof.
  destruct (Install_outcome fresh_site (fst (inst_Install fresh_site))) as (_ & _ & executable & path & Hx & Hp & Hb).
  - vm_compute. reflexivity.
  - injection Hp as <-. exact (eq_trans Hb eq_refl).
Defined.
