(* ===== verification/App.v ===== *)
(** * pkg/app and cmd: the commands of the program

    app.go, cmd/main.go and lsm-actions.go over one world [E].  A run of the program ends
    with an exit code, or goes on as the daemon: [app_Run] is the state of the hub it
    starts in.  Of [Status] the rows of the table and the names it lists as disabled are
    modelled, not the layout. *)

From S2P Require Import Prelude.
From S2P Require Import GoStrings.
From S2P Require Import Repository.
From S2P Require Import Firewall.
From S2P Require Import Config.
From S2P Require Import ConfigValidate.
From S2P Require Import ConfigLoad.
From S2P Require Import BanPoolNew.
From S2P Require Import FirewallEngines.
From S2P Require Import BanPool.
From S2P Require Import Protocol.
From S2P Require Import Monitor.
From S2P Require Import Snapshot.
From S2P Require Import Cryptography.
From S2P Require Import CommandController.
From S2P Require Import Connector.
From S2P Require Import HubEvents.
From S2P Require Import HubState.
From S2P Require Import HubExporter.
From S2P Require Import Hub.
From S2P Require Import Updater.
From S2P Require Import Installer.

Inductive app_err : Type :=
| ConfigError (e : config_err)
| InvalidConfig (problems : list problem)
| PoolError (e : banpool_err)
| UpdateError (e : update_err)
| InstallError (e : install_err)
| ErrWriteStatus.

Definition app_configPath : string := "/etc/open-defender/config.yaml".

(** ** [Status] *)
Definition limit_text (name : string) (f : ResourceFields) : list string :=
  if (Warning f =? 0) && (Alert f =? 0) then []
  else [name +:+ " " +:+ dec (Warning f) +:+ "/" +:+ dec (Alert f)].
Definition resourceLimits (rm : ResourceMonitorConfig) : string :=
  let set := limit_text "cpu" (CpuUsagePersentage rm) ++ limit_text "ram" (RamUsagePersentage rm) ++
             limit_text "traffic" (TrafficUsageMBs rm) ++ limit_text "disk" (DiskUsageIOps rm) in
  if bool_decide (set = []) then "no limits" else str_join ", " set.

(** Monitor, mode, engine, source, tries. *)
Definition row : Type := (string * string * string * string * string)%type.

Definition with_ban (mode : string) (banSeconds : Z) (tries : string) : string :=
  if bool_decide (mode = "blocker") then tries +:+ ", ban " +:+ dec banSeconds +:+ "s" else tries.

Definition monitor_row (m : NamedMonitor) : row :=
  let f := nm_Fields m in
  (nm_Name m, Mode f, Engine f, Source f,
   with_ban (Mode f) (BanSeconds f) (dec (Tries f) +:+ " in " +:+ dec (WindowSeconds f) +:+ "s")).

Definition off (mode : string) : bool := bool_decide (mode = EmptyString) || bool_decide (mode = "disabled").

Definition status_rows (cfg : Config) : list row * list string :=
  let enabled := List.filter (λ m, Enabled (nm_Fields m)) (Monitors cfg) in
  let disabled := List.filter (λ m, negb (Enabled (nm_Fields m))) (Monitors cfg) in
  let rm := ResourceMonitor cfg in
  let '(r1, d1) :=
    if rm_Enabled rm then ([("resource_monitor", "enabled", "-", OutputTopSnapshotDir rm, resourceLimits rm)], [])
    else ([], ["resource_monitor"]) in
  let network := NetworkAntirecon (EbpfMonitors cfg) in
  let '(r2, d2) :=
    if off (na_Mode network) then ([], ["network_antirecon"])
    else ([("network_antirecon", na_Mode network, "ebpf", "-",
            with_ban (na_Mode network) (na_BanSeconds network)
              (dec (PortsCount network) +:+ " ports in " +:+ dec (na_WindowSeconds network) +:+ "s"))], []) in
  let controller := UserCommandController (EbpfMonitors cfg) in
  let '(r3, d3) :=
    if off (uc_Mode controller) then ([], ["user_command_controller"])
    else ([("user_command_controller", uc_Mode controller, "ebpf", "-", "-")], []) in
  (map monitor_row enabled ++ r1 ++ r2 ++ r3, map nm_Name disabled ++ d1 ++ d2 ++ d3).

(** ** The application *)
Record app (D : Type) := MkApp { a_cfg : option Config; a_bp : option (D * firewall) }.
Arguments MkApp {D}. Arguments a_cfg {D}. Arguments a_bp {D}.

Section App.
Context {E D RE : Type}.
Context `{FS E, Yaml, Regexp RE, Host E, Runner E, SqlDB D, UpdateHost E, InstallHost E}.
(** [os.MkdirAll] of the database's directory and [sql.Open] when [Initialize] runs. *)
Variable openDatabase : Config → E → result sql_err unit * result sql_err D.
(** The status text is written. *)
Variable writerFlush : E → bool.
Variable goArch : string.
(** [/sys/kernel/security/lsm]. *)
Variable readLSM : E → option string.

Definition Initialize (e : E) : app D * E * option app_err :=
  let '(e, cfg, res) := LoadConfig (interfaceAddrs e) app_configPath New e in
  let a := MkApp None None in
  match res with
  | Err err => (a, e, Some (ConfigError err))
  | Ok _ =>
      match Validate (RE := RE) (canRead e) cfg with
      | _ :: _ as problems => (a, e, Some (InvalidConfig problems))
      | [] =>
          let '(mkdir, db) := openDatabase cfg e in
          let '(e, cfg, bp) := banpool_New mkdir db cfg e in
          match bp with
          | Err err => (MkApp (Some cfg) None, e, Some (PoolError err))
          | Ok bp => (MkApp (Some cfg) (Some bp), e, None)
          end
      end
  end.

Definition TestConfig (e : E) : option app_err :=
  let '(cfg, res) := LoadConfigReadOnly app_configPath New e in
  match res with
  | Err err => Some (ConfigError err)
  | Ok _ =>
      match Validate (RE := RE) (canRead e) cfg with
      | _ :: _ as problems => Some (InvalidConfig problems)
      | [] => None
      end
  end.

(** The rows and the disabled names printed. *)
Definition app_Status (e : E) : option (list row * list string) * option app_err :=
  let '(cfg, res) := LoadConfigReadOnly app_configPath New e in
  match res with
  | Err err => (None, Some (ConfigError err))
  | Ok _ => (Some (status_rows cfg), if writerFlush e then None else Some ErrWriteStatus)
  end.

Definition app_Update (e : E) : E * option app_err :=
  let '(e, err) := Update goArch e in (e, UpdateError <$> err).
Definition app_Restart (e : E) : E * option app_err :=
  let '(e, err) := inst_Restart e in (e, InstallError <$> err).
Definition app_Install (e : E) : E * option app_err :=
  let '(e, err) := inst_Install e in (e, InstallError <$> err).

(** ** cmd/main.go: the exit code, and whether the LSM help is printed *)
Definition CheckIsActive (e : E) : option bool := (λ data, str_contains data "bpf") <$> readLSM e.
Definition lsm_help (e : E) : bool := match CheckIsActive e with Some true => false | _ => true end.

Record outcome := MkOutcome { exit_code : Z; usage : bool; printed : option (list row * list string); helper : bool }.
Definition code (n : Z) : outcome := MkOutcome n false None false.

(** How a run of the program goes on: an exit, or the application on which [Run] is
    called, after which the exit code is 0. *)
Inductive ending : Type := Exits (o : outcome) | Runs (a : app D).

(** [None] where [ParseArgs] panics. *)
Definition run (args : list string) (isRoot : bool) (e : E) : option (E * ending) :=
  runConfig ← ParseArgs args;
  Some (match runConfig with
  | Err _ => (e, Exits (MkOutcome 1 true None false))
  | Ok rc =>
      if Help rc then (e, Exits (MkOutcome 0 true None false))
      else if Test rc then
        match TestConfig e with Some _ => (e, Exits (code 1)) | None => (e, Exits (code 0)) end
      else if Status rc then
        let '(out, err) := app_Status e in
        match err with Some _ => (e, Exits (MkOutcome 1 false out false)) | None => (e, Exits (MkOutcome 0 false out false)) end
      else if negb isRoot then (e, Exits (code 1))
      else if run_Update rc then
        let '(e, err) := app_Update e in
        match err with Some _ => (e, Exits (code 1)) | None => (e, Exits (MkOutcome 0 false None (lsm_help e))) end
      else if Restart rc then
        let '(e, err) := app_Restart e in
        match err with Some _ => (e, Exits (code 1)) | None => (e, Exits (code 0)) end
      else
        let '(a, e, err) := Initialize e in
        match err with
        | Some _ => (e, Exits (code 1))
        | None =>
            if Install rc then
              let '(e, err) := app_Install e in
              match err with Some _ => (e, Exits (code 1)) | None => (e, Exits (MkOutcome 0 false None (lsm_help e))) end
            else (e, Runs a)
        end
  end).
End App.
Arguments Exits {D}. Arguments Runs {D}.

(** [Run]: the hub on the application's configuration and pool; [None] where they are nil.
    [pool_of] is the pool in the representation the hub is given. *)
Definition app_Run {E D P Conn PublicKey PrivateKey RE N M : Type} `{BanPool P}
    (pool_of : D * firewall → P) (t1 t2 : Z) (a : app D) (e : E)
    : option (hub_phase (Conn := Conn) (PublicKey := PublicKey) (PrivateKey := PrivateKey) (RE := RE) (N := N) (M := M) * hub E P) :=
  cfg ← a_cfg a; bp ← a_bp a; Some (RunMonitoring_start t1 t2 (hub_New cfg (pool_of bp) app_configPath e)).

(** ** Properties *)
Section Properties.
Context {E D RE : Type}.
Context `{FS E, Yaml, Regexp RE, Host E, Runner E, SqlDB D, UpdateHost E, InstallHost E}.
Variables (openDatabase : Config → E → result sql_err unit * result sql_err D) (writerFlush : E → bool)
  (goArch : string) (readLSM : E → option string).
Abbreviation program := (run (RE := RE) openDatabase writerFlush goArch readLSM).

Lemma TestConfig_valid (e : E) :
  TestConfig (RE := RE) e = None ↔
  ∃ cfg, LoadConfigReadOnly app_configPath New e = (cfg, Ok tt) ∧ config_valid (RE := RE) (canRead e) cfg.
Proof.
  unfold TestConfig. destruct (LoadConfigReadOnly app_configPath New e) as [cfg [[]|err]].
  - destruct (Validate (canRead e) cfg) eqn:Hv.
    + split; [|done]. intros _. exists cfg. split; [done|]. by apply Validate_ok.
    + split; [done|]. intros (cfg' & [= <-] & Hv'). apply Validate_ok in Hv'. congruence.
  - split; [done|]. by intros (cfg' & [=] & _).
Qed.

(** What succeeds without root: the help, the test of a configuration file that is there
    and valid, the status of one that can be loaded and printed. *)
Definition succeeds_unprivileged (rc : RunConfig) (e : E) : Prop :=
  if Help rc then True
  else if Test rc then ∃ cfg, LoadConfigReadOnly app_configPath New e = (cfg, Ok tt) ∧ config_valid (RE := RE) (canRead e) cfg
  else if Status rc then (∃ cfg, LoadConfigReadOnly app_configPath New e = (cfg, Ok tt)) ∧ writerFlush e = true
  else False.

(** C23: A run without root leaves the machine as it is, whatever its arguments, starts no
    daemon, and succeeds exactly when its arguments are known and ask for something that
    succeeds without root. *)
Theorem unprivileged_run args e e' r :
  program args false e = Some (e', r) →
  e' = e ∧ ∃ o, r = Exits o ∧
  (exit_code o = 0 ↔ ∃ rc, ParseArgs args = Some (Ok rc) ∧ succeeds_unprivileged rc e).
Proof.
  unfold run. destruct (ParseArgs args) as [[rc|err]|] eqn:Hp; cbn [mbind option_bind]; [| |done].
  2: { intros [= <- <-]. split; [done|]. eexists. split; [done|]. split; [done|]. by intros (rc & [=] & _). }
  intros Hr. enough (e' = e ∧ ∃ o, r = Exits o ∧ (exit_code o = 0 ↔ succeeds_unprivileged rc e)) as (-> & o & -> & Ho).
  { split; [done|]. exists o. split; [done|]. rewrite Ho. split; [by exists rc|by intros (rc' & [= <-] & ?)]. }
  unfold succeeds_unprivileged. injection Hr as Hr. destruct (Help rc); [injection Hr as <- <-; (split; [done|]); eexists; (split; [done|by split])|].
  destruct (Test rc).
  { pose proof (TestConfig_valid e) as Hv. destruct (TestConfig e); injection Hr as <- <-; (split; [done|]); eexists; (split; [done|]);
      rewrite <- Hv; by split. }
  destruct (Status rc); [|injection Hr as <- <-; (split; [done|]); eexists; (split; [done|by split])].
  unfold app_Status in Hr. destruct (LoadConfigReadOnly app_configPath New e) as [cfg [[]|err]].
  - destruct (writerFlush e); injection Hr as <- <-; (split; [done|]); (eexists; split; [done|]); naive_solver.
  - injection Hr as <- <-. split; [done|]. eexists. split; [done|]. split; [done|]. by intros [(cfg' & [=]) _].
Qed.

(** C28: A run of the program goes on as a daemon only for root and without a command, on a
    configuration that is valid and a pool built from it: the hub starts with that
    configuration, less the chain of docker when nothing reads docker, on the file it came
    from, with an empty queue and a live context; the firewall has the configured engine
    and meets what the bans rely on. *)
Theorem daemon_starts args isRoot e e' a :
  program args isRoot e = Some (e', Runs a) →
  isRoot = true ∧
  (∃ rc, ParseArgs args = Some (Ok rc) ∧
     Help rc || Test rc || Status rc || run_Update rc || Restart rc || Install rc = false) ∧
  ∃ cfg0 cfg d f (e0 : E), a = MkApp (Some cfg) (Some (d, f)) ∧
    config_valid (RE := RE) (canRead e0) cfg0 ∧ cfg = filterDockerChainsWithoutDockerEngine cfg0 ∧
    ReadyFirewall f ∧ fwEngine f = FirewallEngine cfg ∧
    ∀ (P Conn PublicKey PrivateKey N M : Type) (bp : BanPool P) (pool_of : D * firewall → P) t1 t2,
      app_Run (Conn := Conn) (PublicKey := PublicKey) (PrivateKey := PrivateKey) (RE := RE) (N := N) (M := M) pool_of t1 t2 a e' =
      Some (RunMonitoring_start t1 t2 (MkHub cfg app_configPath 0%nat false false [] (pool_of (d, f)) e' [])).
Proof.
  unfold run. destruct (ParseArgs args) as [[rc|err]|] eqn:Hp; cbn [mbind option_bind]; [|done|done].
  intros Hr. injection Hr as Hr. destruct (Help rc) eqn:Hh; [done|]. destruct (Test rc) eqn:Ht; [by destruct (TestConfig e)|].
  destruct (Status rc) eqn:Hs; [by destruct (app_Status writerFlush e) as [? []]|]. destruct isRoot; [|done]. cbn [negb] in Hr.
  destruct (run_Update rc) eqn:Hu; [by destruct (app_Update _ e) as [? []]|].
  destruct (Restart rc) eqn:Hre; [by destruct (app_Restart e) as [? []]|].
  destruct (Initialize _ e) as [[a1 e1] [err|]] eqn:Hi; [done|].
  destruct (Install rc) eqn:Hin; [by destruct (app_Install e1) as [? []]|]. injection Hr as <- <-.
  split; [done|]. split; [by exists rc; rewrite Hh, Ht, Hs, Hu, Hre, Hin|].
  unfold Initialize in Hi. destruct (LoadConfig _ _ _ _) as [[e2 cfg0] [[]|er]]; [|done].
  destruct (Validate (canRead e2) cfg0) eqn:Hv; [|done]. destruct (openDatabase cfg0 e2) as [mkdir db].
  destruct (banpool_New mkdir db cfg0 e2) as [[e3 cfg] [[d f]|er]] eqn:Hb; [|done]. injection Hi as <- <-.
  destruct (banpool_New_spec _ _ _ _ _ _ _ _ _ Hv Hb) as (Hready & -> & ->).
  eexists cfg0, _, d, _, e2. split; [done|]. split; [by apply Validate_ok|]. split; [done|]. split; [done|].
  split; [cbn; by rewrite filter_docker_engine|]. by intros.
Qed.
End Properties.
