(* ===== verification/AppExamples.v ===== *)
(** * A run without root

    The test of a configuration on the machine of [ConnectorExamples], where nothing that
    needs root works. *)

From S2P Require Import Prelude.
From S2P Require Import GoStrings.
From S2P Require Import Repository.
From S2P Require Import Firewall.
From S2P Require Import Config.
From S2P Require Import ConfigValidate.
From S2P Require Import ConfigLoad.
From S2P Require Import ConfigExamples.
From S2P Require Import Connector.
From S2P Require Import ConnectorExamples.
From S2P Require Import BanPoolExamples.
From S2P Require Import BanPoolNew.
From S2P Require Import FirewallEngines.
From S2P Require Import Updater.
From S2P Require Import Installer.
From S2P Require Import App.

#[local] Instance machine_runner : Runner machine := λ _ m, (m, (EmptyString, false)).
#[local] Instance machine_update : UpdateHost machine := {
  renameFile _ _ m := (m, Some RenameFailed); removeFile _ m := m; mkdirAll _ m := (m, false);
  createTemp _ _ m := (m, None); copyFile _ _ m := (m, false); chmodFile _ m := (m, false);
  svc_Stop m := (m, false); svc_Start m := (m, false); http_Get _ m := (m, None);
  in_ReadString m := (m, (EmptyString, Some EOF)) }.
#[local] Instance machine_install : InstallHost machine := {
  osExecutable _ := None; evalSymlinks _ _ := None; openExecutable _ _ := None; inst_MkdirAll _ m := (m, false);
  os_Remove _ m := (m, Some RenameFailed); openBinary _ m := (m, false); copyBinary _ _ m := (m, false);
  inst_WriteFile _ _ m := (m, false); systemctl _ m := (m, false) }.

Definition no_database (_ : Config) (_ : machine) : result sql_err unit * result sql_err table_db :=
  (Ok tt, Ok (TableDB [] 1 [])).
Definition installed : machine := Machine {[app_configPath := config_text first_config]} [] [].

Lemma installed_file : m_files installed !! app_configPath = Some (config_text first_config).
Proof. apply lookup_singleton_eq. Qed.
Lemma load_installed : LoadConfigReadOnly app_configPath New installed = (setFirewallChains first_config, Ok tt).
Proof.
  unfold LoadConfigReadOnly. cbn [os_Stat os_ReadFile machine_fs files_fs]. rewrite installed_file. apply parse_text.
Qed.
Lemma first_valid : Validate (RE := toy_regexp) (canRead installed) (setFirewallChains first_config) = [].
Proof. vm_compute. reflexivity. Qed.
Lemma test_installed : TestConfig (RE := toy_regexp) installed = None.
Proof. unfold TestConfig. rewrite load_installed, first_valid. reflexivity. Qed.

Lemma test_run_ok : run (RE := toy_regexp) no_database (λ _, true) "amd64" (λ _, None) ["open-defender"; "--test"] false installed = Some (installed, Exits (code 0)).
Proof.
  unfold run. assert (Hp : ParseArgs ["open-defender"; "--test"] = Some (Ok (MkRun false false true false false false))) by (vm_compute; reflexivity).
  rewrite Hp. cbn [mbind option_bind Help Test]. rewrite test_installed. reflexivity.
Qed.

Lemma unprivileged_run_witness : installed = installed ∧ ∃ rc, ParseArgs ["open-defender"; "--test"] = Some (Ok rc).
Proof.
  destruct (unprivileged_run (RE := toy_regexp) no_database (λ _, true) "amd64" (λ _, None)
    ["open-defender"; "--test"] installed installed (Exits (code 0)) test_run_ok) as [He (o & Ho & Hc)].
  split; [exact He|]. injection Ho as <-. destruct (proj1 Hc eq_refl) as (rc & Hrc & _). exists rc. exact Hrc.
Defined.

(** ** Root starts the daemon *)
Definition loaded : Config := setFirewallChains first_config.
Definition rewritten : machine := Machine (<[app_configPath := config_text loaded]> (m_files installed)) [] [].
Definition running_app : app table_db :=
  MkApp (Some (filterDockerChainsWithoutDockerEngine loaded))
    (Some (TableDB [] 1 [], MkFirewall "iptables" (items (FirewallChains (filterDockerChainsWithoutDockerEngine loaded))))).

Lemma load_root : LoadConfig (interfaceAddrs installed) app_configPath New installed = (rewritten, loaded, Ok tt).
Proof.
  unfold LoadConfig, create_config. change (os_Stat app_configPath installed) with (os_Stat app_configPath (m_files installed)).
  rewrite files_stat, installed_file. cbv beta iota.
  change (os_ReadFile app_configPath installed) with (m_files installed !! app_configPath).
  rewrite installed_file, parse_text, save_machine. reflexivity.
Qed.
Lemma new_pool (m : machine) :
  banpool_New (Ok tt) (Ok (TableDB [] 1 [])) loaded m =
  (m, filterDockerChainsWithoutDockerEngine loaded,
   Ok (TableDB [] 1 [], MkFirewall "iptables" (items (FirewallChains (filterDockerChainsWithoutDockerEngine loaded))))).
Proof. vm_compute. reflexivity. Qed.
Lemma start_run : run (RE := toy_regexp) no_database (λ _, true) "amd64" (λ _, None) ["open-defender"] true installed = Some (rewritten, Runs running_app).
Proof.
  unfold run. assert (Hp : ParseArgs ["open-defender"] = Some (Ok (MkRun false false false false false false))) by (vm_compute; reflexivity).
  rewrite Hp. cbn [mbind option_bind Help Test Status run_Update Restart Install negb]. unfold Initialize. rewrite load_root.
  assert (Hv : Validate (RE := toy_regexp) (canRead rewritten) loaded = []) by (vm_compute; reflexivity).
  rewrite Hv. unfold no_database. rewrite new_pool. reflexivity.
Qed.

Lemma daemon_starts_witness :
  true = true ∧ ∃ cfg0 cfg d f (e0 : machine), running_app = MkApp (Some cfg) (Some (d, f)) ∧
    config_valid (RE := toy_regexp) (canRead e0) cfg0 ∧ ReadyFirewall f.
Proof.
  destruct (daemon_starts (RE := toy_regexp) no_database (λ _, true) "amd64" (λ _, None) ["open-defender"] true
    installed rewritten running_app start_run) as (Hroot & _ & cfg0 & cfg & d & f & e0 & Ha & Hc & _ & Hf & _).
  split; [exact Hroot|]. exists cfg0, cfg, d, f, e0. split; [exact Ha|]. split; [exact Hc|exact Hf].
Defined.
